(** * go-hachi: the CHIP-8 interpreter and its simple disassembler

    A shallow embedding of package [hachi]: the machine state [Chip8], its
    constructor [New], the cycle function [Tick] and [DisassembleSimple].

    Conventions.
    - Go's [uint8]/[uint16] values are integers of [Z]; every operation that
      wraps in Go is followed by [u8] or [u16] here.
    - Slices and arrays are lists read with stdpp's lookup; an index out of
      range is a Go panic and shows up as the outcome [Panic].
    - The driver calls ([OnUpdate], [Cls], [UpdateScreen], [Beep]) are
      recorded as a list of events; the drivers in the repository never
      write to the machine inside these calls.
    - [time.Now()] and [rand.Uint32()] are inputs of the cycle ([Env]). *)

From Stdlib Require Import ZArith Lia List Bool.
From stdpp Require Import base numbers option list gmap strings.

Local Open Scope Z_scope.

(** ** Machine integers *)

Definition u8 (z : Z) : Z := z mod 256.
Definition u16 (z : Z) : Z := z mod 65536.

(** [^x] on a [uint8]. *)
Definition not8 (z : Z) : Z := Z.lxor z 255.
(** [^x] on a [uint16]. *)
Definition not16 (z : Z) : Z := Z.lxor z 65535.

Definition is_u8 (z : Z) : Prop := 0 <= z < 256.
Definition is_u16 (z : Z) : Prop := 0 <= z < 65536.

(** ** Errors, outcomes and driver events *)

Inductive error : Type :=
  | StackOverflowErr
  | BadCodeErr
  | OverflowErr
  | AccessErr.

(** What a call of [Tick] comes to: [nil], one of the errors, a run-time
    panic (index or slice bounds out of range, division by zero) or a loop
    that never ends. *)
Inductive Outcome : Type :=
  | Done
  | Failed (e : error)
  | Panic
  | Hang.

Inductive Event : Type :=
  | EvOnUpdate
  | EvCls
  | EvUpdateScreen
  | EvBeep.

(** ** Key tables *)

Definition KeyFlags : list Z :=
  [1; 2; 4; 8; 16; 32; 64; 128; 256; 512; 1024; 2048; 4096; 8192; 16384; 32768].

(** [KeyNumbers] is a Go map; a missing key reads as the zero value. *)
Definition KeyNumbers : gmap Z Z :=
  list_to_map
    [(1, 0); (2, 1); (4, 2); (8, 3); (16, 4); (32, 5); (64, 6); (128, 7);
     (256, 8); (512, 9); (1024, 10); (2048, 11); (4096, 12); (8192, 13);
     (16384, 14); (32768, 15)].

Definition KeyNumbers_at (flag : Z) : Z := default 0 (KeyNumbers !! flag).

(** ** The machine state *)

Record waitInputInfo : Type := {
  register : Z;
  zeroBits : Z
}.

(** A Go slice either owns its backing array or, in realistic mode, is a
    window into [Memory]: [Window off n] has [n] elements starting at byte
    [off] of the memory.  The stack window holds [uint16] elements, two bytes
    each, low byte first (the layout of the little-endian targets Go runs
    on). *)
Inductive buffer : Type :=
  | Own (data : list Z)
  | Window (off : nat) (n : nat).

Record Chip8 : Type := {
  Memory : list Z;
  V : list Z;
  I : Z;
  Stack : buffer;
  SP : Z;
  PC : Z;
  DT : Z;
  ST : Z;
  Keyboard : Z;
  Screen : buffer;
  Width : Z;
  Height : Z;
  TimerInterval : Z;
  lastTimerUpdate : Z;
  wii : option waitInputInfo;
  (* the four function pointers, each the key of its map of closures *)
  pLdMemory : bool;
  pLdSetMemory : bool;
  pShr : bool;
  pShl : bool
}.

Definition set_Memory (m : list Z) (c : Chip8) : Chip8 :=
  {| Memory := m; V := V c; I := I c; Stack := Stack c; SP := SP c; PC := PC c;
     DT := DT c; ST := ST c; Keyboard := Keyboard c; Screen := Screen c;
     Width := Width c; Height := Height c; TimerInterval := TimerInterval c;
     lastTimerUpdate := lastTimerUpdate c; wii := wii c;
     pLdMemory := pLdMemory c; pLdSetMemory := pLdSetMemory c;
     pShr := pShr c; pShl := pShl c |}.

Definition set_V (v : list Z) (c : Chip8) : Chip8 :=
  {| Memory := Memory c; V := v; I := I c; Stack := Stack c; SP := SP c;
     PC := PC c; DT := DT c; ST := ST c; Keyboard := Keyboard c;
     Screen := Screen c; Width := Width c; Height := Height c;
     TimerInterval := TimerInterval c; lastTimerUpdate := lastTimerUpdate c;
     wii := wii c; pLdMemory := pLdMemory c; pLdSetMemory := pLdSetMemory c;
     pShr := pShr c; pShl := pShl c |}.

Definition set_I (i : Z) (c : Chip8) : Chip8 :=
  {| Memory := Memory c; V := V c; I := i; Stack := Stack c; SP := SP c;
     PC := PC c; DT := DT c; ST := ST c; Keyboard := Keyboard c;
     Screen := Screen c; Width := Width c; Height := Height c;
     TimerInterval := TimerInterval c; lastTimerUpdate := lastTimerUpdate c;
     wii := wii c; pLdMemory := pLdMemory c; pLdSetMemory := pLdSetMemory c;
     pShr := pShr c; pShl := pShl c |}.

Definition set_Stack (s : buffer) (c : Chip8) : Chip8 :=
  {| Memory := Memory c; V := V c; I := I c; Stack := s; SP := SP c;
     PC := PC c; DT := DT c; ST := ST c; Keyboard := Keyboard c;
     Screen := Screen c; Width := Width c; Height := Height c;
     TimerInterval := TimerInterval c; lastTimerUpdate := lastTimerUpdate c;
     wii := wii c; pLdMemory := pLdMemory c; pLdSetMemory := pLdSetMemory c;
     pShr := pShr c; pShl := pShl c |}.

Definition set_SP (sp : Z) (c : Chip8) : Chip8 :=
  {| Memory := Memory c; V := V c; I := I c; Stack := Stack c; SP := sp;
     PC := PC c; DT := DT c; ST := ST c; Keyboard := Keyboard c;
     Screen := Screen c; Width := Width c; Height := Height c;
     TimerInterval := TimerInterval c; lastTimerUpdate := lastTimerUpdate c;
     wii := wii c; pLdMemory := pLdMemory c; pLdSetMemory := pLdSetMemory c;
     pShr := pShr c; pShl := pShl c |}.

Definition set_PC (pc : Z) (c : Chip8) : Chip8 :=
  {| Memory := Memory c; V := V c; I := I c; Stack := Stack c; SP := SP c;
     PC := pc; DT := DT c; ST := ST c; Keyboard := Keyboard c;
     Screen := Screen c; Width := Width c; Height := Height c;
     TimerInterval := TimerInterval c; lastTimerUpdate := lastTimerUpdate c;
     wii := wii c; pLdMemory := pLdMemory c; pLdSetMemory := pLdSetMemory c;
     pShr := pShr c; pShl := pShl c |}.

Definition set_DT (dt : Z) (c : Chip8) : Chip8 :=
  {| Memory := Memory c; V := V c; I := I c; Stack := Stack c; SP := SP c;
     PC := PC c; DT := dt; ST := ST c; Keyboard := Keyboard c;
     Screen := Screen c; Width := Width c; Height := Height c;
     TimerInterval := TimerInterval c; lastTimerUpdate := lastTimerUpdate c;
     wii := wii c; pLdMemory := pLdMemory c; pLdSetMemory := pLdSetMemory c;
     pShr := pShr c; pShl := pShl c |}.

Definition set_ST (st : Z) (c : Chip8) : Chip8 :=
  {| Memory := Memory c; V := V c; I := I c; Stack := Stack c; SP := SP c;
     PC := PC c; DT := DT c; ST := st; Keyboard := Keyboard c;
     Screen := Screen c; Width := Width c; Height := Height c;
     TimerInterval := TimerInterval c; lastTimerUpdate := lastTimerUpdate c;
     wii := wii c; pLdMemory := pLdMemory c; pLdSetMemory := pLdSetMemory c;
     pShr := pShr c; pShl := pShl c |}.

Definition set_Screen (s : buffer) (c : Chip8) : Chip8 :=
  {| Memory := Memory c; V := V c; I := I c; Stack := Stack c; SP := SP c;
     PC := PC c; DT := DT c; ST := ST c; Keyboard := Keyboard c;
     Screen := s; Width := Width c; Height := Height c;
     TimerInterval := TimerInterval c; lastTimerUpdate := lastTimerUpdate c;
     wii := wii c; pLdMemory := pLdMemory c; pLdSetMemory := pLdSetMemory c;
     pShr := pShr c; pShl := pShl c |}.

Definition set_lastTimerUpdate (t : Z) (c : Chip8) : Chip8 :=
  {| Memory := Memory c; V := V c; I := I c; Stack := Stack c; SP := SP c;
     PC := PC c; DT := DT c; ST := ST c; Keyboard := Keyboard c;
     Screen := Screen c; Width := Width c; Height := Height c;
     TimerInterval := TimerInterval c; lastTimerUpdate := t;
     wii := wii c; pLdMemory := pLdMemory c; pLdSetMemory := pLdSetMemory c;
     pShr := pShr c; pShl := pShl c |}.

Definition set_wii (w : option waitInputInfo) (c : Chip8) : Chip8 :=
  {| Memory := Memory c; V := V c; I := I c; Stack := Stack c; SP := SP c;
     PC := PC c; DT := DT c; ST := ST c; Keyboard := Keyboard c;
     Screen := Screen c; Width := Width c; Height := Height c;
     TimerInterval := TimerInterval c; lastTimerUpdate := lastTimerUpdate c;
     wii := w; pLdMemory := pLdMemory c; pLdSetMemory := pLdSetMemory c;
     pShr := pShr c; pShl := pShl c |}.

(** ** Registers, memory, stack and screen accesses *)

(** [c.V[i]]: [V] is a Go array of 16 bytes and every index the code uses is
    a nibble (or the register of a pending wait, a nibble too). *)
Definition reg (c : Chip8) (i : Z) : Z := V c !!! Z.to_nat i.
Definition set_reg (i v : Z) (c : Chip8) : Chip8 :=
  set_V (<[Z.to_nat i := v]> (V c)) c.

(** [c.Memory[a]]; [None] is the index-out-of-range panic. *)
Definition mem_at (c : Chip8) (a : Z) : option Z :=
  if a <? 0 then None else Memory c !! Z.to_nat a.

Definition mem_store (a v : Z) (c : Chip8) : option Chip8 :=
  if (0 <=? a) && (a <? Z.of_nat (length (Memory c)))
  then Some (set_Memory (<[Z.to_nat a := v]> (Memory c)) c)
  else None.

(** [len(c.Screen)], [c.Screen[i]] and [c.Screen[i] = v]. *)
Definition screen_len (c : Chip8) : Z :=
  match Screen c with
  | Own d => Z.of_nat (length d)
  | Window _ n => Z.of_nat n
  end.

Definition screen_at (c : Chip8) (i : Z) : option Z :=
  if (0 <=? i) && (i <? screen_len c) then
    match Screen c with
    | Own d => d !! Z.to_nat i
    | Window off _ => Memory c !! (off + Z.to_nat i)%nat
    end
  else None.

Definition screen_store (i v : Z) (c : Chip8) : option Chip8 :=
  if (0 <=? i) && (i <? screen_len c) then
    match Screen c with
    | Own d => Some (set_Screen (Own (<[Z.to_nat i := v]> d)) c)
    | Window off _ =>
        if (off + Z.to_nat i <? length (Memory c))%nat
        then Some (set_Memory (<[(off + Z.to_nat i)%nat := v]> (Memory c)) c)
        else None
    end
  else None.

(** [len(c.Stack)], [c.Stack[i]] and [c.Stack[i] = v]. *)
Definition stack_len (c : Chip8) : Z :=
  match Stack c with
  | Own d => Z.of_nat (length d)
  | Window _ n => Z.of_nat n
  end.

Definition stack_at (c : Chip8) (i : Z) : option Z :=
  if (0 <=? i) && (i <? stack_len c) then
    match Stack c with
    | Own d => d !! Z.to_nat i
    | Window off _ =>
        match Memory c !! (off + 2 * Z.to_nat i)%nat,
              Memory c !! (off + 2 * Z.to_nat i + 1)%nat with
        | Some lo, Some hi => Some (Z.lor lo (Z.shiftl hi 8))
        | _, _ => None
        end
    end
  else None.

Definition stack_store (i v : Z) (c : Chip8) : option Chip8 :=
  if (0 <=? i) && (i <? stack_len c) then
    match Stack c with
    | Own d => Some (set_Stack (Own (<[Z.to_nat i := v]> d)) c)
    | Window off _ =>
        if (off + 2 * Z.to_nat i + 1 <? length (Memory c))%nat
        then Some (set_Memory
                     (<[(off + 2 * Z.to_nat i + 1)%nat := Z.shiftr v 8]>
                        (<[(off + 2 * Z.to_nat i)%nat := Z.land v 255]>
                           (Memory c))) c)
        else None
    end
  else None.

(** ** Instruction classes

    The record types of the disassembler; [RawData] is what it leaves for a
    word it does not recognise.  The same names label the arms of the switch
    in [Tick], the arms that return [BadCodeErr] being labelled [RawData]. *)

Inductive Kind : Type :=
  | RawData | Sys | Jp | Call | Se | Sne | SeRegister | Ld | Add
  | LdRegister | Or | And | Xor | AddRegister | SubRegister | Shr | Subn | Shl
  | SneRegister | LdI | JpV0 | Rnd | Drw | Skp | Sknp
  | LdDelayTimer | LdKeyboard | LdSetDelayTimer | LdSetSoundTimer | AddI
  | LdFont | LdBcd | LdSetMemory | LdMemory.

(** The switch of [Tick] on [opcode[0] & 0xF0] and, in the groups 8, E and F,
    on the second byte. *)
Definition Tick_switch (b0 b1 : Z) : Kind :=
  let g := Z.land b0 0xF0 in
  if g =? 0x00 then Sys
  else if g =? 0x10 then Jp
  else if g =? 0x20 then Call
  else if g =? 0x30 then Se
  else if g =? 0x40 then Sne
  else if g =? 0x50 then SeRegister
  else if g =? 0x60 then Ld
  else if g =? 0x70 then Add
  else if g =? 0x80 then
    let n := Z.land b1 0x0F in
    if n =? 0x0 then LdRegister
    else if n =? 0x1 then Or
    else if n =? 0x2 then And
    else if n =? 0x3 then Xor
    else if n =? 0x4 then AddRegister
    else if n =? 0x5 then SubRegister
    else if n =? 0x6 then Shr
    else if n =? 0x7 then Subn
    else if n =? 0xE then Shl
    else RawData
  else if g =? 0x90 then SneRegister
  else if g =? 0xA0 then LdI
  else if g =? 0xB0 then JpV0
  else if g =? 0xC0 then Rnd
  else if g =? 0xD0 then Drw
  else if g =? 0xE0 then
    if b1 =? 0x9E then Skp
    else if b1 =? 0xA1 then Sknp
    else RawData
  else if g =? 0xF0 then
    if b1 =? 0x07 then LdDelayTimer
    else if b1 =? 0x0A then LdKeyboard
    else if b1 =? 0x15 then LdSetDelayTimer
    else if b1 =? 0x18 then LdSetSoundTimer
    else if b1 =? 0x1E then AddI
    else if b1 =? 0x29 then LdFont
    else if b1 =? 0x33 then LdBcd
    else if b1 =? 0x55 then LdSetMemory
    else if b1 =? 0x65 then LdMemory
    else RawData
  else RawData.

(** ** Operand fields of an instruction word *)

(** [opcode[0] & 0x0F] *)
Definition opX (b0 : Z) : Z := Z.land b0 0x0F.
(** [opcode[1] & 0xF0 >> 4] *)
Definition opY (b1 : Z) : Z := Z.shiftr (Z.land b1 0xF0) 4.
(** [uint16(opcode[0]&0x0F)<<8 | uint16(opcode[1])] *)
Definition opNNN (b0 b1 : Z) : Z := Z.lor (Z.shiftl (Z.land b0 0x0F) 8) b1.

(** ** The legacy-mode closures *)

(** [ldMemory[key]]: [n] iterations are left, [i] is the loop counter. *)
Fixpoint ldMemory (key : bool) (n : nat) (i : Z) (c : Chip8) : option Chip8 :=
  match n with
  | O => Some c
  | S n' =>
      if key then
        match mem_at c (I c) with
        | Some b => ldMemory key n' (i + 1) (set_I (u16 (I c + 1)) (set_reg i b c))
        | None => None
        end
      else
        match mem_at c (u16 (I c + i)) with
        | Some b => ldMemory key n' (i + 1) (set_reg i b c)
        | None => None
        end
  end.

(** [ldSetMemory[key]] *)
Fixpoint ldSetMemory (key : bool) (n : nat) (i : Z) (c : Chip8) : option Chip8 :=
  match n with
  | O => Some c
  | S n' =>
      if key then
        match mem_store (I c) (reg c i) c with
        | Some c' => ldSetMemory key n' (i + 1) (set_I (u16 (I c' + 1)) c')
        | None => None
        end
      else
        match mem_store (u16 (I c + i)) (reg c i) c with
        | Some c' => ldSetMemory key n' (i + 1) c'
        | None => None
        end
  end.

(** [shl[key]] *)
Definition shl (key : bool) (x y : Z) (c : Chip8) : Chip8 :=
  if key then
    let c1 := set_reg 0xF (Z.land (reg c y) 0x80) c in
    set_reg x (u8 (Z.shiftl (reg c1 y) 1)) c1
  else
    let c1 := set_reg 0xF (Z.land (reg c x) 0x80) c in
    set_reg x (u8 (Z.shiftl (reg c1 x) 1)) c1.

(** [shr[key]] *)
Definition shr (key : bool) (x y : Z) (c : Chip8) : Chip8 :=
  if key then
    let c1 := set_reg 0xF (Z.land (reg c y) 0x01) c in
    set_reg x (Z.shiftr (reg c1 y) 1) c1
  else
    let c1 := set_reg 0xF (Z.land (reg c x) 0x01) c in
    set_reg x (Z.shiftr (reg c1 x) 1) c1.

(** ** The arms of the switch *)

(** An arm either falls out of the switch, towards the timers, or returns. *)
Inductive Step : Type :=
  | Next (c : Chip8) (evs : list Event)
  | Stop (o : Outcome) (c : Chip8).

Definition skip_if (b : bool) (c : Chip8) : Chip8 :=
  if b then set_PC (u16 (PC c + 2)) c else c.

(** The loop of CLS over the screen bytes. *)
Fixpoint cls_loop (n : nat) (i : Z) (c : Chip8) : option Chip8 :=
  match n with
  | O => Some c
  | S n' =>
      match screen_store i 0 c with
      | Some c' => cls_loop n' (i + 1) c'
      | None => None
      end
  end.

Definition exec_Sys (b0 b1 : Z) (c : Chip8) : Step :=
  let nnn := opNNN b0 b1 in
  if nnn =? 0x0E0 then
    match cls_loop (Z.to_nat (screen_len c)) 0 c with
    | Some c' => Next c' [EvCls]
    | None => Stop Panic c
    end
  else if nnn =? 0x0EE then
    if SP c <? 0 then Stop (Failed StackOverflowErr) c
    else
      match stack_at c (SP c) with
      | Some a => Next (set_SP (SP c - 1) (set_PC a c)) []
      | None => Stop Panic c
      end
  else Next c [].

Definition exec_Jp (b0 b1 : Z) (c : Chip8) : Step :=
  Next (set_PC (opNNN b0 b1) c) [].

(** CALL reads its operand after the push, through the slice [opcode] that
    still points at the two bytes at [pc0] in [Memory]. *)
Definition exec_Call (pc0 : Z) (c : Chip8) : Step :=
  if SP c >=? stack_len c - 1 then Stop (Failed StackOverflowErr) c
  else
    let c1 := set_SP (SP c + 1) c in
    match stack_store (SP c1) (PC c1) c1 with
    | None => Stop Panic c1
    | Some c2 =>
        match mem_at c2 pc0, mem_at c2 (pc0 + 1) with
        | Some b0, Some b1 => Next (set_PC (opNNN b0 b1) c2) []
        | _, _ => Stop Panic c2
        end
    end.

Definition exec_Se (b0 b1 : Z) (c : Chip8) : Step :=
  Next (skip_if (reg c (opX b0) =? b1) c) [].

Definition exec_Sne (b0 b1 : Z) (c : Chip8) : Step :=
  Next (skip_if (negb (reg c (opX b0) =? b1)) c) [].

Definition exec_SeRegister (b0 b1 : Z) (c : Chip8) : Step :=
  Next (skip_if (reg c (opX b0) =? reg c (opY b1)) c) [].

Definition exec_Ld (b0 b1 : Z) (c : Chip8) : Step :=
  Next (set_reg (opX b0) b1 c) [].

Definition exec_Add (b0 b1 : Z) (c : Chip8) : Step :=
  Next (set_reg (opX b0) (u8 (reg c (opX b0) + b1)) c) [].

Definition exec_LdRegister (b0 b1 : Z) (c : Chip8) : Step :=
  Next (set_reg (opX b0) (reg c (opY b1)) c) [].

Definition exec_Or (b0 b1 : Z) (c : Chip8) : Step :=
  Next (set_reg (opX b0) (Z.lor (reg c (opX b0)) (reg c (opY b1))) c) [].

Definition exec_And (b0 b1 : Z) (c : Chip8) : Step :=
  Next (set_reg (opX b0) (Z.land (reg c (opX b0)) (reg c (opY b1))) c) [].

Definition exec_Xor (b0 b1 : Z) (c : Chip8) : Step :=
  Next (set_reg (opX b0) (Z.lxor (reg c (opX b0)) (reg c (opY b1))) c) [].

Definition exec_AddRegister (b0 b1 : Z) (c : Chip8) : Step :=
  let r := opX b0 in
  let result := u16 (reg c r + reg c (opY b1)) in
  let c1 := set_reg r (u8 result) c in
  Next (set_reg 0xF (if Z.land result 0xFF00 =? 0 then 0 else 1) c1) [].

(** SUB writes the flag first and subtracts afterwards, from the registers
    as they are then. *)
Definition exec_SubRegister (b0 b1 : Z) (c : Chip8) : Step :=
  let x := opX b0 in
  let y := opY b1 in
  let c1 := set_reg 0xF (if reg c x >=? reg c y then 1 else 0) c in
  Next (set_reg x (u8 (reg c1 x - reg c1 y)) c1) [].

Definition exec_Shr (b0 b1 : Z) (c : Chip8) : Step :=
  Next (shr (pShr c) (opX b0) (opY b1) c) [].

Definition exec_Subn (b0 b1 : Z) (c : Chip8) : Step :=
  let x := opX b0 in
  let y := opY b1 in
  let c1 := set_reg 0xF (if reg c x >? reg c y then 0 else 1) c in
  Next (set_reg x (u8 (reg c1 y - reg c1 x)) c1) [].

Definition exec_Shl (b0 b1 : Z) (c : Chip8) : Step :=
  Next (shl (pShl c) (opX b0) (opY b1) c) [].

Definition exec_SneRegister (b0 b1 : Z) (c : Chip8) : Step :=
  Next (skip_if (negb (reg c (opX b0) =? reg c (opY b1))) c) [].

Definition exec_LdI (b0 b1 : Z) (c : Chip8) : Step :=
  Next (set_I (opNNN b0 b1) c) [].

(** [|], [+] and [-] have one precedence in Go and associate to the left:
    the right-hand side is [((NNN + V0) - 2)]. *)
Definition exec_JpV0 (b0 b1 : Z) (c : Chip8) : Step :=
  Next (set_PC (u16 (u16 (opNNN b0 b1 + reg c 0) - 2)) c) [].

Definition exec_Rnd (rnd : Z) (b0 b1 : Z) (c : Chip8) : Step :=
  Next (set_reg (opX b0) (Z.land (u8 rnd) b1) c) [].

(** *** DRW VX,VY,N *)

(** The inner loop that looks for a pixel that went from set to unset.
    [fuel] counts the shifts of [mask] that are left. *)
Fixpoint collision_loop (fuel : nat) (mask : Z)
    (index nextIndex mask1 mask2 oldval1 oldval2 bitoff : Z) (c : Chip8)
    : option Chip8 :=
  if negb (reg c 0xF =? 0) then Some c
  else
    match screen_at c index with
    | None => None
    | Some s1 =>
        if Z.land oldval1 mask >? Z.land (Z.land s1 mask1) mask
        then Some (set_reg 0xF 1 c)
        else
          let next :=
            if mask =? 0x80 then Some c
            else
              match fuel with
              | O => Some c
              | S fuel' =>
                  collision_loop fuel' (u8 (Z.shiftl mask 1))
                    index nextIndex mask1 mask2 oldval1 oldval2 bitoff c
              end in
          if bitoff =? 0 then next
          else
            match screen_at c nextIndex with
            | None => None
            | Some s2 =>
                if Z.land oldval2 mask >? Z.land (Z.land s2 mask2) mask
                then Some (set_reg 0xF 1 c)
                else next
            end
    end.

(** One turn of the loop over the rows, for the row [off] of the sprite. *)
Definition draw_row (off x y : Z) (c : Chip8) : option Chip8 :=
  let byteWidth := u16 (Width c) / 8 in
  if byteWidth =? 0 then None
  else
    let byteColumn := u16 (y * byteWidth) in
    let index := u16 (byteColumn + x / 8) in
    let nextIndex := u16 (byteColumn + u16 (x / 8 + 1) mod byteWidth) in
    let bitoff := x mod 8 in
    let mask1 := Z.shiftr 0xFF bitoff in
    let mask2 := not8 mask1 in
    s1 ← screen_at c index;
    let oldval1 := Z.land s1 mask1 in
    sp1 ← mem_at c (I c + off);
    c1 ← screen_store index (Z.lxor s1 (Z.shiftr sp1 bitoff)) c;
    '(oldval2, c2) ←
      (if bitoff =? 0 then Some (0, c1)
       else
         s2 ← screen_at c1 nextIndex;
         sp2 ← mem_at c1 (I c1 + off);
         c2 ← screen_store nextIndex
                (Z.lxor s2 (u8 (Z.shiftl sp2 (8 - bitoff)))) c1;
         Some (Z.land s2 mask2, c2));
    collision_loop 7 0x01 index nextIndex mask1 mask2 oldval1 oldval2 bitoff c2.

(** The loop over the rows: [n] rows are left, [off] is the next one and
    [y] its line on the screen. *)
Fixpoint draw_loop (n : nat) (off x y : Z) (c : Chip8) : option Chip8 :=
  match n with
  | O => Some c
  | S n' =>
      match draw_row off x y c with
      | None => None
      | Some c' =>
          if Height c' =? 0 then None
          else draw_loop n' (off + 1) x (u8 (y + 1) mod Height c') c'
      end
  end.

Definition exec_Drw (b0 b1 : Z) (c : Chip8) : Step :=
  if (Width c =? 0) || (Height c =? 0) then Stop Panic c
  else
    let x := reg c (opX b0) mod Width c in
    let y := reg c (opY b1) mod Height c in
    let rows := Z.land b1 0x0F in
    if u16 (0xFFFF - I c) <? rows then Stop (Failed OverflowErr) c
    else if I c + rows - 1 >=? Z.of_nat (length (Memory c))
    then Stop (Failed AccessErr) c
    else
      let c1 := set_reg 0xF 0 c in
      (* sprite := c.Memory[c.I : c.I+uint16(rows)] *)
      if negb ((0 <=? I c1) && (I c1 <=? u16 (I c1 + rows))
               && (u16 (I c1 + rows) <=? Z.of_nat (length (Memory c1))))
      then Stop Panic c1
      else
        match draw_loop (Z.to_nat rows) 0 x y c1 with
        | Some c2 => Next c2 [EvUpdateScreen]
        | None => Stop Panic c1
        end.

(** *** Keyboard skips *)

Definition key_flag (c : Chip8) (x : Z) : option Z :=
  if reg c x <? 0 then None else KeyFlags !! Z.to_nat (reg c x).

Definition exec_Skp (b0 b1 : Z) (c : Chip8) : Step :=
  match key_flag c (opX b0) with
  | Some f => Next (skip_if (negb (Z.land (Keyboard c) f =? 0)) c) []
  | None => Stop Panic c
  end.

Definition exec_Sknp (b0 b1 : Z) (c : Chip8) : Step :=
  match key_flag c (opX b0) with
  | Some f => Next (skip_if (Z.land (Keyboard c) f =? 0) c) []
  | None => Stop Panic c
  end.

(** *** The F group *)

Definition exec_LdDelayTimer (b0 b1 : Z) (c : Chip8) : Step :=
  Next (set_reg (opX b0) (DT c) c) [].

Definition exec_LdKeyboard (b0 b1 : Z) (c : Chip8) : Step :=
  Next (set_wii (Some {| register := opX b0;
                         zeroBits := not16 (Keyboard c) |}) c) [].

Definition exec_LdSetDelayTimer (b0 b1 : Z) (c : Chip8) : Step :=
  Next (set_DT (reg c (opX b0)) c) [].

Definition exec_LdSetSoundTimer (b0 b1 : Z) (c : Chip8) : Step :=
  Next (set_ST (reg c (opX b0)) c) [].

Definition exec_AddI (b0 b1 : Z) (c : Chip8) : Step :=
  Next (set_I (u16 (I c + reg c (opX b0))) c) [].

Definition exec_LdFont (b0 b1 : Z) (c : Chip8) : Step :=
  Next (set_I (u16 (reg c (opX b0) * 5)) c) [].

Definition exec_LdBcd (b0 b1 : Z) (c : Chip8) : Step :=
  if (I c + 2 >=? Z.of_nat (length (Memory c))) || (I c <? 0x200)
  then Stop (Failed AccessErr) c
  else
    let value := reg c (opX b0) in
    match mem_store (u16 (I c + 2)) (value mod 10) c with
    | None => Stop Panic c
    | Some c1 =>
        let value := value / 10 in
        match mem_store (u16 (I c1 + 1)) (value mod 10) c1 with
        | None => Stop Panic c1
        | Some c2 =>
            match mem_store (I c2) (value / 10) c2 with
            | None => Stop Panic c2
            | Some c3 => Next c3 []
            end
        end
    end.

Definition exec_LdSetMemory (b0 b1 : Z) (c : Chip8) : Step :=
  let x := opX b0 in
  if u16 (0xFFFF - I c) <? x then Stop (Failed OverflowErr) c
  else if (I c + x >=? Z.of_nat (length (Memory c))) || (I c <? 0x200)
  then Stop (Failed AccessErr) c
  else
    match ldSetMemory (pLdSetMemory c) (Z.to_nat (x + 1)) 0 c with
    | Some c' => Next c' []
    | None => Stop Panic c
    end.

Definition exec_LdMemory (b0 b1 : Z) (c : Chip8) : Step :=
  let x := opX b0 in
  if u16 (0xFFFF - I c) <? x then Stop (Failed OverflowErr) c
  else if (I c + x >=? Z.of_nat (length (Memory c))) || (I c <? 0x200)
  then Stop (Failed AccessErr) c
  else
    match ldMemory (pLdMemory c) (Z.to_nat (x + 1)) 0 c with
    | Some c' => Next c' []
    | None => Stop Panic c
    end.

(** ** The cycle *)

Record Env : Type := {
  now : Z;      (* time.Now(), in nanoseconds since the zero time *)
  random : Z    (* rand.Uint32() *)
}.

(** The body of the arm chosen by the switch; [pc0] is where the instruction
    word [b0 b1] was fetched. *)
Definition exec (env : Env) (pc0 b0 b1 : Z) (c : Chip8) : Step :=
  match Tick_switch b0 b1 with
  | RawData => Stop (Failed BadCodeErr) c
  | Sys => exec_Sys b0 b1 c
  | Jp => exec_Jp b0 b1 c
  | Call => exec_Call pc0 c
  | Se => exec_Se b0 b1 c
  | Sne => exec_Sne b0 b1 c
  | SeRegister => exec_SeRegister b0 b1 c
  | Ld => exec_Ld b0 b1 c
  | Add => exec_Add b0 b1 c
  | LdRegister => exec_LdRegister b0 b1 c
  | Or => exec_Or b0 b1 c
  | And => exec_And b0 b1 c
  | Xor => exec_Xor b0 b1 c
  | AddRegister => exec_AddRegister b0 b1 c
  | SubRegister => exec_SubRegister b0 b1 c
  | Shr => exec_Shr b0 b1 c
  | Subn => exec_Subn b0 b1 c
  | Shl => exec_Shl b0 b1 c
  | SneRegister => exec_SneRegister b0 b1 c
  | LdI => exec_LdI b0 b1 c
  | JpV0 => exec_JpV0 b0 b1 c
  | Rnd => exec_Rnd (random env) b0 b1 c
  | Drw => exec_Drw b0 b1 c
  | Skp => exec_Skp b0 b1 c
  | Sknp => exec_Sknp b0 b1 c
  | LdDelayTimer => exec_LdDelayTimer b0 b1 c
  | LdKeyboard => exec_LdKeyboard b0 b1 c
  | LdSetDelayTimer => exec_LdSetDelayTimer b0 b1 c
  | LdSetSoundTimer => exec_LdSetSoundTimer b0 b1 c
  | AddI => exec_AddI b0 b1 c
  | LdFont => exec_LdFont b0 b1 c
  | LdBcd => exec_LdBcd b0 b1 c
  | LdSetMemory => exec_LdSetMemory b0 b1 c
  | LdMemory => exec_LdMemory b0 b1 c
  end.

(** [opcode := c.Memory[c.PC : c.PC+2]]: the slice expression panics unless
    [PC <= PC+2 <= cap], the sum taken in [uint16]. *)
Definition fetch (c : Chip8) : option (Z * Z) :=
  if (0 <=? PC c) && (PC c <=? u16 (PC c + 2))
     && (u16 (PC c + 2) <=? Z.of_nat (length (Memory c)))
  then
    match mem_at c (PC c), mem_at c (PC c + 1) with
    | Some b0, Some b1 => Some (b0, b1)
    | _, _ => None
    end
  else None.

(** The loop that looks for the first pressed key once a wait is over. *)
Fixpoint wait_key_loop (fuel : nat) (changed mask r : Z) (c : Chip8) : Chip8 :=
  let c' := set_reg r (KeyNumbers_at (Z.land changed mask)) c in
  if negb (reg c' r =? 0) then c'
  else if mask =? 0x8000 then c'
  else
    match fuel with
    | O => c'
    | S fuel' => wait_key_loop fuel' changed (u16 (Z.shiftl mask 1)) r c'
    end.

(** The timer loop.  [fuel] bounds the number of turns; [None] says the
    condition still held when it ran out. *)
Fixpoint timer_loop (fuel : nat) (t : Z) (c : Chip8) (evs : list Event)
    : option (Chip8 * list Event) :=
  if t - lastTimerUpdate c >=? TimerInterval c then
    match fuel with
    | O => None
    | S fuel' =>
        let c1 := if DT c >? 0 then set_DT (u8 (DT c - 1)) c else c in
        let '(c2, evs2) :=
          if ST c1 >? 0 then (set_ST (u8 (ST c1 - 1)) c1, evs ++ [EvBeep])
          else (c1, evs) in
        timer_loop fuel'
          t (set_lastTimerUpdate (lastTimerUpdate c2 + TimerInterval c2) c2) evs2
    end
  else Some (c, evs).

(** With a positive interval the loop turns [(now - last) / interval] times;
    with any other interval it turns for ever once entered, and so the fuel
    runs out. *)
Definition timers (env : Env) (c : Chip8) (evs : list Event)
    : Outcome * Chip8 * list Event :=
  let c1 := if lastTimerUpdate c =? 0 then set_lastTimerUpdate (now env) c
            else c in
  match timer_loop (Z.to_nat ((now env - lastTimerUpdate c1) / TimerInterval c1))
                   (now env) c1 evs with
  | Some (c2, evs2) => (Done, c2, evs2)
  | None => (Hang, c1, evs)
  end.

(** Fetch, execute and service the timers. *)
Definition cycle (env : Env) (c : Chip8) (evs : list Event)
    : Outcome * Chip8 * list Event :=
  match fetch c with
  | None => (Panic, c, evs)
  | Some (b0, b1) =>
      match exec env (PC c) b0 b1 (set_PC (u16 (PC c + 2)) c) with
      | Stop o c' => (o, c', evs)
      | Next c' evs' => timers env c' (evs ++ evs')
      end
  end.

Definition Tick (env : Env) (c : Chip8) : Outcome * Chip8 * list Event :=
  match wii c with
  | Some w =>
      let changed := Z.land (Keyboard c) (zeroBits w) in
      if changed =? 0 then (Done, c, [EvOnUpdate])
      else
        cycle env
          (set_wii None (wait_key_loop 15 changed 0x0001 (register w) c))
          [EvOnUpdate]
  | None => cycle env c [EvOnUpdate]
  end.

(** ** Settings and the constructor *)

Module Settings.
Record Chip8Settings : Type := {
  MemorySize : Z;
  StackSize : Z;
  Width : Z;
  Height : Z;
  Realistic : bool;
  LegacyMode : bool
}.
End Settings.
Import Settings (Chip8Settings).

(** [Validate]: [true] stands for the [nil] error. *)
Definition Validate (s : Chip8Settings) : bool :=
  if negb (Settings.Width s mod 8 =? 0) then false
  else if negb (Settings.Height s mod 8 =? 0) then false
  else if Settings.Width s <? 8 then false
  else if Settings.Height s <? 15 then false
  else if Settings.Realistic s then
    if Settings.StackSize s >? 12 then false
    else
      let pixelCount := u16 (Settings.Width s * Settings.Height s) in
      if pixelCount >? 2048 then false else true
  else true.

Definition DefaultSettings : Chip8Settings :=
  {| Settings.MemorySize := 0x1000;
     Settings.StackSize := 12;
     Settings.Width := 64;
     Settings.Height := 32;
     Settings.Realistic := true;
     Settings.LegacyMode := false |}.

Definition fonts : list Z :=
  [0xF0; 0x90; 0x90; 0x90; 0xF0;
   0x20; 0x60; 0x20; 0x20; 0x70;
   0xF0; 0x10; 0xF0; 0x80; 0xF0;
   0xF0; 0x10; 0xF0; 0x10; 0xF0;
   0x90; 0x90; 0xF0; 0x10; 0x10;
   0xF0; 0x80; 0xF0; 0x10; 0xF0;
   0xF0; 0x80; 0xF0; 0x90; 0xF0;
   0xF0; 0x10; 0x20; 0x40; 0x40;
   0xF0; 0x90; 0xF0; 0x90; 0xF0;
   0xF0; 0x90; 0xF0; 0x10; 0xF0;
   0xF0; 0x90; 0xF0; 0x90; 0x90;
   0xE0; 0x90; 0xE0; 0x90; 0xE0;
   0xF0; 0x80; 0x80; 0x80; 0xF0;
   0xE0; 0x90; 0x90; 0x90; 0xE0;
   0xF0; 0x80; 0xF0; 0x80; 0xF0;
   0xF0; 0x80; 0xF0; 0x80; 0x80].

(** Go's [copy(dst, src)]. *)
Definition copy (dst src : list Z) : list Z :=
  take (length dst) (src ++ drop (length src) dst).

(** [time.Second / 60], in nanoseconds. *)
Definition default_TimerInterval : Z := 1000000000 / 60.

Inductive NewResult : Type :=
  | NewOk (c : Chip8)
  | NewErr
  | NewPanic.

(** [New], for a registered driver.  In realistic mode the stack is the slice
    [Memory[0xEA0 : 0xEA0+StackSize]] whose header is rewritten for [uint16]
    elements: length and capacity are divided by two. *)
Definition New (s : Chip8Settings) : NewResult :=
  if negb (Validate s) then NewErr
  else if Settings.MemorySize s <? 0 then NewPanic
  else
    let memory := replicate (Z.to_nat (Settings.MemorySize s)) 0 in
    let mk stack screen :=
      NewOk {| Memory := copy memory fonts;
               V := replicate 16 0; I := 0; Stack := stack; SP := -1; PC := 0;
               DT := 0; ST := 0; Keyboard := 0; Screen := screen;
               Width := Settings.Width s; Height := Settings.Height s;
               TimerInterval := default_TimerInterval; lastTimerUpdate := 0;
               wii := None;
               pLdMemory := Settings.LegacyMode s;
               pLdSetMemory := Settings.LegacyMode s;
               pShr := Settings.LegacyMode s;
               pShl := Settings.LegacyMode s |} in
    if Settings.Realistic s then
      let stack_hi := u16 (0xEA0 + u16 (Settings.StackSize s)) in
      let screen_hi :=
        u16 (0xF00 + u16 (Settings.Width s * Settings.Height s) / 8) in
      if negb ((0xEA0 <=? stack_hi) && (stack_hi <=? Settings.MemorySize s))
      then NewPanic
      else if negb ((0xF00 <=? screen_hi)
                    && (screen_hi <=? Settings.MemorySize s))
      then NewPanic
      else
        let cbuint16 := 2 in
        mk (Window 0xEA0%nat (Z.to_nat ((stack_hi - 0xEA0) / cbuint16)))
           (Window 0xF00%nat (Z.to_nat (screen_hi - 0xF00)))
    else if Settings.StackSize s <? 0 then NewPanic
    else
      mk (Own (replicate (Z.to_nat (Settings.StackSize s)) 0))
         (Own (replicate
                 (Z.to_nat (u16 (Settings.Width s * Settings.Height s) / 8)) 0)).

(** ** The disassembler *)

(** An instruction record: the record type chosen for the word and the slice
    [b] of its raw bytes.  (The text that [init] formats is left out.) *)
Record Instruction : Type := {
  kind : Kind;
  b : list Z
}.

(** [Size()] *)
Definition Size (i : Instruction) : Z := Z.of_nat (length (b i)).

(** [Opcode()] *)
Definition Opcode (i : Instruction) : Z :=
  match b i with
  | [b0] => b0
  | [b0; b1] => Z.lor (u16 (Z.shiftl b0 8)) b1
  | _ => 0
  end.

(** The switch of [DisassembleSimple]; [in] starts as the raw data record and
    stays so where no arm assigns it. *)
Definition DisassembleSimple_switch (b0 b1 : Z) : Kind :=
  let g := Z.land b0 0xF0 in
  if g =? 0x00 then Sys
  else if g =? 0x10 then Jp
  else if g =? 0x20 then Call
  else if g =? 0x30 then Se
  else if g =? 0x40 then Sne
  else if g =? 0x50 then SeRegister
  else if g =? 0x60 then Ld
  else if g =? 0x70 then Add
  else if g =? 0x80 then
    let n := Z.land b1 0x0F in
    if n =? 0x0 then LdRegister
    else if n =? 0x1 then Or
    else if n =? 0x2 then And
    else if n =? 0x3 then Xor
    else if n =? 0x4 then AddRegister
    else if n =? 0x5 then SubRegister
    else if n =? 0x6 then Shr
    else if n =? 0x7 then Subn
    else if n =? 0xE then Shl
    else RawData
  else if g =? 0x90 then Sne
  else if g =? 0xA0 then LdI
  else if g =? 0xB0 then JpV0
  else if g =? 0xC0 then Rnd
  else if g =? 0xD0 then Drw
  else if g =? 0xE0 then
    if b1 =? 0x9E then Skp
    else if b1 =? 0xA1 then Sknp
    else RawData
  else if g =? 0xF0 then
    if b1 =? 0x07 then LdDelayTimer
    else if b1 =? 0x0A then LdKeyboard
    else if b1 =? 0x15 then LdSetDelayTimer
    else if b1 =? 0x18 then LdSetSoundTimer
    else if b1 =? 0x1E then AddI
    else if b1 =? 0x29 then LdFont
    else if b1 =? 0x33 then LdBcd
    else if b1 =? 0x55 then LdSetMemory
    else if b1 =? 0x65 then LdMemory
    else RawData
  else RawData.

(** The loop [for i := 0; i < len(b); i += 2], on the bytes from [i] on. *)
Fixpoint disassemble_loop (bs : list Z) : list Instruction :=
  match bs with
  | b0 :: b1 :: rest =>
      {| kind := DisassembleSimple_switch b0 b1; b := [b0; b1] |}
        :: disassemble_loop rest
  | _ => []
  end.

Inductive DisasmErr : Type := OddAligned.

(** [DisassembleSimple]: the pair [(res, err)]. *)
Definition DisassembleSimple (bs : list Z)
    : list Instruction * option DisasmErr :=
  if negb (Z.of_nat (length bs) mod 2 =? 0) then ([], Some OddAligned)
  else (disassemble_loop bs, None).

(** [Load], the file being the list of its bytes: the program goes to 0x200
    and so does the program counter.  [None] is the [OutOfMemoryErr]. *)
Definition Load (file : list Z) (c : Chip8) : option Chip8 :=
  if Z.of_nat (length file) >? Z.of_nat (length (Memory c)) - 0x200
  then None
  else Some (set_PC 0x200
               (set_Memory
                  (take 0x200 (Memory c)
                     ++ copy (drop 0x200 (Memory c)) file) c)).

(** A machine made with settings [s] and loaded with [file]. *)
Definition boot (s : Chip8Settings) (file : list Z) : option Chip8 :=
  match New s with
  | NewOk c => Load file c
  | _ => None
  end.

(** [n] cycles in a row, as [Run] does them, stopping at the first one that
    does not return [nil]; the events are collected. *)
Fixpoint Run_n (n : nat) (env : Env) (c : Chip8)
    : Outcome * Chip8 * list Event :=
  match n with
  | O => (Done, c, [])
  | S n' =>
      match Tick env c with
      | (Done, c', evs) =>
          let '(o, c'', evs') := Run_n n' env c' in (o, c'', evs ++ evs')
      | r => r
      end
  end.

(** ** Notions used to state the properties *)

(** [len(b)%2 == 0] *)
Definition even_length (bs : list Z) : bool :=
  Z.of_nat (length bs) mod 2 =? 0.

(** The sum of the sizes, as the caller accumulates [address += i.Size()]. *)
Definition total_size (res : list Instruction) : Z :=
  fold_right Z.add 0 (Size <$> res).

(** The host writes the keyboard between cycles. *)
Definition set_Keyboard (k : Z) (c : Chip8) : Chip8 :=
  {| Memory := Memory c; V := V c; I := I c; Stack := Stack c; SP := SP c;
     PC := PC c; DT := DT c; ST := ST c; Keyboard := k;
     Screen := Screen c; Width := Width c; Height := Height c;
     TimerInterval := TimerInterval c; lastTimerUpdate := lastTimerUpdate c;
     wii := wii c; pLdMemory := pLdMemory c; pLdSetMemory := pLdSetMemory c;
     pShr := pShr c; pShl := pShl c |}.

(** The numbers of the sixteen keys, in order. *)
Definition key_numbers : list Z :=
  [0; 1; 2; 3; 4; 5; 6; 7; 8; 9; 10; 11; 12; 13; 14; 15].

(** The lowest-numbered key whose bit is set in [changed]. *)
Definition lowest_key (changed : Z) : Z :=
  default 0 (find (Z.testbit changed) key_numbers).

(** The value that [wait_key_loop] leaves in the register. *)
Fixpoint wait_key_val (fuel : nat) (changed mask : Z) : Z :=
  let v := KeyNumbers_at (Z.land changed mask) in
  if negb (v =? 0) then v
  else if mask =? 0x8000 then v
  else
    match fuel with
    | O => v
    | S fuel' => wait_key_val fuel' changed (u16 (Z.shiftl mask 1))
    end.

(** The machine once the wait [w] has been resolved with the lowest newly
    pressed key: that key in the register of the wait, and no wait. *)
Definition resolved (c : Chip8) (w : waitInputInfo) : Chip8 :=
  set_wii None
    (set_reg (register w)
       (lowest_key (Z.land (Keyboard c) (zeroBits w))) c).

(** The end of a wait as a cycle that resolves the wait, fetches nothing and
    goes on to the timers. *)
Definition wait_ends_without_fetch (env : Env) (c : Chip8) : Prop :=
  ∀ w, wii c = Some w →
       Z.land (Keyboard c) (zeroBits w) ≠ 0 →
       Tick env c = timers env (resolved c w) [EvOnUpdate].

(** ** Concrete machines *)

Definition blank : Chip8 :=
  {| Memory := []; V := []; I := 0; Stack := Own []; SP := -1; PC := 0;
     DT := 0; ST := 0; Keyboard := 0; Screen := Own []; Width := 0;
     Height := 0; TimerInterval := 0; lastTimerUpdate := 0; wii := None;
     pLdMemory := false; pLdSetMemory := false; pShr := false;
     pShl := false |}.

(** The machine made with settings [s] and loaded with [file]. *)
Definition machine (s : Chip8Settings) (file : list Z) : Chip8 :=
  default blank (boot s file).

(** The machine after [n] cycles. *)
Definition after (n : nat) (env : Env) (c : Chip8) : Chip8 :=
  snd (fst (Run_n n env c)).

Definition at_time (t : Z) : Env := {| now := t; random := 0 |}.

(** A machine that runs [LD V1,K] and then sees the keys of [keys] go down;
    [LD VA,42] is the next instruction. *)
Definition key_wait_machine (keys : Z) : Chip8 :=
  set_Keyboard keys
    (after 1 (at_time 1000)
       (machine DefaultSettings [0xF1; 0x0A; 0x6A; 0x42])).

(** ** Well-formed machines

    What [New] establishes and every cycle keeps: the sizes fixed at
    construction, the ranges of the Go types, the stack pointer within the
    stack, the windows of realistic mode within the memory. *)

Definition bytes (l : list Z) : Prop := Forall is_u8 l.
Definition words (l : list Z) : Prop := Forall is_u16 l.

Definition stack_ok (c : Chip8) : Prop :=
  match Stack c with
  | Own d => words d
  | Window off n => (off + 2 * n <= length (Memory c))%nat
  end.

Definition screen_ok (c : Chip8) : Prop :=
  match Screen c with
  | Own d => bytes d
  | Window off n => (off + n <= length (Memory c))%nat
  end.

Definition wii_ok (c : Chip8) : Prop :=
  match wii c with
  | Some w => 0 <= register w < 16 ∧ is_u16 (zeroBits w)
  | None => True
  end.

Record wf (c : Chip8) : Prop := {
  wf_Memory : bytes (Memory c);
  wf_MemorySize : Z.of_nat (length (Memory c)) <= 0xFFFF;
  wf_V : bytes (V c);
  wf_V16 : length (V c) = 16%nat;
  wf_I : is_u16 (I c);
  wf_PC : is_u16 (PC c);
  wf_SP : -1 <= SP c < stack_len c;
  wf_Stack : stack_ok c;
  wf_Screen : screen_ok c;
  wf_DT : is_u8 (DT c);
  wf_ST : is_u8 (ST c);
  wf_Keyboard : is_u16 (Keyboard c);
  wf_Width : 8 <= Width c < 256 ∧ Width c mod 8 = 0;
  wf_Height : 15 <= Height c < 256 ∧ Height c mod 8 = 0;
  wf_screen_len : screen_len c = Width c / 8 * Height c;
  wf_TimerInterval : 0 < TimerInterval c;
  wf_wii : wii_ok c
}.

(** The machine in which the fetch of this cycle takes place, if any: none
    while a wait goes on. *)
Definition fetch_state (c : Chip8) : option Chip8 :=
  match wii c with
  | Some w =>
      let changed := Z.land (Keyboard c) (zeroBits w) in
      if changed =? 0 then None
      else Some (set_wii None (wait_key_loop 15 changed 0x0001 (register w) c))
  | None => Some c
  end.

(** The two bytes at the program counter lie within the memory. *)
Definition fetch_in_bounds (c : Chip8) : Prop :=
  PC c <= Z.of_nat (length (Memory c)) - 2.

(** If the instruction at the program counter is EX9E or EXA1, VX holds a
    key number. *)
Definition key_in_range (c : Chip8) : Prop :=
  ∀ b0 b1, fetch c = Some (b0, b1) →
           Tick_switch b0 b1 = Skp ∨ Tick_switch b0 b1 = Sknp →
           reg c (opX b0) <= 0xF.

(** The outcome of a cycle. *)
Definition outcome (r : Outcome * Chip8 * list Event) : Outcome := fst (fst r).

Definition completes (o : Outcome) : Prop :=
  o = Done ∨ ∃ e, o = Failed e.

(** What an arm may do to a well-formed machine [c]: fall out of the switch
    with a well-formed machine, or return an error with [c] untouched. *)
Definition good_step (c : Chip8) (s : Step) : Prop :=
  match s with
  | Next c' _ => wf c'
  | Stop (Failed _) c' => c' = c
  | Stop _ _ => False
  end.

(** What a store to the memory, the screen or the stack leaves as it was. *)
Record same_frame (c c' : Chip8) : Prop := {
  sf_V : V c' = V c;
  sf_I : I c' = I c;
  sf_SP : SP c' = SP c;
  sf_PC : PC c' = PC c;
  sf_Width : Width c' = Width c;
  sf_Height : Height c' = Height c;
  sf_length : length (Memory c') = length (Memory c);
  sf_screen_len : screen_len c' = screen_len c;
  sf_stack_len : stack_len c' = stack_len c
}.

(** ** The screen as a list of bytes *)

(** The bytes of the screen, wherever they are kept. *)
Definition screen_bytes (c : Chip8) : list Z :=
  match Screen c with
  | Own d => d
  | Window off n => take n (drop off (Memory c))
  end.

Definition window_of (s : buffer) : option (nat * nat) :=
  match s with
  | Own _ => None
  | Window off n => Some (off, n)
  end.

(** The memory of [c'] is that of [c] outside the window of the screen. *)
Definition mem_outside (c c' : Chip8) : Prop :=
  match Screen c with
  | Own _ => Memory c' = Memory c
  | Window off n =>
      ∀ a : nat, (a < off ∨ off + n <= a)%nat → Memory c' !! a = Memory c !! a
  end.

(** What a draw leaves as it was: all but the contents of the screen, of the
    memory and of the registers. *)
Record draw_frame (c c' : Chip8) : Prop := {
  df_I : I c' = I c;
  df_Stack : Stack c' = Stack c;
  df_SP : SP c' = SP c;
  df_PC : PC c' = PC c;
  df_DT : DT c' = DT c;
  df_ST : ST c' = ST c;
  df_Keyboard : Keyboard c' = Keyboard c;
  df_Width : Width c' = Width c;
  df_Height : Height c' = Height c;
  df_TimerInterval : TimerInterval c' = TimerInterval c;
  df_lastTimerUpdate : lastTimerUpdate c' = lastTimerUpdate c;
  df_wii : wii c' = wii c;
  df_length : length (Memory c') = length (Memory c);
  df_window : window_of (Screen c') = window_of (Screen c);
  df_screen_len : screen_len c' = screen_len c
}.

(** [scr[i] ^= m] *)
Definition xor_byte (i m : Z) (scr : list Z) : list Z :=
  alter (λ s, Z.lxor s m) (Z.to_nat i) scr.

(** The two screen bytes of the row [y] that a sprite row at column [x]
    falls on, for a screen [W] pixels wide. *)
Definition row_index (W x y : Z) : Z := y * (W / 8) + x / 8.
Definition row_next (W x y : Z) : Z := y * (W / 8) + (x / 8 + 1) mod (W / 8).

(** The part of the sprite row [sp] that goes to each of them. *)
Definition row_left (sp x : Z) : Z := Z.shiftr sp (x mod 8).
Definition row_right (sp x : Z) : Z := u8 (Z.shiftl sp (8 - x mod 8)).

(** The screen after one sprite row has been xored in. *)
Definition paint_row (W sp x y : Z) (scr : list Z) : list Z :=
  let scr1 := xor_byte (row_index W x y) (row_left sp x) scr in
  if x mod 8 =? 0 then scr1
  else xor_byte (row_next W x y) (row_right sp x) scr1.

(** The screen after the rows of [sprite] have been xored in from line [y]
    down, wrapping at the bottom. *)
Fixpoint paint (W H : Z) (sprite : list Z) (x y : Z) (scr : list Z) : list Z :=
  match sprite with
  | [] => scr
  | sp :: rest => paint W H rest x ((y + 1) mod H) (paint_row W sp x y scr)
  end.

(** The search of [collision_loop] on the old and new values of the two
    bytes, already masked. *)
Fixpoint collides (fuel : nat) (mask o1 n1 o2 n2 bitoff : Z) : bool :=
  if Z.land o1 mask >? Z.land n1 mask then true
  else if negb (bitoff =? 0) && (Z.land o2 mask >? Z.land n2 mask) then true
  else if mask =? 0x80 then false
  else
    match fuel with
    | O => false
    | S fuel' => collides fuel' (u8 (Z.shiftl mask 1)) o1 n1 o2 n2 bitoff
    end.

(** Whether xoring the row [sp] into [scr] turns a pixel off. *)
Definition row_collides (W sp x y : Z) (scr : list Z) : bool :=
  let bitoff := x mod 8 in
  let mask1 := Z.shiftr 0xFF bitoff in
  let mask2 := not8 mask1 in
  let i := Z.to_nat (row_index W x y) in
  let j := Z.to_nat (row_next W x y) in
  let scr1 := xor_byte (row_index W x y) (row_left sp x) scr in
  let scr2 := paint_row W sp x y scr in
  collides 7 0x01
    (Z.land (scr !!! i) mask1) (Z.land (scr2 !!! i) mask1)
    (Z.land (scr1 !!! j) mask2) (Z.land (scr2 !!! j) mask2) bitoff.

Fixpoint paint_collides (W H : Z) (sprite : list Z) (x y : Z) (scr : list Z)
    : bool :=
  match sprite with
  | [] => false
  | sp :: rest =>
      row_collides W sp x y scr
      || paint_collides W H rest x ((y + 1) mod H) (paint_row W sp x y scr)
  end.

(** The [n] bytes of the sprite at [I]. *)
Definition sprite_at (c : Chip8) (n : Z) : list Z :=
  take (Z.to_nat n) (drop (Z.to_nat (I c)) (Memory c)).

(** The bytes from [a] on for [n] bytes lie outside the window of the
    screen: drawing does not write them. *)
Definition apart_from_screen (c : Chip8) (a n : Z) : Prop :=
  match Screen c with
  | Own _ => True
  | Window off m => a + n <= Z.of_nat off ∨ Z.of_nat (off + m) <= a
  end.

(** The pixel at column [px], line [py] of the screen. *)
Definition pixel (c : Chip8) (px py : Z) : bool :=
  Z.testbit (screen_bytes c !!! Z.to_nat (row_index (Width c) px py))
            (7 - px mod 8).

(** The pixel at column [k] of the row [r] of the sprite at [I]. *)
Definition sprite_pixel (c : Chip8) (r k : Z) : bool :=
  Z.testbit (Memory c !!! Z.to_nat (I c + r)) (7 - k).

(** Where the sprite pixel [(r, k)] lands when the sprite is drawn at
    [(x, y)]. *)
Definition lands_x (c : Chip8) (x k : Z) : Z := (x + k) mod Width c.
Definition lands_y (c : Chip8) (y r : Z) : Z := (y + r) mod Height c.

(** Every screen pixel under a set pixel of the [n]-row sprite drawn at
    [(x, y)] is off. *)
Definition sprite_area_off (c : Chip8) (x y n : Z) : Prop :=
  ∀ r k, 0 <= r < n → 0 <= k < 8 →
         sprite_pixel c r k = true →
         pixel c (lands_x c x k) (lands_y c y r) = false.

(** The same on the bytes of the screen: the bits that the row [sp] will
    flip are clear, or are set. *)
Definition row_clear (W sp x y : Z) (scr : list Z) : Prop :=
  Z.land (scr !!! Z.to_nat (row_index W x y)) (row_left sp x) = 0
  ∧ (x mod 8 ≠ 0 →
     Z.land (scr !!! Z.to_nat (row_next W x y)) (row_right sp x) = 0).

Definition row_lit (W sp x y : Z) (scr : list Z) : Prop :=
  Z.land (scr !!! Z.to_nat (row_index W x y)) (row_left sp x) = row_left sp x
  ∧ (x mod 8 ≠ 0 →
     Z.land (scr !!! Z.to_nat (row_next W x y)) (row_right sp x)
     = row_right sp x).

(** The ranges that the Go types give the settings. *)
Definition settings_typed (s : Chip8Settings) : Prop :=
  is_u16 (Settings.MemorySize s)
  ∧ is_u8 (Settings.Width s) ∧ is_u8 (Settings.Height s).

(** The byte [j] of the screen belongs to the line [y]. *)
Definition in_band (W y : Z) (j : nat) : Prop :=
  y * (W / 8) <= Z.of_nat j < y * (W / 8) + W / 8.

(** What the timers leave as it was. *)
Record timers_keep (c c' : Chip8) : Prop := {
  tk_Memory : Memory c' = Memory c;
  tk_V : V c' = V c;
  tk_I : I c' = I c;
  tk_PC : PC c' = PC c;
  tk_Screen : Screen c' = Screen c;
  tk_Width : Width c' = Width c;
  tk_Height : Height c' = Height c;
  tk_wii : wii c' = wii c
}.

(** The sprite of [n] rows at [I] has a set pixel. *)
Definition sprite_not_empty (c : Chip8) (n : Z) : Prop :=
  ∃ r k, 0 <= r < n ∧ 0 <= k < 8 ∧ sprite_pixel c r k = true.

(** A machine that draws the font sprite of the digit 0 (5 rows at I = 0) twice at
    the top left corner of a blank screen. *)
Definition draw_twice_machine : Chip8 :=
  machine DefaultSettings [0xD0; 0x15; 0xD0; 0x15].

(** ** The methods of the instruction records *)

(** [isPrintableASCII] *)
Fixpoint isPrintableASCII (s : list Z) : bool :=
  match s with
  | [] => true
  | c :: rest =>
      if c >? 126 then false
      else if c <? 32 then false
      else isPrintableASCII rest
  end.

(** [ASCII()]: [string(i.b)] when the bytes are printable, the empty string
    otherwise. *)
Definition ASCII (i : Instruction) : list Z :=
  if isPrintableASCII (b i) then b i else [].

(** [Address()], a method of [Sys] (the whole opcode) and of [Jp], [Call]
    and [JpV0] (the opcode without its first digit). *)
Definition Address (i : Instruction) : option Z :=
  match kind i with
  | Sys => Some (Opcode i)
  | Jp | Call | JpV0 => Some (Z.land (Opcode i) 0x0FFF)
  | _ => None
  end.

(** [Register()]: [i.b[0] & 0x0F], a method of the records with one
    register. *)
Definition Register (i : Instruction) : option Z :=
  match kind i with
  | Se | Sne | Ld | Add | Rnd | Skp | Sknp | LdDelayTimer | LdKeyboard
  | LdSetDelayTimer | LdSetSoundTimer | AddI | LdFont | LdBcd | LdSetMemory
  | LdMemory => b0 ← b i !! 0%nat; Some (Z.land b0 0x0F)
  | _ => None
  end.

(** [Value()]: [i.b[1]] for [Se], [Sne], [Ld], [Add] and [Rnd], the opcode
    without its first digit for [LdI]. *)
Definition Value (i : Instruction) : option Z :=
  match kind i with
  | Se | Sne | Ld | Add | Rnd => b i !! 1%nat
  | LdI => Some (Z.land (Opcode i) 0x0FFF)
  | _ => None
  end.

(** [Register1()] and [Register2()]: [i.b[0] & 0x0F] and
    [i.b[1] & 0xF0 >> 4], methods of the records with two registers. *)
Definition two_registers (k : Kind) : bool :=
  match k with
  | SeRegister | LdRegister | Or | And | Xor | AddRegister | SubRegister
  | Shr | Subn | Shl | SneRegister | Drw => true
  | _ => false
  end.

Definition Register1 (i : Instruction) : option Z :=
  if two_registers (kind i)
  then b0 ← b i !! 0%nat; Some (Z.land b0 0x0F)
  else None.

Definition Register2 (i : Instruction) : option Z :=
  if two_registers (kind i)
  then b1 ← b i !! 1%nat; Some (Z.shiftr (Z.land b1 0xF0) 4)
  else None.

(** [Rows()]: [i.b[1] & 0x0F], a method of [Drw]. *)
Definition Rows (i : Instruction) : option Z :=
  match kind i with
  | Drw => b1 ← b i !! 1%nat; Some (Z.land b1 0x0F)
  | _ => None
  end.

(** The bounds of [isPrintableASCII]. *)
Definition printable (c : Z) : Prop := 32 <= c <= 126.

(** ** Loading a program from a byte array *)

(** [LoadRaw]: the program goes to 0x200; the program counter is left as it
    is.  [None] is the [OutOfMemoryErr]. *)
Definition LoadRaw (program : list Z) (c : Chip8) : option Chip8 :=
  if Z.of_nat (length program) >? Z.of_nat (length (Memory c)) - 0x200
  then None
  else Some (set_Memory
               (take 0x200 (Memory c)
                  ++ copy (drop 0x200 (Memory c)) program) c).

(** The slice [ha.Memory[0x200 : 0x200+progSize]] that the command line
    program hands to the disassembler after [Load]. *)
Definition loaded_program (progSize : nat) (c : Chip8) : list Z :=
  take progSize (drop 0x200 (Memory c)).

(** ** The driver registry *)

Section Registry.

(** The drivers themselves: what they do when called is outside the
    machine; the calls they receive are the events of a cycle. *)
Context {Driver : Type}.

(** [drivers[name]]: [drivers] is a Go map from names to interface values;
    [None] is the [nil] interface, which a name that is not in the map reads
    as, too. *)
Definition drivers_at (drivers : gmap string (option Driver)) (name : string)
    : option Driver :=
  default None (drivers !! name).

(** [RegisterDriver]: the map afterwards, and whether the error is [nil]. *)
Definition RegisterDriver (name : string) (drv : option Driver)
    (drivers : gmap string (option Driver))
    : gmap string (option Driver) * bool :=
  match drivers_at drivers name with
  | Some _ => (drivers, false)
  | None => (<[name := drv]> drivers, true)
  end.

(** [UnregisterDriver] *)
Definition UnregisterDriver (name : string)
    (drivers : gmap string (option Driver))
    : gmap string (option Driver) * bool :=
  match drivers_at drivers name with
  | None => (drivers, false)
  | Some _ => (delete name drivers, true)
  end.

(** [init]: the empty map, in which the null driver is registered. *)
Definition init_drivers (NullDriver : Driver) : gmap string (option Driver) :=
  fst (RegisterDriver "null" (Some NullDriver) ∅).

(** [New] from its first line on.  With a name that has no driver the
    message of the error is formatted from [c.driver], read through the
    result [c], which is still [nil] at that point: a nil pointer
    dereference.  [s] is [None] for [nil] settings. *)
Definition New_driver (drivers : gmap string (option Driver))
    (driver : string) (s : option Chip8Settings) : NewResult :=
  match drivers_at drivers driver with
  | None => NewPanic
  | Some _ => New (default DefaultSettings s)
  end.

End Registry.

(** ** Notions used to state what a cycle does *)

(** What the timers at the end of a cycle leave as it was: all but [DT],
    [ST] and [lastTimerUpdate]. *)
Record same_but_timers (c c' : Chip8) : Prop := {
  bt_Memory : Memory c' = Memory c;
  bt_V : V c' = V c;
  bt_I : I c' = I c;
  bt_Stack : Stack c' = Stack c;
  bt_SP : SP c' = SP c;
  bt_PC : PC c' = PC c;
  bt_Keyboard : Keyboard c' = Keyboard c;
  bt_Screen : Screen c' = Screen c;
  bt_Width : Width c' = Width c;
  bt_Height : Height c' = Height c;
  bt_TimerInterval : TimerInterval c' = TimerInterval c;
  bt_wii : wii c' = wii c;
  bt_pLdMemory : pLdMemory c' = pLdMemory c;
  bt_pLdSetMemory : pLdSetMemory c' = pLdSetMemory c;
  bt_pShr : pShr c' = pShr c;
  bt_pShl : pShl c' = pShl c
}.

(** The time from which the timer loop counts: the time of the last update
    or, when there has been none, now. *)
Definition timer_base (env : Env) (c : Chip8) : Z :=
  if lastTimerUpdate c =? 0 then now env else lastTimerUpdate c.

(** The number of whole timer intervals that have elapsed since then. *)
Definition elapsed_intervals (env : Env) (c : Chip8) : Z :=
  Z.max 0 ((now env - timer_base env c) / TimerInterval c).

(** The machine with another timer interval; the field is exported. *)
Definition set_TimerInterval (t : Z) (c : Chip8) : Chip8 :=
  {| Memory := Memory c; V := V c; I := I c; Stack := Stack c; SP := SP c;
     PC := PC c; DT := DT c; ST := ST c; Keyboard := Keyboard c;
     Screen := Screen c; Width := Width c; Height := Height c;
     TimerInterval := t; lastTimerUpdate := lastTimerUpdate c;
     wii := wii c; pLdMemory := pLdMemory c; pLdSetMemory := pLdSetMemory c;
     pShr := pShr c; pShl := pShl c |}.

(** The well-formed machine [c] waits for no key and has the instruction
    word [b0 b1], which the switch of [Tick] sends to the arm [k], at its
    program counter. *)
Definition runs (c : Chip8) (k : Kind) (b0 b1 : Z) : Prop :=
  wf c ∧ wii c = None ∧ fetch c = Some (b0, b1) ∧ Tick_switch b0 b1 = k.

(** The register that a shift reads: VY with the legacy closures, VX with
    the others. *)
Definition shift_source (legacy : bool) (b0 b1 : Z) : Z :=
  if legacy then opY b1 else opX b0.

(** The key whose number is [n] is down. *)
Definition key_down (c : Chip8) (n : Z) : bool := Z.testbit (Keyboard c) n.

(** The address that the closures of [ldMemory] and [ldSetMemory] use at the
    turn [i] of their loop, [I] being the address register at that turn: the
    legacy closures have moved [I] along, the others add [i]. *)
Definition closure_address (legacy : bool) (i : Z) (c : Chip8) : Z :=
  I c + (if legacy then 0 else i).

(** The three decimal digits of a byte. *)
Definition hundreds (v : Z) : Z := v / 10 / 10.
Definition tens (v : Z) : Z := v / 10 mod 10.
Definition ones (v : Z) : Z := v mod 10.

(** The two bytes of the instruction at the program counter lie outside the
    stack entry that a call is about to write (in realistic mode the stack is
    a window of the memory). *)
Definition call_apart (c : Chip8) : Prop :=
  match Stack c with
  | Own _ => True
  | Window off _ =>
      PC c + 2 <= Z.of_nat off + 2 * (SP c + 1)
      ∨ Z.of_nat off + 2 * (SP c + 1) + 2 <= PC c
  end.

(** What the sprite row [sp], drawn at column [x] of the line [y], xors
    into the byte [j] of the screen: its left part into the byte of [x],
    its right part, when [x] is not a multiple of 8, into the next byte of
    the line. *)
Definition row_mask (W sp x y : Z) (j : nat) : Z :=
  Z.lxor
    (if decide (j = Z.to_nat (row_index W x y)) then row_left sp x else 0)
    (if decide (x mod 8 ≠ 0 ∧ j = Z.to_nat (row_next W x y))
     then row_right sp x else 0).

(** The four closures that [New] picks from the settings, here the flags
    that say which were picked. *)
Definition closures (c : Chip8) : bool * bool * bool * bool :=
  (pLdMemory c, pLdSetMemory c, pShr c, pShl c).

(* ===================================================================== *)
(** * Properties *)
(* ===================================================================== *)

(** ** The disassembler *)

Section Disassembler.

(** Induction on a byte list two bytes at a time. *)
Lemma list_pair_ind (P : list Z → Prop) :
  P [] → (∀ x, P [x]) → (∀ x y l, P l → P (x :: y :: l)) → ∀ l, P l.
Proof.
  intros Hnil Hone Hstep.
  assert (H : ∀ l, P l ∧ ∀ x, P (x :: l)).
  { induction l as [|y l [IH1 IH2]]; split; auto. }
  intros l. apply H.
Qed.

Lemma even_length_cons2 x y (l : list Z) :
  even_length (x :: y :: l) = even_length l.
Proof.
  unfold even_length. cbn [length].
  rewrite !Nat2Z.inj_succ.
  replace (Z.succ (Z.succ (Z.of_nat (length l))))
    with (Z.of_nat (length l) + 1 * 2) by lia.
  now rewrite Z.mod_add by lia.
Qed.

Lemma disassemble_loop_length (bs : list Z) :
  Z.of_nat (length (disassemble_loop bs)) = Z.of_nat (length bs) / 2.
Proof.
  induction bs as [| x | x y l IH] using list_pair_ind; try reflexivity.
  cbn [disassemble_loop length]. rewrite !Nat2Z.inj_succ, IH.
  replace (Z.succ (Z.succ (Z.of_nat (length l))))
    with (Z.of_nat (length l) + 1 * 2) by lia.
  rewrite Z.div_add by lia. lia.
Qed.

Lemma disassemble_loop_bytes (bs : list Z) :
  even_length bs = true → concat (b <$> disassemble_loop bs) = bs.
Proof.
  induction bs as [| x | x y l IH] using list_pair_ind; intros Hev.
  - reflexivity.
  - discriminate Hev.
  - rewrite even_length_cons2 in Hev. cbn. now rewrite IH.
Qed.

Lemma disassemble_loop_sizes (bs : list Z) :
  Forall (λ i, Size i = 2) (disassemble_loop bs).
Proof.
  induction bs as [| x | x y l IH] using list_pair_ind; cbn; auto.
Qed.

Lemma disassemble_loop_total (bs : list Z) :
  even_length bs = true →
  total_size (disassemble_loop bs) = Z.of_nat (length bs).
Proof.
  induction bs as [| x | x y l IH] using list_pair_ind; intros Hev.
  - reflexivity.
  - discriminate Hev.
  - rewrite even_length_cons2 in Hev. specialize (IH Hev).
    unfold total_size in *. cbn [disassemble_loop fmap list_fmap fold_right].
    rewrite IH. unfold Size. cbn [b length]. lia.
Qed.

Lemma disassemble_loop_kinds (bs : list Z) (k : nat) (i : Instruction) :
  disassemble_loop bs !! k = Some i →
  ∃ b0 b1, bs !! (2 * k)%nat = Some b0 ∧ bs !! (2 * k + 1)%nat = Some b1
           ∧ i = {| kind := DisassembleSimple_switch b0 b1; b := [b0; b1] |}.
Proof.
  revert k. induction bs as [| x | x y l IH] using list_pair_ind; intros k Hk.
  - discriminate.
  - discriminate.
  - destruct k as [|k]; cbn in Hk.
    + inversion Hk; subst. exists x, y. auto.
    + destruct (IH _ Hk) as (b0 & b1 & H0 & H1 & ->).
      exists b0, b1. replace (2 * S k)%nat with (S (S (2 * k))) by lia.
      cbn. auto.
Qed.

End Disassembler.

(** C9.  [DisassembleSimple] on a buffer of even length [L] returns no error
    and exactly [L/2] records, one per 2-byte word in order (their bytes put
    end to end are the buffer), each of size 2, so that the sizes sum to [L];
    on a buffer of odd length it returns the alignment error and no record;
    and the error is returned exactly when the length is odd. *)
Theorem DisassembleSimple_records (bs : list Z) :
  (if even_length bs
   then snd (DisassembleSimple bs) = None
        ∧ Z.of_nat (length (fst (DisassembleSimple bs)))
          = Z.of_nat (length bs) / 2
        ∧ concat (b <$> fst (DisassembleSimple bs)) = bs
        ∧ Forall (λ i, Size i = 2) (fst (DisassembleSimple bs))
        ∧ total_size (fst (DisassembleSimple bs)) = Z.of_nat (length bs)
   else DisassembleSimple bs = ([], Some OddAligned))
  ∧ (snd (DisassembleSimple bs) = Some OddAligned
     ↔ Z.of_nat (length bs) mod 2 = 1).
Proof.
  unfold DisassembleSimple. fold (even_length bs).
  destruct (even_length bs) eqn:Hev; cbn [negb fst snd].
  - split.
    + repeat split.
      * apply disassemble_loop_length.
      * now apply disassemble_loop_bytes.
      * apply disassemble_loop_sizes.
      * now apply disassemble_loop_total.
    + unfold even_length in Hev. apply Z.eqb_eq in Hev.
      split; [discriminate | lia].
  - split; [reflexivity|].
    unfold even_length in Hev. apply Z.eqb_neq in Hev.
    split; [|reflexivity]. intros _.
    pose proof (Z.mod_pos_bound (Z.of_nat (length bs)) 2). lia.
Qed.

(** ** The two switches *)

Section Switches.

Ltac switch_cases :=
  repeat match goal with
    | |- context [if ?a =? ?k then _ else _] =>
        destruct (Z.eqb_spec a k); try reflexivity; try congruence
    end.

(** Outside the group 9 the switch of [Tick] and the switch of
    [DisassembleSimple] choose the same arm for every word. *)
Lemma switches_agree_outside_9 (b0 b1 : Z) :
  Z.land b0 0xF0 ≠ 0x90 →
  Tick_switch b0 b1 = DisassembleSimple_switch b0 b1.
Proof.
  intros H9. unfold Tick_switch, DisassembleSimple_switch. cbv zeta.
  switch_cases.
Qed.

(** In the group 9 the interpreter compares two registers and the
    disassembler makes the record of 4XNN. *)
Lemma switches_differ_in_9 (b0 b1 : Z) :
  Z.land b0 0xF0 = 0x90 →
  Tick_switch b0 b1 = SneRegister ∧ DisassembleSimple_switch b0 b1 = Sne.
Proof.
  intros H9. unfold Tick_switch, DisassembleSimple_switch. cbv zeta.
  rewrite H9. split; reflexivity.
Qed.

End Switches.

(** C5.  At the word 9120 ([SNE V1,V2]) the dispatch of the interpreter
    takes the arm of 9XY0 while the disassembler builds the record of 4XNN:
    the two classifications of one word differ. *)
Theorem switches_disagree_at_9120 :
  Tick_switch 0x91 0x20 = SneRegister
  ∧ kind <$> fst (DisassembleSimple [0x91; 0x20]) = [Sne]
  ∧ Tick_switch 0x91 0x20 ≠ DisassembleSimple_switch 0x91 0x20.
Proof. split; [reflexivity | split; [reflexivity | discriminate]]. Qed.

(** ** Jump with offset *)

(** What [JP V0,NNN] leaves in the program counter, for every word and
    every state: two less than the sum, modulo 2^16. *)
Lemma exec_JpV0_PC (b0 b1 : Z) (c : Chip8) :
  ∃ c', exec_JpV0 b0 b1 c = Next c' []
        ∧ PC c' = u16 (opNNN b0 b1 + reg c 0 - 2)
        ∧ PC c' ≠ u16 (opNNN b0 b1 + reg c 0).
Proof.
  eexists. split; [reflexivity|]. cbn [PC set_PC]. unfold u16.
  split.
  - now rewrite Zminus_mod_idemp_l.
  - rewrite Zminus_mod_idemp_l.
    intros Heq.
    pose proof (Z.mod_pos_bound (opNNN b0 b1 + reg c 0) 65536 eq_refl).
    pose proof (Z.mod_pos_bound (opNNN b0 b1 + reg c 0 - 2) 65536 eq_refl).
    pose proof (Z.div_mod (opNNN b0 b1 + reg c 0) 65536).
    pose proof (Z.div_mod (opNNN b0 b1 + reg c 0 - 2) 65536).
    lia.
Qed.

(** C4.  The default machine loaded with the one word B200 ([JP V0,200]),
    with V0 = 0: after the cycle the program counter is 0x1FE, not
    0x200 = NNN + V0. *)
Theorem JpV0_B200_lands_at_1FE :
  match boot DefaultSettings [0xB2; 0x00] with
  | Some c =>
      reg c 0 = 0
      ∧ (let '(o, c', _) := Tick {| now := 1; random := 0 |} c in
         o = Done ∧ PC c' = 0x1FE ∧ PC c' ≠ u16 (0x200 + reg c 0))
  | None => False
  end.
Proof. vm_compute. repeat split; discriminate. Qed.

(** ** Registers *)

Section Registers.

Lemma opX_range (b0 : Z) : 0 <= opX b0 < 16.
Proof.
  unfold opX. change 0x0F with (Z.ones 4). rewrite Z.land_ones by lia.
  apply Z.mod_pos_bound. reflexivity.
Qed.

Lemma opY_range (b1 : Z) : 0 <= opY b1 < 16.
Proof.
  unfold opY. rewrite Z.shiftr_land. change (Z.shiftr 0xF0 4) with (Z.ones 4).
  rewrite Z.land_ones by lia. apply Z.mod_pos_bound. reflexivity.
Qed.

Lemma reg_set_reg_eq (c : Chip8) (i v : Z) :
  0 <= i < Z.of_nat (length (V c)) → reg (set_reg i v c) i = v.
Proof.
  intros Hi. unfold reg, set_reg. cbn [V set_V].
  apply list_lookup_total_insert_eq. lia.
Qed.

Lemma reg_set_reg_ne (c : Chip8) (i j v : Z) :
  0 <= i → 0 <= j → i ≠ j → reg (set_reg i v c) j = reg c j.
Proof.
  intros Hi Hj Hne. unfold reg, set_reg. cbn [V set_V].
  apply list_lookup_total_insert_ne. lia.
Qed.

Lemma length_V_set_reg (c : Chip8) (i v : Z) :
  length (V (set_reg i v c)) = length (V c).
Proof. unfold set_reg. cbn [V set_V]. apply length_insert. Qed.

End Registers.

(** ** SUB and SUBN *)

Section Subtract.

Variable c : Chip8.
Variables b0 b1 : Z.
Hypothesis V16 : length (V c) = 16%nat.
Hypothesis X_not_F : opX b0 ≠ 0xF.
Hypothesis Y_not_F : opY b1 ≠ 0xF.

(** With neither operand in VF, SUB leaves the no-borrow flag in VF and the
    difference modulo 256 in VX. *)
Lemma exec_SubRegister_plain :
  ∃ c', exec_SubRegister b0 b1 c = Next c' []
        ∧ reg c' 0xF = (if reg c (opX b0) >=? reg c (opY b1) then 1 else 0)
        ∧ reg c' (opX b0) = u8 (reg c (opX b0) - reg c (opY b1)).
Proof.
  pose proof (opX_range b0). pose proof (opY_range b1).
  eexists. split; [reflexivity|]. cbv zeta. split.
  - rewrite reg_set_reg_ne by lia. apply reg_set_reg_eq. rewrite V16. lia.
  - rewrite reg_set_reg_eq by (rewrite length_V_set_reg, V16; lia).
    now rewrite !reg_set_reg_ne by lia.
Qed.

(** With neither operand in VF, SUBN leaves in VF 0 when VX > VY and 1
    otherwise, and VY - VX modulo 256 in VX. *)
Lemma exec_Subn_plain :
  ∃ c', exec_Subn b0 b1 c = Next c' []
        ∧ reg c' 0xF = (if reg c (opX b0) >? reg c (opY b1) then 0 else 1)
        ∧ reg c' (opX b0) = u8 (reg c (opY b1) - reg c (opX b0)).
Proof.
  pose proof (opX_range b0). pose proof (opY_range b1).
  eexists. split; [reflexivity|]. cbv zeta. split.
  - rewrite reg_set_reg_ne by lia. apply reg_set_reg_eq. rewrite V16. lia.
  - rewrite reg_set_reg_eq by (rewrite length_V_set_reg, V16; lia).
    now rewrite !reg_set_reg_ne by lia.
Qed.

End Subtract.

(** C7.  The default machine running [LD V1,0A; LD VF,03; SUB V1,VF]: the
    flag is written before the subtraction reads VF, so V1 ends as
    10 - 1 = 9 and not as VX - VY = 10 - 3 = 7.  With VF as the first operand
    ([LD VF,05; LD V1,02; SUB VF,V1]) VF ends as 1 - 2 = 255 and not as the
    no-borrow flag 1. *)
Theorem SUB_with_VF_operand :
  match boot DefaultSettings [0x61; 0x0A; 0x6F; 0x03; 0x81; 0xF5],
        boot DefaultSettings [0x6F; 0x05; 0x61; 0x02; 0x8F; 0x15] with
  | Some c, Some d =>
      (let '(o, c', _) := Run_n 3 {| now := 1; random := 0 |} c in
       o = Done ∧ reg c' 1 = 9 ∧ reg c' 0xF = 1 ∧ reg c' 1 ≠ u8 (10 - 3))
      ∧ (let '(o, d', _) := Run_n 3 {| now := 1; random := 0 |} d in
         o = Done ∧ reg d' 0xF = 255 ∧ reg d' 1 = 2)
  | _, _ => False
  end.
Proof. vm_compute. repeat split; discriminate. Qed.

(** ** The call stack *)

Section CallStack.

(** CALL on a full stack and RET on an empty one return the stack overflow
    error and leave the machine as it is. *)
Lemma exec_Call_full (pc0 : Z) (c : Chip8) :
  stack_len c - 1 <= SP c →
  exec_Call pc0 c = Stop (Failed StackOverflowErr) c.
Proof.
  intros Hfull. unfold exec_Call.
  destruct (Z.geb_spec (SP c) (stack_len c - 1)); [reflexivity | lia].
Qed.

Lemma exec_RET_empty (c : Chip8) :
  SP c < 0 → exec_Sys 0x00 0xEE c = Stop (Failed StackOverflowErr) c.
Proof.
  intros Hempty. unfold exec_Sys. cbn.
  destruct (Z.ltb_spec (SP c) 0); [reflexivity | lia].
Qed.

(** The length of the stack that [New] makes: the stack size when the stack
    has its own array, half of it (rounded down) in realistic mode, where
    the slice of [StackSize] bytes is reread as [uint16] elements. *)
Lemma New_stack_len (s : Chip8Settings) (c : Chip8) :
  0 <= Settings.StackSize s <= 12 →
  New s = NewOk c →
  stack_len c = if Settings.Realistic s then Settings.StackSize s / 2
                else Settings.StackSize s.
Proof.
  intros Hsz. unfold New.
  destruct (negb (Validate s)); [discriminate|].
  destruct (_ <? 0); [discriminate|].
  destruct (Settings.Realistic s).
  - unfold u16. rewrite (Z.mod_small (Settings.StackSize s)) by lia.
    rewrite (Z.mod_small (3744 + Settings.StackSize s)) by lia.
    destruct (negb _); [discriminate|]. destruct (negb _); [discriminate|].
    intros [= <-]. unfold stack_len. cbn [Stack].
    replace (3744 + Settings.StackSize s - 3744) with (Settings.StackSize s)
      by lia.
    rewrite Z2Nat.id; [reflexivity|]. apply Z.div_pos; lia.
  - destruct (Z.ltb_spec (Settings.StackSize s) 0); [lia|].
    intros [= <-]. unfold stack_len. cbn [Stack].
    rewrite length_replicate. lia.
Qed.

End CallStack.

(** C1.  The default machine (StackSize 12, realistic mode) has a stack of
    6 entries.  Loaded with [CALL 200] at 0x200 it makes 6 calls; the 7th
    cycle returns the stack overflow error and pushes nothing.  Loaded with
    [RET], the first cycle returns the stack overflow error and pops
    nothing. *)
Theorem default_stack_holds_6_calls :
  match boot DefaultSettings [0x22; 0x00],
        boot DefaultSettings [0x00; 0xEE] with
  | Some c, Some d =>
      stack_len c = 6 ∧ SP c = -1
      ∧ (let '(o, c6, _) := Run_n 6 {| now := 1; random := 0 |} c in
         o = Done ∧ SP c6 = 5
         ∧ (let '(o7, c7, _) := Tick {| now := 1; random := 0 |} c6 in
            o7 = Failed StackOverflowErr
            ∧ c7 = set_PC (u16 (PC c6 + 2)) c6))
      ∧ (let '(o, d', _) := Tick {| now := 1; random := 0 |} d in
         o = Failed StackOverflowErr ∧ d' = set_PC (u16 (PC d + 2)) d)
  | _, _ => False
  end.
Proof. vm_compute. repeat split. Qed.

(** ** Waiting for a key *)

(** While the wait lasts, [Tick] returns at once: the state is untouched and
    the timers are not looked at. *)
Lemma Tick_waiting (env : Env) (c : Chip8) (w : waitInputInfo) :
  wii c = Some w →
  Z.land (Keyboard c) (zeroBits w) = 0 →
  Tick env c = (Done, c, [EvOnUpdate]).
Proof. intros Hw Hz. unfold Tick. now rewrite Hw, Hz. Qed.

(** C3.  The default machine runs [LD V0,05; LD DT,V0; LD ST,V0; LD V1,K]
    at time 1000 and then, with no key down, one more cycle ten timer
    intervals later: that cycle returns with the machine as it was, the
    delay and sound timers still 5, and no beep. *)
Theorem waiting_cycle_leaves_timers :
  match boot DefaultSettings [0x60; 0x05; 0xF0; 0x15; 0xF0; 0x18; 0xF1; 0x0A] with
  | Some c =>
      let '(o, c4, _) := Run_n 4 {| now := 1000; random := 0 |} c in
      o = Done ∧ DT c4 = 5 ∧ ST c4 = 5 ∧ lastTimerUpdate c4 = 1000
      ∧ (∃ w, wii c4 = Some w ∧ Z.land (Keyboard c4) (zeroBits w) = 0)
      ∧ Tick {| now := 1000 + 10 * TimerInterval c4; random := 0 |} c4
        = (Done, c4, [EvOnUpdate])
  | None => False
  end.
Proof.
  vm_compute. repeat split. eexists. split; reflexivity.
Qed.

Section KeyWait.

Lemma KeyNumbers_at_pow2 (k : Z) :
  0 <= k < 16 → KeyNumbers_at (2 ^ k) = k.
Proof.
  intros Hk.
  assert (Hc : k = 0 ∨ k = 1 ∨ k = 2 ∨ k = 3 ∨ k = 4 ∨ k = 5 ∨ k = 6 ∨ k = 7
               ∨ k = 8 ∨ k = 9 ∨ k = 10 ∨ k = 11 ∨ k = 12 ∨ k = 13
               ∨ k = 14 ∨ k = 15) by lia.
  repeat (destruct Hc as [-> | Hc]; [reflexivity|]). now subst.
Qed.

Lemma land_pow2 (a k : Z) :
  0 <= k → Z.land a (2 ^ k) = if Z.testbit a k then 2 ^ k else 0.
Proof.
  intros Hk. apply Z.bits_inj'. intros n Hn.
  rewrite Z.land_spec, Z.pow2_bits_eqb by lia.
  destruct (Z.eqb_spec k n) as [->|Hne].
  - destruct (Z.testbit a n) eqn:E; cbn.
    + now rewrite Z.pow2_bits_true.
    + now rewrite Z.bits_0.
  - rewrite andb_false_r.
    destruct (Z.testbit a k).
    + now rewrite Z.pow2_bits_false.
    + now rewrite Z.bits_0.
Qed.

(** From the key [k >= 1] on, the loop yields the first key of [k..15] whose
    bit is set, and 0 when there is none. *)
Lemma wait_key_val_from (changed : Z) (n : nat) (k : Z) :
  1 <= k → k + Z.of_nat n = 15 →
  wait_key_val n changed (2 ^ k)
  = default 0 (find (Z.testbit changed)
                    (Z.of_nat <$> seq (Z.to_nat k) (S n))).
Proof.
  revert k. induction n as [|n IH]; intros k Hk Hn.
  - assert (k = 15) as -> by lia.
    cbn [wait_key_val seq fmap list_fmap find].
    rewrite land_pow2 by lia. change (Z.of_nat (Z.to_nat 15)) with 15.
    destruct (Z.testbit changed 15); reflexivity.
  - cbn [wait_key_val]. rewrite land_pow2 by lia.
    cbn [seq fmap list_fmap find]. rewrite Z2Nat.id by lia.
    destruct (Z.testbit changed k) eqn:Hbit.
    + rewrite KeyNumbers_at_pow2 by lia.
      destruct (Z.eqb_spec k 0); [lia | reflexivity].
    + change (KeyNumbers_at 0) with 0. cbn [Z.eqb negb].
      destruct (Z.eqb_spec (2 ^ k) 0x8000) as [He|_].
      { change 0x8000 with (2 ^ 15) in He.
        apply Z.pow_inj_r in He; lia. }
      replace (u16 (Z.shiftl (2 ^ k) 1)) with (2 ^ (k + 1)).
      * rewrite IH by lia. now replace (Z.to_nat (k + 1)) with (S (Z.to_nat k)) by lia.
      * rewrite Z.shiftl_mul_pow2 by lia. rewrite <- Z.pow_add_r by lia.
        unfold u16. symmetry. apply Z.mod_small. split; [lia|].
        change 65536 with (2 ^ 16). apply Z.pow_lt_mono_r; lia.
Qed.

Lemma wait_key_val_S (fuel : nat) (changed mask : Z) :
  wait_key_val (S fuel) changed mask
  = let v := KeyNumbers_at (Z.land changed mask) in
    if negb (v =? 0) then v
    else if mask =? 0x8000 then v
    else wait_key_val fuel changed (u16 (Z.shiftl mask 1)).
Proof. reflexivity. Qed.

(** What the loop stores, for every value of [changed]: the lowest pressed
    key among 1..15, and 0 when none of these is pressed.  Key 0 is never
    seen as pressed, its number being the value that means "not found". *)
Lemma wait_key_val_exact (changed : Z) :
  wait_key_val 15 changed 0x0001
  = default 0 (find (Z.testbit changed) (tail key_numbers)).
Proof.
  assert (H0 : KeyNumbers_at (Z.land changed 1) = 0).
  { change 1 with (2 ^ 0). rewrite land_pow2 by lia.
    destruct (Z.testbit changed 0); reflexivity. }
  rewrite (wait_key_val_S 14), H0.
  change (u16 (Z.shiftl 1 1)) with (2 ^ 1). cbn [Z.eqb negb Pos.eqb].
  now rewrite (wait_key_val_from changed 14 1) by lia.
Qed.

Lemma wait_key_loop_val (fuel : nat) (changed mask r : Z) (c : Chip8) :
  0 <= r < Z.of_nat (length (V c)) →
  wait_key_loop fuel changed mask r c
  = set_reg r (wait_key_val fuel changed mask) c.
Proof.
  revert mask c. induction fuel as [|fuel IH]; intros mask c Hr;
    cbn [wait_key_loop wait_key_val]; rewrite reg_set_reg_eq by lia.
  - destruct (negb _); [reflexivity|]. destruct (mask =? _); reflexivity.
  - destruct (negb _); [reflexivity|]. destruct (mask =? _); [reflexivity|].
    rewrite IH by (rewrite length_V_set_reg; lia).
    unfold set_reg. cbn [V set_V]. now rewrite list_insert_insert_eq.
Qed.

(** When key 0 is not newly pressed, or is the only key newly pressed, the
    loop finds the lowest newly pressed key. *)
Lemma wait_key_val_lowest (changed : Z) :
  Z.testbit changed 0 = false ∨ changed = 1 →
  wait_key_val 15 changed 0x0001 = lowest_key changed.
Proof.
  intros [H0 | ->]; rewrite wait_key_val_exact; [|reflexivity].
  unfold lowest_key, key_numbers. cbn [find tail]. now rewrite H0.
Qed.

Lemma find_testbit_range (changed : Z) (n s : nat) (k : Z) :
  find (Z.testbit changed) (Z.of_nat <$> seq s n) = Some k →
  Z.of_nat s <= k < Z.of_nat s + Z.of_nat n
  ∧ Z.testbit changed k = true
  ∧ ∀ j, Z.of_nat s <= j < k → Z.testbit changed j = false.
Proof.
  revert s. induction n as [|n IH]; intros s; cbn [seq fmap list_fmap find].
  - discriminate.
  - destruct (Z.testbit changed (Z.of_nat s)) eqn:Hs.
    + intros [= <-]. repeat split; try lia; auto.
    + intros Hf. destruct (IH _ Hf) as (Hr & Hb & Hlow).
      repeat split; try lia; auto.
      intros j Hj. destruct (Z.eq_dec j (Z.of_nat s)) as [->|Hne]; [exact Hs|].
      apply Hlow. lia.
Qed.

(** [lowest_key] is a pressed key, and no lower key is pressed. *)
Lemma lowest_key_spec (changed : Z) :
  0 < changed < 65536 →
  0 <= lowest_key changed < 16
  ∧ Z.testbit changed (lowest_key changed) = true
  ∧ ∀ j, 0 <= j < lowest_key changed → Z.testbit changed j = false.
Proof.
  intros Hc. unfold lowest_key.
  destruct (find (Z.testbit changed) key_numbers) as [k|] eqn:Hf.
  - change (default 0 (Some k)) with k.
    change key_numbers with (Z.of_nat <$> seq 0 16) in Hf.
    apply find_testbit_range in Hf. change (Z.of_nat 0) with 0 in Hf.
    change (Z.of_nat 16) with 16 in Hf. tauto.
  - exfalso. assert (changed = 0); [|lia].
    apply Z.bits_inj'. intros n Hn. rewrite Z.bits_0.
    destruct (Z_lt_le_dec n 16) as [Hlt|Hge].
    + pose proof (find_none _ _ Hf n) as Hnone. apply Hnone.
      unfold key_numbers. cbn [In]. lia.
    + apply Z.bits_above_log2; [lia|].
      apply Z.lt_le_trans with 16; [|lia].
      apply Z.log2_lt_pow2; lia.
Qed.

End KeyWait.

(** C2, as the code has it.  On the first cycle where some bit of
    (keyboard AND wait mask) is set, and key 0 is either not newly pressed or
    the only key newly pressed, the cycle is the ordinary cycle (fetch,
    execute, timers) of the machine in which the register of the wait holds
    the lowest-numbered newly pressed key and no wait is pending: the next
    instruction runs in this same cycle. *)
Theorem key_wait_resolution (env : Env) (c : Chip8) (w : waitInputInfo) :
  wii c = Some w →
  Z.land (Keyboard c) (zeroBits w) ≠ 0 →
  Z.testbit (Z.land (Keyboard c) (zeroBits w)) 0 = false
  ∨ Z.land (Keyboard c) (zeroBits w) = 1 →
  0 <= register w < Z.of_nat (length (V c)) →
  Tick env c = cycle env (resolved c w) [EvOnUpdate]
  ∧ Tick env c = Tick env (resolved c w)
  ∧ wii (resolved c w) = None
  ∧ reg (resolved c w) (register w)
    = lowest_key (Z.land (Keyboard c) (zeroBits w)).
Proof.
  intros Hw Hne Hk Hr.
  assert (Hcyc : Tick env c = cycle env (resolved c w) [EvOnUpdate]).
  { unfold Tick. rewrite Hw.
    destruct (Z.eqb_spec (Z.land (Keyboard c) (zeroBits w)) 0) as [|_];
      [contradiction|].
    rewrite wait_key_loop_val by exact Hr.
    now rewrite wait_key_val_lowest by exact Hk. }
  repeat split.
  - exact Hcyc.
  - rewrite Hcyc. reflexivity.
  - exact (reg_set_reg_eq c _ _ Hr).
Qed.

(** The theorem at work: key 5 goes down while [LD V1,K] waits. *)
Lemma key_wait_resolution_witness :
  let c := key_wait_machine 0x20 in
  let w := {| register := 1; zeroBits := 0xFFFF |} in
  wii c = Some w
  ∧ Tick (at_time 2000) c = cycle (at_time 2000) (resolved c w) [EvOnUpdate]
  ∧ reg (resolved c w) 1 = 5.
Proof.
  intros c w.
  assert (Hw : wii c = Some w) by (vm_compute; reflexivity).
  assert (Hne : Z.land (Keyboard c) (zeroBits w) ≠ 0)
    by (vm_compute; discriminate).
  assert (Hk : Z.testbit (Z.land (Keyboard c) (zeroBits w)) 0 = false
               ∨ Z.land (Keyboard c) (zeroBits w) = 1)
    by (left; vm_compute; reflexivity).
  assert (Hr : 0 <= register w < Z.of_nat (length (V c)))
    by (vm_compute; split; [discriminate | reflexivity]).
  destruct (key_wait_resolution (at_time 2000) c w Hw Hne Hk Hr)
    as (H1 & _ & _ & H4).
  split; [exact Hw|]. split; [exact H1|].
  etransitivity; [exact H4|]. vm_compute. reflexivity.
Defined.

(** C2, as stated, fails: with key 5 going down the cycle that ends the wait
    does not stop at the timers, it fetches and runs [LD VA,42], which moves
    the program counter to 0x204. *)
Lemma key_wait_fetches_in_same_cycle :
  ¬ wait_ends_without_fetch (at_time 2000) (key_wait_machine 0x20).
Proof.
  intros Hclaim.
  specialize (Hclaim {| register := 1; zeroBits := 0xFFFF |}).
  assert (Heq : PC (snd (fst (Tick (at_time 2000) (key_wait_machine 0x20))))
                = PC (snd (fst (timers (at_time 2000)
                        (resolved (key_wait_machine 0x20)
                           {| register := 1; zeroBits := 0xFFFF |})
                        [EvOnUpdate])))).
  { rewrite Hclaim; [reflexivity | vm_compute; reflexivity
                    | vm_compute; discriminate]. }
  vm_compute in Heq. discriminate Heq.
Qed.

(** With keys 0 and 1 going down together the register receives 1: key 0,
    the lowest, is passed over. *)
Example key_0_is_passed_over :
  let c := key_wait_machine 0x03 in
  lowest_key (Z.land (Keyboard c) 0xFFFF) = 0
  ∧ reg (snd (fst (Tick (at_time 2000) c))) 1 = 1.
Proof. vm_compute. split; reflexivity. Qed.

(** ** Errors leave the machine alone *)

Section Errors.

Ltac split_arm :=
  repeat match goal with
    | |- context [if ?x then _ else _] => destruct x
    | |- context [match ?x with _ => _ end] => destruct x
    end;
  intros Hstop; try discriminate Hstop; inversion Hstop; reflexivity.

(** An arm that returns an error returns the machine it was given. *)
Lemma exec_Failed_unchanged (env : Env) (pc0 b0 b1 : Z) (c c' : Chip8)
    (e : error) :
  exec env pc0 b0 b1 c = Stop (Failed e) c' → c' = c.
Proof.
  unfold exec.
  destruct (Tick_switch b0 b1);
    unfold exec_Sys, exec_Jp, exec_Call, exec_Se, exec_Sne, exec_SeRegister,
      exec_Ld, exec_Add, exec_LdRegister, exec_Or, exec_And, exec_Xor,
      exec_AddRegister, exec_SubRegister, exec_Shr, exec_Subn, exec_Shl,
      exec_SneRegister, exec_LdI, exec_JpV0, exec_Rnd, exec_Drw, exec_Skp,
      exec_Sknp, exec_LdDelayTimer, exec_LdKeyboard, exec_LdSetDelayTimer,
      exec_LdSetSoundTimer, exec_AddI, exec_LdFont, exec_LdBcd,
      exec_LdSetMemory, exec_LdMemory; cbv zeta; split_arm.
Qed.

(** The timers never return an error. *)
Lemma timers_not_Failed (env : Env) (c c' : Chip8) (evs evs' : list Event)
    (e : error) :
  timers env c evs ≠ (Failed e, c', evs').
Proof.
  unfold timers. destruct (timer_loop _ _ _ _) as [[? ?]|]; discriminate.
Qed.

End Errors.

(** C6.  A cycle that starts with no pending wait and returns an error
    leaves the machine as it was at the start except for the program
    counter, which is two further (modulo 2^16); the only driver call made
    is the one that opens the cycle. *)
Theorem error_changes_only_PC (env : Env) (c c' : Chip8) (e : error)
    (evs : list Event) :
  wii c = None →
  Tick env c = (Failed e, c', evs) →
  c' = set_PC (u16 (PC c + 2)) c ∧ evs = [EvOnUpdate].
Proof.
  intros Hw. unfold Tick, cycle. rewrite Hw.
  destruct (fetch c) as [[b0 b1]|]; [|discriminate].
  destruct (exec env (PC c) b0 b1 (set_PC (u16 (PC c + 2)) c))
    as [c1 evs1 | o c1] eqn:Hexec.
  - intros Ht. now apply timers_not_Failed in Ht.
  - intros [= -> -> <-]. split; [|reflexivity].
    now apply exec_Failed_unchanged in Hexec.
Qed.

(** The theorem at work: [RET] on the empty stack of the default machine. *)
Lemma error_changes_only_PC_witness :
  let c := machine DefaultSettings [0x00; 0xEE] in
  wii c = None
  ∧ (∃ c', Tick (at_time 1000) c = (Failed StackOverflowErr, c', [EvOnUpdate])
           ∧ c' = set_PC 0x202 c).
Proof.
  intros c.
  assert (Hw : wii c = None) by (vm_compute; reflexivity).
  split; [exact Hw|].
  eexists. split; [vm_compute; reflexivity|].
  assert (Ht : Tick (at_time 1000) c
               = (Failed StackOverflowErr,
                  snd (fst (Tick (at_time 1000) c)), [EvOnUpdate]))
    by (vm_compute; reflexivity).
  destruct (error_changes_only_PC _ _ _ _ _ Hw Ht) as [Hc _].
  vm_compute in Hc. vm_compute. exact Hc.
Defined.

(** ** Ranges of the machine integers *)

Section Ranges.

Lemma u8_range (z : Z) : is_u8 (u8 z).
Proof. apply Z.mod_pos_bound. reflexivity. Qed.

Lemma u16_range (z : Z) : is_u16 (u16 z).
Proof. apply Z.mod_pos_bound. reflexivity. Qed.

Lemma u8_small (z : Z) : is_u8 z → u8 z = z.
Proof. apply Z.mod_small. Qed.

Lemma u16_small (z : Z) : is_u16 z → u16 z = z.
Proof. apply Z.mod_small. Qed.

(** A number is below [2^n] when it has no bit from [n] up. *)
Lemma below_pow2_bits (a n : Z) :
  0 <= n →
  (0 <= a < 2 ^ n ↔ 0 <= a ∧ ∀ k, n <= k → Z.testbit a k = false).
Proof.
  intros Hn. split.
  - intros [Ha Hlt]. split; [exact Ha|]. intros k Hk.
    destruct (Z.eq_dec a 0) as [->|Hne]; [apply Z.bits_0|].
    apply Z.bits_above_log2; [lia|].
    apply Z.lt_le_trans with n; [|exact Hk].
    apply Z.log2_lt_pow2; lia.
  - intros [Ha Hbits]. split; [exact Ha|].
    replace a with (a mod 2 ^ n).
    + apply Z.mod_pos_bound. apply Z.pow_pos_nonneg; lia.
    + apply Z.bits_inj'. intros k Hk.
      destruct (Z_lt_le_dec k n).
      * apply Z.mod_pow2_bits_low. lia.
      * rewrite Z.mod_pow2_bits_high by lia. symmetry. now apply Hbits.
Qed.

Lemma land_below (a b n : Z) :
  0 <= n → 0 <= b < 2 ^ n → 0 <= Z.land a b < 2 ^ n.
Proof.
  intros Hn Hb. apply below_pow2_bits in Hb as [Hb0 Hb]; [|exact Hn].
  apply below_pow2_bits; [exact Hn|]. split.
  - apply Z.land_nonneg. now right.
  - intros k Hk. rewrite Z.land_spec, (Hb k Hk). apply andb_false_r.
Qed.

Lemma lor_below (a b n : Z) :
  0 <= n → 0 <= a < 2 ^ n → 0 <= b < 2 ^ n → 0 <= Z.lor a b < 2 ^ n.
Proof.
  intros Hn Ha Hb.
  apply below_pow2_bits in Ha as [Ha0 Ha]; [|exact Hn].
  apply below_pow2_bits in Hb as [Hb0 Hb]; [|exact Hn].
  apply below_pow2_bits; [exact Hn|]. split.
  - now apply Z.lor_nonneg.
  - intros k Hk. now rewrite Z.lor_spec, (Ha k Hk), (Hb k Hk).
Qed.

Lemma lxor_below (a b n : Z) :
  0 <= n → 0 <= a < 2 ^ n → 0 <= b < 2 ^ n → 0 <= Z.lxor a b < 2 ^ n.
Proof.
  intros Hn Ha Hb.
  apply below_pow2_bits in Ha as [Ha0 Ha]; [|exact Hn].
  apply below_pow2_bits in Hb as [Hb0 Hb]; [|exact Hn].
  apply below_pow2_bits; [exact Hn|]. split.
  - now apply Z.lxor_nonneg.
  - intros k Hk. now rewrite Z.lxor_spec, (Ha k Hk), (Hb k Hk).
Qed.

Lemma shiftr_below (a s n : Z) :
  0 <= n → 0 <= s → 0 <= a < 2 ^ n → 0 <= Z.shiftr a s < 2 ^ n.
Proof.
  intros Hn Hs [Ha Hlt]. rewrite Z.shiftr_div_pow2 by exact Hs.
  assert (0 < 2 ^ s) by (apply Z.pow_pos_nonneg; lia).
  split.
  - apply Z.div_pos; lia.
  - apply Z.le_lt_trans with a; [|exact Hlt].
    apply Z.div_le_upper_bound; [lia|]. nia.
Qed.

Lemma land_u8 (a b : Z) : is_u8 b → is_u8 (Z.land a b).
Proof. apply (land_below a b 8). lia. Qed.

Lemma lor_u8 (a b : Z) : is_u8 a → is_u8 b → is_u8 (Z.lor a b).
Proof. apply (lor_below a b 8). lia. Qed.

Lemma lxor_u8 (a b : Z) : is_u8 a → is_u8 b → is_u8 (Z.lxor a b).
Proof. apply (lxor_below a b 8). lia. Qed.

Lemma shiftr_u8 (a s : Z) : 0 <= s → is_u8 a → is_u8 (Z.shiftr a s).
Proof. apply (shiftr_below a s 8). lia. Qed.

Lemma opNNN_range (b0 b1 : Z) : is_u8 b1 → 0 <= opNNN b0 b1 < 4096.
Proof.
  intros Hb1. unfold opNNN. apply (lor_below _ _ 12); [lia| |unfold is_u8 in Hb1; lia].
  pose proof (opX_range b0) as Hx. unfold opX in Hx.
  rewrite Z.shiftl_mul_pow2 by lia. lia.
Qed.

Lemma opNNN_u16 (b0 b1 : Z) : is_u8 b1 → is_u16 (opNNN b0 b1).
Proof. intros H. pose proof (opNNN_range b0 b1 H). unfold is_u16. lia. Qed.

End Ranges.

(** ** Well-formedness is kept by the writes *)

Section Frames.

Ltac unfold_wf :=
  unfold stack_len, screen_len, stack_ok, screen_ok, wii_ok in *.

Ltac frame :=
  let H := fresh "Hwf" in
  intros H; intros; destruct H; constructor; unfold_wf;
  cbn [Memory V I Stack SP PC DT ST Keyboard Screen Width Height TimerInterval
       lastTimerUpdate wii set_Memory set_V set_I set_Stack set_SP set_PC set_DT
       set_ST set_Screen set_lastTimerUpdate set_wii set_Keyboard set_reg] in *;
  auto.

Lemma wf_set_PC (c : Chip8) (pc : Z) : wf c → is_u16 pc → wf (set_PC pc c).
Proof. frame. Qed.

Lemma wf_set_I (c : Chip8) (i : Z) : wf c → is_u16 i → wf (set_I i c).
Proof. frame. Qed.

Lemma wf_set_DT (c : Chip8) (t : Z) : wf c → is_u8 t → wf (set_DT t c).
Proof. frame. Qed.

Lemma wf_set_ST (c : Chip8) (t : Z) : wf c → is_u8 t → wf (set_ST t c).
Proof. frame. Qed.

Lemma wf_set_lastTimerUpdate (c : Chip8) (t : Z) :
  wf c → wf (set_lastTimerUpdate t c).
Proof. frame. Qed.

Lemma wf_set_Keyboard (c : Chip8) (k : Z) :
  wf c → is_u16 k → wf (set_Keyboard k c).
Proof. frame. Qed.

Lemma wf_set_SP (c : Chip8) (sp : Z) :
  wf c → -1 <= sp < stack_len c → wf (set_SP sp c).
Proof. frame. Qed.

Lemma wf_set_wii_None (c : Chip8) : wf c → wf (set_wii None c).
Proof. frame. Qed.

Lemma wf_set_wii_Some (c : Chip8) (w : waitInputInfo) :
  wf c → 0 <= register w < 16 → is_u16 (zeroBits w) →
  wf (set_wii (Some w) c).
Proof. frame. Qed.

Lemma bytes_insert (l : list Z) (i : nat) (v : Z) :
  bytes l → is_u8 v → bytes (<[i := v]> l).
Proof. intros Hl Hv. now apply Forall_insert. Qed.

Lemma words_insert (l : list Z) (i : nat) (v : Z) :
  words l → is_u16 v → words (<[i := v]> l).
Proof. intros Hl Hv. now apply Forall_insert. Qed.

Lemma wf_set_reg (c : Chip8) (i v : Z) : wf c → is_u8 v → wf (set_reg i v c).
Proof.
  frame.
  - now apply bytes_insert.
  - now rewrite length_insert.
Qed.

Lemma wf_set_Memory (c : Chip8) (i : nat) (v : Z) :
  wf c → is_u8 v → wf (set_Memory (<[i := v]> (Memory c)) c).
Proof.
  frame; try (now apply bytes_insert); now rewrite length_insert.
Qed.

Lemma wf_mem_store (c c' : Chip8) (a v : Z) :
  wf c → is_u8 v → mem_store a v c = Some c' → wf c'.
Proof.
  intros Hwf Hv. unfold mem_store.
  destruct (_ && _); [|discriminate]. intros [= <-].
  now apply wf_set_Memory.
Qed.

Lemma wf_screen_store (c c' : Chip8) (i v : Z) :
  wf c → is_u8 v → screen_store i v c = Some c' → wf c'.
Proof.
  intros Hwf Hv. unfold screen_store.
  destruct (_ && _); [|discriminate].
  destruct (Screen c) as [d | off n] eqn:Hs.
  - intros [= <-]. destruct Hwf. constructor; unfold_wf;
      cbn [Memory V I Stack SP PC DT ST Keyboard Screen Width Height
           TimerInterval lastTimerUpdate wii set_Screen] in *; auto.
    + rewrite Hs in wf_Screen0. now apply bytes_insert.
    + rewrite Hs in wf_screen_len0. now rewrite length_insert.
  - destruct (_ <? _)%nat; [|discriminate]. intros [= <-].
    now apply wf_set_Memory.
Qed.

Lemma wf_stack_store (c c' : Chip8) (i v : Z) :
  wf c → is_u16 v → stack_store i v c = Some c' → wf c'.
Proof.
  intros Hwf Hv. unfold stack_store.
  destruct (_ && _); [|discriminate].
  destruct (Stack c) as [d | off n] eqn:Hs.
  - intros [= <-]. destruct Hwf. constructor; unfold_wf;
      cbn [Memory V I Stack SP PC DT ST Keyboard Screen Width Height
           TimerInterval lastTimerUpdate wii set_Stack] in *; auto.
    + rewrite Hs in wf_SP0. now rewrite length_insert.
    + rewrite Hs in wf_Stack0. now apply words_insert.
  - destruct (_ <? _)%nat; [|discriminate]. intros [= <-].
    assert (Hlo : is_u8 (Z.land v 255)) by (apply land_u8; unfold is_u8; lia).
    assert (Hhi : is_u8 (Z.shiftr v 8)).
    { unfold is_u8, is_u16 in *. rewrite Z.shiftr_div_pow2 by lia.
      change (2 ^ 8) with 256. split.
      - apply Z.div_pos; lia.
      - apply Z.div_lt_upper_bound; lia. }
    pose proof (wf_set_Memory c (off + 2 * Z.to_nat i) _ Hwf Hlo) as Hwf1.
    exact (wf_set_Memory _ (off + 2 * Z.to_nat i + 1) _ Hwf1 Hhi).
Qed.

(** The registers and the bytes they are made of are in range. *)
Lemma reg_u8 (c : Chip8) (i : Z) : wf c → is_u8 (reg c i).
Proof.
  intros Hwf. unfold reg.
  destruct (decide (Z.to_nat i < length (V c))%nat) as [Hlt|Hge].
  - apply list_lookup_lookup_total_lt in Hlt.
    exact (proj1 (Forall_lookup _ _) (wf_V c Hwf) _ _ Hlt).
  - rewrite list_lookup_total_alt, lookup_ge_None_2 by lia.
    cbn. unfold is_u8. lia.
Qed.

Lemma mem_at_u8 (c : Chip8) (a v : Z) : wf c → mem_at c a = Some v → is_u8 v.
Proof.
  intros Hwf. unfold mem_at. destruct (a <? 0); [discriminate|].
  intros Hl. exact (proj1 (Forall_lookup _ _) (wf_Memory c Hwf) _ _ Hl).
Qed.

Lemma mem_at_Some (c : Chip8) (a : Z) :
  0 <= a < Z.of_nat (length (Memory c)) → ∃ v, mem_at c a = Some v.
Proof.
  intros Ha. unfold mem_at. destruct (Z.ltb_spec a 0); [lia|].
  apply lookup_lt_is_Some. lia.
Qed.

End Frames.

(** ** The arms on well-formed machines *)

Section Arms.

Variable c : Chip8.
Variables b0 b1 : Z.
Hypothesis Hwf : wf c.
Hypothesis Hb0 : is_u8 b0.
Hypothesis Hb1 : is_u8 b1.

Lemma wf_skip_if (t : bool) : wf (skip_if t c).
Proof.
  unfold skip_if. destruct t; [|exact Hwf].
  apply wf_set_PC; [exact Hwf | apply u16_range].
Qed.

Lemma bit_u8 (t : bool) : is_u8 (if t then 1 else 0).
Proof. destruct t; unfold is_u8; lia. Qed.

Lemma bit_u8' (t : bool) : is_u8 (if t then 0 else 1).
Proof. destruct t; unfold is_u8; lia. Qed.

Create HintDb arms.

Hint Resolve wf_set_reg wf_set_PC wf_set_I wf_set_DT wf_set_ST wf_skip_if
  u8_range u16_range reg_u8 land_u8 lor_u8 lxor_u8 shiftr_u8 opNNN_u16
  wf_DT wf_ST bit_u8 bit_u8' : arms.

Ltac arm := cbn [good_step]; cbv zeta; auto 8 with arms.

Lemma good_Jp : good_step c (exec_Jp b0 b1 c).
Proof. unfold exec_Jp. arm. Qed.

Lemma good_Se : good_step c (exec_Se b0 b1 c).
Proof. unfold exec_Se. arm. Qed.

Lemma good_Sne : good_step c (exec_Sne b0 b1 c).
Proof. unfold exec_Sne. arm. Qed.

Lemma good_SeRegister : good_step c (exec_SeRegister b0 b1 c).
Proof. unfold exec_SeRegister. arm. Qed.

Lemma good_Ld : good_step c (exec_Ld b0 b1 c).
Proof. unfold exec_Ld. arm. Qed.

Lemma good_Add : good_step c (exec_Add b0 b1 c).
Proof. unfold exec_Add. arm. Qed.

Lemma good_LdRegister : good_step c (exec_LdRegister b0 b1 c).
Proof. unfold exec_LdRegister. arm. Qed.

Lemma good_Or : good_step c (exec_Or b0 b1 c).
Proof. unfold exec_Or. arm. Qed.

Lemma good_And : good_step c (exec_And b0 b1 c).
Proof. unfold exec_And. arm. Qed.

Lemma good_Xor : good_step c (exec_Xor b0 b1 c).
Proof. unfold exec_Xor. arm. Qed.

Lemma good_AddRegister : good_step c (exec_AddRegister b0 b1 c).
Proof.
  unfold exec_AddRegister. cbn [good_step]. cbv zeta.
  apply wf_set_reg; [auto with arms|].
  destruct (_ =? 0); unfold is_u8; lia.
Qed.

Lemma good_SubRegister : good_step c (exec_SubRegister b0 b1 c).
Proof. unfold exec_SubRegister. arm. Qed.

Lemma good_Subn : good_step c (exec_Subn b0 b1 c).
Proof. unfold exec_Subn. arm. Qed.

Lemma good_Shr : good_step c (exec_Shr b0 b1 c).
Proof.
  unfold exec_Shr, shr. cbn [good_step].
  assert (is_u8 1) by (unfold is_u8; lia).
  destruct (pShr c); cbv zeta; apply wf_set_reg; auto 8 with arms;
    apply shiftr_u8; auto 8 with arms; lia.
Qed.

Lemma good_Shl : good_step c (exec_Shl b0 b1 c).
Proof.
  unfold exec_Shl, shl. cbn [good_step].
  assert (is_u8 0x80) by (unfold is_u8; lia).
  destruct (pShl c); arm.
Qed.

Lemma good_SneRegister : good_step c (exec_SneRegister b0 b1 c).
Proof. unfold exec_SneRegister. arm. Qed.

Lemma good_LdI : good_step c (exec_LdI b0 b1 c).
Proof. unfold exec_LdI. arm. Qed.

Lemma good_JpV0 : good_step c (exec_JpV0 b0 b1 c).
Proof. unfold exec_JpV0. arm. Qed.

Lemma good_Rnd (rnd : Z) : good_step c (exec_Rnd rnd b0 b1 c).
Proof. unfold exec_Rnd. arm. Qed.

Lemma good_LdDelayTimer : good_step c (exec_LdDelayTimer b0 b1 c).
Proof. unfold exec_LdDelayTimer. arm. Qed.

Lemma good_LdKeyboard : good_step c (exec_LdKeyboard b0 b1 c).
Proof.
  unfold exec_LdKeyboard. cbn [good_step].
  apply wf_set_wii_Some; cbn [register zeroBits]; [exact Hwf | apply opX_range |].
  unfold not16. apply (lxor_below _ _ 16); [lia | apply (wf_Keyboard c Hwf) | lia].
Qed.

Lemma good_LdSetDelayTimer : good_step c (exec_LdSetDelayTimer b0 b1 c).
Proof. unfold exec_LdSetDelayTimer. arm. Qed.

Lemma good_LdSetSoundTimer : good_step c (exec_LdSetSoundTimer b0 b1 c).
Proof. unfold exec_LdSetSoundTimer. arm. Qed.

Lemma good_AddI : good_step c (exec_AddI b0 b1 c).
Proof. unfold exec_AddI. arm. Qed.

Lemma good_LdFont : good_step c (exec_LdFont b0 b1 c).
Proof. unfold exec_LdFont. arm. Qed.

End Arms.

(** ** Stack, screen and memory accesses on well-formed machines *)

Section Accesses.

Lemma screen_store_Some (c : Chip8) (i v : Z) :
  wf c → 0 <= i < screen_len c → ∃ c', screen_store i v c = Some c'.
Proof.
  intros Hwf Hi. unfold screen_store.
  destruct (Z.leb_spec 0 i); [|lia]. destruct (Z.ltb_spec i (screen_len c)); [|lia].
  cbn [andb]. pose proof (wf_Screen c Hwf) as Hs.
  unfold screen_ok, screen_len in *.
  destruct (Screen c) as [d | off n]; [eauto|].
  destruct (Nat.ltb_spec (off + Z.to_nat i) (length (Memory c))); [eauto | lia].
Qed.

Lemma screen_at_Some (c : Chip8) (i : Z) :
  wf c → 0 <= i < screen_len c → ∃ v, screen_at c i = Some v ∧ is_u8 v.
Proof.
  intros Hwf Hi. unfold screen_at.
  destruct (Z.leb_spec 0 i); [|lia]. destruct (Z.ltb_spec i (screen_len c)); [|lia].
  cbn [andb]. pose proof (wf_Screen c Hwf) as Hs.
  unfold screen_ok, screen_len in *.
  destruct (Screen c) as [d | off n].
  - destruct (lookup_lt_is_Some_2 d (Z.to_nat i)) as [v Hv]; [lia|].
    exists v. split; [exact Hv|]. exact (proj1 (Forall_lookup _ _) Hs _ _ Hv).
  - destruct (lookup_lt_is_Some_2 (Memory c) (off + Z.to_nat i)) as [v Hv]; [lia|].
    exists v. split; [exact Hv|].
    exact (proj1 (Forall_lookup _ _) (wf_Memory c Hwf) _ _ Hv).
Qed.

Lemma same_frame_trans (c1 c2 c3 : Chip8) :
  same_frame c1 c2 → same_frame c2 c3 → same_frame c1 c3.
Proof. intros [] []. constructor; congruence. Qed.

Lemma same_frame_set_Memory (c : Chip8) (i : nat) (v : Z) :
  same_frame c (set_Memory (<[i := v]> (Memory c)) c).
Proof.
  constructor; try reflexivity. cbn [Memory set_Memory]. apply length_insert.
Qed.

Lemma screen_store_frame (c c' : Chip8) (i v : Z) :
  screen_store i v c = Some c' → same_frame c c'.
Proof.
  unfold screen_store. destruct (_ && _); [|discriminate].
  destruct (Screen c) as [d | off n] eqn:Hs.
  - intros [= <-]. constructor; try reflexivity.
    unfold screen_len. cbn [Screen set_Screen]. now rewrite Hs, length_insert.
  - destruct (_ <? _)%nat; [|discriminate]. intros [= <-].
    apply same_frame_set_Memory.
Qed.

Lemma mem_store_frame (c c' : Chip8) (a v : Z) :
  mem_store a v c = Some c' → same_frame c c'.
Proof.
  unfold mem_store. destruct (_ && _); [|discriminate]. intros [= <-].
  apply same_frame_set_Memory.
Qed.

Lemma mem_store_Some (c : Chip8) (a v : Z) :
  0 <= a < Z.of_nat (length (Memory c)) → ∃ c', mem_store a v c = Some c'.
Proof.
  intros Ha. unfold mem_store.
  destruct (Z.leb_spec 0 a); [|lia].
  destruct (Z.ltb_spec a (Z.of_nat (length (Memory c)))); [|lia]. cbn. eauto.
Qed.

Lemma stack_at_Some (c : Chip8) (i : Z) :
  wf c → 0 <= i < stack_len c → ∃ v, stack_at c i = Some v ∧ is_u16 v.
Proof.
  intros Hwf Hi. unfold stack_at.
  destruct (Z.leb_spec 0 i); [|lia]. destruct (Z.ltb_spec i (stack_len c)); [|lia].
  cbn [andb]. pose proof (wf_Stack c Hwf) as Hs.
  unfold stack_ok, stack_len in *.
  destruct (Stack c) as [d | off n].
  - destruct (lookup_lt_is_Some_2 d (Z.to_nat i)) as [v Hv]; [lia|].
    exists v. split; [exact Hv|]. exact (proj1 (Forall_lookup _ _) Hs _ _ Hv).
  - destruct (lookup_lt_is_Some_2 (Memory c) (off + 2 * Z.to_nat i)) as [lo Hlo]; [lia|].
    destruct (lookup_lt_is_Some_2 (Memory c) (off + 2 * Z.to_nat i + 1)) as [hi Hhi]; [lia|].
    rewrite Hlo, Hhi. eexists. split; [reflexivity|].
    pose proof (proj1 (Forall_lookup _ _) (wf_Memory c Hwf) _ _ Hlo) as Blo.
    pose proof (proj1 (Forall_lookup _ _) (wf_Memory c Hwf) _ _ Hhi) as Bhi.
    unfold is_u8 in *. apply (lor_below _ _ 16); [lia | lia |].
    rewrite Z.shiftl_mul_pow2 by lia. lia.
Qed.

Lemma stack_store_Some (c : Chip8) (i v : Z) :
  wf c → 0 <= i < stack_len c → ∃ c', stack_store i v c = Some c'.
Proof.
  intros Hwf Hi. unfold stack_store.
  destruct (Z.leb_spec 0 i); [|lia]. destruct (Z.ltb_spec i (stack_len c)); [|lia].
  cbn [andb]. pose proof (wf_Stack c Hwf) as Hs.
  unfold stack_ok, stack_len in *.
  destruct (Stack c) as [d | off n]; [eauto|].
  destruct (Nat.ltb_spec (off + 2 * Z.to_nat i + 1) (length (Memory c)));
    [eauto | lia].
Qed.

Lemma stack_store_frame (c c' : Chip8) (i v : Z) :
  stack_store i v c = Some c' → same_frame c c'.
Proof.
  unfold stack_store. destruct (_ && _); [|discriminate].
  destruct (Stack c) as [d | off n] eqn:Hs.
  - intros [= <-]. constructor; try reflexivity.
    unfold stack_len. cbn [Stack set_Stack]. now rewrite Hs, length_insert.
  - destruct (_ <? _)%nat; [|discriminate]. intros [= <-].
    eapply same_frame_trans; [apply same_frame_set_Memory|].
    apply (same_frame_set_Memory (set_Memory _ c)).
Qed.

End Accesses.

Section MemoryArms.

Variable c : Chip8.
Variables b0 b1 : Z.
Hypothesis Hwf : wf c.
Hypothesis Hb0 : is_u8 b0.
Hypothesis Hb1 : is_u8 b1.

Lemma cls_loop_ok (n : nat) (i : Z) (d : Chip8) :
  wf d → 0 <= i → i + Z.of_nat n <= screen_len d →
  ∃ d', cls_loop n i d = Some d' ∧ wf d'.
Proof.
  revert i d. induction n as [|n IH]; intros i d Hd Hi Hn; cbn [cls_loop].
  - eauto.
  - destruct (screen_store_Some d i 0 Hd) as [d1 H1]; [lia|]. rewrite H1.
    assert (is_u8 0) by (unfold is_u8; lia).
    apply IH; [eapply wf_screen_store; eauto | lia |].
    rewrite (sf_screen_len _ _ (screen_store_frame _ _ _ _ H1)). lia.
Qed.

Lemma good_Sys : good_step c (exec_Sys b0 b1 c).
Proof.
  unfold exec_Sys. cbv zeta.
  destruct (_ =? 0x0E0).
  - destruct (cls_loop_ok (Z.to_nat (screen_len c)) 0 c Hwf) as (c' & -> & Hc');
      [lia | | exact Hc'].
    pose proof (wf_screen_len c Hwf). pose proof (wf_Width c Hwf).
    pose proof (wf_Height c Hwf).
    assert (0 <= Width c / 8) by (apply Z.div_pos; lia). nia.
  - destruct (_ =? 0x0EE); [|exact Hwf].
    destruct (Z.ltb_spec (SP c) 0); [reflexivity|].
    pose proof (wf_SP c Hwf).
    destruct (stack_at_Some c (SP c) Hwf) as (a & -> & Ha); [lia|].
    cbn [good_step]. apply wf_set_SP.
    + now apply wf_set_PC.
    + change (stack_len (set_PC a c)) with (stack_len c). lia.
Qed.

Lemma good_Call (pc0 : Z) :
  0 <= pc0 → pc0 + 2 <= Z.of_nat (length (Memory c)) →
  good_step c (exec_Call pc0 c).
Proof.
  intros Hpc0 Hpc2. unfold exec_Call.
  destruct (Z.geb_spec (SP c) (stack_len c - 1)); [reflexivity|].
  cbv zeta. pose proof (wf_SP c Hwf).
  assert (Hwf1 : wf (set_SP (SP c + 1) c)) by (apply wf_set_SP; [exact Hwf | lia]).
  destruct (stack_store_Some (set_SP (SP c + 1) c) (SP c + 1) (PC c) Hwf1)
    as [c2 H2].
  { change (stack_len (set_SP (SP c + 1) c)) with (stack_len c). lia. }
  cbn [SP PC set_SP]. rewrite H2.
  pose proof (stack_store_frame _ _ _ _ H2) as Hf.
  assert (Hwf2 : wf c2) by (eapply wf_stack_store; eauto; apply (wf_PC c Hwf)).
  pose proof (sf_length _ _ Hf) as Hlen. cbn [Memory set_SP] in Hlen.
  destruct (mem_at_Some c2 pc0) as [x0 Hx0]; [lia|].
  destruct (mem_at_Some c2 (pc0 + 1)) as [x1 Hx1]; [lia|].
  rewrite Hx0, Hx1. cbn [good_step].
  apply wf_set_PC; [exact Hwf2|]. apply opNNN_u16. eapply mem_at_u8; eauto.
Qed.

Lemma key_flag_Some (x : Z) :
  reg c x <= 0xF → ∃ f, key_flag c x = Some f.
Proof.
  intros Hx. unfold key_flag. pose proof (reg_u8 c x Hwf) as Hr.
  unfold is_u8 in Hr. destruct (Z.ltb_spec (reg c x) 0); [lia|].
  apply lookup_lt_is_Some. cbn [KeyFlags length]. lia.
Qed.

Lemma key_flag_None (x : Z) :
  0xF < reg c x → key_flag c x = None.
Proof.
  intros Hx. unfold key_flag. destruct (Z.ltb_spec (reg c x) 0); [reflexivity|].
  apply lookup_ge_None. cbn [KeyFlags length]. lia.
Qed.

Lemma good_Skp : reg c (opX b0) <= 0xF → good_step c (exec_Skp b0 b1 c).
Proof.
  intros Hk. unfold exec_Skp. destruct (key_flag_Some _ Hk) as [f ->].
  cbn [good_step]. now apply wf_skip_if.
Qed.

Lemma good_Sknp : reg c (opX b0) <= 0xF → good_step c (exec_Sknp b0 b1 c).
Proof.
  intros Hk. unfold exec_Sknp. destruct (key_flag_Some _ Hk) as [f ->].
  cbn [good_step]. now apply wf_skip_if.
Qed.

Lemma good_LdBcd : good_step c (exec_LdBcd b0 b1 c).
Proof.
  unfold exec_LdBcd.
  destruct (Z.geb_spec (I c + 2) (Z.of_nat (length (Memory c)))); [reflexivity|].
  destruct (Z.ltb_spec (I c) 0x200); [reflexivity|]. cbn [orb]. cbv zeta.
  pose proof (wf_MemorySize c Hwf) as Hsz.
  pose proof (reg_u8 c (opX b0) Hwf) as Hv. unfold is_u8 in Hv.
  assert (Hd1 : is_u8 (reg c (opX b0) mod 10)).
  { pose proof (Z.mod_pos_bound (reg c (opX b0)) 10). unfold is_u8. lia. }
  assert (Ht : 0 <= reg c (opX b0) / 10 < 26).
  { split; [apply Z.div_pos; lia | apply Z.div_lt_upper_bound; lia]. }
  assert (Hd2 : is_u8 (reg c (opX b0) / 10 mod 10)).
  { pose proof (Z.mod_pos_bound (reg c (opX b0) / 10) 10). unfold is_u8. lia. }
  assert (Hd3 : is_u8 (reg c (opX b0) / 10 / 10)).
  { unfold is_u8. split; [apply Z.div_pos; lia | apply Z.div_lt_upper_bound; lia]. }
  rewrite (u16_small (I c + 2)) by (unfold is_u16; lia).
  destruct (mem_store_Some c (I c + 2) (reg c (opX b0) mod 10)) as [c1 H1]; [lia|].
  rewrite H1. pose proof (mem_store_frame _ _ _ _ H1) as [].
  assert (Hwf1 : wf c1) by exact (wf_mem_store _ _ _ _ Hwf Hd1 H1).
  rewrite sf_I0. rewrite (u16_small (I c + 1)) by (unfold is_u16; lia).
  destruct (mem_store_Some c1 (I c + 1) (reg c (opX b0) / 10 mod 10)) as [c2 H2]; [lia|].
  rewrite H2. pose proof (mem_store_frame _ _ _ _ H2) as [].
  assert (Hwf2 : wf c2) by exact (wf_mem_store _ _ _ _ Hwf1 Hd2 H2).
  destruct (mem_store_Some c2 (I c2) (reg c (opX b0) / 10 / 10)) as [c3 H3]; [lia|].
  rewrite H3. cbn [good_step]. exact (wf_mem_store _ _ _ _ Hwf2 Hd3 H3).
Qed.

Lemma ldSetMemory_ok (key : bool) (n : nat) (i : Z) (d : Chip8) :
  wf d → 0 <= i →
  I d + (if key then 0 else i) + Z.of_nat n <= Z.of_nat (length (Memory d)) →
  ∃ d', ldSetMemory key n i d = Some d' ∧ wf d'.
Proof.
  revert i d. induction n as [|n IH]; intros i d Hd Hi Hn; cbn [ldSetMemory].
  - eauto.
  - pose proof (wf_I d Hd) as HI. pose proof (wf_MemorySize d Hd) as Hsz.
    unfold is_u16 in HI. destruct key.
    + destruct (mem_store_Some d (I d) (reg d i)) as [d1 H1]; [lia|].
      rewrite H1. pose proof (mem_store_frame _ _ _ _ H1) as [].
      assert (Hd1 : wf d1) by exact (wf_mem_store _ _ _ _ Hd (reg_u8 _ _ Hd) H1).
      apply IH; [apply wf_set_I; [exact Hd1 | apply u16_range] | lia |].
      cbn [I set_I Memory]. rewrite sf_I0, sf_length0.
      rewrite u16_small by (unfold is_u16; lia). lia.
    + rewrite u16_small by (unfold is_u16; lia).
      destruct (mem_store_Some d (I d + i) (reg d i)) as [d1 H1]; [lia|].
      rewrite H1. pose proof (mem_store_frame _ _ _ _ H1) as [].
      assert (Hd1 : wf d1) by exact (wf_mem_store _ _ _ _ Hd (reg_u8 _ _ Hd) H1).
      apply IH; [exact Hd1 | lia |].
      rewrite sf_I0, sf_length0. lia.
Qed.

Lemma ldMemory_ok (key : bool) (n : nat) (i : Z) (d : Chip8) :
  wf d → 0 <= i →
  I d + (if key then 0 else i) + Z.of_nat n <= Z.of_nat (length (Memory d)) →
  ∃ d', ldMemory key n i d = Some d' ∧ wf d'.
Proof.
  revert i d. induction n as [|n IH]; intros i d Hd Hi Hn; cbn [ldMemory].
  - eauto.
  - pose proof (wf_I d Hd) as HI. pose proof (wf_MemorySize d Hd) as Hsz.
    unfold is_u16 in HI. destruct key.
    + destruct (mem_at_Some d (I d)) as [x Hx]; [lia|]. rewrite Hx.
      assert (Hd1 : wf (set_reg i x d))
        by (apply wf_set_reg; [exact Hd | eapply mem_at_u8; eauto]).
      apply IH; [apply wf_set_I; [exact Hd1 | apply u16_range] | lia |].
      cbn [I set_I set_reg set_V Memory].
      rewrite u16_small by (unfold is_u16; lia). lia.
    + rewrite u16_small by (unfold is_u16; lia).
      destruct (mem_at_Some d (I d + i)) as [x Hx]; [lia|]. rewrite Hx.
      apply IH; [apply wf_set_reg; [exact Hd | eapply mem_at_u8; eauto] | lia |].
      cbn [I set_reg set_V Memory]. lia.
Qed.

Lemma good_LdSetMemory : good_step c (exec_LdSetMemory b0 b1 c).
Proof.
  unfold exec_LdSetMemory. cbv zeta.
  destruct (_ <? opX b0); [reflexivity|].
  destruct (Z.geb_spec (I c + opX b0) (Z.of_nat (length (Memory c)))); [reflexivity|].
  destruct (Z.ltb_spec (I c) 0x200); [reflexivity|]. cbn [orb].
  pose proof (opX_range b0).
  destruct (ldSetMemory_ok (pLdSetMemory c) (Z.to_nat (opX b0 + 1)) 0 c Hwf)
    as (c' & -> & Hc'); [lia | destruct (pLdSetMemory c); lia | exact Hc'].
Qed.

Lemma good_LdMemory : good_step c (exec_LdMemory b0 b1 c).
Proof.
  unfold exec_LdMemory. cbv zeta.
  destruct (_ <? opX b0); [reflexivity|].
  destruct (Z.geb_spec (I c + opX b0) (Z.of_nat (length (Memory c)))); [reflexivity|].
  destruct (Z.ltb_spec (I c) 0x200); [reflexivity|]. cbn [orb].
  pose proof (opX_range b0).
  destruct (ldMemory_ok (pLdMemory c) (Z.to_nat (opX b0 + 1)) 0 c Hwf)
    as (c' & -> & Hc'); [lia | destruct (pLdMemory c); lia | exact Hc'].
Qed.

End MemoryArms.

(** ** The screen as a list *)

Section ScreenBytes.

Lemma screen_len_bytes (c : Chip8) :
  wf c → Z.of_nat (length (screen_bytes c)) = screen_len c.
Proof.
  intros Hwf. pose proof (wf_Screen c Hwf) as Hs.
  unfold screen_bytes, screen_len, screen_ok in *.
  destruct (Screen c) as [d | off n]; [reflexivity|].
  rewrite length_take, length_drop. lia.
Qed.

Lemma screen_at_bytes (c : Chip8) (i : Z) :
  0 <= i → screen_at c i = screen_bytes c !! Z.to_nat i.
Proof.
  intros Hi. unfold screen_at, screen_bytes, screen_len.
  destruct (Z.leb_spec 0 i); [|lia]. cbn [andb].
  destruct (Screen c) as [d | off n].
  - destruct (Z.ltb_spec i (Z.of_nat (length d))); [reflexivity|].
    symmetry. apply lookup_ge_None. lia.
  - rewrite lookup_take, lookup_drop.
    destruct (Z.ltb_spec i (Z.of_nat n)); destruct (decide (Z.to_nat i < n)%nat);
      try lia; reflexivity.
Qed.

Lemma screen_at_total (c : Chip8) (i v : Z) :
  0 <= i → screen_at c i = Some v → screen_bytes c !!! Z.to_nat i = v.
Proof.
  intros Hi. rewrite screen_at_bytes by exact Hi.
  apply list_lookup_total_correct.
Qed.

Lemma draw_frame_refl (c : Chip8) : draw_frame c c.
Proof. constructor; reflexivity. Qed.

Lemma draw_frame_trans (c1 c2 c3 : Chip8) :
  draw_frame c1 c2 → draw_frame c2 c3 → draw_frame c1 c3.
Proof. intros [] []. constructor; congruence. Qed.

Lemma mem_outside_refl (c : Chip8) : mem_outside c c.
Proof. unfold mem_outside. destruct (Screen c); auto. Qed.

Lemma mem_outside_trans (c1 c2 c3 : Chip8) :
  window_of (Screen c2) = window_of (Screen c1) →
  mem_outside c1 c2 → mem_outside c2 c3 → mem_outside c1 c3.
Proof.
  unfold mem_outside.
  destruct (Screen c1) as [d1 | o1 n1], (Screen c2) as [d2 | o2 n2];
    cbn [window_of]; try discriminate.
  - congruence.
  - intros [= -> ->] H12 H23 a Ha. now rewrite H23, H12.
Qed.

Lemma draw_frame_set_reg (c : Chip8) (i v : Z) : draw_frame c (set_reg i v c).
Proof. constructor; reflexivity. Qed.

(** A store to the screen changes one byte of the screen and nothing
    outside it. *)
Lemma screen_store_facts (c c' : Chip8) (i v : Z) :
  screen_store i v c = Some c' →
  draw_frame c c' ∧ V c' = V c ∧ mem_outside c c'
  ∧ screen_bytes c' = <[Z.to_nat i := v]> (screen_bytes c).
Proof.
  unfold screen_store, mem_outside, screen_bytes, screen_len.
  destruct (Z.leb_spec 0 i); [|discriminate]. cbn [andb].
  destruct (Screen c) as [d | off n] eqn:Hs.
  - destruct (_ <? _); [|discriminate]. intros [= <-].
    split; [|split; [reflexivity | split; reflexivity]].
    constructor; try reflexivity.
    + cbn [Screen set_Screen]. now rewrite Hs.
    + unfold screen_len. cbn [Screen set_Screen]. now rewrite Hs, length_insert.
  - destruct (Z.ltb_spec i (Z.of_nat n)); [|discriminate].
    destruct (_ <? _)%nat; [|discriminate]. intros [= <-].
    cbn [Screen set_Memory Memory V]. rewrite Hs.
    split; [|split; [reflexivity | split]].
    + constructor; try reflexivity.
      * cbn [Memory set_Memory]. apply length_insert.
    + intros a Ha. apply list_lookup_insert_ne. lia.
    + rewrite drop_insert_ge by lia. rewrite take_insert_lt by lia.
      f_equal. lia.
Qed.

Lemma apart_mem_at (c c' : Chip8) (a n k : Z) :
  apart_from_screen c a n → mem_outside c c' →
  0 <= a → 0 <= k < n → mem_at c' (a + k) = mem_at c (a + k).
Proof.
  unfold apart_from_screen, mem_outside, mem_at.
  intros Hap Hout Ha Hk. destruct (_ <? 0); [reflexivity|].
  destruct (Screen c) as [d | off m]; [now rewrite Hout|].
  apply Hout. lia.
Qed.

Lemma apart_frame (c c' : Chip8) (a n : Z) :
  draw_frame c c' → apart_from_screen c a n → apart_from_screen c' a n.
Proof.
  intros Hf. pose proof (df_window _ _ Hf) as Hw.
  unfold apart_from_screen.
  destruct (Screen c) as [d | off m], (Screen c') as [d' | off' m'];
    cbn [window_of] in Hw; try discriminate; auto.
  now injection Hw as -> ->.
Qed.

End ScreenBytes.

(** ** Drawing a sprite *)

Section Draw.

Lemma collision_loop_spec (fuel : nat) (mask idx nxt m1 m2 o1 o2 bitoff : Z)
    (c : Chip8) (s1 s2 : Z) :
  screen_at c idx = Some s1 →
  (bitoff ≠ 0 → screen_at c nxt = Some s2) →
  collision_loop fuel mask idx nxt m1 m2 o1 o2 bitoff c
  = Some (if (reg c 0xF =? 0)
             && collides fuel mask o1 (Z.land s1 m1) o2 (Z.land s2 m2) bitoff
          then set_reg 0xF 1 c else c).
Proof.
  intros H1 H2. revert mask.
  induction fuel as [|fuel IH]; intros mask; cbn [collision_loop collides];
    destruct (reg c 0xF =? 0); cbn [negb andb]; try reflexivity; rewrite H1;
    destruct (Z.land o1 mask >? Z.land (Z.land s1 m1) mask); try reflexivity;
    destruct (Z.eqb_spec bitoff 0) as [Hb|Hb]; cbn [negb andb];
    try rewrite (H2 Hb);
    try destruct (Z.land o2 mask >? Z.land (Z.land s2 m2) mask);
    try reflexivity;
    destruct (mask =? 128); try reflexivity; apply IH.
Qed.

(** The sizes of a well-formed screen. *)
Lemma screen_dims (c : Chip8) :
  wf c →
  1 <= Width c / 8 < 32 ∧ Width c = 8 * (Width c / 8)
  ∧ 16 <= Height c < 256
  ∧ screen_len c = Width c / 8 * Height c.
Proof.
  intros Hwf. destruct (wf_Width c Hwf) as [Hw Hw8].
  destruct (wf_Height c Hwf) as [Hh Hh8].
  pose proof (Z.div_mod (Width c) 8). pose proof (Z.div_mod (Height c) 8).
  pose proof (wf_screen_len c Hwf). lia.
Qed.

Lemma row_index_bound (c : Chip8) (x y : Z) :
  wf c → 0 <= x < Width c → 0 <= y < Height c →
  0 <= row_index (Width c) x y < screen_len c.
Proof.
  intros Hwf Hx Hy. destruct (screen_dims c Hwf) as (Hbw & HW & HH & ->).
  unfold row_index.
  assert (0 <= x / 8 < Width c / 8).
  { split; [apply Z.div_pos; lia | apply Z.div_lt_upper_bound; lia]. }
  nia.
Qed.

Lemma row_next_bound (c : Chip8) (x y : Z) :
  wf c → 0 <= x < Width c → 0 <= y < Height c →
  0 <= row_next (Width c) x y < screen_len c.
Proof.
  intros Hwf Hx Hy. destruct (screen_dims c Hwf) as (Hbw & HW & HH & ->).
  unfold row_next.
  pose proof (Z.mod_pos_bound (x / 8 + 1) (Width c / 8)).
  nia.
Qed.

(** On a well-formed machine the index arithmetic of a row never wraps. *)
Lemma draw_row_indices (c : Chip8) (x y : Z) :
  wf c → 0 <= x < Width c → 0 <= y < Height c →
  u16 (Width c) / 8 = Width c / 8
  ∧ u16 (u16 (y * (Width c / 8)) + x / 8) = row_index (Width c) x y
  ∧ u16 (u16 (y * (Width c / 8)) + u16 (x / 8 + 1) mod (Width c / 8))
    = row_next (Width c) x y.
Proof.
  intros Hwf Hx Hy. destruct (screen_dims c Hwf) as (Hbw & HW & HH & _).
  assert (Hx8 : 0 <= x / 8 < Width c / 8).
  { split; [apply Z.div_pos; lia | apply Z.div_lt_upper_bound; lia]. }
  pose proof (Z.mod_pos_bound (x / 8 + 1) (Width c / 8)).
  unfold row_index, row_next.
  rewrite (u16_small (Width c)) by (unfold is_u16; lia).
  rewrite (u16_small (y * (Width c / 8))) by (unfold is_u16; nia).
  rewrite (u16_small (x / 8 + 1)) by (unfold is_u16; lia).
  rewrite !u16_small by (unfold is_u16; nia).
  auto.
Qed.

Lemma xor_byte_insert (scr : list Z) (i m : Z) (s : Z) :
  scr !! Z.to_nat i = Some s →
  <[Z.to_nat i := Z.lxor s m]> scr = xor_byte i m scr.
Proof.
  intros Hs. unfold xor_byte. apply list_eq. intros j.
  rewrite list_lookup_insert, list_lookup_alter.
  destruct (decide (Z.to_nat i = j)) as [<-|Hne].
  - rewrite decide_True; [now rewrite Hs|].
    split; [reflexivity|]. now apply lookup_lt_Some in Hs.
  - rewrite decide_False by tauto. reflexivity.
Qed.

End Draw.

Section DrawRow.

Lemma collides_aligned (fuel : nat) (mask o1 n1 o2 n2 o2' n2' : Z) :
  collides fuel mask o1 n1 o2 n2 0 = collides fuel mask o1 n1 o2' n2' 0.
Proof.
  revert mask. induction fuel as [|fuel IH]; intros mask; cbn [collides];
    destruct (_ >? _); try reflexivity; cbn [Z.eqb negb andb];
    destruct (mask =? 128); try reflexivity; apply IH.
Qed.

Variable c : Chip8.
Variables off x y : Z.
Hypothesis Hwf : wf c.
Hypothesis Hx : 0 <= x < Width c.
Hypothesis Hy : 0 <= y < Height c.
Hypothesis Hoff : 0 <= off.
Hypothesis Hsprite : I c + off < Z.of_nat (length (Memory c)).

(** One row of a draw on a well-formed machine: it never panics and keeps
    the machine well-formed; and when the byte of the sprite lies outside
    the screen, the screen is painted with it and VF is raised when a pixel
    went off and VF was still 0. *)
Lemma draw_row_spec :
  ∃ c', draw_row off x y c = Some c' ∧ wf c' ∧ draw_frame c c'
        ∧ mem_outside c c'
        ∧ ∀ sp, apart_from_screen c (I c + off) 1 →
                mem_at c (I c + off) = Some sp →
                screen_bytes c' = paint_row (Width c) sp x y (screen_bytes c)
                ∧ V c' = if (reg c 0xF =? 0)
                            && row_collides (Width c) sp x y (screen_bytes c)
                         then <[15%nat := 1]> (V c) else V c.
Proof.
  destruct (screen_dims c Hwf) as (Hbw & HW & HH & Hlen).
  destruct (draw_row_indices c x y Hwf Hx Hy) as (E1 & E2 & E3).
  pose proof (row_index_bound c x y Hwf Hx Hy) as Hi.
  pose proof (row_next_bound c x y Hwf Hx Hy) as Hj.
  pose proof (wf_I c Hwf) as HI. pose proof (wf_MemorySize c Hwf) as Hsz.
  pose proof (Z.mod_pos_bound x 8 eq_refl) as Hbo.
  unfold is_u16 in HI.
  unfold draw_row. rewrite E1. cbv zeta. rewrite E2, E3.
  destruct (Z.eqb_spec (Width c / 8) 0) as [|_]; [lia|].
  destruct (screen_at_Some c _ Hwf Hi) as (s1 & Hs1 & Bs1). rewrite Hs1.
  cbn [mbind option_bind].
  destruct (mem_at_Some c (I c + off)) as [sp1 Hsp1]; [lia|]. rewrite Hsp1.
  cbn [mbind option_bind].
  pose proof (mem_at_u8 _ _ _ Hwf Hsp1) as Bsp1.
  destruct (screen_store_Some c (row_index (Width c) x y)
              (Z.lxor s1 (Z.shiftr sp1 (x mod 8))) Hwf Hi) as [c1 Hc1].
  rewrite Hc1. cbn [mbind option_bind].
  destruct (screen_store_facts _ _ _ _ Hc1) as (F1 & V1 & O1 & B1).
  assert (Hwf1 : wf c1).
  { eapply wf_screen_store; [exact Hwf | | exact Hc1].
    apply lxor_u8; [exact Bs1|]. apply shiftr_u8; [lia | exact Bsp1]. }
  assert (Hscr1 : screen_bytes c1
                  = xor_byte (row_index (Width c) x y) (row_left sp1 x)
                      (screen_bytes c)).
  { rewrite B1. apply xor_byte_insert.
    now rewrite <- screen_at_bytes by lia. }
  assert (Hi1 : 0 <= row_index (Width c) x y < screen_len c1)
    by (rewrite (df_screen_len _ _ F1); exact Hi).
  assert (Hj1 : 0 <= row_next (Width c) x y < screen_len c1)
    by (rewrite (df_screen_len _ _ F1); exact Hj).
  destruct (Z.eqb_spec (x mod 8) 0) as [Hal|Hal].
  - (* the row falls on one byte *)
    destruct (screen_at_Some c1 _ Hwf1 Hi1) as (s1' & Hs1' & _).
    cbn [mbind option_bind].
    rewrite (collision_loop_spec 7 1 _ _ _ _ _ _ _ c1 s1' 0 Hs1')
      by (intros Hne; now rewrite Hal in Hne).
    eexists. split; [reflexivity|].
    assert (is_u8 1) by (unfold is_u8; lia).
    split; [|split; [|split]].
    + destruct (_ && _); [now apply wf_set_reg | exact Hwf1].
    + destruct (_ && _); [|exact F1].
      eapply draw_frame_trans; [exact F1 | apply draw_frame_set_reg].
    + destruct (_ && _); exact O1.
    + intros sp _ Hsp. assert (sp = sp1) as -> by congruence.
      assert (Hpr : paint_row (Width c) sp1 x y (screen_bytes c)
                    = screen_bytes c1).
      { unfold paint_row. cbv zeta. rewrite Hal. cbn [Z.eqb]. now rewrite Hscr1. }
      split.
      * rewrite Hpr. destruct (_ && _); reflexivity.
      * unfold row_collides. cbv zeta. rewrite Hpr, <- Hscr1, Hal.
        rewrite (screen_at_total c _ _ (proj1 Hi) Hs1).
        rewrite (screen_at_total c1 _ _ (proj1 Hi) Hs1').
        unfold reg at 1. rewrite V1. fold (reg c 0xF).
        rewrite (collides_aligned 7 1 _ _ 0 (Z.land 0 (not8 (Z.shiftr 255 0)))
                   (Z.land (screen_bytes c1 !!! Z.to_nat (row_next (Width c) x y))
                           (not8 (Z.shiftr 255 0)))
                   (Z.land (screen_bytes c1 !!! Z.to_nat (row_next (Width c) x y))
                           (not8 (Z.shiftr 255 0)))).
        destruct (_ && _); [|exact V1].
        unfold set_reg. cbn [V set_V]. now rewrite V1.
  - (* the row falls on two bytes *)
    destruct (screen_at_Some c1 _ Hwf1 Hj1) as (s2 & Hs2 & Bs2). rewrite Hs2.
    cbn [mbind option_bind].
    rewrite (df_I _ _ F1).
    destruct (mem_at_Some c1 (I c + off)) as [sp2 Hsp2];
      [rewrite (df_length _ _ F1); lia|].
    rewrite Hsp2. cbn [mbind option_bind].
    destruct (screen_store_Some c1 (row_next (Width c) x y)
                (Z.lxor s2 (u8 (Z.shiftl sp2 (8 - x mod 8)))) Hwf1 Hj1)
      as [c2 Hc2].
    rewrite Hc2. cbn [mbind option_bind].
    destruct (screen_store_facts _ _ _ _ Hc2) as (F2 & V2 & O2 & B2).
    assert (Hwf2 : wf c2).
    { eapply wf_screen_store; [exact Hwf1 | | exact Hc2].
      apply lxor_u8; [exact Bs2 | apply u8_range]. }
    assert (Hi2 : 0 <= row_index (Width c) x y < screen_len c2)
      by (rewrite (df_screen_len _ _ F2); exact Hi1).
    assert (Hj2 : 0 <= row_next (Width c) x y < screen_len c2)
      by (rewrite (df_screen_len _ _ F2); exact Hj1).
    destruct (screen_at_Some c2 _ Hwf2 Hi2) as (s1' & Hs1' & _).
    destruct (screen_at_Some c2 _ Hwf2 Hj2) as (s2' & Hs2' & _).
    rewrite (collision_loop_spec 7 1 _ _ _ _ _ _ _ c2 s1' s2' Hs1')
      by (intros _; exact Hs2').
    eexists. split; [reflexivity|].
    assert (is_u8 1) by (unfold is_u8; lia).
    assert (F12 : draw_frame c c2) by (eapply draw_frame_trans; eauto).
    assert (O12 : mem_outside c c2).
    { eapply mem_outside_trans; [exact (df_window _ _ F1) | exact O1 | exact O2]. }
    split; [|split; [|split]].
    + destruct (_ && _); [now apply wf_set_reg | exact Hwf2].
    + destruct (_ && _); [|exact F12].
      eapply draw_frame_trans; [exact F12 | apply draw_frame_set_reg].
    + destruct (_ && _); exact O12.
    + intros sp Hap Hsp. assert (sp = sp1) as -> by congruence.
      assert (sp2 = sp1) as ->.
      { pose proof (apart_mem_at c c1 (I c + off) 1 0 Hap O1) as Hm.
        rewrite Z.add_0_r in Hm. rewrite Hm in Hsp2 by lia. congruence. }
      assert (Hscr2 : screen_bytes c2
                      = paint_row (Width c) sp1 x y (screen_bytes c)).
      { unfold paint_row. cbv zeta.
        destruct (Z.eqb_spec (x mod 8) 0); [contradiction|].
        rewrite <- Hscr1, B2. apply xor_byte_insert.
        now rewrite <- screen_at_bytes by lia. }
      split.
      * rewrite <- Hscr2. destruct (_ && _); reflexivity.
      * unfold row_collides. cbv zeta. rewrite <- Hscr2, <- Hscr1.
        rewrite (screen_at_total c _ _ (proj1 Hi) Hs1).
        rewrite (screen_at_total c1 _ _ (proj1 Hj) Hs2).
        rewrite (screen_at_total c2 _ _ (proj1 Hi) Hs1').
        rewrite (screen_at_total c2 _ _ (proj1 Hj) Hs2').
        unfold reg at 1. rewrite V2, V1. fold (reg c 0xF).
        destruct (_ && _); [|congruence].
        unfold set_reg. cbn [V set_V]. now rewrite V2, V1.
Qed.

End DrawRow.

Section DrawLoop.

Lemma apart_split (c : Chip8) (a n : Z) :
  0 <= n → apart_from_screen c a (n + 1) →
  apart_from_screen c a 1 ∧ apart_from_screen c (a + 1) n.
Proof.
  unfold apart_from_screen. destruct (Screen c); [auto|]. lia.
Qed.

Lemma sprite_bytes_same (c c' : Chip8) (a : Z) (n : nat) :
  apart_from_screen c a (Z.of_nat n) → mem_outside c c' → 0 <= a →
  take n (drop (Z.to_nat a) (Memory c'))
  = take n (drop (Z.to_nat a) (Memory c)).
Proof.
  unfold apart_from_screen, mem_outside. intros Hap Hout Ha.
  destruct (Screen c) as [d | off m]; [now rewrite Hout|].
  apply list_eq. intros i. rewrite !lookup_take, !lookup_drop.
  destruct (decide (i < n)%nat); [|reflexivity]. apply Hout. lia.
Qed.

Lemma sprite_bytes_cons (c : Chip8) (a sp : Z) (n : nat) :
  0 <= a → mem_at c a = Some sp →
  take (S n) (drop (Z.to_nat a) (Memory c))
  = sp :: take n (drop (Z.to_nat (a + 1)) (Memory c)).
Proof.
  intros Ha. unfold mem_at. destruct (Z.ltb_spec a 0); [lia|]. intros Hsp.
  rewrite (drop_S _ _ _ Hsp). cbn [take]. f_equal. f_equal. f_equal. lia.
Qed.

(** The rows of a draw on a well-formed machine. *)
Lemma draw_loop_spec (n : nat) :
  ∀ (off x y : Z) (c : Chip8),
    wf c → 0 <= x < Width c → 0 <= y < Height c → 0 <= off →
    I c + off + Z.of_nat n <= Z.of_nat (length (Memory c)) →
    ∃ c', draw_loop n off x y c = Some c' ∧ wf c' ∧ draw_frame c c'
          ∧ mem_outside c c'
          ∧ (apart_from_screen c (I c + off) (Z.of_nat n) →
             let sprite := take n (drop (Z.to_nat (I c + off)) (Memory c)) in
             screen_bytes c'
             = paint (Width c) (Height c) sprite x y (screen_bytes c)
             ∧ V c' = if (reg c 0xF =? 0)
                         && paint_collides (Width c) (Height c) sprite x y
                              (screen_bytes c)
                      then <[15%nat := 1]> (V c) else V c).
Proof.
  induction n as [|n IH]; intros off x y c Hwf Hx Hy Hoff Hn.
  - exists c. cbn [draw_loop take paint paint_collides].
    split; [reflexivity|]. split; [exact Hwf|].
    split; [apply draw_frame_refl|]. split; [apply mem_outside_refl|].
    intros _. cbv zeta. rewrite andb_false_r. auto.
  - cbn [draw_loop].
    pose proof (wf_I c Hwf) as HI. unfold is_u16 in HI.
    destruct (draw_row_spec c off x y Hwf Hx Hy Hoff) as
      (c1 & Hrow & Hwf1 & F1 & O1 & Hpaint); [lia|].
    rewrite Hrow.
    destruct (screen_dims c Hwf) as (_ & _ & HH & _).
    rewrite (df_Height _ _ F1).
    destruct (Z.eqb_spec (Height c) 0) as [|_]; [lia|].
    rewrite (u8_small (y + 1)) by (unfold is_u8; lia).
    pose proof (Z.mod_pos_bound (y + 1) (Height c)) as Hy'.
    destruct (IH (off + 1) x ((y + 1) mod Height c) c1 Hwf1) as
      (c2 & Hloop & Hwf2 & F2 & O2 & Hrest).
    { now rewrite (df_Width _ _ F1). }
    { rewrite (df_Height _ _ F1). lia. }
    { lia. }
    { rewrite (df_I _ _ F1), (df_length _ _ F1). lia. }
    exists c2. split; [exact Hloop|]. split; [exact Hwf2|].
    split; [eapply draw_frame_trans; eauto|].
    split; [eapply mem_outside_trans; [exact (df_window _ _ F1) | eauto..]|].
    intros Hap. replace (Z.of_nat (S n)) with (Z.of_nat n + 1) in Hap by lia.
    apply apart_split in Hap as [Hap1 Hapn]; [|lia].
    destruct (mem_at_Some c (I c + off)) as [sp Hsp]; [lia|].
    destruct (Hpaint sp Hap1 Hsp) as [Hscr1 HV1].
    cbv zeta. rewrite (sprite_bytes_cons c _ sp n) by (lia || exact Hsp).
    cbn [paint paint_collides].
    rewrite (df_I _ _ F1), (df_Width _ _ F1), (df_Height _ _ F1) in Hrest.
    replace (I c + (off + 1)) with (I c + off + 1) in Hrest by lia.
    destruct Hrest as [Hscr2 HV2].
    { eapply apart_frame; [exact F1 | exact Hapn]. }
    rewrite (sprite_bytes_same c c1 _ n Hapn O1) in Hscr2, HV2 by lia.
    rewrite Hscr1 in Hscr2, HV2. split; [exact Hscr2|].
    rewrite HV2. unfold reg at 1. rewrite HV1.
    destruct (Z.eqb_spec (reg c 0xF) 0) as [E0|E0]; cbn [andb].
    + destruct (row_collides _ _ _ _ _); cbn [orb].
      * assert (Hlen : (15 < length (V c))%nat) by (rewrite (wf_V16 c Hwf); lia).
        rewrite (list_lookup_total_insert_eq _ _ _ Hlen). reflexivity.
      * fold (reg c 0xF). rewrite E0. reflexivity.
    + fold (reg c 0xF).
      destruct (Z.eqb_spec (reg c 0xF) 0); [contradiction | reflexivity].
Qed.

(** DRW on a well-formed machine: a defined error, or a machine that is
    well-formed again. *)
Lemma good_Drw (c : Chip8) (b0 b1 : Z) :
  wf c → good_step c (exec_Drw b0 b1 c).
Proof.
  intros Hwf. unfold exec_Drw.
  destruct (screen_dims c Hwf) as (Hbw & HW & HH & _).
  destruct (Z.eqb_spec (Width c) 0) as [|_]; [lia|].
  destruct (Z.eqb_spec (Height c) 0) as [|_]; [lia|]. cbn [orb]. cbv zeta.
  destruct (_ <? Z.land b1 15) eqn:Hov; [reflexivity|].
  destruct (Z.geb_spec (I c + Z.land b1 15 - 1) (Z.of_nat (length (Memory c))))
    as [|Hacc]; [reflexivity|].
  pose proof (wf_I c Hwf) as HI. pose proof (wf_MemorySize c Hwf) as Hsz.
  unfold is_u16 in HI.
  assert (Hrows : 0 <= Z.land b1 15 < 16).
  { change 15 with (Z.ones 4). rewrite Z.land_ones by lia.
    apply Z.mod_pos_bound. reflexivity. }
  cbn [I set_reg set_V Memory].
  rewrite (u16_small (I c + Z.land b1 15)) by (unfold is_u16; lia).
  destruct (Z.leb_spec 0 (I c)); [|lia].
  destruct (Z.leb_spec (I c) (I c + Z.land b1 15)); [|lia].
  destruct (Z.leb_spec (I c + Z.land b1 15) (Z.of_nat (length (Memory c)))); [|lia].
  cbn [andb negb].
  assert (Hwf1 : wf (set_reg 15 0 c))
    by (apply wf_set_reg; [exact Hwf | unfold is_u8; lia]).
  destruct (draw_loop_spec (Z.to_nat (Z.land b1 15)) 0
              (reg c (opX b0) mod Width c) (reg c (opY b1) mod Height c)
              (set_reg 15 0 c) Hwf1) as (c2 & -> & Hwf2 & _).
  - apply Z.mod_pos_bound. cbn [Width set_reg set_V]. lia.
  - apply Z.mod_pos_bound. cbn [Height set_reg set_V]. lia.
  - lia.
  - cbn [I set_reg set_V Memory]. lia.
  - exact Hwf2.
Qed.

End DrawLoop.

(** ** The whole cycle on well-formed machines *)

Section Cycle.

(** Every arm of the switch, on a well-formed machine whose instruction
    word lies within the memory and, for EX9E and EXA1, whose VX holds a key
    number. *)
Lemma good_exec (env : Env) (c : Chip8) (pc0 b0 b1 : Z) :
  wf c → is_u8 b0 → is_u8 b1 →
  0 <= pc0 → pc0 + 2 <= Z.of_nat (length (Memory c)) →
  (Tick_switch b0 b1 = Skp ∨ Tick_switch b0 b1 = Sknp → reg c (opX b0) <= 0xF) →
  good_step c (exec env pc0 b0 b1 c).
Proof.
  intros Hwf Hb0 Hb1 Hpc0 Hpc2 Hkey. unfold exec.
  destruct (Tick_switch b0 b1) eqn:Hk;
    first [ reflexivity
          | apply good_Skp; auto
          | apply good_Sknp; auto
          | apply good_Call; assumption
          | apply good_Drw; assumption
          | apply good_Sys; assumption
          | apply good_LdBcd; assumption
          | apply good_LdSetMemory; assumption
          | apply good_LdMemory; assumption
          | apply good_Jp; assumption
          | apply good_Se; assumption
          | apply good_Sne; assumption
          | apply good_SeRegister; assumption
          | apply good_Ld; assumption
          | apply good_Add; assumption
          | apply good_LdRegister; assumption
          | apply good_Or; assumption
          | apply good_And; assumption
          | apply good_Xor; assumption
          | apply good_AddRegister; assumption
          | apply good_SubRegister; assumption
          | apply good_Subn; assumption
          | apply good_Shr; assumption
          | apply good_Shl; assumption
          | apply good_SneRegister; assumption
          | apply good_LdI; assumption
          | apply good_JpV0; assumption
          | apply good_Rnd; assumption
          | apply good_LdDelayTimer; assumption
          | apply good_LdKeyboard; assumption
          | apply good_LdSetDelayTimer; assumption
          | apply good_LdSetSoundTimer; assumption
          | apply good_AddI; assumption
          | apply good_LdFont; assumption ].
Qed.

(** The timer loop ends within its fuel when the interval is positive. *)
Lemma timer_loop_ok (fuel : nat) (t : Z) :
  ∀ (c : Chip8) (evs : list Event),
    wf c → t - lastTimerUpdate c < (Z.of_nat fuel + 1) * TimerInterval c →
    ∃ c' evs', timer_loop fuel t c evs = Some (c', evs') ∧ wf c'.
Proof.
  induction fuel as [|fuel IH]; intros c evs Hwf Hlt; cbn [timer_loop];
    pose proof (wf_TimerInterval c Hwf) as Hpos;
    destruct (Z.geb_spec (t - lastTimerUpdate c) (TimerInterval c)) as [Hge|Hlt'];
    eauto; [lia|].
  pose proof (wf_DT c Hwf) as HDT. pose proof (wf_ST c Hwf) as HST.
  set (c1 := if DT c >? 0 then set_DT (u8 (DT c - 1)) c else c).
  assert (Hwf1 : wf c1).
  { unfold c1. destruct (DT c >? 0); [apply wf_set_DT; auto using u8_range | auto]. }
  assert (E1 : TimerInterval c1 = TimerInterval c
               ∧ lastTimerUpdate c1 = lastTimerUpdate c).
  { unfold c1. destruct (DT c >? 0); auto. }
  destruct E1 as [E1 E1'].
  destruct (ST c1 >? 0).
  - apply IH.
    + apply wf_set_lastTimerUpdate. apply wf_set_ST; auto using u8_range.
    + cbn [lastTimerUpdate TimerInterval set_lastTimerUpdate set_ST].
      rewrite E1, E1'. nia.
  - apply IH.
    + now apply wf_set_lastTimerUpdate.
    + cbn [lastTimerUpdate TimerInterval set_lastTimerUpdate].
      rewrite E1, E1'. nia.
Qed.

Lemma timers_ok (env : Env) (c : Chip8) (evs : list Event) :
  wf c → ∃ c' evs', timers env c evs = (Done, c', evs') ∧ wf c'.
Proof.
  intros Hwf. unfold timers.
  set (c1 := if lastTimerUpdate c =? 0 then set_lastTimerUpdate (now env) c
             else c).
  assert (Hwf1 : wf c1).
  { unfold c1. destruct (_ =? 0); [now apply wf_set_lastTimerUpdate | auto]. }
  pose proof (wf_TimerInterval c1 Hwf1) as Hpos.
  destruct (timer_loop_ok
              (Z.to_nat ((now env - lastTimerUpdate c1) / TimerInterval c1))
              (now env) c1 evs Hwf1) as (c2 & evs2 & -> & Hwf2); [|eauto].
  pose proof (Z.div_mod (now env - lastTimerUpdate c1) (TimerInterval c1)).
  pose proof (Z.mod_pos_bound (now env - lastTimerUpdate c1) (TimerInterval c1)).
  set (q := (now env - lastTimerUpdate c1) / TimerInterval c1) in *.
  assert (Hq : Z.of_nat (Z.to_nat q) = Z.max 0 q) by lia.
  rewrite Hq. nia.
Qed.

Lemma fetch_Some (c : Chip8) :
  wf c → fetch_in_bounds c →
  ∃ b0 b1, fetch c = Some (b0, b1) ∧ is_u8 b0 ∧ is_u8 b1.
Proof.
  intros Hwf Hin. unfold fetch_in_bounds in Hin. unfold fetch.
  pose proof (wf_PC c Hwf) as HPC. pose proof (wf_MemorySize c Hwf) as Hsz.
  unfold is_u16 in HPC.
  rewrite (u16_small (PC c + 2)) by (unfold is_u16; lia).
  destruct (Z.leb_spec 0 (PC c)); [|lia].
  destruct (Z.leb_spec (PC c) (PC c + 2)); [|lia].
  destruct (Z.leb_spec (PC c + 2) (Z.of_nat (length (Memory c)))); [|lia].
  cbn [andb].
  destruct (mem_at_Some c (PC c)) as [x0 Hx0]; [lia|].
  destruct (mem_at_Some c (PC c + 1)) as [x1 Hx1]; [lia|].
  rewrite Hx0, Hx1. exists x0, x1. eauto using mem_at_u8.
Qed.

Lemma fetch_None (c : Chip8) :
  wf c → ¬ fetch_in_bounds c → fetch c = None.
Proof.
  intros Hwf Hout. unfold fetch_in_bounds in Hout. unfold fetch.
  pose proof (wf_PC c Hwf) as HPC. pose proof (wf_MemorySize c Hwf) as Hsz.
  unfold is_u16 in HPC.
  destruct (Z.leb_spec 0 (PC c)); [|lia]. cbn [andb].
  destruct (Z.leb_spec (PC c) (u16 (PC c + 2))); [|reflexivity]. cbn [andb].
  destruct (Z.leb_spec (u16 (PC c + 2)) (Z.of_nat (length (Memory c))));
    [|reflexivity].
  exfalso. unfold u16 in *.
  destruct (Z_lt_le_dec (PC c + 2) 65536).
  - rewrite Z.mod_small in * by lia. lia.
  - replace (PC c + 2) with (PC c + 2 - 65536 + 1 * 65536) in * by lia.
    rewrite Z.mod_add in * by lia. rewrite Z.mod_small in * by lia. lia.
Qed.

(** A cycle that starts at a fetch within the memory, with a key number in
    VX if the instruction is EX9E or EXA1, completes and leaves a
    well-formed machine. *)
Lemma cycle_completes (env : Env) (c : Chip8) (evs : list Event) :
  wf c → fetch_in_bounds c → key_in_range c →
  ∃ o c' evs', cycle env c evs = (o, c', evs') ∧ completes o ∧ wf c'.
Proof.
  intros Hwf Hin Hkey. unfold cycle.
  destruct (fetch_Some c Hwf Hin) as (b0 & b1 & Hf & Hb0 & Hb1). rewrite Hf.
  assert (Hwf1 : wf (set_PC (u16 (PC c + 2)) c))
    by (apply wf_set_PC; [exact Hwf | apply u16_range]).
  pose proof (wf_PC c Hwf) as HPC.
  pose proof (good_exec env _ (PC c) b0 b1 Hwf1 Hb0 Hb1 (proj1 HPC)) as Hgood.
  unfold fetch_in_bounds in Hin.
  specialize (Hgood ltac:(cbn [Memory set_PC]; lia) (Hkey b0 b1 Hf)).
  destruct (exec env (PC c) b0 b1 (set_PC (u16 (PC c + 2)) c))
    as [c1 evs1 | o c1]; cbn [good_step] in Hgood.
  - destruct (timers_ok env c1 (evs ++ evs1) Hgood) as (c2 & evs2 & -> & Hwf2).
    exists Done, c2, evs2. unfold completes. auto.
  - destruct o as [|e| |]; try contradiction. subst c1.
    exists (Failed e), (set_PC (u16 (PC c + 2)) c), evs.
    unfold completes. eauto.
Qed.

(** The machine in which the fetch takes place is well-formed. *)
Lemma wf_fetch_state (c c0 : Chip8) :
  wf c → fetch_state c = Some c0 → wf c0.
Proof.
  intros Hwf. unfold fetch_state.
  pose proof (wf_wii c Hwf) as Hw. unfold wii_ok in Hw.
  destruct (wii c) as [w|]; [|now intros [= <-]].
  destruct (_ =? 0); [discriminate|].
  rewrite wait_key_loop_val by (rewrite (wf_V16 c Hwf); lia).
  rewrite wait_key_val_exact.
  intros Heq. apply (inj Some) in Heq. subst c0.
  apply wf_set_wii_None. apply wf_set_reg; [exact Hwf|].
  destruct (find _ _) as [k|] eqn:Hf.
  - change (default 0 (Some k)) with k.
    apply find_some in Hf as [Hin _]. unfold key_numbers in Hin.
    cbn [tail In] in Hin. unfold is_u8. lia.
  - change (default 0 None) with 0. unfold is_u8. lia.
Qed.

Lemma Tick_fetch_state (env : Env) (c : Chip8) :
  Tick env c = match fetch_state c with
               | Some c0 => cycle env c0 [EvOnUpdate]
               | None => (Done, c, [EvOnUpdate])
               end.
Proof.
  unfold Tick, fetch_state. destruct (wii c); [|reflexivity].
  destruct (_ =? 0); reflexivity.
Qed.

(** An arm that returns does so with an error or a panic. *)
Lemma exec_Stop_kinds (env : Env) (pc0 b0 b1 : Z) (c c' : Chip8)
    (o : Outcome) :
  exec env pc0 b0 b1 c = Stop o c' → o = Panic ∨ ∃ e, o = Failed e.
Proof.
  unfold exec.
  destruct (Tick_switch b0 b1);
    unfold exec_Sys, exec_Jp, exec_Call, exec_Se, exec_Sne, exec_SeRegister,
      exec_Ld, exec_Add, exec_LdRegister, exec_Or, exec_And, exec_Xor,
      exec_AddRegister, exec_SubRegister, exec_Shr, exec_Subn, exec_Shl,
      exec_SneRegister, exec_LdI, exec_JpV0, exec_Rnd, exec_Drw, exec_Skp,
      exec_Sknp, exec_LdDelayTimer, exec_LdKeyboard, exec_LdSetDelayTimer,
      exec_LdSetSoundTimer, exec_AddI, exec_LdFont, exec_LdBcd,
      exec_LdSetMemory, exec_LdMemory; cbv zeta;
    repeat match goal with
      | |- context [if ?x then _ else _] => destruct x
      | |- context [match ?x with _ => _ end] => destruct x
      end;
    intros Hstop; try discriminate Hstop; inversion Hstop; eauto.
Qed.

(** An arm that falls out of the switch leaves a well-formed machine. *)
Lemma exec_Next_wf (env : Env) (c c' : Chip8) (pc0 b0 b1 : Z)
    (evs : list Event) :
  wf c → is_u8 b0 → is_u8 b1 →
  0 <= pc0 → pc0 + 2 <= Z.of_nat (length (Memory c)) →
  exec env pc0 b0 b1 c = Next c' evs → wf c'.
Proof.
  intros Hwf Hb0 Hb1 Hpc0 Hpc2 Hex.
  assert (Hkey : Tick_switch b0 b1 = Skp ∨ Tick_switch b0 b1 = Sknp →
                 reg c (opX b0) <= 0xF).
  { intros Hk. destruct (Z_le_gt_dec (reg c (opX b0)) 0xF) as [|Hgt]; [assumption|].
    exfalso. unfold exec in Hex.
    destruct Hk as [Hk|Hk]; rewrite Hk in Hex;
      unfold exec_Skp, exec_Sknp in Hex;
      rewrite (key_flag_None c) in Hex by lia; discriminate. }
  pose proof (good_exec env c pc0 b0 b1 Hwf Hb0 Hb1 Hpc0 Hpc2 Hkey) as Hg.
  now rewrite Hex in Hg.
Qed.

(** Well-formedness is an invariant of completed cycles. *)
Lemma wf_Tick (env : Env) (c c' : Chip8) (o : Outcome) (evs : list Event) :
  wf c → Tick env c = (o, c', evs) → completes o → wf c'.
Proof.
  intros Hwf. rewrite Tick_fetch_state.
  destruct (fetch_state c) as [c0|] eqn:Hfs; [|now intros [= _ <- _]].
  pose proof (wf_fetch_state c c0 Hwf Hfs) as Hwf0.
  unfold cycle. destruct (fetch c0) as [[b0 b1]|] eqn:Hf.
  - assert (Hin : fetch_in_bounds c0).
    { unfold fetch_in_bounds.
      destruct (Z_le_gt_dec (PC c0) (Z.of_nat (length (Memory c0)) - 2))
        as [|Hn]; [assumption|].
      rewrite (fetch_None c0 Hwf0) in Hf; [discriminate|].
      unfold fetch_in_bounds. lia. }
    destruct (fetch_Some c0 Hwf0 Hin) as (x0 & x1 & Hf' & Hb0 & Hb1).
    assert (x0 = b0 ∧ x1 = b1) as [-> ->] by (split; congruence).
    assert (Hwf1 : wf (set_PC (u16 (PC c0 + 2)) c0))
      by (apply wf_set_PC; [exact Hwf0 | apply u16_range]).
    pose proof (wf_PC c0 Hwf0) as HPC. unfold fetch_in_bounds in Hin.
    destruct (exec env (PC c0) b0 b1 (set_PC (u16 (PC c0 + 2)) c0))
      as [c1 evs1 | o1 c1] eqn:Hex.
    + intros Ht _.
      assert (Hgood : wf c1).
      { eapply (exec_Next_wf env _ c1 (PC c0) b0 b1); eauto.
        - exact (proj1 HPC).
        - cbn [Memory set_PC]. lia. }
      destruct (timers_ok env c1 ([EvOnUpdate] ++ evs1) Hgood)
        as (c2 & evs2 & Ht2 & Hwf2).
      rewrite Ht2 in Ht. now injection Ht as _ <- _.
    + intros [= -> -> _] Hc.
      destruct (exec_Stop_kinds _ _ _ _ _ _ _ Hex) as [->|[e ->]].
      * destruct Hc as [|[e ?]]; discriminate.
      * apply exec_Failed_unchanged in Hex. now subst.
  - intros [= <- _ _] [|[e ?]]; discriminate.
Qed.

End Cycle.

(** ** Machines made by [New] are well-formed *)

Section Construction.

Lemma bytes_check (l : list Z) :
  forallb (λ v, (0 <=? v) && (v <? 256)) l = true → bytes l.
Proof.
  intros H. apply Forall_forall. intros v Hv.
  rewrite forallb_forall in H. apply list_elem_of_In in Hv.
  specialize (H v Hv). unfold is_u8. lia.
Qed.

Lemma bytes_zeros (n : nat) : bytes (replicate n 0).
Proof. apply Forall_replicate. unfold is_u8. lia. Qed.

Lemma words_zeros (n : nat) : words (replicate n 0).
Proof. apply Forall_replicate. unfold is_u16. lia. Qed.

Lemma bytes_copy (dst src : list Z) : bytes dst → bytes src → bytes (copy dst src).
Proof.
  intros Hd Hs. unfold copy. apply Forall_take. apply Forall_app.
  split; [exact Hs | now apply Forall_drop].
Qed.

Lemma length_copy (dst src : list Z) : length (copy dst src) = length dst.
Proof. unfold copy. rewrite length_take, length_app, length_drop. lia. Qed.

Lemma wf_New (s : Chip8Settings) (c : Chip8) :
  settings_typed s → New s = NewOk c → wf c.
Proof.
  intros (HM & HW & HH). unfold New, Validate.
  destruct (Z.eqb_spec (Settings.Width s mod 8) 0) as [Hw8|]; [|discriminate].
  destruct (Z.eqb_spec (Settings.Height s mod 8) 0) as [Hh8|]; [|discriminate].
  cbn [negb].
  destruct (Z.ltb_spec (Settings.Width s) 8); [discriminate|].
  destruct (Z.ltb_spec (Settings.Height s) 15); [discriminate|].
  unfold is_u16, is_u8 in *.
  pose proof (Z.div_mod (Settings.Width s) 8 ltac:(lia)) as Hwd.
  assert (Hfonts : bytes fonts) by (apply bytes_check; reflexivity).
  assert (Hmul : Settings.Width s * Settings.Height s
                 = 8 * (Settings.Width s / 8 * Settings.Height s)) by lia.
  assert (Hpix : 0 <= Settings.Width s * Settings.Height s < 65536) by nia.
  rewrite (u16_small (Settings.Width s * Settings.Height s))
    by (unfold is_u16; lia).
  assert (Hdiv : Settings.Width s * Settings.Height s / 8
                 = Settings.Width s / 8 * Settings.Height s).
  { rewrite Hmul at 1. rewrite Z.mul_comm, Z.div_mul; lia. }
  rewrite Hdiv.
  destruct (Settings.Realistic s).
  - destruct (Z.gtb_spec (Settings.StackSize s) 12); [discriminate|].
    destruct (Z.gtb_spec (Settings.Width s * Settings.Height s) 2048);
      [discriminate|]. cbn [negb].
    destruct (Z.ltb_spec (Settings.MemorySize s) 0); [lia|].
    set (stack_hi := u16 (3744 + u16 (Settings.StackSize s))).
    rewrite (u16_small (3840 + _)) by (unfold is_u16; lia).
    destruct (Z.leb_spec 3744 stack_hi); [|discriminate].
    destruct (Z.leb_spec stack_hi (Settings.MemorySize s)); [|discriminate].
    cbn [andb negb].
    destruct (Z.leb_spec 3840 (3840 + Settings.Width s / 8 * Settings.Height s));
      [|discriminate].
    destruct (Z.leb_spec (3840 + Settings.Width s / 8 * Settings.Height s)
                (Settings.MemorySize s)); [|discriminate].
    cbn [andb negb]. intros [= <-].
    pose proof (Z.div_mod (stack_hi - 3744) 2 ltac:(lia)) as Hsd.
    pose proof (Z.mod_pos_bound (stack_hi - 3744) 2 ltac:(lia)).
    assert (0 <= (stack_hi - 3744) / 2) by (apply Z.div_pos; lia).
    constructor; unfold stack_len, screen_len, stack_ok, screen_ok, wii_ok,
      is_u8, is_u16;
      cbn [Memory V I Stack SP PC DT ST Keyboard Screen Width Height
           TimerInterval lastTimerUpdate wii];
      rewrite ?length_copy, ?length_replicate; try lia; auto;
      first [ apply bytes_copy; [apply bytes_zeros | exact Hfonts]
            | apply (bytes_zeros 16) | reflexivity ].
  - destruct (Z.ltb_spec (Settings.MemorySize s) 0); [lia|].
    destruct (Z.ltb_spec (Settings.StackSize s) 0); [discriminate|].
    intros [= <-].
    assert (0 <= Settings.Width s / 8) by (apply Z.div_pos; lia).
    constructor; unfold stack_len, screen_len, stack_ok, screen_ok, wii_ok,
      is_u8, is_u16;
      cbn [Memory V I Stack SP PC DT ST Keyboard Screen Width Height
           TimerInterval lastTimerUpdate wii];
      rewrite ?length_copy, ?length_replicate; try lia; auto;
      first [ apply bytes_copy; [apply bytes_zeros | exact Hfonts]
            | apply (bytes_zeros 16) | apply bytes_zeros | apply words_zeros
            | reflexivity | nia ].
Qed.

Lemma wf_Load (file : list Z) (c c' : Chip8) :
  wf c → bytes file → Load file c = Some c' → wf c'.
Proof.
  intros Hwf Hfile. unfold Load.
  destruct (Z.gtb_spec (Z.of_nat (length file))
              (Z.of_nat (length (Memory c)) - 512)) as [|Hfit]; [discriminate|].
  intros [= <-]. apply wf_set_PC; [|unfold is_u16; lia].
  assert (Hlen : length (take 512 (Memory c)
                         ++ copy (drop 512 (Memory c)) file)
                 = length (Memory c)).
  { rewrite length_app, length_copy, length_take, length_drop. lia. }
  destruct Hwf. constructor;
    unfold stack_len, screen_len, stack_ok, screen_ok, wii_ok in *;
    cbn [Memory V I Stack SP PC DT ST Keyboard Screen Width Height
         TimerInterval lastTimerUpdate wii set_Memory] in *;
    rewrite ?Hlen; auto.
  apply Forall_app. split; [now apply Forall_take|].
  apply bytes_copy; [now apply Forall_drop | exact Hfile].
Qed.

Lemma settings_typed_default : settings_typed DefaultSettings.
Proof. unfold settings_typed, is_u16, is_u8. cbn. lia. Qed.

(** The default machine loaded with a program of bytes is well-formed. *)
Lemma wf_machine_default (file : list Z) :
  forallb (λ v, (0 <=? v) && (v <? 256)) file = true →
  Z.of_nat (length file) <= 0xE00 →
  wf (machine DefaultSettings file).
Proof.
  intros Hfile Hlen. unfold machine, boot.
  destruct (New DefaultSettings) as [c0| |] eqn:HN; try discriminate HN.
  pose proof (wf_New _ _ settings_typed_default HN) as Hwf0.
  assert (HM : length (Memory c0) = 4096%nat).
  { vm_compute in HN. injection HN as <-. reflexivity. }
  destruct (Load file c0) as [c1|] eqn:HL.
  - cbn [default]. eapply wf_Load; eauto using bytes_check.
  - exfalso. unfold Load in HL. rewrite HM in HL.
    destruct (Z.gtb_spec (Z.of_nat (length file)) (Z.of_nat 4096 - 512));
      [lia | discriminate].
Qed.

End Construction.

(** ** The precondition of a cycle *)

Section Totality.

Variable env : Env.
Variable c0 : Chip8.
Hypothesis Hwf0 : wf c0.

Lemma cycle_fetch_out_of_bounds (evs : list Event) :
  ¬ fetch_in_bounds c0 → cycle env c0 evs = (Panic, c0, evs).
Proof.
  intros Hout. unfold cycle. now rewrite (fetch_None c0 Hwf0 Hout).
Qed.

Lemma cycle_key_out_of_range (evs : list Event) :
  fetch_in_bounds c0 → ¬ key_in_range c0 →
  outcome (cycle env c0 evs) = Panic.
Proof.
  intros Hin Hkey. unfold cycle.
  destruct (fetch_Some c0 Hwf0 Hin) as (b0 & b1 & Hf & _). rewrite Hf.
  destruct (Z_le_gt_dec (reg c0 (opX b0)) 0xF) as [Hle|Hgt].
  { exfalso. apply Hkey. intros x0 x1 Hf' _.
    assert (x0 = b0) as -> by congruence. exact Hle. }
  assert (Hnone : key_flag (set_PC (u16 (PC c0 + 2)) c0) (opX b0) = None).
  { apply key_flag_None. change (0xF < reg c0 (opX b0)). lia. }
  unfold exec.
  destruct (Tick_switch b0 b1) eqn:Hk;
    try (exfalso; apply Hkey; intros x0 x1 Hf' [Hs|Hs];
         assert (x0 = b0 ∧ x1 = b1) as [-> ->] by (split; congruence);
         rewrite Hk in Hs; discriminate Hs).
  - unfold exec_Skp. rewrite Hnone. reflexivity.
  - unfold exec_Sknp. rewrite Hnone. reflexivity.
Qed.

End Totality.

(** C10.  On a well-formed machine a cycle that waits for a key returns at
    once.  Otherwise let [c0] be the machine in which the fetch takes
    place: if the two bytes at the program counter lie within the memory
    and, when the instruction is EX9E or EXA1, VX is at most 0xF, the cycle
    returns [nil] or one of the errors; if the fetch is out of bounds, or
    the fetch is in bounds and VX is above 0xF for an EX9E or EXA1, the
    cycle panics. *)
Theorem Tick_total_under_precondition (env : Env) (c : Chip8) :
  wf c →
  match fetch_state c with
  | None => Tick env c = (Done, c, [EvOnUpdate])
  | Some c0 =>
      (fetch_in_bounds c0 → key_in_range c0 →
       completes (outcome (Tick env c)))
      ∧ (¬ fetch_in_bounds c0 → outcome (Tick env c) = Panic)
      ∧ (fetch_in_bounds c0 → ¬ key_in_range c0 →
         outcome (Tick env c) = Panic)
  end.
Proof.
  intros Hwf. rewrite Tick_fetch_state.
  destruct (fetch_state c) as [c0|] eqn:Hfs; [|reflexivity].
  pose proof (wf_fetch_state c c0 Hwf Hfs) as Hwf0.
  split; [|split].
  - intros Hin Hkey.
    destruct (cycle_completes env c0 [EvOnUpdate] Hwf0 Hin Hkey)
      as (o & c' & evs' & -> & Ho & _). exact Ho.
  - intros Hout. now rewrite cycle_fetch_out_of_bounds.
  - intros Hin Hkey. now apply cycle_key_out_of_range.
Qed.

(** The theorem at work: [SKP V0] with V0 = 0 on the default machine. *)
Lemma Tick_total_under_precondition_witness :
  let c := machine DefaultSettings [0xE0; 0x9E] in
  wf c ∧ fetch_state c = Some c ∧ fetch_in_bounds c ∧ key_in_range c
  ∧ completes (outcome (Tick (at_time 1000) c)).
Proof.
  intros c.
  assert (Hwf : wf c) by (apply wf_machine_default; [reflexivity | cbn; lia]).
  assert (Hfs : fetch_state c = Some c) by reflexivity.
  assert (Hin : fetch_in_bounds c) by (vm_compute; discriminate).
  assert (Hkey : key_in_range c).
  { intros b0 b1 Hf _. vm_compute in Hf. injection Hf as <- <-.
    vm_compute. discriminate. }
  pose proof (Tick_total_under_precondition (at_time 1000) c Hwf) as H.
  rewrite Hfs in H. destruct H as [H _].
  exact (conj Hwf (conj Hfs (conj Hin (conj Hkey (H Hin Hkey))))).
Defined.

(** ** Painting twice *)

Section PaintTwice.

Lemma xor_byte_comm (i j m m' : Z) (l : list Z) :
  xor_byte i m (xor_byte j m' l) = xor_byte j m' (xor_byte i m l).
Proof.
  unfold xor_byte. destruct (decide (Z.to_nat i = Z.to_nat j)) as [->|Hne].
  - rewrite !list_alter_alter_eq. apply list_alter_ext; [|reflexivity].
    intros s _. cbn. rewrite !Z.lxor_assoc. f_equal. apply Z.lxor_comm.
  - now apply list_alter_alter_ne.
Qed.

Lemma xor_byte_twice (i m : Z) (l : list Z) :
  xor_byte i m (xor_byte i m l) = l.
Proof.
  unfold xor_byte. rewrite list_alter_alter_eq. apply list_alter_id.
  intros s. cbn. now rewrite Z.lxor_assoc, Z.lxor_nilpotent, Z.lxor_0_r.
Qed.

Lemma xor_byte_zero (i : Z) (l : list Z) : xor_byte i 0 l = l.
Proof.
  unfold xor_byte. apply list_alter_id. intros s. apply Z.lxor_0_r.
Qed.

Lemma paint_row_xor_byte (W sp x y i m : Z) (l : list Z) :
  paint_row W sp x y (xor_byte i m l) = xor_byte i m (paint_row W sp x y l).
Proof.
  unfold paint_row. cbv zeta. destruct (x mod 8 =? 0).
  - apply xor_byte_comm.
  - now rewrite (xor_byte_comm _ i), (xor_byte_comm _ i).
Qed.

Lemma paint_row_comm (W sp x y sp' x' y' : Z) (l : list Z) :
  paint_row W sp x y (paint_row W sp' x' y' l)
  = paint_row W sp' x' y' (paint_row W sp x y l).
Proof.
  unfold paint_row at 2 3. cbv zeta. destruct (x' mod 8 =? 0);
    now rewrite !paint_row_xor_byte.
Qed.

Lemma paint_row_twice (W sp x y : Z) (l : list Z) :
  paint_row W sp x y (paint_row W sp x y l) = l.
Proof.
  unfold paint_row at 1. cbv zeta.
  unfold paint_row. cbv zeta. destruct (x mod 8 =? 0).
  - apply xor_byte_twice.
  - rewrite (xor_byte_comm (row_index W x y) (row_next W x y)).
    now rewrite !xor_byte_twice.
Qed.

Lemma paint_paint_row (W H : Z) (sprite : list Z) :
  ∀ (x y sp x' y' : Z) (l : list Z),
    paint W H sprite x y (paint_row W sp x' y' l)
    = paint_row W sp x' y' (paint W H sprite x y l).
Proof.
  induction sprite as [|sp0 rest IH]; intros x y sp x' y' l; cbn [paint].
  - reflexivity.
  - now rewrite paint_row_comm, IH.
Qed.

(** Xoring a sprite in twice gives the screen back. *)
Lemma paint_twice (W H : Z) (sprite : list Z) :
  ∀ (x y : Z) (l : list Z),
    paint W H sprite x y (paint W H sprite x y l) = l.
Proof.
  induction sprite as [|sp rest IH]; intros x y l; cbn [paint].
  - reflexivity.
  - now rewrite paint_paint_row, IH, paint_row_twice.
Qed.

Lemma length_xor_byte (i m : Z) (l : list Z) :
  length (xor_byte i m l) = length l.
Proof. apply length_alter. Qed.

Lemma length_paint_row (W sp x y : Z) (l : list Z) :
  length (paint_row W sp x y l) = length l.
Proof.
  unfold paint_row. cbv zeta. destruct (x mod 8 =? 0);
    now rewrite ?length_xor_byte.
Qed.

Lemma length_paint (W H : Z) (sprite : list Z) :
  ∀ (x y : Z) (l : list Z), length (paint W H sprite x y l) = length l.
Proof.
  induction sprite as [|sp rest IH]; intros x y l; cbn [paint];
    [reflexivity|]. now rewrite IH, length_paint_row.
Qed.

End PaintTwice.

(** ** Bits of a sprite row *)

Section Bits.

Lemma byte_bit (sp n : Z) : is_u8 sp → Z.testbit sp n = true → 0 <= n < 8.
Proof.
  intros Hsp Hb. destruct (Z_lt_le_dec n 0) as [Hneg|Hpos].
  - now rewrite Z.testbit_neg_r in Hb.
  - split; [exact Hpos|]. destruct (Z_lt_le_dec n 8) as [|Hge]; [assumption|].
    change (0 <= sp < 2 ^ 8) in Hsp.
    apply below_pow2_bits in Hsp as [_ Hhigh]; [|lia].
    rewrite (Hhigh n Hge) in Hb. discriminate.
Qed.

Lemma byte_nonzero_bit (sp : Z) :
  is_u8 sp → sp ≠ 0 → ∃ n, 0 <= n < 8 ∧ Z.testbit sp n = true.
Proof.
  intros Hsp Hne. exists (Z.log2 sp). unfold is_u8 in Hsp.
  assert (Hb : Z.testbit sp (Z.log2 sp) = true) by (apply Z.bit_log2; lia).
  split; [|exact Hb]. exact (byte_bit sp _ Hsp Hb).
Qed.

Lemma testbit_row_left (sp x k : Z) :
  0 <= k → Z.testbit (row_left sp x) k = Z.testbit sp (k + x mod 8).
Proof. intros Hk. unfold row_left. now apply Z.shiftr_spec. Qed.

Lemma testbit_row_right (sp x k : Z) :
  0 <= k →
  Z.testbit (row_right sp x) k
  = (k <? 8) && Z.testbit sp (k - (8 - x mod 8)).
Proof.
  intros Hk. unfold row_right, u8. change 256 with (2 ^ 8).
  destruct (Z.ltb_spec k 8).
  - rewrite Z.mod_pow2_bits_low by lia. now rewrite Z.shiftl_spec by lia.
  - now rewrite Z.mod_pow2_bits_high by lia.
Qed.

Lemma testbit_255 (n : Z) : 0 <= n → Z.testbit 255 n = (n <? 8).
Proof.
  intros Hn. change 255 with (Z.ones 8). destruct (Z.ltb_spec n 8).
  - apply Z.ones_spec_low. lia.
  - apply Z.ones_spec_high. lia.
Qed.

Lemma testbit_mask1 (x k : Z) :
  0 <= k → Z.testbit (Z.shiftr 255 (x mod 8)) k = (k + x mod 8 <? 8).
Proof.
  intros Hk. pose proof (Z.mod_pos_bound x 8 eq_refl).
  rewrite Z.shiftr_spec by lia. apply testbit_255. lia.
Qed.

Lemma testbit_mask2 (x k : Z) :
  0 <= k →
  Z.testbit (not8 (Z.shiftr 255 (x mod 8))) k
  = (k <? 8) && negb (k + x mod 8 <? 8).
Proof.
  intros Hk. pose proof (Z.mod_pos_bound x 8 eq_refl).
  unfold not8. rewrite Z.lxor_spec, testbit_mask1, testbit_255 by lia.
  destruct (Z.ltb_spec (k + x mod 8) 8); destruct (Z.ltb_spec k 8);
    try reflexivity; lia.
Qed.

Lemma land_covers (s a k : Z) :
  Z.land s a = a → Z.testbit a k = true → Z.testbit s k = true.
Proof.
  intros Hl Ha. rewrite <- Hl in Ha. rewrite Z.land_spec in Ha.
  now apply andb_true_iff in Ha as [Hs _].
Qed.

(** The search finds a bit that went from set to unset, in the first byte
    or, when the row is not aligned, in the second. *)
Lemma collides_finds (o1 n1 o2 n2 bitoff k : Z) (fuel : nat) :
  ∀ j, 0 <= j → j + Z.of_nat fuel = 7 → j <= k <= 7 →
       (Z.testbit o1 k = true ∧ Z.testbit n1 k = false)
       ∨ (bitoff ≠ 0 ∧ Z.testbit o2 k = true ∧ Z.testbit n2 k = false) →
       collides fuel (2 ^ j) o1 n1 o2 n2 bitoff = true.
Proof.
  induction fuel as [|fuel IH]; intros j Hj Hfuel Hk Hbit; cbn [collides];
    rewrite !land_pow2 by lia;
    assert (Hpos : 0 < 2 ^ j) by (apply Z.pow_pos_nonneg; lia).
  - assert (j = k) as -> by lia.
    destruct Hbit as [[-> ->] | (Hb & -> & ->)].
    + destruct (Z.gtb_spec (2 ^ k) 0); [reflexivity | lia].
    + destruct (_ >? _); [reflexivity|].
      destruct (Z.eqb_spec bitoff 0); [contradiction|]. cbn [negb andb].
      destruct (Z.gtb_spec (2 ^ k) 0); [reflexivity | lia].
  - destruct (_ >? _) eqn:C1; [reflexivity|].
    destruct (negb (bitoff =? 0) && _) eqn:C2; [reflexivity|].
    destruct (Z.eq_dec j k) as [->|Hjk].
    + exfalso. destruct Hbit as [[Ho Hn] | (Hb & Ho & Hn)].
      * rewrite Ho, Hn in C1. destruct (Z.gtb_spec (2 ^ k) 0); [discriminate | lia].
      * rewrite Ho, Hn in C2. destruct (Z.eqb_spec bitoff 0); [contradiction|].
        cbn [negb andb] in C2.
        destruct (Z.gtb_spec (2 ^ k) 0); [discriminate | lia].
    + destruct (Z.eqb_spec (2 ^ j) 128) as [He|_].
      { change 128 with (2 ^ 7) in He. apply Z.pow_inj_r in He; lia. }
      replace (u8 (Z.shiftl (2 ^ j) 1)) with (2 ^ (j + 1)).
      * apply IH; [lia | lia | lia | exact Hbit].
      * rewrite Z.shiftl_mul_pow2 by lia. rewrite <- Z.pow_add_r by lia.
        unfold u8. symmetry. apply Z.mod_small. split; [lia|].
        change 256 with (2 ^ 8). apply Z.pow_lt_mono_r; lia.
Qed.

Lemma xor_byte_lookup_eq (i m : Z) (l : list Z) :
  (Z.to_nat i < length l)%nat →
  xor_byte i m l !!! Z.to_nat i = Z.lxor (l !!! Z.to_nat i) m.
Proof.
  intros Hi. unfold xor_byte. rewrite list_lookup_total_alter.
  now rewrite decide_True by tauto.
Qed.

Lemma xor_byte_lookup_ne (i m : Z) (j : nat) (l : list Z) :
  Z.to_nat i ≠ j → xor_byte i m l !!! j = l !!! j.
Proof.
  intros Hi. unfold xor_byte. rewrite list_lookup_total_alter.
  now rewrite decide_False by tauto.
Qed.

End Bits.

(** ** One row, painted on clear ground and painted again *)

Section Rows.

Ltac bitwise k :=
  apply Z.bits_inj'; intros k ?;
  repeat match goal with
    | H : Z.land _ _ = 0 |- _ =>
        apply (f_equal (λ z, Z.testbit z k)) in H;
        rewrite Z.land_spec, Z.bits_0 in H
    end;
  rewrite ?Z.land_spec, ?Z.lxor_spec;
  repeat match goal with
    | |- context [Z.testbit ?z k] => destruct (Z.testbit z k)
    end;
  cbn in *; congruence.

Lemma lit_after_xor (s a : Z) :
  Z.land s a = 0 → Z.land (Z.lxor s a) a = a.
Proof. intros H. bitwise k. Qed.

Lemma lit_after_xor_both_l (s a b : Z) :
  Z.land s a = 0 → Z.land a b = 0 → Z.land (Z.lxor (Z.lxor s a) b) a = a.
Proof. intros H1 H2. bitwise k. Qed.

Lemma lit_after_xor_both_r (s a b : Z) :
  Z.land s b = 0 → Z.land a b = 0 → Z.land (Z.lxor (Z.lxor s a) b) b = b.
Proof. intros H1 H2. bitwise k. Qed.

Lemma row_parts_disjoint (sp x : Z) :
  is_u8 sp → Z.land (row_left sp x) (row_right sp x) = 0.
Proof.
  intros Hsp. pose proof (Z.mod_pos_bound x 8 eq_refl).
  apply Z.bits_inj'. intros k Hk.
  rewrite Z.land_spec, Z.bits_0, testbit_row_left, testbit_row_right by lia.
  destruct (Z.testbit sp (k + x mod 8)) eqn:Hl; [|reflexivity].
  apply byte_bit in Hl; [|exact Hsp].
  rewrite (Z.testbit_neg_r sp) by lia. now rewrite andb_false_r.
Qed.

Variables W sp x y : Z.
Variable scr : list Z.
Hypothesis Hsp : is_u8 sp.
Hypothesis Hi : (Z.to_nat (row_index W x y) < length scr)%nat.
Hypothesis Hj : (Z.to_nat (row_next W x y) < length scr)%nat.

(** The two bytes of the row after the row has been xored in. *)
Lemma paint_row_index :
  paint_row W sp x y scr !!! Z.to_nat (row_index W x y)
  = if (x mod 8 =? 0)
       || negb (bool_decide (Z.to_nat (row_index W x y)
                             = Z.to_nat (row_next W x y)))
    then Z.lxor (scr !!! Z.to_nat (row_index W x y)) (row_left sp x)
    else Z.lxor (Z.lxor (scr !!! Z.to_nat (row_index W x y)) (row_left sp x))
           (row_right sp x).
Proof.
  unfold paint_row. cbv zeta. destruct (x mod 8 =? 0); cbn [orb].
  - now apply xor_byte_lookup_eq.
  - destruct (bool_decide_reflect (Z.to_nat (row_index W x y)
                                   = Z.to_nat (row_next W x y))) as [He|Hne];
      cbn [negb].
    + unfold xor_byte. rewrite !list_lookup_total_alter, length_alter.
      rewrite <- He. now rewrite !decide_True by tauto.
    + rewrite xor_byte_lookup_ne by congruence. now apply xor_byte_lookup_eq.
Qed.

Lemma xor_index_next :
  xor_byte (row_index W x y) (row_left sp x) scr !!! Z.to_nat (row_next W x y)
  = if bool_decide (Z.to_nat (row_index W x y) = Z.to_nat (row_next W x y))
    then Z.lxor (scr !!! Z.to_nat (row_next W x y)) (row_left sp x)
    else scr !!! Z.to_nat (row_next W x y).
Proof.
  destruct (bool_decide_reflect (Z.to_nat (row_index W x y)
                                 = Z.to_nat (row_next W x y))) as [He|Hne].
  - rewrite <- He. now apply xor_byte_lookup_eq.
  - now apply xor_byte_lookup_ne.
Qed.

Lemma paint_row_next :
  x mod 8 ≠ 0 →
  paint_row W sp x y scr !!! Z.to_nat (row_next W x y)
  = Z.lxor (xor_byte (row_index W x y) (row_left sp x) scr
              !!! Z.to_nat (row_next W x y))
      (row_right sp x).
Proof.
  intros Hbo. unfold paint_row. cbv zeta.
  destruct (Z.eqb_spec (x mod 8) 0); [contradiction|].
  apply xor_byte_lookup_eq. rewrite length_xor_byte. exact Hj.
Qed.

(** A row xored into clear ground is lit. *)
Lemma row_lit_after_paint :
  row_clear W sp x y scr → row_lit W sp x y (paint_row W sp x y scr).
Proof.
  intros [Hc1 Hc2]. pose proof (row_parts_disjoint sp x Hsp) as Hd.
  split.
  - rewrite paint_row_index.
    destruct (Z.eqb_spec (x mod 8) 0) as [|Hbo]; cbn [orb];
      [now apply lit_after_xor|].
    destruct (bool_decide_reflect (Z.to_nat (row_index W x y)
                                   = Z.to_nat (row_next W x y))) as [He|Hne];
      cbn [negb]; [|now apply lit_after_xor].
    now apply lit_after_xor_both_l.
  - intros Hbo. specialize (Hc2 Hbo). rewrite paint_row_next by exact Hbo.
    rewrite xor_index_next.
    destruct (bool_decide_reflect (Z.to_nat (row_index W x y)
                                   = Z.to_nat (row_next W x y))) as [He|Hne].
    + apply lit_after_xor_both_r; [exact Hc2 | exact Hd].
    + now apply lit_after_xor.
Qed.

(** Xoring a non-empty row over itself turns a pixel off. *)
Lemma row_collides_lit :
  sp ≠ 0 → row_lit W sp x y scr → row_collides W sp x y scr = true.
Proof.
  intros Hne [Hl1 Hl2]. pose proof (Z.mod_pos_bound x 8 eq_refl) as Hbo.
  destruct (byte_nonzero_bit sp Hsp Hne) as (n & Hn & Hbit).
  unfold row_collides. cbv zeta.
  destruct (Z_le_gt_dec (x mod 8) n) as [Hle|Hgt].
  - (* the bit goes to the first byte *)
    apply (collides_finds _ _ _ _ _ (n - x mod 8) 7 0); [lia | lia | lia |].
    left.
    assert (Ha : Z.testbit (row_left sp x) (n - x mod 8) = true).
    { rewrite testbit_row_left by lia.
      now replace (n - x mod 8 + x mod 8) with n by lia. }
    assert (Hb : Z.testbit (row_right sp x) (n - x mod 8) = false).
    { pose proof (row_parts_disjoint sp x Hsp) as Hd.
      apply (f_equal (λ z, Z.testbit z (n - x mod 8))) in Hd.
      rewrite Z.land_spec, Z.bits_0, Ha in Hd. exact Hd. }
    assert (Hm : Z.testbit (Z.shiftr 255 (x mod 8)) (n - x mod 8) = true).
    { rewrite testbit_mask1 by lia. destruct (Z.ltb_spec (n - x mod 8 + x mod 8) 8);
        [reflexivity | lia]. }
    pose proof (land_covers _ _ _ Hl1 Ha) as Hs.
    rewrite !Z.land_spec, Hs, Hm, paint_row_index. split; [reflexivity|].
    destruct (_ || _); rewrite ?Z.lxor_spec, Hs, Ha, ?Hb; reflexivity.
  - (* the bit goes to the second byte *)
    assert (Hbo' : x mod 8 ≠ 0) by lia.
    apply (collides_finds _ _ _ _ _ (n + 8 - x mod 8) 7 0); [lia | lia | lia |].
    right. split; [exact Hbo'|].
    assert (Hb : Z.testbit (row_right sp x) (n + 8 - x mod 8) = true).
    { rewrite testbit_row_right by lia.
      replace (n + 8 - x mod 8 - (8 - x mod 8)) with n by lia.
      rewrite Hbit. destruct (Z.ltb_spec (n + 8 - x mod 8) 8); [reflexivity | lia]. }
    assert (Ha : Z.testbit (row_left sp x) (n + 8 - x mod 8) = false).
    { pose proof (row_parts_disjoint sp x Hsp) as Hd.
      apply (f_equal (λ z, Z.testbit z (n + 8 - x mod 8))) in Hd.
      rewrite Z.land_spec, Z.bits_0, Hb, andb_true_r in Hd. exact Hd. }
    assert (Hm : Z.testbit (not8 (Z.shiftr 255 (x mod 8))) (n + 8 - x mod 8)
                 = true).
    { rewrite testbit_mask2 by lia.
      destruct (Z.ltb_spec (n + 8 - x mod 8) 8); [|lia].
      destruct (Z.ltb_spec (n + 8 - x mod 8 + x mod 8) 8); [lia | reflexivity]. }
    pose proof (land_covers _ _ _ (Hl2 Hbo') Hb) as Hs.
    rewrite !Z.land_spec, Hm, paint_row_next, Z.lxor_spec, xor_index_next, Hb
      by exact Hbo'.
    destruct (bool_decide _); rewrite ?Z.lxor_spec, Hs, ?Ha; split; reflexivity.
Qed.

End Rows.

(** ** A sprite, painted on clear ground and painted again *)

Section Bands.

Variables W H x : Z.
Hypothesis HW : 1 <= W / 8 ∧ W = 8 * (W / 8).
Hypothesis HH : 16 <= H.
Hypothesis Hx : 0 <= x < W.

Lemma row_index_band (y : Z) :
  0 <= y → in_band W y (Z.to_nat (row_index W x y)).
Proof.
  intros Hy. unfold in_band, row_index.
  assert (0 <= x / 8 < W / 8).
  { split; [apply Z.div_pos; lia | apply Z.div_lt_upper_bound; lia]. }
  rewrite Z2Nat.id by nia. lia.
Qed.

Lemma row_next_band (y : Z) :
  0 <= y → in_band W y (Z.to_nat (row_next W x y)).
Proof.
  intros Hy. unfold in_band, row_next.
  pose proof (Z.mod_pos_bound (x / 8 + 1) (W / 8)).
  rewrite Z2Nat.id by nia. lia.
Qed.

Lemma bands_disjoint (y1 y2 : Z) (j : nat) :
  y1 ≠ y2 → in_band W y1 j → ¬ in_band W y2 j.
Proof. unfold in_band. intros Hne H1 H2. nia. Qed.

Lemma band_length (y : Z) (j : nat) (l : list Z) :
  0 <= y < H → Z.of_nat (length l) = W / 8 * H → in_band W y j →
  (j < length l)%nat.
Proof. unfold in_band. intros Hy Hl Hb. nia. Qed.

Lemma line_shift_ne (y d : Z) :
  0 <= y < H → 0 < d < H → (y + d) mod H ≠ y.
Proof.
  intros Hy Hd Heq. destruct (Z_lt_le_dec (y + d) H).
  - rewrite Z.mod_small in Heq by lia. lia.
  - replace (y + d) with (y + d - H + 1 * H) in Heq by lia.
    rewrite Z.mod_add in Heq by lia. rewrite Z.mod_small in Heq by lia. lia.
Qed.

Lemma line_shift_step (y r : Z) :
  ((y + 1) mod H + r) mod H = (y + (r + 1)) mod H.
Proof. rewrite Z.add_mod_idemp_l by lia. f_equal. lia. Qed.

Lemma paint_row_other (sp y : Z) (j : nat) (l : list Z) :
  0 <= y → ¬ in_band W y j → paint_row W sp x y l !!! j = l !!! j.
Proof.
  intros Hy Hout.
  assert (Z.to_nat (row_index W x y) ≠ j)
    by (intros <-; apply Hout; now apply row_index_band).
  assert (Z.to_nat (row_next W x y) ≠ j)
    by (intros <-; apply Hout; now apply row_next_band).
  unfold paint_row. cbv zeta. destruct (x mod 8 =? 0);
    now rewrite !xor_byte_lookup_ne.
Qed.

Lemma paint_other (sprite : list Z) (j : nat) :
  ∀ (y : Z) (l : list Z),
    0 <= y < H →
    (∀ r, (r < length sprite)%nat → ¬ in_band W ((y + Z.of_nat r) mod H) j) →
    paint W H sprite x y l !!! j = l !!! j.
Proof.
  induction sprite as [|sp rest IH]; intros y l Hy Hout; cbn [paint].
  - reflexivity.
  - pose proof (Z.mod_pos_bound (y + 1) H).
    rewrite IH.
    + apply paint_row_other; [lia|].
      specialize (Hout 0%nat ltac:(cbn; lia)).
      now rewrite Z.add_0_r, Z.mod_small in Hout by lia.
    + lia.
    + intros r Hr. rewrite line_shift_step.
      specialize (Hout (S r) ltac:(cbn; lia)).
      now replace (Z.of_nat (S r)) with (Z.of_nat r + 1) in Hout by lia.
Qed.

(** Bytes of one line are not touched by rows that fall on other lines. *)
Lemma paint_keeps_line (sprite : list Z) (y y0 : Z) (j : nat) (l : list Z) :
  0 <= y < H → 0 <= y0 < H →
  Z.of_nat (length sprite) < H →
  (∀ r, (r < length sprite)%nat → (y + Z.of_nat r) mod H ≠ y0) →
  in_band W y0 j →
  paint W H sprite x y l !!! j = l !!! j.
Proof.
  intros Hy Hy0 Hlen Hne Hband. apply paint_other; [exact Hy|].
  intros r Hr. apply (bands_disjoint y0); [|exact Hband].
  intros Heq. now apply (Hne r Hr).
Qed.


(** After a sprite has been xored into ground that was clear under it,
    every one of its rows is lit. *)
Lemma paint_lit (sprite : list Z) :
  ∀ (y : Z) (scr : list Z),
    bytes sprite → Z.of_nat (length sprite) < H → 0 <= y < H →
    Z.of_nat (length scr) = W / 8 * H →
    (∀ (r : nat) sp, sprite !! r = Some sp →
                     row_clear W sp x ((y + Z.of_nat r) mod H) scr) →
    ∀ (r : nat) sp, sprite !! r = Some sp →
                    row_lit W sp x ((y + Z.of_nat r) mod H)
                      (paint W H sprite x y scr).
Proof.
  induction sprite as [|sp0 rest IH];
    intros y scr Hb Hlen Hy Hscr Hclear r sp Hr; [discriminate|].
  cbn [length] in Hlen. apply Forall_cons in Hb as [Hb0 Hb].
  pose proof (Z.mod_pos_bound (y + 1) H ltac:(lia)) as Hy1.
  cbn [paint]. destruct r as [|r].
  - injection Hr as <-. rewrite Z.add_0_r, Z.mod_small by lia.
    pose proof (Hclear 0%nat sp0 eq_refl) as Hc.
    rewrite Z.add_0_r, Z.mod_small in Hc by lia.
    pose proof (row_index_band y ltac:(lia)) as Bi.
    pose proof (row_next_band y ltac:(lia)) as Bj.
    assert (Hkeep : ∀ j, in_band W y j →
              paint W H rest x ((y + 1) mod H) (paint_row W sp0 x y scr) !!! j
              = paint_row W sp0 x y scr !!! j).
    { intros j Hj. apply (paint_keeps_line rest _ y); try lia; [|exact Hj].
      intros r' Hr'. rewrite line_shift_step. apply line_shift_ne; lia. }
    unfold row_lit. rewrite !Hkeep by assumption.
    apply row_lit_after_paint; try assumption.
    + now apply (band_length y).
    + now apply (band_length y).
  - cbn in Hr. replace (Z.of_nat (S r)) with (Z.of_nat r + 1) by lia.
    rewrite <- line_shift_step.
    apply IH; try assumption; try lia.
    + now rewrite length_paint_row.
    + intros r' sp' Hr'. rewrite line_shift_step.
      pose proof (Hclear (S r') sp' Hr') as Hc.
      replace (Z.of_nat (S r')) with (Z.of_nat r' + 1) in Hc by lia.
      apply lookup_lt_Some in Hr'.
      set (yb := (y + (Z.of_nat r' + 1)) mod H) in *.
      assert (Hyb : 0 <= yb < H) by (apply Z.mod_pos_bound; lia).
      assert (Hne : yb ≠ y) by (apply line_shift_ne; lia).
      assert (Hsame : ∀ j, in_band W yb j →
                paint_row W sp0 x y scr !!! j = scr !!! j).
      { intros j Hj. apply paint_row_other; [lia|].
        now apply (bands_disjoint yb). }
      unfold row_clear.
      rewrite !Hsame by (apply row_index_band || apply row_next_band; lia).
      exact Hc.
Qed.

(** Xoring a sprite with a set pixel over its own lit image turns a pixel
    off. *)
Lemma paint_collides_lit (sprite : list Z) :
  ∀ (y : Z) (scr : list Z),
    bytes sprite → 0 <= y < H →
    Z.of_nat (length scr) = W / 8 * H →
    (∀ (r : nat) sp, sprite !! r = Some sp →
                     row_lit W sp x ((y + Z.of_nat r) mod H) scr) →
    (∃ (r : nat) sp, sprite !! r = Some sp ∧ sp ≠ 0) →
    paint_collides W H sprite x y scr = true.
Proof.
  induction sprite as [|sp0 rest IH];
    intros y scr Hb Hy Hscr Hlit (r & sp & Hr & Hne); [discriminate|].
  apply Forall_cons in Hb as [Hb0 Hb].
  pose proof (Z.mod_pos_bound (y + 1) H ltac:(lia)) as Hy1.
  cbn [paint_collides]. destruct (Z.eq_dec sp0 0) as [->|Hne0].
  - assert (Hid : paint_row W 0 x y scr = scr).
    { unfold paint_row, row_left, row_right. cbv zeta.
      rewrite Z.shiftr_0_l, Z.shiftl_0_l. change (u8 0) with 0.
      destruct (x mod 8 =? 0); now rewrite !xor_byte_zero. }
    rewrite Hid, IH; [apply orb_true_r | assumption.. | |].
    + intros r' sp' Hr'. rewrite line_shift_step.
      pose proof (Hlit (S r') sp' Hr') as Hl.
      now replace (Z.of_nat (S r')) with (Z.of_nat r' + 1) in Hl by lia.
    + destruct r as [|r]; [injection Hr as <-; contradiction|].
      exists r, sp. auto.
  - pose proof (Hlit 0%nat sp0 eq_refl) as Hl.
    rewrite Z.add_0_r, Z.mod_small in Hl by lia.
    rewrite row_collides_lit; try assumption; [reflexivity | |].
    + apply (band_length y); [lia | exact Hscr | apply row_index_band; lia].
    + apply (band_length y); [lia | exact Hscr | apply row_next_band; lia].
Qed.

End Bands.

(** ** From pixels to bytes *)

Section Pixels.

Lemma split_by_8 (m t : Z) :
  0 <= t < 8 → (8 * m + t) / 8 = m ∧ (8 * m + t) mod 8 = t.
Proof.
  intros Ht. split.
  - symmetry. apply (Z.div_unique _ 8 m t); lia.
  - symmetry. apply (Z.mod_unique _ 8 m t); lia.
Qed.

Lemma mod_8_times (bw q t : Z) :
  0 < bw → 0 <= t < 8 → (8 * q + t) mod (8 * bw) = 8 * (q mod bw) + t.
Proof.
  intros Hbw Ht. symmetry.
  pose proof (Z.div_mod q bw ltac:(lia)).
  pose proof (Z.mod_pos_bound q bw Hbw).
  apply (Z.mod_unique _ _ (q / bw)); nia.
Qed.

Variable c : Chip8.
Variables x y n : Z.
Hypothesis Hwf : wf c.
Hypothesis Hx : 0 <= x < Width c.
Hypothesis Hn : 0 <= n.
Hypothesis Hoff : sprite_area_off c x y n.

Lemma sprite_at_lookup (r : nat) (sp : Z) :
  sprite_at c n !! r = Some sp →
  Z.of_nat r < n ∧ Memory c !!! Z.to_nat (I c + Z.of_nat r) = sp.
Proof.
  unfold sprite_at. rewrite lookup_take, lookup_drop.
  destruct (decide (r < Z.to_nat n)%nat); [|discriminate].
  intros Hl. split; [lia|].
  pose proof (wf_I c Hwf) as HI. unfold is_u16 in HI.
  replace (Z.to_nat (I c + Z.of_nat r)) with (Z.to_nat (I c) + r)%nat by lia.
  now apply list_lookup_total_correct.
Qed.

(** If the pixels under the sprite are off, the bits that each row will
    flip are clear in the bytes of the screen. *)
Lemma area_off_row_clear (r : nat) (sp : Z) :
  sprite_at c n !! r = Some sp → is_u8 sp →
  row_clear (Width c) sp x ((y + Z.of_nat r) mod Height c) (screen_bytes c).
Proof.
  intros Hr Hsp. destruct (sprite_at_lookup r sp Hr) as [Hrn Hmem].
  destruct (screen_dims c Hwf) as (Hbw & HW & HH & _).
  pose proof (Z.mod_pos_bound x 8 eq_refl) as Hbo.
  pose proof (Z.div_mod x 8 ltac:(lia)) as Hx8.
  assert (Hq : 0 <= x / 8 < Width c / 8).
  { split; [apply Z.div_pos; lia | apply Z.div_lt_upper_bound; lia]. }
  set (yr := (y + Z.of_nat r) mod Height c).
  assert (Hpix : ∀ k, 0 <= k < 8 → Z.testbit sp (7 - k) = true →
                      pixel c ((x + k) mod Width c) yr = false).
  { intros k Hk Hb. apply (Hoff (Z.of_nat r) k); [lia | exact Hk |].
    unfold sprite_pixel. now rewrite Hmem. }
  split.
  - apply Z.bits_inj'. intros j Hj.
    rewrite Z.land_spec, Z.bits_0, testbit_row_left by lia.
    destruct (Z.testbit sp (j + x mod 8)) eqn:Hb; [|apply andb_false_r].
    rewrite andb_true_r. pose proof (byte_bit _ _ Hsp Hb) as Hjb.
    specialize (Hpix (7 - j - x mod 8) ltac:(lia)).
    replace (7 - (7 - j - x mod 8)) with (j + x mod 8) in Hpix by lia.
    specialize (Hpix Hb). unfold pixel, row_index in Hpix.
    replace (x + (7 - j - x mod 8)) with (8 * (x / 8) + (7 - j)) in Hpix by lia.
    rewrite Z.mod_small in Hpix by lia.
    destruct (split_by_8 (x / 8) (7 - j) ltac:(lia)) as [-> ->] in Hpix.
    now replace (7 - (7 - j)) with j in Hpix by lia.
  - intros Hne. apply Z.bits_inj'. intros j Hj.
    rewrite Z.land_spec, Z.bits_0, testbit_row_right by lia.
    destruct (Z.ltb_spec j 8) as [Hj8|]; [|apply andb_false_r]. cbn [andb].
    destruct (Z.testbit sp (j - (8 - x mod 8))) eqn:Hb; [|apply andb_false_r].
    rewrite andb_true_r. pose proof (byte_bit _ _ Hsp Hb) as Hjb.
    specialize (Hpix (15 - j - x mod 8) ltac:(lia)).
    replace (7 - (15 - j - x mod 8)) with (j - (8 - x mod 8)) in Hpix by lia.
    specialize (Hpix Hb). unfold pixel, row_index in Hpix.
    replace (x + (15 - j - x mod 8)) with (8 * (x / 8 + 1) + (7 - j))
      in Hpix by lia.
    assert (E : (8 * (x / 8 + 1) + (7 - j)) mod Width c
                = 8 * ((x / 8 + 1) mod (Width c / 8)) + (7 - j)).
    { replace (Width c) with (8 * (Width c / 8)) at 1 by lia.
      apply mod_8_times; lia. }
    rewrite E in Hpix.
    destruct (split_by_8 ((x / 8 + 1) mod (Width c / 8)) (7 - j) ltac:(lia))
      as [-> ->] in Hpix.
    replace (7 - (7 - j)) with j in Hpix by lia.
    unfold row_next. exact Hpix.
Qed.

End Pixels.

(** ** Drawing a sprite twice *)

Section DrawTwice.

(** DRW on a well-formed machine whose sprite lies within the memory and
    outside the screen: the screen is painted with the sprite and VF says
    whether a pixel went off. *)
Lemma exec_Drw_spec (c : Chip8) (b0 b1 : Z) :
  wf c →
  I c + Z.land b1 0x0F <= Z.of_nat (length (Memory c)) →
  apart_from_screen c (I c) (Z.land b1 0x0F) →
  ∃ c', exec_Drw b0 b1 c = Next c' [EvUpdateScreen] ∧ wf c'
        ∧ draw_frame c c' ∧ mem_outside c c'
        ∧ screen_bytes c'
          = paint (Width c) (Height c) (sprite_at c (Z.land b1 0x0F))
              (reg c (opX b0) mod Width c) (reg c (opY b1) mod Height c)
              (screen_bytes c)
        ∧ V c' = <[15%nat :=
                    if paint_collides (Width c) (Height c)
                         (sprite_at c (Z.land b1 0x0F))
                         (reg c (opX b0) mod Width c)
                         (reg c (opY b1) mod Height c) (screen_bytes c)
                    then 1 else 0]> (V c).
Proof.
  intros Hwf Hfit Hap. unfold exec_Drw.
  destruct (screen_dims c Hwf) as (Hbw & HW & HH & _).
  destruct (Z.eqb_spec (Width c) 0) as [|_]; [lia|].
  destruct (Z.eqb_spec (Height c) 0) as [|_]; [lia|]. cbn [orb]. cbv zeta.
  pose proof (wf_I c Hwf) as HI. pose proof (wf_MemorySize c Hwf) as Hsz.
  unfold is_u16 in HI.
  assert (Hrows : 0 <= Z.land b1 15 < 16).
  { change 15 with (Z.ones 4). rewrite Z.land_ones by lia.
    apply Z.mod_pos_bound. reflexivity. }
  rewrite (u16_small (65535 - I c)) by (unfold is_u16; lia).
  destruct (Z.ltb_spec (65535 - I c) (Z.land b1 15)); [lia|].
  destruct (Z.geb_spec (I c + Z.land b1 15 - 1) (Z.of_nat (length (Memory c))));
    [lia|].
  cbn [I set_reg set_V Memory].
  rewrite (u16_small (I c + Z.land b1 15)) by (unfold is_u16; lia).
  destruct (Z.leb_spec 0 (I c)); [|lia].
  destruct (Z.leb_spec (I c) (I c + Z.land b1 15)); [|lia].
  destruct (Z.leb_spec (I c + Z.land b1 15) (Z.of_nat (length (Memory c)))); [|lia].
  cbn [andb negb].
  assert (Hwf1 : wf (set_reg 15 0 c))
    by (apply wf_set_reg; [exact Hwf | unfold is_u8; lia]).
  destruct (draw_loop_spec (Z.to_nat (Z.land b1 15)) 0
              (reg c (opX b0) mod Width c) (reg c (opY b1) mod Height c)
              (set_reg 15 0 c) Hwf1) as (c2 & -> & Hwf2 & F & O & Hpaint).
  - apply Z.mod_pos_bound. cbn [Width set_reg set_V]. lia.
  - apply Z.mod_pos_bound. cbn [Height set_reg set_V]. lia.
  - lia.
  - cbn [I set_reg set_V Memory]. lia.
  - exists c2. split; [reflexivity|]. split; [exact Hwf2|].
    split; [exact (draw_frame_trans _ _ _ (draw_frame_set_reg c 15 0) F)|].
    split; [exact O|].
    destruct Hpaint as [Hscr HV].
    { change (apart_from_screen c (I c + 0) (Z.of_nat (Z.to_nat (Z.land b1 15)))).
      now rewrite Z.add_0_r, Z2Nat.id by lia. }
    cbv zeta in Hscr, HV.
    change (I (set_reg 15 0 c)) with (I c) in Hscr, HV.
    change (Memory (set_reg 15 0 c)) with (Memory c) in Hscr, HV.
    change (Width (set_reg 15 0 c)) with (Width c) in Hscr, HV.
    change (Height (set_reg 15 0 c)) with (Height c) in Hscr, HV.
    change (screen_bytes (set_reg 15 0 c)) with (screen_bytes c) in Hscr, HV.
    rewrite Z.add_0_r in Hscr, HV. fold (sprite_at c (Z.land b1 15)) in Hscr, HV.
    split; [exact Hscr|]. rewrite HV.
    assert (Hlen : (15 < length (V c))%nat) by (rewrite (wf_V16 c Hwf); lia).
    unfold reg, set_reg. cbn [V set_V].
    rewrite (list_lookup_total_insert_eq _ _ _ Hlen). cbn [Z.eqb andb].
    destruct (paint_collides _ _ _ _ _ _); [|reflexivity].
    apply list_insert_insert_eq.
Qed.

Lemma bytes_sprite_at (c : Chip8) (n : Z) : wf c → bytes (sprite_at c n).
Proof.
  intros Hwf. unfold sprite_at. apply Forall_take, Forall_drop.
  exact (wf_Memory c Hwf).
Qed.

Lemma sprite_not_empty_byte (c : Chip8) (n : Z) :
  wf c → I c + n <= Z.of_nat (length (Memory c)) → sprite_not_empty c n →
  ∃ (r : nat) sp, sprite_at c n !! r = Some sp ∧ sp ≠ 0.
Proof.
  intros Hwf Hfit (r & k & Hr & Hk & Hb).
  pose proof (wf_I c Hwf) as HI. unfold is_u16 in HI.
  exists (Z.to_nat r), (Memory c !!! Z.to_nat (I c + r)). split.
  - unfold sprite_at. rewrite lookup_take_lt, lookup_drop by lia.
    replace (Z.to_nat (I c) + Z.to_nat r)%nat with (Z.to_nat (I c + r)) by lia.
    apply list_lookup_lookup_total_lt. lia.
  - intros H0. unfold sprite_pixel in Hb. rewrite H0, Z.bits_0 in Hb.
    discriminate.
Qed.

(** The second of two draws of one sprite at one place, the first having
    been made on ground that was clear under the sprite: the screen is as
    before the first draw and VF is 1. *)
Lemma second_draw (c d : Chip8) (b0 b1 : Z) :
  wf c → wf d →
  I c + Z.land b1 0x0F <= Z.of_nat (length (Memory c)) →
  sprite_not_empty c (Z.land b1 0x0F) →
  sprite_area_off c (reg c (opX b0) mod Width c) (reg c (opY b1) mod Height c)
    (Z.land b1 0x0F) →
  screen_bytes d
  = paint (Width c) (Height c) (sprite_at c (Z.land b1 0x0F))
      (reg c (opX b0) mod Width c) (reg c (opY b1) mod Height c)
      (screen_bytes c) →
  Width d = Width c → Height d = Height c →
  sprite_at d (Z.land b1 0x0F) = sprite_at c (Z.land b1 0x0F) →
  I d + Z.land b1 0x0F <= Z.of_nat (length (Memory d)) →
  apart_from_screen d (I d) (Z.land b1 0x0F) →
  reg d (opX b0) mod Width c = reg c (opX b0) mod Width c →
  reg d (opY b1) mod Height c = reg c (opY b1) mod Height c →
  ∃ c2, exec_Drw b0 b1 d = Next c2 [EvUpdateScreen] ∧ wf c2
        ∧ draw_frame d c2
        ∧ screen_bytes c2 = screen_bytes c ∧ reg c2 0xF = 1.
Proof.
  intros Hwf Hwfd Hfit Hne Hoff Hscr HWd HHd Hsp Hfitd Hapd HX HY.
  destruct (exec_Drw_spec d b0 b1 Hwfd Hfitd Hapd)
    as (c2 & Hex & Hwf2 & F & _ & Hscr2 & HV2).
  rewrite HWd, HHd, Hsp, HX, HY, Hscr in Hscr2, HV2.
  exists c2. split; [exact Hex|]. split; [exact Hwf2|]. split; [exact F|].
  split; [now rewrite Hscr2, paint_twice|].
  destruct (screen_dims c Hwf) as (Hbw & HW & HH & Hlen).
  assert (Hrows : 0 <= Z.land b1 15 < 16).
  { change 15 with (Z.ones 4). rewrite Z.land_ones by lia.
    apply Z.mod_pos_bound. reflexivity. }
  assert (Hx : 0 <= reg c (opX b0) mod Width c < Width c)
    by (apply Z.mod_pos_bound; lia).
  assert (Hy : 0 <= reg c (opY b1) mod Height c < Height c)
    by (apply Z.mod_pos_bound; lia).
  assert (Hslen : Z.of_nat (length (screen_bytes c)) = Width c / 8 * Height c)
    by (rewrite screen_len_bytes; assumption).
  assert (Hsplen : Z.of_nat (length (sprite_at c (Z.land b1 15))) < Height c).
  { unfold sprite_at. rewrite length_take. lia. }
  rewrite paint_collides_lit in HV2; try assumption; try lia.
  - unfold reg. rewrite HV2. apply list_lookup_total_insert_eq.
    rewrite (wf_V16 d Hwfd). lia.
  - now apply bytes_sprite_at.
  - now rewrite length_paint.
  - apply paint_lit; try assumption; try lia.
    + now apply bytes_sprite_at.
    + intros r sp Hr. apply area_off_row_clear with (n := Z.land b1 15);
        try assumption; try lia.
      exact (proj1 (Forall_lookup _ _) (bytes_sprite_at c _ Hwf) _ _ Hr).
  - now apply sprite_not_empty_byte.
Qed.

End DrawTwice.

Section TimersKeep.

Lemma timers_keep_refl (c : Chip8) : timers_keep c c.
Proof. constructor; reflexivity. Qed.

Lemma timers_keep_trans (c1 c2 c3 : Chip8) :
  timers_keep c1 c2 → timers_keep c2 c3 → timers_keep c1 c3.
Proof. intros [] []. constructor; congruence. Qed.

Lemma timer_loop_keep (fuel : nat) (t : Z) :
  ∀ (c c' : Chip8) (evs evs' : list Event),
    timer_loop fuel t c evs = Some (c', evs') → timers_keep c c'.
Proof.
  induction fuel as [|fuel IH]; intros c c' evs evs'; cbn [timer_loop];
    destruct (_ >=? _); try discriminate;
    try (intros [= <- _]; apply timers_keep_refl).
  destruct (DT c >? 0); destruct (_ >? 0); intros Hl; apply IH in Hl;
    destruct Hl; constructor; assumption.
Qed.

Lemma timers_keep_timers (env : Env) (c c' : Chip8) (evs evs' : list Event)
    (o : Outcome) :
  timers env c evs = (o, c', evs') → timers_keep c c'.
Proof.
  unfold timers.
  set (c1 := if lastTimerUpdate c =? 0 then set_lastTimerUpdate (now env) c
             else c).
  assert (K1 : timers_keep c c1)
    by (unfold c1; destruct (_ =? 0); constructor; reflexivity).
  destruct (timer_loop _ _ _ _) as [[c2 evs2]|] eqn:Hl.
  - intros [= _ <- _]. apply timer_loop_keep in Hl.
    eapply timers_keep_trans; eauto.
  - now intros [= _ <- _].
Qed.

Lemma screen_bytes_keep (c c' : Chip8) :
  Memory c' = Memory c → Screen c' = Screen c →
  screen_bytes c' = screen_bytes c.
Proof. intros HM HS. unfold screen_bytes. now rewrite HM, HS. Qed.

End TimersKeep.

Section DrawCycle.

Variable env : Env.
Variable c : Chip8.
Variables b0 b1 : Z.
Hypothesis Hwf : wf c.
Hypothesis Hwii : wii c = None.
Hypothesis Hfetch : fetch c = Some (b0, b1).
Hypothesis Hdrw : Tick_switch b0 b1 = Drw.

(** A cycle that runs DXYN is the draw followed by the timers. *)
Lemma Tick_Drw :
  Tick env c
  = match exec_Drw b0 b1 (set_PC (u16 (PC c + 2)) c) with
    | Stop o c' => (o, c', [EvOnUpdate])
    | Next c' evs' => timers env c' ([EvOnUpdate] ++ evs')
    end.
Proof. unfold Tick, cycle, exec. now rewrite Hwii, Hfetch, Hdrw. Qed.

End DrawCycle.

(** C8.  On a well-formed machine with no wait pending, let DXYN be the
    instruction at the program counter, its sprite of N rows lying within
    the memory and outside the bytes of the screen, with a set pixel, and
    let every screen pixel under a set pixel of the sprite be off.  If the
    next instruction is the same DXYN and its registers give the same
    coordinates, then after the two cycles the screen is byte for byte as
    it was, so every pixel under the sprite is off again, and V[0xF] = 1. *)
Theorem draw_twice_restores (env1 env2 : Env) (c c1 c2 : Chip8) (b0 b1 : Z)
    (o1 o2 : Outcome) (evs1 evs2 : list Event) :
  wf c → wii c = None →
  fetch c = Some (b0, b1) → Tick_switch b0 b1 = Drw →
  I c + Z.land b1 0x0F <= Z.of_nat (length (Memory c)) →
  apart_from_screen c (I c) (Z.land b1 0x0F) →
  sprite_not_empty c (Z.land b1 0x0F) →
  sprite_area_off c (reg c (opX b0) mod Width c) (reg c (opY b1) mod Height c)
    (Z.land b1 0x0F) →
  Tick env1 c = (o1, c1, evs1) →
  fetch c1 = Some (b0, b1) →
  reg c1 (opX b0) mod Width c = reg c (opX b0) mod Width c →
  reg c1 (opY b1) mod Height c = reg c (opY b1) mod Height c →
  Tick env2 c1 = (o2, c2, evs2) →
  o1 = Done ∧ o2 = Done
  ∧ screen_bytes c2 = screen_bytes c
  ∧ (∀ r k, 0 <= r < Z.land b1 0x0F → 0 <= k < 8 →
            sprite_pixel c r k = true →
            pixel c2 (lands_x c (reg c (opX b0) mod Width c) k)
                     (lands_y c (reg c (opY b1) mod Height c) r) = false)
  ∧ reg c2 0xF = 1.
Proof.
  intros Hwf Hwii Hf Hk Hfit Hap Hne Hoff Ht1 Hf1 HX HY Ht2.
  (* the first cycle *)
  rewrite (Tick_Drw env1 c b0 b1 Hwii Hf Hk) in Ht1.
  assert (Hwfp : wf (set_PC (u16 (PC c + 2)) c))
    by (apply wf_set_PC; [exact Hwf | apply u16_range]).
  destruct (exec_Drw_spec (set_PC (u16 (PC c + 2)) c) b0 b1 Hwfp Hfit Hap)
    as (ca & Hexa & Hwfa & Fa & Oa & Hscra & _).
  rewrite Hexa in Ht1.
  destruct (timers_ok env1 ca ([EvOnUpdate] ++ [EvUpdateScreen]) Hwfa)
    as (c1' & evs1' & Ht1' & Hwf1).
  rewrite Ht1' in Ht1. injection Ht1 as <- <- <-.
  pose proof (timers_keep_timers _ _ _ _ _ _ Ht1') as K1.
  assert (Hwii1 : wii c1' = None)
    by (rewrite (tk_wii _ _ K1), (df_wii _ _ Fa); exact Hwii).
  assert (Hrows : 0 <= Z.land b1 15 < 16).
  { change 15 with (Z.ones 4). rewrite Z.land_ones by lia.
    apply Z.mod_pos_bound. reflexivity. }
  pose proof (wf_I c Hwf) as HI. unfold is_u16 in HI.
  (* the second cycle *)
  rewrite (Tick_Drw env2 c1' b0 b1 Hwii1 Hf1 Hk) in Ht2.
  assert (Hwfp1 : wf (set_PC (u16 (PC c1' + 2)) c1'))
    by (apply wf_set_PC; [exact Hwf1 | apply u16_range]).
  destruct (second_draw c (set_PC (u16 (PC c1' + 2)) c1') b0 b1 Hwf Hwfp1
              Hfit Hne Hoff) as (cb & Hexb & Hwfb & Fb & Hscrb & HVb).
  - change (screen_bytes (set_PC (u16 (PC c1' + 2)) c1'))
      with (screen_bytes c1').
    rewrite (screen_bytes_keep ca c1' (tk_Memory _ _ K1) (tk_Screen _ _ K1)).
    exact Hscra.
  - cbn [Width set_PC]. now rewrite (tk_Width _ _ K1), (df_Width _ _ Fa).
  - cbn [Height set_PC]. now rewrite (tk_Height _ _ K1), (df_Height _ _ Fa).
  - unfold sprite_at. cbn [I Memory set_PC].
    rewrite (tk_I _ _ K1), (tk_Memory _ _ K1), (df_I _ _ Fa).
    cbn [I set_PC].
    apply (sprite_bytes_same (set_PC (u16 (PC c + 2)) c) ca (I c)
             (Z.to_nat (Z.land b1 15))); [|exact Oa | lia].
    rewrite Z2Nat.id by lia. exact Hap.
  - cbn [I Memory set_PC].
    rewrite (tk_I _ _ K1), (tk_Memory _ _ K1), (df_I _ _ Fa),
      (df_length _ _ Fa). exact Hfit.
  - assert (Hapa : apart_from_screen ca (I c) (Z.land b1 15))
      by (eapply apart_frame; [exact Fa | exact Hap]).
    unfold apart_from_screen in *. cbn [I Screen set_PC].
    rewrite (tk_I _ _ K1), (tk_Screen _ _ K1), (df_I _ _ Fa). exact Hapa.
  - exact HX.
  - exact HY.
  - rewrite Hexb in Ht2.
    destruct (timers_ok env2 cb ([EvOnUpdate] ++ [EvUpdateScreen]) Hwfb)
      as (c2' & evs2' & Ht2' & Hwf2).
    rewrite Ht2' in Ht2. injection Ht2 as <- <- <-.
    pose proof (timers_keep_timers _ _ _ _ _ _ Ht2') as K2.
    assert (Hscr2 : screen_bytes c2' = screen_bytes c).
    { rewrite (screen_bytes_keep cb c2' (tk_Memory _ _ K2) (tk_Screen _ _ K2)).
      exact Hscrb. }
    split; [reflexivity|]. split; [reflexivity|]. split; [exact Hscr2|].
    split.
    + intros r k Hr Hk8 Hb. specialize (Hoff r k Hr Hk8 Hb).
      unfold pixel in *. rewrite Hscr2.
      rewrite (tk_Width _ _ K2), (df_Width _ _ Fb). cbn [Width set_PC].
      rewrite (tk_Width _ _ K1), (df_Width _ _ Fa). exact Hoff.
    + unfold reg. rewrite (tk_V _ _ K2). exact HVb.
Qed.

Lemma pixel_blank (c : Chip8) (m : nat) (px py : Z) :
  screen_bytes c = replicate m 0 →
  (Z.to_nat (row_index (Width c) px py) < m)%nat →
  pixel c px py = false.
Proof.
  intros Hs Hi. unfold pixel. rewrite Hs.
  rewrite list_lookup_total_alt, lookup_replicate_2 by assumption.
  apply Z.bits_0.
Qed.

(** The theorem at work: the font sprite of the digit 0 drawn twice at the top
    left corner of the blank screen of the default machine. *)
Lemma draw_twice_restores_witness :
  let c := draw_twice_machine in
  let c1 := snd (fst (Tick (at_time 1000) c)) in
  let c2 := snd (fst (Tick (at_time 2000) c1)) in
  wf c ∧ fetch c = Some (0xD0, 0x15) ∧ fetch c1 = Some (0xD0, 0x15)
  ∧ sprite_not_empty c 5
  ∧ screen_bytes c1 ≠ screen_bytes c
  ∧ screen_bytes c2 = screen_bytes c ∧ reg c2 0xF = 1.
Proof.
  intros c c1 c2.
  assert (Hwf : wf c)
    by (apply wf_machine_default; [reflexivity | cbn; lia]).
  assert (Hwii : wii c = None) by reflexivity.
  assert (Hf : fetch c = Some (0xD0, 0x15)) by (vm_compute; reflexivity).
  assert (Hk : Tick_switch 0xD0 0x15 = Drw) by reflexivity.
  assert (Hfit : I c + Z.land 0x15 0x0F <= Z.of_nat (length (Memory c)))
    by (vm_compute; discriminate).
  assert (Hap : apart_from_screen c (I c) (Z.land 0x15 0x0F))
    by (vm_compute; left; discriminate).
  assert (Hne : sprite_not_empty c (Z.land 0x15 0x0F)).
  { exists 0, 0. vm_compute. repeat split; discriminate. }
  assert (Hoff : sprite_area_off c (reg c (opX 0xD0) mod Width c)
                   (reg c (opY 0x15) mod Height c) (Z.land 0x15 0x0F)).
  { intros r k _ _ _. apply (pixel_blank c 256); [vm_compute; reflexivity|].
    unfold lands_x, lands_y, row_index.
    replace (Width c) with 64 by (vm_compute; reflexivity).
    replace (Height c) with 32 by (vm_compute; reflexivity).
    set (px := (_ + k) mod 64). set (py := (_ + r) mod 32).
    pose proof (Z.mod_pos_bound (reg c (opX 208) mod 64 + k) 64 eq_refl).
    pose proof (Z.mod_pos_bound (reg c (opY 21) mod 32 + r) 32 eq_refl).
    fold px in H. fold py in H0.
    assert (0 <= px / 8 < 8)
      by (split; [apply Z.div_pos; lia | apply Z.div_lt_upper_bound; lia]).
    change (64 / 8) with 8. lia. }
  assert (Ht1 : Tick (at_time 1000) c
                = (fst (fst (Tick (at_time 1000) c)), c1,
                   snd (Tick (at_time 1000) c)))
    by (unfold c1; destruct (Tick (at_time 1000) c) as [[? ?] ?]; reflexivity).
  assert (Hf1 : fetch c1 = Some (0xD0, 0x15)) by (vm_compute; reflexivity).
  assert (HX : reg c1 (opX 0xD0) mod Width c = reg c (opX 0xD0) mod Width c)
    by (vm_compute; reflexivity).
  assert (HY : reg c1 (opY 0x15) mod Height c = reg c (opY 0x15) mod Height c)
    by (vm_compute; reflexivity).
  assert (Ht2 : Tick (at_time 2000) c1
                = (fst (fst (Tick (at_time 2000) c1)), c2,
                   snd (Tick (at_time 2000) c1)))
    by (unfold c2; destruct (Tick (at_time 2000) c1) as [[? ?] ?]; reflexivity).
  destruct (draw_twice_restores _ _ _ _ _ _ _ _ _ _ _
              Hwf Hwii Hf Hk Hfit Hap Hne Hoff Ht1 Hf1 HX HY Ht2)
    as (_ & _ & Hscr & _ & HVF).
  split; [exact Hwf|]. split; [exact Hf|]. split; [exact Hf1|].
  split; [exact Hne|]. split; [vm_compute; discriminate|].
  split; [exact Hscr | exact HVF].
Defined.

(** ** The methods of the instruction records *)

Section Records.

(** The value of a word of two bytes, high byte first. *)
Lemma lor_shiftl_8 (a v : Z) :
  0 <= a → is_u8 v → Z.lor (Z.shiftl a 8) v = 256 * a + v.
Proof.
  intros Ha Hv.
  assert (Hd : Z.land (Z.shiftl a 8) v = 0).
  { apply Z.bits_inj'. intros n Hn. rewrite Z.land_spec, Z.bits_0.
    destruct (Z.ltb_spec n 8).
    - now rewrite Z.shiftl_spec_low by lia.
    - replace (Z.testbit v n) with false; [apply andb_false_r|].
      symmetry. apply (proj1 (below_pow2_bits v 8 ltac:(lia)));
        [exact Hv | lia]. }
  rewrite <- Z.lxor_lor, <- Z.add_nocarry_lxor by exact Hd.
  rewrite Z.shiftl_mul_pow2 by lia. lia.
Qed.

Lemma Opcode_value (k : Kind) (b0 b1 : Z) :
  is_u8 b0 → is_u8 b1 →
  Opcode {| kind := k; b := [b0; b1] |} = 256 * b0 + b1.
Proof.
  intros H0 H1. unfold Opcode. cbn [b].
  unfold u16. rewrite Z.shiftl_mul_pow2 by lia.
  rewrite Z.mod_small by (unfold is_u8 in *; lia).
  rewrite <- (Z.shiftl_mul_pow2 b0 8) by lia.
  apply lor_shiftl_8; [apply H0 | exact H1].
Qed.

Lemma opNNN_value (b0 b1 : Z) :
  is_u8 b1 → opNNN b0 b1 = 256 * (b0 mod 16) + b1.
Proof.
  intros H1. unfold opNNN. change 0x0F with (Z.ones 4).
  rewrite Z.land_ones by lia. apply lor_shiftl_8; [|exact H1].
  apply Z.mod_pos_bound. reflexivity.
Qed.

Lemma opX_value (b0 : Z) : opX b0 = b0 mod 16.
Proof. unfold opX. change 0x0F with (Z.ones 4). now rewrite Z.land_ones. Qed.

Lemma opY_value (b1 : Z) : opY b1 = b1 / 16 mod 16.
Proof.
  unfold opY. rewrite Z.shiftr_land. change (Z.shiftr 0xF0 4) with (Z.ones 4).
  rewrite Z.land_ones, Z.shiftr_div_pow2 by lia. reflexivity.
Qed.

(** The records that [DisassembleSimple] makes of a list of bytes. *)
Lemma DisassembleSimple_record (bs : list Z) (i : Instruction) :
  bytes bs → i ∈ fst (DisassembleSimple bs) →
  ∃ b0 b1, is_u8 b0 ∧ is_u8 b1
           ∧ i = {| kind := DisassembleSimple_switch b0 b1; b := [b0; b1] |}.
Proof.
  intros Hbs. unfold DisassembleSimple.
  destruct (negb _); cbn [fst]; [intros H; inversion H|].
  intros Hi. apply list_elem_of_lookup in Hi as [k Hk].
  destruct (disassemble_loop_kinds _ _ _ Hk) as (b0 & b1 & H0 & H1 & ->).
  exists b0, b1. unfold bytes in Hbs. rewrite Forall_lookup in Hbs.
  eauto.
Qed.

Lemma switch_Sys (b0 b1 : Z) :
  DisassembleSimple_switch b0 b1 = Sys → Z.land b0 0xF0 = 0.
Proof.
  unfold DisassembleSimple_switch. cbv zeta.
  destruct (Z.eqb_spec (Z.land b0 0xF0) 0) as [E|_]; [intros _; exact E|].
  repeat match goal with
    | |- context [if ?a =? ?k then _ else _] =>
        destruct (Z.eqb_spec a k); try discriminate
    end.
Qed.

Lemma high_nibble_clear (b0 : Z) :
  is_u8 b0 → Z.land b0 0xF0 = 0 → b0 mod 16 = b0.
Proof.
  intros H0 Hz. change 16 with (2 ^ 4). rewrite <- Z.land_ones by lia.
  apply Z.bits_inj'. intros n Hn. rewrite Z.land_spec.
  destruct (Z.ltb_spec n 4).
  - rewrite Z.ones_spec_low by lia. apply andb_true_r.
  - rewrite Z.ones_spec_high by lia. rewrite andb_false_r.
    destruct (Z.ltb_spec n 8).
    + apply (f_equal (λ z, Z.testbit z n)) in Hz.
      rewrite Z.land_spec, Z.bits_0 in Hz.
      assert (Z.testbit 0xF0 n = true) as Ht.
      { assert (n = 4 ∨ n = 5 ∨ n = 6 ∨ n = 7) as [->|[->|[->| ->]]] by lia;
          reflexivity. }
      rewrite Ht, andb_true_r in Hz. congruence.
    + symmetry. apply (proj1 (below_pow2_bits b0 8 ltac:(lia)));
        [exact H0 | lia].
Qed.

End Records.

(** [Opcode()] of a record that [DisassembleSimple] makes of a list of bytes
    is the 16-bit word with the first byte of the record as its high byte and
    the second as its low byte: both bytes can be read back from it. *)
Theorem Opcode_big_endian (bs : list Z) (i : Instruction) :
  bytes bs → i ∈ fst (DisassembleSimple bs) →
  ∃ b0 b1, b i = [b0; b1]
           ∧ Opcode i = 256 * b0 + b1 ∧ is_u16 (Opcode i)
           ∧ Z.shiftr (Opcode i) 8 = b0 ∧ Z.land (Opcode i) 0xFF = b1.
Proof.
  intros Hbs Hi.
  destruct (DisassembleSimple_record bs i Hbs Hi) as (b0 & b1 & H0 & H1 & ->).
  exists b0, b1. rewrite Opcode_value by assumption.
  split; [reflexivity|]. split; [reflexivity|].
  unfold is_u8, is_u16 in *. split; [lia|].
  rewrite Z.shiftr_div_pow2 by lia. change 0xFF with (Z.ones 8).
  rewrite Z.land_ones by lia. change (2 ^ 8) with 256.
  split.
  - rewrite Z.mul_comm, Z.div_add_l by lia. rewrite Z.div_small by lia. lia.
  - rewrite Z.add_comm, Z.mul_comm, Z.mod_add by lia. apply Z.mod_small; lia.
Qed.

(** The theorem at work: the second word of a buffer of four bytes. *)
Lemma Opcode_big_endian_witness :
  let bs := [0x12; 0x34; 0xD0; 0x15] in
  let i := {| kind := Drw; b := [0xD0; 0x15] |} in
  bytes bs ∧ i ∈ fst (DisassembleSimple bs) ∧ Opcode i = 0xD015.
Proof.
  intros bs i.
  assert (Hb : bytes bs) by (apply bytes_check; reflexivity).
  assert (Hi : i ∈ fst (DisassembleSimple bs))
    by (vm_compute; apply list_elem_of_further, list_elem_of_here).
  destruct (Opcode_big_endian bs i Hb Hi) as (b0 & b1 & Hbi & Hop & _).
  injection Hbi as <- <-.
  exact (conj Hb (conj Hi Hop)).
Defined.

(** The address that the disassembler shows for [SYS], [JP], [CALL] and
    [JP V0], and the value it shows for [LD I], is the operand NNN that the
    interpreter computes for the same word, and the interpreter takes the
    arm of the same name. *)
Theorem Address_is_operand (bs : list Z) (i : Instruction) (a : Z) :
  bytes bs → i ∈ fst (DisassembleSimple bs) →
  Address i = Some a ∨ (kind i = LdI ∧ Value i = Some a) →
  ∃ b0 b1, b i = [b0; b1] ∧ a = opNNN b0 b1 ∧ Tick_switch b0 b1 = kind i.
Proof.
  intros Hbs Hi Ha.
  destruct (DisassembleSimple_record bs i Hbs Hi) as (b0 & b1 & H0 & H1 & ->).
  exists b0, b1. split; [reflexivity|].
  unfold Address, Value in Ha. cbn [kind] in Ha.
  rewrite Opcode_value in Ha by assumption.
  rewrite opNNN_value by assumption.
  assert (Hland : Z.land (256 * b0 + b1) 0x0FFF = 256 * (b0 mod 16) + b1).
  { change 0x0FFF with (Z.ones 12). rewrite Z.land_ones by lia.
    change (2 ^ 12) with 4096. unfold is_u8 in *.
    pose proof (Z.div_mod b0 16 ltac:(lia)).
    pose proof (Z.mod_pos_bound b0 16 ltac:(lia)).
    replace (256 * b0 + b1)
      with (256 * (b0 mod 16) + b1 + (b0 / 16) * 4096) by lia.
    rewrite Z.mod_add by lia. apply Z.mod_small. lia. }
  assert (Hg : Z.land b0 0xF0 ≠ 0x90 →
               Tick_switch b0 b1 = DisassembleSimple_switch b0 b1)
    by apply switches_agree_outside_9.
  destruct (DisassembleSimple_switch b0 b1) eqn:Hk;
    destruct Ha as [Ha | [Hl Ha]]; try discriminate.
  - injection Ha as <-. pose proof (switch_Sys _ _ Hk) as Hz.
    rewrite (high_nibble_clear b0 H0 Hz).
    split; [reflexivity|]. apply Hg. rewrite Hz. discriminate.
  - injection Ha as <-. split; [exact Hland|]. apply Hg. intros H9.
    destruct (switches_differ_in_9 b0 b1 H9) as [_ Hd]. congruence.
  - injection Ha as <-. split; [exact Hland|]. apply Hg. intros H9.
    destruct (switches_differ_in_9 b0 b1 H9) as [_ Hd]. congruence.
  - injection Ha as <-. split; [exact Hland|]. apply Hg. intros H9.
    destruct (switches_differ_in_9 b0 b1 H9) as [_ Hd]. congruence.
  - injection Ha as <-. split; [exact Hland|]. apply Hg. intros H9.
    destruct (switches_differ_in_9 b0 b1 H9) as [_ Hd]. congruence.
Qed.

(** The theorem at work: [CALL 345] in a buffer of four bytes. *)
Lemma Address_is_operand_witness :
  let bs := [0x60; 0x07; 0x23; 0x45] in
  let i := {| kind := Call; b := [0x23; 0x45] |} in
  bytes bs ∧ i ∈ fst (DisassembleSimple bs) ∧ Address i = Some 0x345
  ∧ opNNN 0x23 0x45 = 0x345 ∧ Tick_switch 0x23 0x45 = Call.
Proof.
  intros bs i.
  assert (Hb : bytes bs) by (apply bytes_check; reflexivity).
  assert (Hi : i ∈ fst (DisassembleSimple bs))
    by (vm_compute; apply list_elem_of_further, list_elem_of_here).
  assert (Ha : Address i = Some 0x345) by reflexivity.
  destruct (Address_is_operand bs i 0x345 Hb Hi (or_introl Ha))
    as (b0 & b1 & Hbi & Hop & Hsw).
  injection Hbi as <- <-.
  exact (conj Hb (conj Hi (conj Ha (conj (eq_sym Hop) Hsw)))).
Defined.

(** The register numbers, the row count and the byte value that the methods
    of a record return are the hexadecimal digits X, Y and N and the low
    byte NN of its opcode. *)
Theorem fields_are_opcode_digits (bs : list Z) (i : Instruction) :
  bytes bs → i ∈ fst (DisassembleSimple bs) →
  (∀ x, Register i = Some x ∨ Register1 i = Some x →
        x = Opcode i / 256 mod 16)
  ∧ (∀ y, Register2 i = Some y → y = Opcode i / 16 mod 16)
  ∧ (∀ n, Rows i = Some n → n = Opcode i mod 16)
  ∧ (∀ v, Value i = Some v → kind i ≠ LdI → v = Opcode i mod 256).
Proof.
  intros Hbs Hi.
  destruct (DisassembleSimple_record bs i Hbs Hi) as (b0 & b1 & H0 & H1 & ->).
  rewrite Opcode_value by assumption.
  set (k := DisassembleSimple_switch b0 b1). unfold is_u8 in *.
  assert (E1 : (256 * b0 + b1) / 256 = b0).
  { rewrite Z.mul_comm, Z.div_add_l by lia. rewrite Z.div_small by lia. lia. }
  assert (E2 : (256 * b0 + b1) mod 256 = b1).
  { rewrite Z.add_comm, Z.mul_comm, Z.mod_add by lia. apply Z.mod_small; lia. }
  assert (E3 : (256 * b0 + b1) / 16 mod 16 = b1 / 16 mod 16).
  { replace (256 * b0 + b1) with (b1 + (16 * b0) * 16) by lia.
    rewrite Z.div_add by lia.
    replace (b1 / 16 + 16 * b0) with (b1 / 16 + b0 * 16) by lia.
    now rewrite Z.mod_add by lia. }
  assert (E4 : (256 * b0 + b1) mod 16 = b1 mod 16).
  { replace (256 * b0 + b1) with (b1 + (16 * b0) * 16) by lia.
    now rewrite Z.mod_add by lia. }
  assert (R0 : ∀ x, Some (Z.land b0 0x0F) = Some x → x = b0 mod 16).
  { intros x [= <-]. apply opX_value. }
  split; [|split; [|split]].
  - intros x Hx. rewrite E1.
    unfold Register, Register1 in Hx. cbn [kind b] in Hx. fold k in Hx.
    destruct Hx as [Hx|Hx].
    + destruct k; try discriminate; exact (R0 x Hx).
    + destruct (two_registers k); [exact (R0 x Hx) | discriminate].
  - intros y Hy. rewrite E3.
    unfold Register2 in Hy. cbn [kind b] in Hy. fold k in Hy.
    destruct (two_registers k); [|discriminate].
    injection Hy as <-. apply opY_value.
  - intros n Hn. rewrite E4.
    unfold Rows in Hn. cbn [kind b] in Hn. fold k in Hn.
    destruct k; try discriminate. injection Hn as <-.
    change 0x0F with (Z.ones 4). now rewrite Z.land_ones by lia.
  - intros v Hv Hk. rewrite E2.
    unfold Value in Hv. cbn [kind b] in Hv, Hk. fold k in Hv, Hk.
    destruct k; try discriminate; now injection Hv as <-.
Qed.

(** The theorem at work: [DRW V0,V1,5] in a buffer of four bytes. *)
Lemma fields_are_opcode_digits_witness :
  let bs := [0x12; 0x34; 0xD0; 0x15] in
  let i := {| kind := Drw; b := [0xD0; 0x15] |} in
  bytes bs ∧ i ∈ fst (DisassembleSimple bs)
  ∧ Register1 i = Some 0 ∧ Register2 i = Some 1 ∧ Rows i = Some 5
  ∧ 1 = Opcode i / 16 mod 16.
Proof.
  intros bs i.
  assert (Hb : bytes bs) by (apply bytes_check; reflexivity).
  assert (Hi : i ∈ fst (DisassembleSimple bs))
    by (vm_compute; apply list_elem_of_further, list_elem_of_here).
  destruct (fields_are_opcode_digits bs i Hb Hi) as (_ & HY & _ & _).
  exact (conj Hb (conj Hi (conj eq_refl (conj eq_refl (conj eq_refl
           (HY 1 eq_refl)))))).
Defined.

Section Printable.

Lemma isPrintableASCII_spec (s : list Z) :
  isPrintableASCII s = true ↔ Forall printable s.
Proof.
  unfold printable. induction s as [|c s IH]; cbn [isPrintableASCII].
  - split; [constructor | reflexivity].
  - destruct (Z.gtb_spec c 126).
    { split; [discriminate|]. intros Hs. inversion Hs; subst. lia. }
    destruct (Z.ltb_spec c 32).
    { split; [discriminate|]. intros Hs. inversion Hs; subst. lia. }
    rewrite IH. split.
    + intros Hs. constructor; [lia | exact Hs].
    + intros Hs. now inversion Hs.
Qed.

End Printable.

(** [ASCII()] returns the bytes of the record when every one of them is a
    printable character (32 to 126) and the empty string otherwise: it never
    returns a part of the bytes, nor a byte that is not printable. *)
Theorem ASCII_printable (i : Instruction) :
  (Forall printable (b i) → ASCII i = b i)
  ∧ (¬ Forall printable (b i) → ASCII i = [])
  ∧ Forall printable (ASCII i).
Proof.
  unfold ASCII.
  destruct (isPrintableASCII (b i)) eqn:E.
  - apply isPrintableASCII_spec in E.
    split; [reflexivity|]. split; [contradiction | exact E].
  - assert (¬ Forall printable (b i)) as Hn.
    { intros H. apply isPrintableASCII_spec in H. congruence. }
    split; [contradiction|]. split; [reflexivity | constructor].
Qed.

(** The theorem at work: the word 48 69 reads [Hi], the word 48 0A does not
    read. *)
Lemma ASCII_printable_witness :
  ASCII {| kind := Sne; b := [0x48; 0x69] |} = [0x48; 0x69]
  ∧ ASCII {| kind := Sne; b := [0x48; 0x0A] |} = [].
Proof.
  split.
  - apply (ASCII_printable {| kind := Sne; b := [0x48; 0x69] |}).
    cbn [b]. repeat constructor; lia.
  - apply (ASCII_printable {| kind := Sne; b := [0x48; 0x0A] |}).
    cbn [b]. intros H. inversion H as [|? ? _ H2]; subst.
    inversion H2 as [|? ? H3 _]; subst. unfold printable in H3. lia.
Defined.

(** ** Construction and loading *)

Section NewMachine.

Variable s : Chip8Settings.
Hypothesis Htyped : settings_typed s.

(** The pixel count of typed settings does not wrap. *)
Lemma pixel_count_typed :
  u16 (Settings.Width s * Settings.Height s)
  = Settings.Width s * Settings.Height s.
Proof.
  destruct Htyped as (_ & HW & HH). unfold is_u8 in *.
  apply u16_small. unfold is_u16. nia.
Qed.

(** With valid settings [New] returns a machine unless, in realistic mode,
    the memory is too small for the screen window: then it panics. *)
Lemma New_valid :
  0 <= Settings.StackSize s → Validate s = true →
  if Settings.Realistic s
     && (Settings.MemorySize s
         <? 0xF00 + Settings.Width s * Settings.Height s / 8)
  then New s = NewPanic
  else ∃ c, New s = NewOk c.
Proof.
  intros Hstack Hval. unfold New. rewrite Hval. cbn [negb].
  destruct Htyped as (HM & HW & HH). unfold is_u8, is_u16 in *.
  destruct (Z.ltb_spec (Settings.MemorySize s) 0); [lia|].
  rewrite pixel_count_typed.
  unfold Validate in Hval.
  destruct (negb (Settings.Width s mod 8 =? 0)); [discriminate|].
  destruct (negb (Settings.Height s mod 8 =? 0)); [discriminate|].
  destruct (Settings.Width s <? 8); [discriminate|].
  destruct (Settings.Height s <? 15); [discriminate|].
  destruct (Settings.Realistic s); cbn [andb].
  - destruct (Z.gtb_spec (Settings.StackSize s) 12); [discriminate|].
    rewrite pixel_count_typed in Hval.
    destruct (Z.gtb_spec (Settings.Width s * Settings.Height s) 2048);
      [discriminate|].
    assert (0 <= Settings.Width s * Settings.Height s / 8 <= 256).
    { split; [apply Z.div_pos; nia|].
      apply Z.div_le_upper_bound; lia. }
    rewrite (u16_small (Settings.StackSize s)) by (unfold is_u16; lia).
    rewrite (u16_small (3744 + _)) by (unfold is_u16; lia).
    rewrite (u16_small (3840 + _)) by (unfold is_u16; lia).
    destruct (Z.ltb_spec (Settings.MemorySize s)
                (3840 + Settings.Width s * Settings.Height s / 8)).
    + destruct (Z.leb_spec 3744 (3744 + Settings.StackSize s)); [|lia].
      destruct (Z.leb_spec (3744 + Settings.StackSize s)
                  (Settings.MemorySize s)); cbn [andb negb]; [|reflexivity].
      destruct (Z.leb_spec 3840
                  (3840 + Settings.Width s * Settings.Height s / 8)); [|lia].
      destruct (Z.leb_spec (3840 + Settings.Width s * Settings.Height s / 8)
                  (Settings.MemorySize s)); [lia|]. reflexivity.
    + destruct (Z.leb_spec 3744 (3744 + Settings.StackSize s)); [|lia].
      destruct (Z.leb_spec (3744 + Settings.StackSize s)
                  (Settings.MemorySize s)); [|lia]. cbn [andb negb].
      destruct (Z.leb_spec 3840
                  (3840 + Settings.Width s * Settings.Height s / 8)); [|lia].
      destruct (Z.leb_spec (3840 + Settings.Width s * Settings.Height s / 8)
                  (Settings.MemorySize s)); [|lia]. cbn [andb negb].
      eexists. reflexivity.
  - destruct (Z.ltb_spec (Settings.StackSize s) 0); [lia|].
    eexists. reflexivity.
Qed.

End NewMachine.

Section FreshMemory.

(** The memory after [copy(c.Memory, fonts)]: the fonts, cut at the size of
    the memory, and zeros after them. *)
Lemma fresh_memory_lookup (M a : nat) :
  (a < M)%nat →
  copy (replicate M 0) fonts !! a = Some (default 0 (fonts !! a)).
Proof.
  intros Ha. unfold copy. rewrite length_replicate.
  rewrite lookup_take_lt by exact Ha.
  destruct (decide (a < length fonts)%nat) as [Hf|Hf].
  - rewrite lookup_app_l by exact Hf.
    destruct (lookup_lt_is_Some_2 fonts a Hf) as [v ->]. reflexivity.
  - rewrite lookup_app_r by lia. rewrite lookup_drop.
    rewrite lookup_replicate_2 by lia.
    now rewrite (proj2 (lookup_ge_None fonts a)) by lia.
Qed.

Lemma fonts_length : length fonts = 80%nat.
Proof. reflexivity. Qed.

End FreshMemory.

(** What [New] comes to, for settings within the ranges of their Go types and
    a stack size that is not negative: the error exactly when [Validate]
    rejects the settings; a panic exactly when the settings are valid, the
    mode is realistic and the memory is smaller than 0xF00 + Width*Height/8,
    the end of the screen window ([Validate] does not look at the memory
    size); and a machine in every other case. *)
Theorem New_outcome (s : Chip8Settings) :
  settings_typed s → 0 <= Settings.StackSize s →
  match New s with
  | NewErr => Validate s = false
  | NewPanic =>
      Validate s = true ∧ Settings.Realistic s = true
      ∧ Settings.MemorySize s
        < 0xF00 + Settings.Width s * Settings.Height s / 8
  | NewOk c =>
      Validate s = true
      ∧ (Settings.Realistic s = true →
         0xF00 + Settings.Width s * Settings.Height s / 8
         <= Settings.MemorySize s)
  end.
Proof.
  intros Htyped Hstack.
  destruct (Validate s) eqn:Hval.
  - pose proof (New_valid s Htyped Hstack Hval) as H.
    destruct (Settings.Realistic s); cbn [andb] in H.
    + destruct (Z.ltb_spec (Settings.MemorySize s)
                  (0xF00 + Settings.Width s * Settings.Height s / 8)).
      * rewrite H. auto.
      * destruct H as [c ->]. auto.
    + destruct H as [c ->]. split; [reflexivity | discriminate].
  - unfold New. now rewrite Hval.
Qed.

(** The theorem at work: the default settings give a machine; with half the
    memory they still pass [Validate] and [New] panics. *)
Lemma New_outcome_witness :
  let small := {| Settings.MemorySize := 0x800; Settings.StackSize := 12;
                  Settings.Width := 64; Settings.Height := 32;
                  Settings.Realistic := true;
                  Settings.LegacyMode := false |} in
  settings_typed small ∧ 0 <= Settings.StackSize small
  ∧ New small = NewPanic ∧ Validate small = true.
Proof.
  intros small.
  assert (Ht : settings_typed small)
    by (unfold settings_typed, is_u16, is_u8; cbn; lia).
  assert (Hs : 0 <= Settings.StackSize small) by (cbn; lia).
  pose proof (New_outcome small Ht Hs) as H.
  assert (HN : New small = NewPanic) by reflexivity.
  rewrite HN in H. destruct H as (Hv & _ & _).
  exact (conj Ht (conj Hs (conj HN Hv))).
Defined.

(** A machine fresh from [New]: the memory has the size asked for and holds
    the fonts at its start and zeros elsewhere, the registers, the timers,
    the keyboard, the address register and the program counter are zero, the
    stack is empty, no wait is pending, and every byte of the screen is zero,
    also in realistic mode where the screen is a window of the memory. *)
Theorem New_initial_state (s : Chip8Settings) (c : Chip8) :
  settings_typed s → New s = NewOk c →
  Z.of_nat (length (Memory c)) = Settings.MemorySize s
  ∧ (∀ a : nat, (a < length (Memory c))%nat →
                Memory c !! a = Some (default 0 (fonts !! a)))
  ∧ V c = replicate 16 0 ∧ I c = 0 ∧ SP c = -1 ∧ PC c = 0
  ∧ DT c = 0 ∧ ST c = 0 ∧ Keyboard c = 0 ∧ wii c = None
  ∧ Width c = Settings.Width s ∧ Height c = Settings.Height s
  ∧ screen_bytes c
    = replicate (Z.to_nat (Settings.Width s * Settings.Height s / 8)) 0.
Proof.
  intros Htyped HN.
  pose proof (pixel_count_typed s Htyped) as Hpix.
  destruct Htyped as (HM & HW & HH). unfold is_u8, is_u16 in *.
  assert (Hdiv : 0 <= Settings.Width s * Settings.Height s / 8)
    by (apply Z.div_pos; nia).
  unfold New in HN.
  destruct (negb (Validate s)) eqn:Hval; [discriminate|].
  destruct (Z.ltb_spec (Settings.MemorySize s) 0); [lia|].
  rewrite Hpix in HN.
  assert (Hmem : ∀ stack screen,
    let c := {| Memory := copy (replicate (Z.to_nat (Settings.MemorySize s)) 0)
                            fonts;
                V := replicate 16 0; I := 0; Stack := stack; SP := -1; PC := 0;
                DT := 0; ST := 0; Keyboard := 0; Screen := screen;
                Width := Settings.Width s; Height := Settings.Height s;
                TimerInterval := default_TimerInterval; lastTimerUpdate := 0;
                wii := None;
                pLdMemory := Settings.LegacyMode s;
                pLdSetMemory := Settings.LegacyMode s;
                pShr := Settings.LegacyMode s;
                pShl := Settings.LegacyMode s |} in
    Z.of_nat (length (Memory c)) = Settings.MemorySize s
    ∧ (∀ a : nat, (a < length (Memory c))%nat →
                  Memory c !! a = Some (default 0 (fonts !! a)))).
  { intros stack screen c0. cbn [Memory c0].
    rewrite length_copy, length_replicate. split; [lia|].
    intros a Ha. now apply fresh_memory_lookup. }
  destruct (Settings.Realistic s).
  - destruct (negb _) in HN; [discriminate|].
    destruct (negb ((3840 <=? _) && _)) eqn:Hscr in HN; [discriminate|].
    injection HN as <-.
    destruct (Hmem (Window 3744
                      (Z.to_nat ((u16 (3744 + u16 (Settings.StackSize s))
                                  - 3744) / 2)))
                (Window 3840
                   (Z.to_nat (u16 (3840 + Settings.Width s
                                          * Settings.Height s / 8) - 3840))))
      as [Hlen Hlook].
    split; [exact Hlen|]. split; [exact Hlook|].
    repeat (split; [reflexivity|]).
    apply negb_false_iff, andb_true_iff in Hscr as [Hlo Hhi].
    apply Z.leb_le in Hlo, Hhi.
    set (hi := u16 (3840 + Settings.Width s * Settings.Height s / 8)) in *.
    assert (Hhi' : hi = 3840 + Settings.Width s * Settings.Height s / 8).
    { assert (Settings.Width s * Settings.Height s / 8 < 65536)
        by (apply Z.div_lt_upper_bound; nia).
      unfold hi, u16 in *.
      destruct (Z.lt_ge_cases
                  (3840 + Settings.Width s * Settings.Height s / 8) 65536);
        [apply Z.mod_small; lia|].
      exfalso. rewrite <- (Z.mod_add _ (-1) 65536) in Hlo by lia.
      rewrite Z.mod_small in Hlo by lia. lia. }
    unfold screen_bytes. cbn [Screen].
    rewrite Hhi'.
    replace (3840 + Settings.Width s * Settings.Height s / 8 - 3840)
      with (Settings.Width s * Settings.Height s / 8) by lia.
    apply list_eq. intros i.
    set (n := Z.to_nat (Settings.Width s * Settings.Height s / 8)).
    destruct (decide (i < n)%nat) as [Hi|Hi].
    + rewrite lookup_take_lt by exact Hi. rewrite lookup_drop.
      rewrite lookup_replicate_2 by exact Hi.
      rewrite Hlook by (cbn [Memory] in *; lia).
      now rewrite (proj2 (lookup_ge_None fonts (3840 + i))) by (cbn; lia).
    + rewrite lookup_take_ge by lia.
      symmetry. apply lookup_replicate_None. lia.
  - destruct (Settings.StackSize s <? 0); [discriminate|].
    injection HN as <-.
    destruct (Hmem (Own (replicate (Z.to_nat (Settings.StackSize s)) 0))
                (Own (replicate
                        (Z.to_nat (Settings.Width s * Settings.Height s / 8))
                        0)))
      as [Hlen Hlook].
    split; [exact Hlen|]. split; [exact Hlook|].
    repeat (split; [reflexivity|]). reflexivity.
Qed.

(** The theorem at work: the default machine. *)
Lemma New_initial_state_witness :
  settings_typed DefaultSettings
  ∧ ∃ c, New DefaultSettings = NewOk c
         ∧ Z.of_nat (length (Memory c)) = 0x1000
         ∧ screen_bytes c = replicate 256 0 ∧ SP c = -1 ∧ PC c = 0.
Proof.
  split; [exact settings_typed_default|].
  destruct (New DefaultSettings) as [c| |] eqn:HN; try discriminate HN.
  exists c. split; [reflexivity|].
  destruct (New_initial_state _ c settings_typed_default HN)
    as (H1 & _ & _ & _ & H5 & H6 & _ & _ & _ & _ & _ & _ & H13).
  exact (conj H1 (conj H13 (conj H5 H6))).
Defined.

Section Loading.

Variable c : Chip8.
Variable file : list Z.
Hypothesis Hfit :
  Z.of_nat (length file) <= Z.of_nat (length (Memory c)) - 0x200.

(** The memory once a program that fits has been copied to 0x200. *)
Lemma loaded_memory :
  take 0x200 (Memory c) ++ copy (drop 0x200 (Memory c)) file
  = take 0x200 (Memory c) ++ file
      ++ drop (0x200 + length file) (Memory c).
Proof.
  f_equal. unfold copy. rewrite length_drop, drop_drop.
  rewrite take_ge by (rewrite length_app, length_drop; lia).
  reflexivity.
Qed.

Lemma loaded_memory_facts (m : list Z) :
  m = take 0x200 (Memory c) ++ copy (drop 0x200 (Memory c)) file →
  take (length file) (drop 0x200 m) = file
  ∧ take 0x200 m = take 0x200 (Memory c)
  ∧ drop (0x200 + length file) m = drop (0x200 + length file) (Memory c)
  ∧ length m = length (Memory c).
Proof.
  intros ->. rewrite loaded_memory.
  assert (Hl : length (take 0x200 (Memory c)) = 0x200%nat)
    by (rewrite length_take; lia).
  split; [|split; [|split]].
  - rewrite drop_app_length' by now rewrite Hl.
    apply take_app_length.
  - apply take_app_length'. now rewrite Hl.
  - rewrite drop_app_add' by now rewrite Hl.
    apply drop_app_length.
  - rewrite !length_app, Hl, length_drop. lia.
Qed.

End Loading.

(** [Load] fails exactly when the file is larger than the memory from 0x200
    on.  When it succeeds the bytes of the file lie in the memory from 0x200
    on, in order; the memory before 0x200 and after the program, and its
    size, are as before; the program counter is 0x200 and nothing else has
    changed; and the slice [Memory[0x200 : 0x200+size]], which the command
    line program hands to [DisassembleSimple], disassembles as the file
    does. *)
Theorem Load_places_program (file : list Z) (c : Chip8) :
  match Load file c with
  | None => Z.of_nat (length (Memory c)) - 0x200 < Z.of_nat (length file)
  | Some c' =>
      Z.of_nat (length file) <= Z.of_nat (length (Memory c)) - 0x200
      ∧ loaded_program (length file) c' = file
      ∧ take 0x200 (Memory c') = take 0x200 (Memory c)
      ∧ drop (0x200 + length file) (Memory c')
        = drop (0x200 + length file) (Memory c)
      ∧ length (Memory c') = length (Memory c)
      ∧ c' = set_PC 0x200 (set_Memory (Memory c') c)
      ∧ DisassembleSimple (loaded_program (length file) c')
        = DisassembleSimple file
  end.
Proof.
  unfold Load.
  destruct (Z.gtb_spec (Z.of_nat (length file))
              (Z.of_nat (length (Memory c)) - 512)) as [|Hfit]; [lia|].
  destruct (loaded_memory_facts c file Hfit _ eq_refl) as (H1 & H2 & H3 & H4).
  unfold loaded_program. cbn [Memory set_PC set_Memory].
  rewrite H1. repeat split; try assumption; lia.
Qed.

(** A machine fresh from [New] and loaded with [LoadRaw] has its program
    where [Load] would have put it but its program counter still at 0, in
    the fonts: the first cycle fetches the bytes F0 90 and returns
    [BadCodeErr], whatever the program. *)
Theorem LoadRaw_leaves_PC_in_the_fonts (s : Chip8Settings) (c c' : Chip8)
    (program : list Z) (env : Env) :
  New s = NewOk c → LoadRaw program c = Some c' →
  Load program c = Some (set_PC 0x200 c')
  ∧ PC c' = 0
  ∧ Tick env c' = (Failed BadCodeErr, set_PC 2 c', [EvOnUpdate]).
Proof.
  intros HN HL.
  assert (Hc : PC c = 0 ∧ wii c = None
               ∧ Memory c = copy (replicate
                                    (Z.to_nat (Settings.MemorySize s)) 0)
                              fonts).
  { unfold New in HN.
    destruct (negb (Validate s)); [discriminate|].
    destruct (Settings.MemorySize s <? 0); [discriminate|].
    destruct (Settings.Realistic s).
    - destruct (negb _); [discriminate|].
      destruct (negb _); [discriminate|].
      injection HN as <-. auto.
    - destruct (Settings.StackSize s <? 0); [discriminate|].
      injection HN as <-. auto. }
  destruct Hc as (HPC & Hwii & HMem).
  unfold LoadRaw in HL. unfold Load.
  destruct (Z.gtb_spec (Z.of_nat (length program))
              (Z.of_nat (length (Memory c)) - 512)) as [|Hfit];
    [discriminate|].
  injection HL as <-.
  split; [reflexivity|]. split; [exact HPC|].
  destruct (loaded_memory_facts c program Hfit _ eq_refl)
    as (_ & Hlow & _ & Hlen).
  set (m := take 512 (Memory c) ++ copy (drop 512 (Memory c)) program) in *.
  assert (Hlook : ∀ a : nat, (a < 2)%nat →
                             m !! a = Some (default 0 (fonts !! a))).
  { intros a Ha.
    rewrite <- (lookup_take_lt m 512 a) by lia. rewrite Hlow.
    rewrite lookup_take_lt by lia. rewrite HMem.
    apply fresh_memory_lookup.
    rewrite HMem, length_copy, length_replicate in Hfit. lia. }
  unfold Tick, cycle, fetch, mem_at.
  cbn [wii PC Memory set_Memory]. rewrite Hwii, HPC.
  change (u16 (0 + 2)) with 2.
  destruct (Z.leb_spec 2 (Z.of_nat (length m))) as [|Hsmall]; [|lia].
  cbn [andb].
  change (Z.to_nat 0) with 0%nat. change (0 + 1 <? 0) with false.
  change (Z.to_nat (0 + 1)) with 1%nat. cbv iota.
  rewrite (Hlook 0%nat), (Hlook 1%nat) by lia.
  reflexivity.
Qed.

(** The theorem at work: the default machine loaded with [JP 200]. *)
Lemma LoadRaw_leaves_PC_in_the_fonts_witness :
  ∃ c c', New DefaultSettings = NewOk c
          ∧ LoadRaw [0x12; 0x00] c = Some c'
          ∧ PC c' = 0
          ∧ Tick (at_time 1000) c'
            = (Failed BadCodeErr, set_PC 2 c', [EvOnUpdate]).
Proof.
  destruct (New DefaultSettings) as [c| |] eqn:HN; try discriminate HN.
  destruct (LoadRaw [0x12; 0x00] c) as [c'|] eqn:HL.
  - exists c, c'.
    destruct (LoadRaw_leaves_PC_in_the_fonts _ c c' _ (at_time 1000) HN HL)
      as (_ & HPC & HT).
    exact (conj eq_refl (conj HL (conj HPC HT))).
  - exfalso. vm_compute in HN. injection HN as <-. discriminate HL.
Defined.

(** ** The driver registry *)

Section RegistryFacts.

Context {Driver : Type}.
Implicit Types drivers : gmap string (option Driver).

Lemma drivers_at_insert drivers (name n : string) (drv : option Driver) :
  drivers_at (<[name := drv]> drivers) n
  = if decide (name = n) then drv else drivers_at drivers n.
Proof.
  unfold drivers_at. rewrite lookup_insert.
  now destruct (decide (name = n)).
Qed.

Lemma drivers_at_delete drivers (name n : string) :
  drivers_at (delete name drivers) n
  = if decide (name = n) then None else drivers_at drivers n.
Proof.
  unfold drivers_at. destruct (decide (name = n)) as [->|Hne].
  - now rewrite lookup_delete_eq.
  - now rewrite lookup_delete_ne.
Qed.

End RegistryFacts.

(** Registering a driver under a name that has none succeeds: the name then
    reads as that driver and every other name as before, and a second
    registration under the name fails and leaves the map as it is.
    Unregistering the name then succeeds and every name reads as it did at
    the start; unregistering it once more fails. *)
Theorem RegisterDriver_then_UnregisterDriver {Driver : Type}
    (drivers : gmap string (option Driver)) (name : string) (d : Driver) :
  drivers_at drivers name = None →
  let '(m1, ok1) := RegisterDriver name (Some d) drivers in
  ok1 = true ∧ drivers_at m1 name = Some d
  ∧ (∀ n, n ≠ name → drivers_at m1 n = drivers_at drivers n)
  ∧ (∀ d', RegisterDriver name d' m1 = (m1, false))
  ∧ let '(m2, ok2) := UnregisterDriver name m1 in
    ok2 = true ∧ (∀ n, drivers_at m2 n = drivers_at drivers n)
    ∧ UnregisterDriver name m2 = (m2, false).
Proof.
  intros Hfree. unfold RegisterDriver at 1. rewrite Hfree.
  assert (H1 : drivers_at (<[name := Some d]> drivers) name = Some d).
  { rewrite drivers_at_insert. now destruct (decide (name = name)). }
  split; [reflexivity|]. split; [exact H1|]. split; [|split].
  - intros n Hn. rewrite drivers_at_insert.
    destruct (decide (name = n)); [congruence | reflexivity].
  - intros d'. unfold RegisterDriver. now rewrite H1.
  - unfold UnregisterDriver at 1. rewrite H1.
    assert (H2 : ∀ n, drivers_at (delete name (<[name := Some d]> drivers)) n
                      = drivers_at drivers n).
    { intros n. rewrite drivers_at_delete, drivers_at_insert.
      destruct (decide (name = n)) as [<-|]; [now rewrite Hfree | reflexivity]. }
    split; [reflexivity|]. split; [exact H2|].
    unfold UnregisterDriver. now rewrite H2, Hfree.
Qed.

(** The theorem at work: a second driver beside the null driver. *)
Lemma RegisterDriver_then_UnregisterDriver_witness :
  let drivers := init_drivers () in
  drivers_at drivers "termloop" = None
  ∧ drivers_at (fst (RegisterDriver "termloop" (Some ()) drivers)) "termloop"
    = Some ()
  ∧ RegisterDriver "null" (Some ()) drivers = (drivers, false).
Proof.
  intros drivers.
  assert (Hfree : drivers_at drivers "termloop" = None)
    by (vm_compute; reflexivity).
  pose proof (RegisterDriver_then_UnregisterDriver drivers "termloop" ()
                Hfree) as H.
  destruct (RegisterDriver "termloop" (Some ()) drivers) as [m1 ok1].
  destruct H as (_ & H1 & _).
  split; [exact Hfree|]. split; [exact H1|].
  vm_compute. reflexivity.
Defined.

(** [New] never returns an error for a driver name that is not registered:
    it panics, whatever the settings, and so it does for a name that has
    just been unregistered.  For a registered name it is [New] of the
    settings, the default settings standing in for [nil]. *)
Theorem New_with_unknown_driver_panics {Driver : Type}
    (drivers : gmap string (option Driver)) (name : string)
    (s : option Chip8Settings) :
  (drivers_at drivers name = None → New_driver drivers name s = NewPanic)
  ∧ New_driver (fst (UnregisterDriver name drivers)) name s = NewPanic
  ∧ (∀ d, drivers_at drivers name = None →
          New_driver (fst (RegisterDriver name (Some d) drivers)) name s
          = New (default DefaultSettings s))
  ∧ (∀ nulld : Driver, New_driver (init_drivers nulld) "null" None
              = New DefaultSettings).
Proof.
  split; [|split; [|split]].
  - intros Hfree. unfold New_driver. now rewrite Hfree.
  - unfold New_driver, UnregisterDriver.
    destruct (drivers_at drivers name) eqn:E; cbn [fst].
    + rewrite drivers_at_delete. now destruct (decide (name = name)).
    + now rewrite E.
  - intros d Hfree. unfold New_driver, RegisterDriver. rewrite Hfree.
    cbn [fst]. rewrite drivers_at_insert.
    now destruct (decide (name = name)).
  - intros nulld. reflexivity.
Qed.

(** The theorem at work: the termloop driver has not been registered. *)
Lemma New_with_unknown_driver_panics_witness :
  drivers_at (init_drivers ()) "termloop" = None
  ∧ New_driver (init_drivers ()) "termloop" None = NewPanic.
Proof.
  assert (Hfree : drivers_at (init_drivers ()) "termloop" = None)
    by (vm_compute; reflexivity).
  destruct (New_with_unknown_driver_panics (init_drivers ()) "termloop" None)
    as (H & _).
  exact (conj Hfree (H Hfree)).
Defined.

(** ** The timers *)

Section Timers.

Lemma same_but_timers_refl (c : Chip8) : same_but_timers c c.
Proof. constructor; reflexivity. Qed.

Lemma same_but_timers_trans (c1 c2 c3 : Chip8) :
  same_but_timers c1 c2 → same_but_timers c2 c3 → same_but_timers c1 c3.
Proof. intros [] []. constructor; congruence. Qed.

(** [k] turns of the timer loop: each timer goes down by [k], stopping at
    zero, with one beep for every step of the sound timer, and the time of
    the last update goes up by [k] intervals. *)
Lemma timer_loop_turns (t : Z) (k : nat) :
  ∀ (fuel : nat) (c : Chip8) (evs : list Event),
    0 < TimerInterval c → is_u8 (DT c) → is_u8 (ST c) →
    (k <= fuel)%nat →
    (Z.of_nat k * TimerInterval c <= t - lastTimerUpdate c) ∨ k = 0%nat →
    t - lastTimerUpdate c < (Z.of_nat k + 1) * TimerInterval c →
    ∃ c', timer_loop fuel t c evs
          = Some (c', evs ++ replicate (Z.to_nat (Z.min (Z.of_nat k) (ST c)))
                                       EvBeep)
          ∧ same_but_timers c c'
          ∧ DT c' = Z.max 0 (DT c - Z.of_nat k)
          ∧ ST c' = Z.max 0 (ST c - Z.of_nat k)
          ∧ lastTimerUpdate c'
            = lastTimerUpdate c + Z.of_nat k * TimerInterval c.
Proof.
  induction k as [|k IH]; intros fuel c evs Hpos HDT HST Hfuel Hlo Hhi;
    unfold is_u8 in *.
  - exists c.
    assert (Hstop : (t - lastTimerUpdate c >=? TimerInterval c) = false)
      by (destruct (Z.geb_spec (t - lastTimerUpdate c) (TimerInterval c));
          [lia | reflexivity]).
    destruct fuel; cbn [timer_loop]; rewrite Hstop.
    all: replace (Z.to_nat (Z.min (Z.of_nat 0) (ST c))) with 0%nat by lia.
    all: cbn [replicate]; rewrite app_nil_r.
    all: split; [reflexivity|]; split; [apply same_but_timers_refl|]; lia.
  - destruct fuel as [|fuel]; [lia|].
    assert (Hgo : (t - lastTimerUpdate c >=? TimerInterval c) = true)
      by (destruct (Z.geb_spec (t - lastTimerUpdate c) (TimerInterval c));
          [reflexivity | nia]).
    cbn [timer_loop]. rewrite Hgo.
    set (c1 := if DT c >? 0 then set_DT (u8 (DT c - 1)) c else c).
    assert (F1 : same_but_timers c c1 ∧ DT c1 = Z.max 0 (DT c - 1)
                 ∧ ST c1 = ST c ∧ lastTimerUpdate c1 = lastTimerUpdate c).
    { unfold c1. destruct (Z.gtb_spec (DT c) 0).
      - cbn [DT ST lastTimerUpdate set_DT]. unfold u8.
        rewrite Z.mod_small by lia.
        split; [constructor; reflexivity | lia].
      - split; [apply same_but_timers_refl | lia]. }
    destruct F1 as (B1 & D1 & S1 & L1).
    set (r := if ST c1 >? 0
              then (set_ST (u8 (ST c1 - 1)) c1, evs ++ [EvBeep])
              else (c1, evs)).
    assert (F2 : same_but_timers c1 (fst r) ∧ DT (fst r) = DT c1
                 ∧ ST (fst r) = Z.max 0 (ST c - 1)
                 ∧ lastTimerUpdate (fst r) = lastTimerUpdate c
                 ∧ snd r = evs ++ replicate (Z.to_nat (Z.min 1 (ST c))) EvBeep).
    { unfold r. rewrite S1. destruct (Z.gtb_spec (ST c) 0).
      - cbn [fst snd DT ST lastTimerUpdate set_ST]. unfold u8.
        rewrite Z.mod_small by lia.
        replace (Z.to_nat (Z.min 1 (ST c))) with 1%nat by lia.
        split; [constructor; reflexivity|]. repeat split; lia.
      - cbn [fst snd]. replace (Z.to_nat (Z.min 1 (ST c))) with 0%nat by lia.
        cbn [replicate]. rewrite app_nil_r.
        split; [apply same_but_timers_refl|]. repeat split; lia. }
    destruct r as [c2 evs2]. cbn [fst snd] in F2.
    destruct F2 as (B2 & D2 & S2 & L2 & ->).
    pose proof (same_but_timers_trans _ _ _ B1 B2) as B12.
    pose proof (bt_TimerInterval _ _ B12) as HTI.
    set (c3 := set_lastTimerUpdate (lastTimerUpdate c2 + TimerInterval c2) c2).
    destruct (IH fuel c3 (evs ++ replicate (Z.to_nat (Z.min 1 (ST c))) EvBeep))
      as (c' & Hl & B3 & D3 & S3 & L3).
    + unfold c3; cbn [TimerInterval set_lastTimerUpdate]. lia.
    + unfold c3; cbn [DT set_lastTimerUpdate]. lia.
    + unfold c3; cbn [ST set_lastTimerUpdate]. lia.
    + lia.
    + unfold c3; cbn [TimerInterval lastTimerUpdate set_lastTimerUpdate].
      rewrite HTI, L2. destruct k; [right; reflexivity | left; nia].
    + unfold c3; cbn [TimerInterval lastTimerUpdate set_lastTimerUpdate].
      rewrite HTI, L2. nia.
    + exists c'. rewrite Hl.
      unfold c3 in *.
      cbn [DT ST TimerInterval lastTimerUpdate set_lastTimerUpdate] in *.
      split; [|split; [|split; [|split]]].
      * rewrite <- app_assoc, <- replicate_add. do 4 f_equal. lia.
      * eapply same_but_timers_trans; [exact B12|].
        eapply same_but_timers_trans; [|exact B3].
        constructor; reflexivity.
      * lia.
      * lia.
      * rewrite L3, HTI, L2. lia.
Qed.

Lemma timer_base_set (env : Env) (c : Chip8) :
  let c1 := if lastTimerUpdate c =? 0 then set_lastTimerUpdate (now env) c
            else c in
  lastTimerUpdate c1 = timer_base env c ∧ same_but_timers c c1
  ∧ DT c1 = DT c ∧ ST c1 = ST c.
Proof.
  unfold timer_base. cbv zeta. destruct (lastTimerUpdate c =? 0).
  - split; [reflexivity|]. split; [constructor; reflexivity | auto].
  - split; [reflexivity|]. split; [apply same_but_timers_refl | auto].
Qed.

(** Once entered with an interval that is not positive, the timer loop
    never ends: whatever the number of turns granted, the condition still
    holds when they are used up. *)
Lemma timer_loop_never_ends (t : Z) (fuel : nat) :
  ∀ (c : Chip8) (evs : list Event),
    TimerInterval c <= 0 → TimerInterval c <= t - lastTimerUpdate c →
    timer_loop fuel t c evs = None.
Proof.
  induction fuel as [|fuel IH]; intros c evs Hneg Hin; cbn [timer_loop];
    (assert (Hgo : (t - lastTimerUpdate c >=? TimerInterval c) = true)
       by (destruct (Z.geb_spec (t - lastTimerUpdate c) (TimerInterval c));
           [reflexivity | lia])); rewrite Hgo; [reflexivity|].
  destruct (DT c >? 0), (ST _ >? 0); apply IH;
    cbn [TimerInterval lastTimerUpdate set_lastTimerUpdate set_ST set_DT];
    lia.
Qed.

End Timers.

(** What the timers at the end of a cycle do, for a positive interval. *)
Lemma timers_done (env : Env) (c : Chip8) (evs : list Event) :
  0 < TimerInterval c → is_u8 (DT c) → is_u8 (ST c) →
  let k := elapsed_intervals env c in
  ∃ c', timers env c evs
        = (Done, c', evs ++ replicate (Z.to_nat (Z.min k (ST c))) EvBeep)
        ∧ DT c' = Z.max 0 (DT c - k) ∧ ST c' = Z.max 0 (ST c - k)
        ∧ lastTimerUpdate c' = timer_base env c + k * TimerInterval c
        ∧ (timer_base env c <= now env →
           0 <= now env - lastTimerUpdate c' < TimerInterval c)
        ∧ same_but_timers c c'.
Proof.
  intros Hpos HDT HST k. unfold timers.
  destruct (timer_base_set env c) as (Hb & B1 & D1 & S1).
  set (c1 := if lastTimerUpdate c =? 0 then set_lastTimerUpdate (now env) c
             else c) in *.
  pose proof (bt_TimerInterval _ _ B1) as HTI.
  rewrite Hb, HTI. fold (elapsed_intervals env c). fold k.
  pose proof (Z.div_mod (now env - timer_base env c) (TimerInterval c)
                ltac:(lia)) as Hdm.
  pose proof (Z.mod_pos_bound (now env - timer_base env c) (TimerInterval c)
                Hpos) as Hmb.
  assert (Hk : 0 <= k) by (unfold k, elapsed_intervals; lia).
  assert (Hq : k = Z.max 0 ((now env - timer_base env c) / TimerInterval c))
    by reflexivity.
  set (q := (now env - timer_base env c) / TimerInterval c) in *.
  assert (Hfuel : Z.to_nat q = Z.to_nat k) by lia.
  rewrite Hfuel.
  assert (Hlo : Z.of_nat (Z.to_nat k) * TimerInterval c1
                <= now env - lastTimerUpdate c1 ∨ Z.to_nat k = 0%nat).
  { rewrite HTI, Hb. destruct (Z.to_nat k) eqn:E; [right; reflexivity | left].
    nia. }
  assert (Hhi : now env - lastTimerUpdate c1
                < (Z.of_nat (Z.to_nat k) + 1) * TimerInterval c1).
  { rewrite HTI, Hb, Z2Nat.id by lia. nia. }
  destruct (timer_loop_turns (now env) (Z.to_nat k) (Z.to_nat k) c1 evs)
    as (c' & Hl & B2 & D2 & S2 & L2); rewrite ?HTI, ?D1, ?S1;
    try assumption; try lia.
  exists c'. rewrite Hl, S1, Z2Nat.id by lia.
  rewrite D2, S2, L2, D1, S1, Hb, HTI, Z2Nat.id by lia.
  split; [reflexivity|]. split; [reflexivity|]. split; [reflexivity|].
  split; [reflexivity|]. split; [nia|].
  eapply same_but_timers_trans; eauto.
Qed.

(** The timers at the end of a cycle, for a positive interval.  Let [k] be
    the number of whole intervals elapsed since the last update (none on
    the cycle that finds no last update, or when the clock is behind it).
    The delay timer and the sound timer each go down by [k], stopping at
    zero; the driver beeps once for every step of the sound timer; the time
    of the last update moves on by exactly [k] intervals, so that less than
    one interval is left over; and nothing else changes. *)
Theorem timers_catch_up (env : Env) (c : Chip8) (evs : list Event) :
  0 < TimerInterval c → is_u8 (DT c) → is_u8 (ST c) →
  let k := elapsed_intervals env c in
  ∃ c', timers env c evs
        = (Done, c', evs ++ replicate (Z.to_nat (Z.min k (ST c))) EvBeep)
        ∧ DT c' = Z.max 0 (DT c - k) ∧ ST c' = Z.max 0 (ST c - k)
        ∧ lastTimerUpdate c' = timer_base env c + k * TimerInterval c
        ∧ (timer_base env c <= now env →
           0 <= now env - lastTimerUpdate c' < TimerInterval c)
        ∧ same_but_timers c c'.
Proof. exact (timers_done env c evs). Qed.

(** The theorem at work: a delay timer at 200 and a sound timer at 3, one
    second after the last update at the default interval: sixty intervals
    have elapsed, the delay timer is at 140, the sound timer at 0 after
    three beeps. *)
Lemma timers_catch_up_witness :
  let c := set_lastTimerUpdate 1000
             (set_ST 3 (set_DT 200 (machine DefaultSettings []))) in
  let env := at_time (1000 + 1000000000) in
  elapsed_intervals env c = 60
  ∧ ∃ c', timers env c [] = (Done, c', [EvBeep; EvBeep; EvBeep])
          ∧ DT c' = 140 ∧ ST c' = 0.
Proof.
  intros c env.
  assert (Hk : elapsed_intervals env c = 60) by (vm_compute; reflexivity).
  split; [exact Hk|].
  destruct (timers_catch_up env c []) as (c' & Ht & HD & HS & _);
    [vm_compute; reflexivity | vm_compute; split; [discriminate | reflexivity]
    | vm_compute; split; [discriminate | reflexivity] |].
  exists c'. rewrite Hk in Ht, HD, HS.
  exact (conj Ht (conj HD HS)).
Defined.

(** [TimerInterval] is an exported field.  With an interval that is zero or
    negative the timer loop, once its condition holds, holds for ever: the
    loop does not end within any number of turns, and the cycle does not
    return. *)
Theorem nonpositive_interval_hangs (env : Env) (c : Chip8)
    (evs : list Event) :
  TimerInterval c <= 0 →
  TimerInterval c <= now env - timer_base env c →
  (∀ fuel,
     timer_loop fuel (now env)
       (if lastTimerUpdate c =? 0 then set_lastTimerUpdate (now env) c else c)
       evs = None)
  ∧ fst (fst (timers env c evs)) = Hang.
Proof.
  intros Hneg Hin.
  destruct (timer_base_set env c) as (Hb & B1 & _).
  set (c1 := if lastTimerUpdate c =? 0 then set_lastTimerUpdate (now env) c
             else c) in *.
  pose proof (bt_TimerInterval _ _ B1) as HTI.
  assert (Hall : ∀ fuel, timer_loop fuel (now env) c1 evs = None).
  { intros fuel. apply timer_loop_never_ends; rewrite HTI, ?Hb; lia. }
  split; [exact Hall|]. unfold timers. fold c1. now rewrite Hall.
Qed.

(** The theorem at work: the default machine with the interval set to 0. *)
Lemma nonpositive_interval_hangs_witness :
  let c := set_TimerInterval 0 (machine DefaultSettings [0x60; 0x01]) in
  TimerInterval c <= 0
  ∧ fst (fst (timers (at_time 1000) c [])) = Hang
  ∧ fst (fst (Tick (at_time 1000) c)) = Hang.
Proof.
  intros c.
  assert (Hneg : TimerInterval c <= 0) by (vm_compute; discriminate).
  assert (Hin : TimerInterval c
                <= now (at_time 1000) - timer_base (at_time 1000) c)
    by (vm_compute; discriminate).
  destruct (nonpositive_interval_hangs (at_time 1000) c [] Hneg Hin)
    as [_ H].
  split; [exact Hneg|]. split; [exact H|]. vm_compute. reflexivity.
Defined.

(** ** One cycle, instruction by instruction *)

Section OneCycle.

Variable env : Env.
Variable c : Chip8.
Variable k : Kind.
Variables b0 b1 : Z.
Hypothesis Hruns : runs c k b0 b1.

Lemma runs_facts :
  wf c ∧ is_u8 b0 ∧ is_u8 b1 ∧ 0 <= PC c
  ∧ PC c + 2 <= Z.of_nat (length (Memory c))
  ∧ u16 (PC c + 2) = PC c + 2
  ∧ wf (set_PC (PC c + 2) c).
Proof.
  destruct Hruns as (Hwf & _ & Hf & _).
  destruct (decide (fetch_in_bounds c)) as [Hin|Hout];
    [|rewrite (fetch_None c Hwf Hout) in Hf; discriminate].
  destruct (fetch_Some c Hwf Hin) as (x0 & x1 & Hf' & H0 & H1).
  rewrite Hf in Hf'. injection Hf' as <- <-.
  pose proof (wf_PC c Hwf) as HPC. pose proof (wf_MemorySize c Hwf) as Hsz.
  unfold fetch_in_bounds in Hin. unfold is_u16 in HPC.
  assert (Hu : is_u16 (PC c + 2)) by (unfold is_u16; lia).
  split; [exact Hwf|]. split; [exact H0|]. split; [exact H1|].
  split; [lia|]. split; [lia|]. split; [now apply u16_small|].
  now apply wf_set_PC.
Qed.

Lemma runs_exec :
  Tick env c
  = match exec env (PC c) b0 b1 (set_PC (PC c + 2) c) with
    | Stop o c' => (o, c', [EvOnUpdate])
    | Next c' evs' => timers env c' ([EvOnUpdate] ++ evs')
    end.
Proof.
  destruct runs_facts as (_ & _ & _ & _ & _ & Hu & _).
  destruct Hruns as (_ & Hw & Hf & _).
  unfold Tick, cycle. now rewrite Hw, Hf, Hu.
Qed.

(** A cycle whose arm falls out of the switch returns [nil]; after the arm
    only the timers change. *)
Lemma runs_Next (c1 : Chip8) (evs1 : list Event) :
  exec env (PC c) b0 b1 (set_PC (PC c + 2) c) = Next c1 evs1 →
  ∃ c' beeps, Tick env c = (Done, c', [EvOnUpdate] ++ evs1 ++ beeps)
              ∧ same_but_timers c1 c' ∧ wf c1 ∧ wf c'.
Proof.
  intros Hex. rewrite runs_exec, Hex.
  destruct runs_facts as (Hwf & H0 & H1 & HP & HL & _ & Hwf0).
  assert (Hwf1 : wf c1).
  { eapply (exec_Next_wf env _ c1 (PC c) b0 b1 evs1 Hwf0 H0 H1 HP); eauto. }
  destruct (timers_done env c1 ([EvOnUpdate] ++ evs1)
              (wf_TimerInterval _ Hwf1) (wf_DT _ Hwf1) (wf_ST _ Hwf1))
    as (c' & Ht & _ & _ & _ & _ & B).
  destruct (timers_ok env c1 ([EvOnUpdate] ++ evs1) Hwf1)
    as (c'' & evs'' & Ht' & Hwf').
  rewrite Ht in Ht'. injection Ht' as <- _.
  exists c', (replicate (Z.to_nat (Z.min (elapsed_intervals env c1) (ST c1)))
                EvBeep).
  rewrite Ht. rewrite <- app_assoc.
  split; [reflexivity|]. auto.
Qed.

Lemma runs_Stop (o : Outcome) (c1 : Chip8) :
  exec env (PC c) b0 b1 (set_PC (PC c + 2) c) = Stop o c1 →
  Tick env c = (o, c1, [EvOnUpdate]).
Proof. intros Hex. now rewrite runs_exec, Hex. Qed.

Lemma runs_arm : exec env (PC c) b0 b1 = match k with
  | RawData => λ c, Stop (Failed BadCodeErr) c
  | Sys => exec_Sys b0 b1
  | Jp => exec_Jp b0 b1
  | Call => exec_Call (PC c)
  | Se => exec_Se b0 b1
  | Sne => exec_Sne b0 b1
  | SeRegister => exec_SeRegister b0 b1
  | Ld => exec_Ld b0 b1
  | Add => exec_Add b0 b1
  | LdRegister => exec_LdRegister b0 b1
  | Or => exec_Or b0 b1
  | And => exec_And b0 b1
  | Xor => exec_Xor b0 b1
  | AddRegister => exec_AddRegister b0 b1
  | SubRegister => exec_SubRegister b0 b1
  | Shr => exec_Shr b0 b1
  | Subn => exec_Subn b0 b1
  | Shl => exec_Shl b0 b1
  | SneRegister => exec_SneRegister b0 b1
  | LdI => exec_LdI b0 b1
  | JpV0 => exec_JpV0 b0 b1
  | Rnd => exec_Rnd (random env) b0 b1
  | Drw => exec_Drw b0 b1
  | Skp => exec_Skp b0 b1
  | Sknp => exec_Sknp b0 b1
  | LdDelayTimer => exec_LdDelayTimer b0 b1
  | LdKeyboard => exec_LdKeyboard b0 b1
  | LdSetDelayTimer => exec_LdSetDelayTimer b0 b1
  | LdSetSoundTimer => exec_LdSetSoundTimer b0 b1
  | AddI => exec_AddI b0 b1
  | LdFont => exec_LdFont b0 b1
  | LdBcd => exec_LdBcd b0 b1
  | LdSetMemory => exec_LdSetMemory b0 b1
  | LdMemory => exec_LdMemory b0 b1
  end.
Proof.
  destruct Hruns as (_ & _ & _ & Hk). unfold exec. rewrite Hk.
  now destruct k.
Qed.

End OneCycle.

Section RegisterFacts.

Lemma reg_same_but_timers (c1 c' : Chip8) (r : Z) :
  same_but_timers c1 c' → reg c' r = reg c1 r.
Proof. intros B. unfold reg. now rewrite (bt_V _ _ B). Qed.

Lemma reg_set_PC (c : Chip8) (pc r : Z) : reg (set_PC pc c) r = reg c r.
Proof. reflexivity. Qed.

Lemma reg_eq (c : Chip8) (i v : Z) :
  wf c → 0 <= i < 16 → reg (set_reg i v c) i = v.
Proof.
  intros Hwf Hi. apply reg_set_reg_eq. rewrite (wf_V16 c Hwf). lia.
Qed.

Lemma byte_halves (v : Z) :
  Z.land v 0x01 = v mod 2 ∧ Z.shiftr v 1 = v / 2.
Proof.
  split.
  - change 0x01 with (Z.ones 1). now rewrite Z.land_ones.
  - now rewrite Z.shiftr_div_pow2.
Qed.

Lemma byte_top_bit (v : Z) :
  is_u8 v → Z.land v 0x80 = if v <? 128 then 0 else 128.
Proof.
  intros Hv. unfold is_u8 in Hv.
  change (Z.land v 0x80) with (Z.land v (2 ^ 7)).
  rewrite land_pow2 by lia. change (2 ^ 7) with 128.
  destruct (Z.ltb_spec v 128).
  - replace (Z.testbit v 7) with false; [reflexivity|].
    symmetry. apply (proj1 (below_pow2_bits v 7 ltac:(lia))); lia.
  - replace (Z.testbit v 7) with true; [reflexivity|].
    symmetry. apply Z.testbit_true; [lia|].
    change (2 ^ 7) with 128.
    assert (v / 128 = 1) as ->; [|reflexivity].
    apply Z.le_antisymm.
    + apply Z.lt_succ_r, Z.div_lt_upper_bound; lia.
    + apply Z.div_le_lower_bound; lia.
Qed.

End RegisterFacts.

(** ADD VX,VY (8XY4): the cycle returns [nil]; VF is the carry of the sum
    of the two registers, 1 when it exceeds 255 and 0 otherwise, also when
    X is F, the flag being written last; for any other X, VX is the sum
    modulo 256, so that VX + 256 VF is the sum; and nothing changes but VX,
    VF, the program counter, which is two further, and the timers. *)
Theorem ADD_VX_VY_carry (env : Env) (c : Chip8) (b0 b1 : Z) :
  runs c AddRegister b0 b1 →
  ∃ c' evs, Tick env c = (Done, c', evs)
    ∧ reg c' 0xF
      = (if 255 <? reg c (opX b0) + reg c (opY b1) then 1 else 0)
    ∧ (opX b0 ≠ 0xF →
       reg c' (opX b0) = (reg c (opX b0) + reg c (opY b1)) mod 256
       ∧ reg c' (opX b0) + 256 * reg c' 0xF
         = reg c (opX b0) + reg c (opY b1))
    ∧ (∀ r, 0 <= r < 16 → r ≠ opX b0 → r ≠ 0xF → reg c' r = reg c r)
    ∧ same_but_timers (set_V (V c') (set_PC (PC c + 2) c)) c'.
Proof.
  intros Hr.
  destruct (runs_facts c _ b0 b1 Hr) as (Hwf & H0 & H1 & _ & _ & _ & Hwf0).
  pose proof (opX_range b0) as HX. pose proof (opY_range b1) as HY.
  pose proof (reg_u8 c (opX b0) Hwf) as Hx.
  pose proof (reg_u8 c (opY b1) Hwf) as Hy. unfold is_u8 in Hx, Hy.
  set (sum := reg c (opX b0) + reg c (opY b1)).
  edestruct (runs_Next env c _ b0 b1 Hr) as (c' & beeps & HT & B & Hwf1 & _).
  { rewrite (runs_arm env c _ b0 b1 Hr). reflexivity. }
  exists c'. eexists. split; [exact HT|].
  rewrite !(reg_same_but_timers _ _ _ B).
  cbv zeta. rewrite !reg_set_PC. fold sum.
  assert (Hu : u16 sum = sum) by (apply u16_small; unfold is_u16; lia).
  assert (Hflag : (if Z.land (u16 sum) 0xFF00 =? 0 then 0 else 1)
                  = if 255 <? sum then 1 else 0).
  { rewrite Hu. change 0xFF00 with (Z.shiftl (Z.ones 8) 8).
    destruct (Z.ltb_spec 255 sum).
    - destruct (Z.eqb_spec (Z.land sum (Z.shiftl (Z.ones 8) 8)) 0) as [E|];
        [|reflexivity].
      apply (f_equal (λ z, Z.testbit z 8)) in E.
      rewrite Z.land_spec, Z.bits_0 in E.
      replace (Z.testbit sum 8) with true in E; [discriminate|].
      symmetry. apply Z.testbit_true; [lia|]. change (2 ^ 8) with 256.
      assert (sum / 256 = 1) as ->; [|reflexivity].
      apply Z.le_antisymm.
      + apply Z.lt_succ_r, Z.div_lt_upper_bound; lia.
      + apply Z.div_le_lower_bound; lia.
    - replace (Z.land sum (Z.shiftl (Z.ones 8) 8)) with 0; [reflexivity|].
      symmetry. apply Z.bits_inj'. intros n Hn.
      rewrite Z.land_spec, Z.bits_0.
      destruct (Z.ltb_spec n 8).
      + rewrite Z.shiftl_spec_low by lia. apply andb_false_r.
      + replace (Z.testbit sum n) with false; [reflexivity|].
        symmetry. apply (proj1 (below_pow2_bits sum 8 ltac:(lia))); lia. }
  rewrite Hflag.
  assert (HF : reg (set_reg 15 (if 255 <? sum then 1 else 0)
                      (set_reg (opX b0) (u8 (u16 sum)) (set_PC (PC c + 2) c)))
                 15 = if 255 <? sum then 1 else 0).
  { apply reg_eq; [|lia]. apply wf_set_reg; [exact Hwf0 | apply u8_range]. }
  split; [exact HF|]. split; [|split].
  - intros HXF. rewrite HF. rewrite reg_set_reg_ne by lia.
    rewrite reg_eq by (auto; lia). unfold u8. rewrite Hu.
    split; [reflexivity|].
    destruct (Z.ltb_spec 255 sum).
    + replace sum with (sum - 256 + 1 * 256) at 1 by lia.
      rewrite Z.mod_add by lia. rewrite Z.mod_small; lia.
    + rewrite Z.mod_small; lia.
  - intros r Hr16 HrX HrF. rewrite (reg_same_but_timers _ _ _ B).
    now rewrite !reg_set_reg_ne by lia.
  - destruct B. constructor;
      cbn [Memory V I Stack SP PC Keyboard Screen Width Height TimerInterval
           wii pLdMemory pLdSetMemory pShr pShl set_V set_PC set_reg] in *;
      congruence.
Qed.

(** The theorem at work: VX = 0xFF and VY = 0x02 give VX = 0x01 and
    VF = 1. *)
Lemma ADD_VX_VY_carry_witness :
  let c := set_reg 2 0x02
             (set_reg 1 0xFF (machine DefaultSettings [0x81; 0x24])) in
  runs c AddRegister 0x81 0x24
  ∧ ∃ c' evs, Tick (at_time 1000) c = (Done, c', evs)
              ∧ reg c' 1 = 1 ∧ reg c' 0xF = 1.
Proof.
  intros c.
  assert (Hr : runs c AddRegister 0x81 0x24).
  { split; [|repeat split; vm_compute; reflexivity].
    repeat apply wf_set_reg;
      [apply wf_machine_default; [reflexivity | cbn; lia] | ..];
      unfold is_u8; lia. }
  split; [exact Hr|].
  destruct (ADD_VX_VY_carry (at_time 1000) c _ _ Hr)
    as (c' & evs & HT & HF & HX & _).
  exists c', evs. split; [exact HT|].
  destruct HX as [HX _]; [vm_compute; discriminate|].
  split; [exact HX | exact HF].
Defined.

Section Shifts.

Variable env : Env.
Variable c : Chip8.
Variables b0 b1 : Z.

Lemma shift_registers (legacy : bool) (f v : Z) :
  wf c → opX b0 ≠ 0xF → shift_source legacy b0 b1 ≠ 0xF →
  let c0 := set_PC (PC c + 2) c in
  let c1 := set_reg 0xF f c0 in
  reg c1 (shift_source legacy b0 b1) = reg c (shift_source legacy b0 b1)
  ∧ reg (set_reg (opX b0) v c1) (opX b0) = v
  ∧ reg (set_reg (opX b0) v c1) 0xF = f
  ∧ ∀ r, 0 <= r < 16 → r ≠ opX b0 → r ≠ 0xF →
         reg (set_reg (opX b0) v c1) r = reg c r.
Proof.
  intros Hwf HX HS c0 c1.
  pose proof (opX_range b0). pose proof (opY_range b1).
  assert (0 <= shift_source legacy b0 b1 < 16)
    by (unfold shift_source; destruct legacy; lia).
  assert (V16 : length (V c1) = 16%nat)
    by (unfold c1; rewrite length_V_set_reg; apply (wf_V16 c Hwf)).
  split; [|split; [|split]].
  - unfold c1. now rewrite reg_set_reg_ne by lia.
  - apply reg_set_reg_eq. rewrite V16. lia.
  - rewrite reg_set_reg_ne by lia. unfold c1.
    apply reg_set_reg_eq. cbn [V set_PC c0]. rewrite (wf_V16 c Hwf). lia.
  - intros r Hr HrX HrF. unfold c1. now rewrite !reg_set_reg_ne by lia.
Qed.

End Shifts.

(** SHR VX,VY (8XY6), for a source register and a VX other than VF.  The
    source is VX, or VY with the legacy closures.  VX receives the source
    shifted right by one and VF the bit shifted out, so that the source is
    2 VX + VF; no other register changes. *)
Theorem SHR_halves (env : Env) (c : Chip8) (b0 b1 : Z) :
  runs c Shr b0 b1 →
  opX b0 ≠ 0xF → shift_source (pShr c) b0 b1 ≠ 0xF →
  ∃ c' evs, Tick env c = (Done, c', evs)
    ∧ reg c' (opX b0) = reg c (shift_source (pShr c) b0 b1) / 2
    ∧ reg c' 0xF = reg c (shift_source (pShr c) b0 b1) mod 2
    ∧ reg c (shift_source (pShr c) b0 b1)
      = 2 * reg c' (opX b0) + reg c' 0xF
    ∧ (∀ r, 0 <= r < 16 → r ≠ opX b0 → r ≠ 0xF → reg c' r = reg c r)
    ∧ same_but_timers (set_V (V c') (set_PC (PC c + 2) c)) c'.
Proof.
  intros Hr HX HS.
  destruct (runs_facts c _ b0 b1 Hr) as (Hwf & _).
  edestruct (runs_Next env c _ b0 b1 Hr) as (c' & beeps & HT & B & _).
  { rewrite (runs_arm env c _ b0 b1 Hr). reflexivity. }
  exists c'. eexists. split; [exact HT|].
  assert (HV : ∀ r, reg c' r
                    = reg (shr (pShr c) (opX b0) (opY b1)
                             (set_PC (PC c + 2) c)) r)
    by (intros r; apply (reg_same_but_timers _ _ _ B)).
  set (src := shift_source (pShr c) b0 b1) in *.
  set (f := Z.land (reg c src) 0x01).
  destruct (shift_registers c b0 b1 (pShr c) f
              (Z.shiftr (reg c src) 1) Hwf HX HS) as (E0 & E1 & E2 & E3).
  fold src in E0.
  assert (Hshr : shr (pShr c) (opX b0) (opY b1) (set_PC (PC c + 2) c)
                 = set_reg (opX b0) (Z.shiftr (reg c src) 1)
                     (set_reg 0xF f (set_PC (PC c + 2) c))).
  { subst f src. unfold shr, shift_source in *.
    destruct (pShr c); cbv zeta; rewrite ?reg_set_PC, E0; reflexivity. }
  rewrite Hshr in HV.
  pose proof (B : same_but_timers
                    (shr (pShr c) (opX b0) (opY b1) (set_PC (PC c + 2) c)) c')
    as B'.
  rewrite Hshr in B'.
  destruct (byte_halves (reg c src)) as [Hm Hd].
  rewrite !HV, E1, E2. unfold f. rewrite Hm, Hd.
  split; [reflexivity|]. split; [reflexivity|].
  split; [apply Z.div_mod; lia|]. split.
  - intros r Hr16 HrX HrF. rewrite HV. now apply E3.
  - destruct B'. constructor;
      cbn [Memory V I Stack SP PC Keyboard Screen Width Height TimerInterval
           wii pLdMemory pLdSetMemory pShr pShl set_V set_PC set_reg] in *;
      congruence.
Qed.

(** The theorem at work: V1 = 7 shifted right, with the closures of the
    default settings. *)
Lemma SHR_halves_witness :
  let c := set_reg 1 7 (machine DefaultSettings [0x81; 0x26]) in
  runs c Shr 0x81 0x26
  ∧ ∃ c' evs, Tick (at_time 1000) c = (Done, c', evs)
              ∧ reg c' 1 = 3 ∧ reg c' 0xF = 1.
Proof.
  intros c.
  assert (Hr : runs c Shr 0x81 0x26).
  { split; [|repeat split; vm_compute; reflexivity].
    repeat apply wf_set_reg;
      [apply wf_machine_default; [reflexivity | cbn; lia] | ..];
      unfold is_u8; lia. }
  split; [exact Hr|].
  destruct (SHR_halves (at_time 1000) c _ _ Hr)
    as (c' & evs & HT & HX & HF & _);
    [vm_compute; discriminate | vm_compute; discriminate |].
  exists c', evs. split; [exact HT|]. split; [exact HX | exact HF].
Defined.

(** SHL VX,VY (8XYE), for a source register and a VX other than VF.  The
    source is VX, or VY with the legacy closures.  VX receives the source
    shifted left by one, modulo 256, and VF the top bit of the source in
    place: 0x80 when it is set, not 1, and 0 otherwise, so that twice the
    source is VX + 2 VF; no other register changes. *)
Theorem SHL_doubles (env : Env) (c : Chip8) (b0 b1 : Z) :
  runs c Shl b0 b1 →
  opX b0 ≠ 0xF → shift_source (pShl c) b0 b1 ≠ 0xF →
  ∃ c' evs, Tick env c = (Done, c', evs)
    ∧ reg c' (opX b0) = (2 * reg c (shift_source (pShl c) b0 b1)) mod 256
    ∧ reg c' 0xF
      = (if reg c (shift_source (pShl c) b0 b1) <? 128 then 0 else 0x80)
    ∧ 2 * reg c (shift_source (pShl c) b0 b1)
      = reg c' (opX b0) + 2 * reg c' 0xF
    ∧ (∀ r, 0 <= r < 16 → r ≠ opX b0 → r ≠ 0xF → reg c' r = reg c r)
    ∧ same_but_timers (set_V (V c') (set_PC (PC c + 2) c)) c'.
Proof.
  intros Hr HX HS.
  destruct (runs_facts c _ b0 b1 Hr) as (Hwf & _).
  edestruct (runs_Next env c _ b0 b1 Hr) as (c' & beeps & HT & B & _).
  { rewrite (runs_arm env c _ b0 b1 Hr). reflexivity. }
  exists c'. eexists. split; [exact HT|].
  assert (HV : ∀ r, reg c' r
                    = reg (shl (pShl c) (opX b0) (opY b1)
                             (set_PC (PC c + 2) c)) r)
    by (intros r; apply (reg_same_but_timers _ _ _ B)).
  set (src := shift_source (pShl c) b0 b1) in *.
  set (f := Z.land (reg c src) 0x80).
  destruct (shift_registers c b0 b1 (pShl c) f
              (u8 (Z.shiftl (reg c src) 1)) Hwf HX HS) as (E0 & E1 & E2 & E3).
  fold src in E0.
  assert (Hshl : shl (pShl c) (opX b0) (opY b1) (set_PC (PC c + 2) c)
                 = set_reg (opX b0) (u8 (Z.shiftl (reg c src) 1))
                     (set_reg 0xF f (set_PC (PC c + 2) c))).
  { subst f src. unfold shl, shift_source in *.
    destruct (pShl c); cbv zeta; rewrite ?reg_set_PC, E0; reflexivity. }
  rewrite Hshl in HV.
  pose proof (B : same_but_timers
                    (shl (pShl c) (opX b0) (opY b1) (set_PC (PC c + 2) c)) c')
    as B'.
  rewrite Hshl in B'.
  pose proof (reg_u8 c src Hwf) as Hs.
  rewrite !HV, E1, E2. unfold f. rewrite (byte_top_bit _ Hs).
  unfold u8. rewrite Z.shiftl_mul_pow2 by lia.
  replace (reg c src * 2 ^ 1) with (2 * reg c src) by lia.
  unfold is_u8 in Hs.
  split; [reflexivity|]. split; [reflexivity|]. split; [|split].
  - destruct (Z.ltb_spec (reg c src) 128).
    + rewrite Z.mod_small; lia.
    + replace (2 * reg c src) with (2 * reg c src - 256 + 1 * 256) at 2
        by lia.
      rewrite Z.mod_add by lia. rewrite Z.mod_small; lia.
  - intros r Hr16 HrX HrF. rewrite HV. now apply E3.
  - destruct B'. constructor;
      cbn [Memory V I Stack SP PC Keyboard Screen Width Height TimerInterval
           wii pLdMemory pLdSetMemory pShr pShl set_V set_PC set_reg] in *;
      congruence.
Qed.

(** The theorem at work: V1 = 0x81 shifted left leaves VF = 0x80. *)
Lemma SHL_doubles_witness :
  let c := set_reg 1 0x81 (machine DefaultSettings [0x81; 0x2E]) in
  runs c Shl 0x81 0x2E
  ∧ ∃ c' evs, Tick (at_time 1000) c = (Done, c', evs)
              ∧ reg c' 1 = 2 ∧ reg c' 0xF = 0x80.
Proof.
  intros c.
  assert (Hr : runs c Shl 0x81 0x2E).
  { split; [|repeat split; vm_compute; reflexivity].
    repeat apply wf_set_reg;
      [apply wf_machine_default; [reflexivity | cbn; lia] | ..];
      unfold is_u8; lia. }
  split; [exact Hr|].
  destruct (SHL_doubles (at_time 1000) c _ _ Hr)
    as (c' & evs & HT & HX & HF & _);
    [vm_compute; discriminate | vm_compute; discriminate |].
  exists c', evs. split; [exact HT|]. split; [exact HX | exact HF].
Defined.

Section Masks.

Lemma land_le_r (a m : Z) : 0 <= m → Z.land a m <= m.
Proof.
  intros Hm.
  assert (Hd : Z.land (Z.land a m) (Z.land (Z.lnot a) m) = 0).
  { apply Z.bits_inj'. intros n Hn.
    rewrite !Z.land_spec, Z.lnot_spec, Z.bits_0 by lia.
    destruct (Z.testbit a n), (Z.testbit m n); reflexivity. }
  assert (Hs : Z.lor (Z.land a m) (Z.land (Z.lnot a) m) = m).
  { apply Z.bits_inj'. intros n Hn.
    rewrite Z.lor_spec, !Z.land_spec, Z.lnot_spec by lia.
    destruct (Z.testbit a n), (Z.testbit m n); reflexivity. }
  rewrite <- Z.lxor_lor, <- Z.add_nocarry_lxor in Hs by exact Hd.
  assert (0 <= Z.land (Z.lnot a) m) by (apply Z.land_nonneg; lia).
  lia.
Qed.

Lemma KeyFlags_lookup (v : Z) :
  0 <= v <= 0xF → KeyFlags !! Z.to_nat v = Some (2 ^ v).
Proof.
  intros Hv.
  assert (Hc : v = 0 ∨ v = 1 ∨ v = 2 ∨ v = 3 ∨ v = 4 ∨ v = 5 ∨ v = 6 ∨ v = 7
               ∨ v = 8 ∨ v = 9 ∨ v = 10 ∨ v = 11 ∨ v = 12 ∨ v = 13
               ∨ v = 14 ∨ v = 15) by lia.
  repeat (destruct Hc as [-> | Hc]; [reflexivity|]). now subst.
Qed.

(** [Keyboard & KeyFlags[v] == 0] says that the key [v] is up. *)
Lemma key_flag_test (c : Chip8) (x : Z) :
  wf c → reg c x <= 0xF →
  ∃ f, key_flag c x = Some f
       ∧ (Z.land (Keyboard c) f =? 0) = negb (key_down c (reg c x)).
Proof.
  intros Hwf Hv. pose proof (reg_u8 c x Hwf) as Hb. unfold is_u8 in Hb.
  exists (2 ^ reg c x). unfold key_flag, key_down.
  destruct (Z.ltb_spec (reg c x) 0); [lia|].
  split; [apply KeyFlags_lookup; lia|].
  rewrite land_pow2 by lia.
  destruct (Z.testbit (Keyboard c) (reg c x)); [|reflexivity].
  apply Z.eqb_neq. apply Z.pow_nonzero; lia.
Qed.

End Masks.

(** RND VX,NN (CXNN): VX receives the low byte of the random number masked
    with NN: no bit that is clear in NN is ever set in VX, and VX is at most
    NN; nothing changes but VX, the program counter and the timers. *)
Theorem RND_masks (env : Env) (c : Chip8) (b0 b1 : Z) :
  runs c Rnd b0 b1 →
  ∃ c' evs, Tick env c = (Done, c', evs)
    ∧ reg c' (opX b0) = Z.land (random env mod 256) b1
    ∧ Z.land (reg c' (opX b0)) b1 = reg c' (opX b0)
    ∧ 0 <= reg c' (opX b0) <= b1
    ∧ (∀ r, 0 <= r < 16 → r ≠ opX b0 → reg c' r = reg c r)
    ∧ same_but_timers (set_V (V c') (set_PC (PC c + 2) c)) c'.
Proof.
  intros Hr.
  destruct (runs_facts c _ b0 b1 Hr) as (Hwf & _ & H1 & _ & _ & _ & Hwf0).
  pose proof (opX_range b0) as HX.
  edestruct (runs_Next env c _ b0 b1 Hr) as (c' & beeps & HT & B & _).
  { rewrite (runs_arm env c _ b0 b1 Hr). reflexivity. }
  exists c'. eexists. split; [exact HT|].
  assert (HV : reg c' (opX b0) = Z.land (random env mod 256) b1).
  { rewrite (reg_same_but_timers _ _ _ B). now apply reg_eq. }
  unfold is_u8 in H1.
  split; [exact HV|]. rewrite HV. split; [|split; [|split]].
  - now rewrite <- Z.land_assoc, Z.land_diag.
  - split; [apply Z.land_nonneg; lia | apply land_le_r; lia].
  - intros r Hr16 HrX. rewrite (reg_same_but_timers _ _ _ B).
    now rewrite reg_set_reg_ne by lia.
  - destruct B. constructor;
      cbn [Memory V I Stack SP PC Keyboard Screen Width Height TimerInterval
           wii pLdMemory pLdSetMemory pShr pShl set_V set_PC set_reg] in *;
      congruence.
Qed.

(** The theorem at work: the random number 0x1234ABCD under the mask
    0x0F. *)
Lemma RND_masks_witness :
  let c := machine DefaultSettings [0xC1; 0x0F] in
  let env := {| now := 1000; random := 0x1234ABCD |} in
  runs c Rnd 0xC1 0x0F
  ∧ ∃ c' evs, Tick env c = (Done, c', evs) ∧ reg c' 1 = 0x0D.
Proof.
  intros c env.
  assert (Hr : runs c Rnd 0xC1 0x0F).
  { split; [|repeat split; vm_compute; reflexivity].
    apply wf_machine_default; [reflexivity | cbn; lia]. }
  split; [exact Hr|].
  destruct (RND_masks env c _ _ Hr) as (c' & evs & HT & HX & _).
  exists c', evs. split; [exact HT | exact HX].
Defined.

(** SKP VX (EX9E) and SKNP VX (EXA1), with a key number in VX: the program
    counter ends four further (modulo 2^16) when the key whose number is in
    VX is down, for SKP, or up, for SKNP, and two further otherwise; nothing
    else changes but the timers. *)
Theorem SKP_SKNP_test_the_key (env : Env) (c : Chip8) (k : Kind) (b0 b1 : Z) :
  runs c k b0 b1 → k = Skp ∨ k = Sknp →
  reg c (opX b0) <= 0xF →
  let down := key_down c (reg c (opX b0)) in
  let skip := match k with Skp => down | _ => negb down end in
  ∃ c' evs, Tick env c = (Done, c', evs)
    ∧ PC c' = (PC c + if skip then 4 else 2) mod 65536
    ∧ same_but_timers (set_PC (PC c') c) c'.
Proof.
  intros Hr Hk Hv down skip.
  destruct (runs_facts c _ b0 b1 Hr) as (Hwf & _ & _ & _ & _ & Hu & Hwf0).
  destruct (key_flag_test (set_PC (PC c + 2) c) (opX b0) Hwf0 Hv)
    as (f & Hf & Hz).
  change (key_down (set_PC (PC c + 2) c) (reg (set_PC (PC c + 2) c) (opX b0)))
    with down in Hz.
  change (Keyboard (set_PC (PC c + 2) c)) with (Keyboard c) in Hz.
  assert (Hex : exec env (PC c) b0 b1 (set_PC (PC c + 2) c)
                = Next (skip_if skip (set_PC (PC c + 2) c)) []).
  { rewrite (runs_arm env c _ b0 b1 Hr).
    destruct Hk as [-> | ->]; unfold exec_Skp, exec_Sknp; rewrite Hf;
      cbn [Keyboard set_PC]; rewrite Hz; unfold skip;
      now rewrite ?negb_involutive. }
  destruct (runs_Next env c _ b0 b1 Hr _ _ Hex) as (c' & beeps & HT & B & _).
  exists c'. eexists. split; [exact HT|].
  assert (HPC : PC c' = (PC c + (if skip then 4 else 2)) mod 65536).
  { rewrite (bt_PC _ _ B). unfold skip_if.
    destruct skip; cbn [PC set_PC].
    - unfold u16. f_equal. lia.
    - exact (eq_sym Hu). }
  split; [exact HPC|].
  destruct B. constructor; unfold skip_if in *; destruct skip;
    cbn [Memory V I Stack SP PC Keyboard Screen Width Height TimerInterval
         wii pLdMemory pLdSetMemory pShr pShl set_V set_PC set_reg] in *;
    congruence.
Qed.

(** The theorem at work: [SKP V0] with V0 = 0 while key 0 is down. *)
Lemma SKP_SKNP_test_the_key_witness :
  let c := set_Keyboard 1 (machine DefaultSettings [0xE0; 0x9E]) in
  runs c Skp 0xE0 0x9E ∧ reg c (opX 0xE0) <= 0xF
  ∧ ∃ c' evs, Tick (at_time 1000) c = (Done, c', evs) ∧ PC c' = 0x204.
Proof.
  intros c.
  assert (Hr : runs c Skp 0xE0 0x9E).
  { split; [|repeat split; vm_compute; reflexivity].
    apply wf_set_Keyboard; [|unfold is_u16; lia].
    apply wf_machine_default; [reflexivity | cbn; lia]. }
  assert (Hv : reg c (opX 0xE0) <= 0xF) by (vm_compute; discriminate).
  split; [exact Hr|]. split; [exact Hv|].
  destruct (SKP_SKNP_test_the_key (at_time 1000) c _ _ _ Hr (or_introl eq_refl)
              Hv) as (c' & evs & HT & HPC & _).
  exists c', evs. split; [exact HT | exact HPC].
Defined.

(** LD VX,K (FX0A) records the wait with the keys that are up at that time.
    From then on a cycle that finds no key down but keys that were down
    when the instruction ran returns at once and leaves the machine as it
    is: a key held since before the instruction does not end the wait. *)
Theorem LD_VX_K_ignores_held_keys (env : Env) (c : Chip8) (b0 b1 : Z) :
  runs c LdKeyboard b0 b1 →
  ∃ c' evs, Tick env c = (Done, c', evs)
    ∧ wii c' = Some {| register := opX b0;
                       zeroBits := 0xFFFF - Keyboard c |}
    ∧ same_but_timers (set_wii (wii c') (set_PC (PC c + 2) c)) c'
    ∧ ∀ env' keys,
        is_u16 keys →
        (∀ n, 0 <= n < 16 → Z.testbit keys n = true → key_down c n = true) →
        Tick env' (set_Keyboard keys c')
        = (Done, set_Keyboard keys c', [EvOnUpdate]).
Proof.
  intros Hr.
  destruct (runs_facts c _ b0 b1 Hr) as (Hwf & _).
  edestruct (runs_Next env c _ b0 b1 Hr) as (c' & beeps & HT & B & _).
  { rewrite (runs_arm env c _ b0 b1 Hr). reflexivity. }
  exists c'. eexists. split; [exact HT|].
  pose proof (wf_Keyboard c Hwf) as HK. unfold is_u16 in HK.
  assert (Hnot : not16 (Keyboard c) = 0xFFFF - Keyboard c).
  { unfold not16. change 65535 with (Z.ones 16).
    rewrite <- Z.ldiff_ones_l_low.
    - rewrite Z.sub_nocarry_ldiff; [reflexivity|].
      apply Z.bits_inj'. intros n Hn.
      rewrite Z.ldiff_spec, Z.bits_0.
      destruct (Z.ltb_spec n 16).
      + rewrite Z.ones_spec_low by lia.
        destruct (Z.testbit (Keyboard c) n); reflexivity.
      + replace (Z.testbit (Keyboard c) n) with false; [reflexivity|].
        symmetry. apply (proj1 (below_pow2_bits _ 16 ltac:(lia))); lia.
    - lia.
    - destruct (Z.eq_dec (Keyboard c) 0) as [->|]; [cbn; lia|].
      apply Z.log2_lt_pow2; lia. }
  assert (Hw : wii c' = Some {| register := opX b0;
                                zeroBits := 0xFFFF - Keyboard c |}).
  { rewrite (bt_wii _ _ B). cbn [wii set_wii Keyboard set_PC].
    now rewrite Hnot. }
  split; [exact Hw|]. split.
  - rewrite Hw, <- Hnot. destruct B. constructor;
      cbn [Memory V I Stack SP PC Keyboard Screen Width Height TimerInterval
           wii pLdMemory pLdSetMemory pShr pShl set_V set_PC set_wii] in *;
      congruence.
  - intros env' keys Hkeys Hheld.
    apply (Tick_waiting env' (set_Keyboard keys c')
             {| register := opX b0; zeroBits := 0xFFFF - Keyboard c |});
      [exact Hw|].
    cbn [Keyboard zeroBits set_Keyboard].
    rewrite <- Hnot. unfold not16.
    apply Z.bits_inj'. intros n Hn.
    rewrite Z.land_spec, Z.lxor_spec, Z.bits_0.
    destruct (Z.ltb_spec n 16).
    + specialize (Hheld n ltac:(lia)). unfold key_down in Hheld.
      destruct (Z.testbit keys n); [|reflexivity].
      rewrite Hheld by reflexivity.
      change 65535 with (Z.ones 16). now rewrite Z.ones_spec_low by lia.
    + replace (Z.testbit keys n) with false; [reflexivity|].
      symmetry. apply (proj1 (below_pow2_bits _ 16 ltac:(lia))); [|lia].
      exact Hkeys.
Qed.

(** The theorem at work: key 3 is down when [LD V1,K] runs and stays down
    alone. *)
Lemma LD_VX_K_ignores_held_keys_witness :
  let c := set_Keyboard 8 (machine DefaultSettings [0xF1; 0x0A]) in
  runs c LdKeyboard 0xF1 0x0A
  ∧ ∃ c' evs, Tick (at_time 1000) c = (Done, c', evs)
              ∧ Tick (at_time 2000) (set_Keyboard 8 c')
                = (Done, set_Keyboard 8 c', [EvOnUpdate]).
Proof.
  intros c.
  assert (Hr : runs c LdKeyboard 0xF1 0x0A).
  { split; [|repeat split; vm_compute; reflexivity].
    apply wf_set_Keyboard; [|unfold is_u16; lia].
    apply wf_machine_default; [reflexivity | cbn; lia]. }
  split; [exact Hr|].
  destruct (LD_VX_K_ignores_held_keys (at_time 1000) c _ _ Hr)
    as (c' & evs & HT & _ & _ & Hheld).
  exists c', evs. split; [exact HT|].
  apply Hheld; [unfold is_u16; lia|].
  intros n Hn Hbit.
  assert (Hc : n = 0 ∨ n = 1 ∨ n = 2 ∨ n = 3 ∨ n = 4 ∨ n = 5 ∨ n = 6 ∨ n = 7
               ∨ n = 8 ∨ n = 9 ∨ n = 10 ∨ n = 11 ∨ n = 12 ∨ n = 13
               ∨ n = 14 ∨ n = 15) by lia.
  repeat (destruct Hc as [-> | Hc]; [first [discriminate Hbit | reflexivity]|]).
  subst. discriminate Hbit.
Defined.

(** ** The instructions that write the memory *)

Section MemoryStores.

Lemma mem_store_spec (a v : Z) (c c' : Chip8) :
  mem_store a v c = Some c' →
  c' = set_Memory (Memory c') c
  ∧ length (Memory c') = length (Memory c)
  ∧ mem_at c' a = Some v
  ∧ (∀ a', a' ≠ a → mem_at c' a' = mem_at c a').
Proof.
  unfold mem_store.
  destruct (Z.leb_spec 0 a); [|discriminate].
  destruct (Z.ltb_spec a (Z.of_nat (length (Memory c)))); [|discriminate].
  cbn [andb]. intros [= <-]. cbn [Memory set_Memory].
  split; [reflexivity|]. split; [apply length_insert|].
  unfold mem_at. cbn [Memory set_Memory]. split.
  - destruct (Z.ltb_spec a 0); [lia|].
    apply list_lookup_insert_eq. lia.
  - intros a' Hne. destruct (Z.ltb_spec a' 0); [reflexivity|].
    apply list_lookup_insert_ne. lia.
Qed.

Lemma mem_at_set_I (c : Chip8) (i a : Z) : mem_at (set_I i c) a = mem_at c a.
Proof. reflexivity. Qed.

Lemma mem_at_set_reg (c : Chip8) (r v a : Z) :
  mem_at (set_reg r v c) a = mem_at c a.
Proof. reflexivity. Qed.

(** The loop of [ldSetMemory]: the registers from [i] on go to the memory
    from the address [base] of this turn on, and nothing else is written. *)
Lemma ldSetMemory_spec (key : bool) (n : nat) :
  ∀ (i : Z) (d : Chip8) (base : Z),
    wf d → 0 <= i → base = closure_address key i d →
    base + Z.of_nat n <= Z.of_nat (length (Memory d)) →
    ∃ d', ldSetMemory key n i d = Some d' ∧ wf d'
          ∧ d' = set_I (I d') (set_Memory (Memory d') d)
          ∧ I d' = (if key then I d + Z.of_nat n else I d)
          ∧ length (Memory d') = length (Memory d)
          ∧ (∀ j, 0 <= j < Z.of_nat n →
                  mem_at d' (base + j) = Some (reg d (i + j)))
          ∧ (∀ a, a < base ∨ base + Z.of_nat n <= a →
                  mem_at d' a = mem_at d a).
Proof.
  induction n as [|n IH]; intros i d base Hd Hi Hb Hn; cbn [ldSetMemory].
  - exists d. split; [reflexivity|]. split; [exact Hd|].
    split; [now destruct d|]. split; [destruct key; lia|].
    split; [reflexivity|]. split; [lia | reflexivity].
  - pose proof (wf_I d Hd) as HI. pose proof (wf_MemorySize d Hd) as Hsz.
    unfold is_u16 in HI. unfold closure_address in Hb.
    assert (Hbase : 0 <= base) by (destruct key; lia).
    destruct (mem_store_Some d base (reg d i)) as [d1 H1]; [lia|].
    destruct (mem_store_spec _ _ _ _ H1) as (E1 & L1 & A1 & O1).
    assert (Hd1 : wf d1) by exact (wf_mem_store _ _ _ _ Hd (reg_u8 _ _ Hd) H1).
    assert (HV1 : V d1 = V d) by (rewrite E1; reflexivity).
    assert (HI1 : I d1 = I d) by (rewrite E1; reflexivity).
    assert (Hreg : ∀ d2 j, V d2 = V d → reg d2 (i + 1 + (j - 1)) = reg d (i + j)).
    { intros d2 j HV. unfold reg. rewrite HV. do 2 f_equal. lia. }
    destruct key.
    + assert (Hb' : I d = base) by lia. rewrite Hb', H1, HI1, Hb'.
      rewrite (u16_small (base + 1)) by (unfold is_u16; lia).
      destruct (IH (i + 1) (set_I (base + 1) d1) (base + 1))
        as (d' & Hl & Hd' & E' & I' & L' & A' & O').
      { apply wf_set_I; [exact Hd1 | unfold is_u16; lia]. }
      { lia. }
      { unfold closure_address. cbn [I set_I]. lia. }
      { cbn [Memory set_I]. rewrite L1. lia. }
      cbn [I set_I Memory] in *.
      exists d'. split; [exact Hl|]. split; [exact Hd'|].
      split; [|split; [|split; [|split]]].
      * rewrite E' at 1. rewrite E1. now destruct d.
      * rewrite I'. lia.
      * congruence.
      * intros j Hj. destruct (Z.eq_dec j 0) as [->|Hj0].
        -- rewrite O' by lia. rewrite mem_at_set_I, !Z.add_0_r. exact A1.
        -- replace (base + j) with (base + 1 + (j - 1)) by lia.
           rewrite A' by lia. f_equal. now apply Hreg.
      * intros a Ha. rewrite O' by lia. rewrite mem_at_set_I. apply O1. lia.
    + assert (Hb' : I d + i = base) by lia. rewrite Hb'.
      rewrite (u16_small base) by (unfold is_u16; lia). rewrite H1.
      destruct (IH (i + 1) d1 (base + 1))
        as (d' & Hl & Hd' & E' & I' & L' & A' & O').
      { exact Hd1. }
      { lia. }
      { unfold closure_address. rewrite HI1. lia. }
      { rewrite L1. lia. }
      exists d'. split; [exact Hl|]. split; [exact Hd'|].
      split; [|split; [|split; [|split]]].
      * rewrite E' at 1. rewrite E1. now destruct d.
      * congruence.
      * congruence.
      * intros j Hj. destruct (Z.eq_dec j 0) as [->|Hj0].
        -- rewrite O' by lia. rewrite !Z.add_0_r. exact A1.
        -- replace (base + j) with (base + 1 + (j - 1)) by lia.
           rewrite A' by lia. f_equal. now apply Hreg.
      * intros a Ha. rewrite O' by lia. apply O1. lia.
Qed.

(** The loop of [ldMemory]: the registers from [i] on receive the memory
    from the address [base] of this turn on, and no other register is
    written. *)
Lemma ldMemory_spec (key : bool) (n : nat) :
  ∀ (i : Z) (d : Chip8) (base : Z),
    wf d → 0 <= i → i + Z.of_nat n <= 16 →
    base = closure_address key i d →
    base + Z.of_nat n <= Z.of_nat (length (Memory d)) →
    ∃ d', ldMemory key n i d = Some d' ∧ wf d'
          ∧ d' = set_I (I d') (set_V (V d') d)
          ∧ I d' = (if key then I d + Z.of_nat n else I d)
          ∧ (∀ j, 0 <= j < Z.of_nat n →
                  mem_at d (base + j) = Some (reg d' (i + j)))
          ∧ (∀ r, 0 <= r → r < i ∨ i + Z.of_nat n <= r →
                  reg d' r = reg d r).
Proof.
  induction n as [|n IH]; intros i d base Hd Hi Hn16 Hb Hn; cbn [ldMemory].
  - exists d. split; [reflexivity|]. split; [exact Hd|].
    split; [now destruct d|]. split; [destruct key; lia|].
    split; [lia | reflexivity].
  - pose proof (wf_I d Hd) as HI. pose proof (wf_MemorySize d Hd) as Hsz.
    unfold is_u16 in HI. unfold closure_address in Hb.
    assert (Hbase : 0 <= base) by (destruct key; lia).
    destruct (mem_at_Some d base) as [x Hx]; [lia|].
    assert (Hd1 : wf (set_reg i x d))
      by (apply wf_set_reg; [exact Hd | eapply mem_at_u8; eauto]).
    assert (Hri : reg (set_reg i x d) i = x)
      by (apply reg_set_reg_eq; rewrite (wf_V16 d Hd); lia).
    destruct key.
    + assert (Hb' : I d = base) by lia. rewrite Hb', Hx.
      change (I (set_reg i x d)) with (I d). rewrite ?Hb'.
      rewrite (u16_small (base + 1)) by (unfold is_u16; lia).
      destruct (IH (i + 1) (set_I (base + 1) (set_reg i x d)) (base + 1))
        as (d' & Hl & Hd' & E' & I' & A' & O').
      { apply wf_set_I; [exact Hd1 | unfold is_u16; lia]. }
      { lia. }
      { lia. }
      { unfold closure_address. cbn [I set_I]. lia. }
      { cbn [Memory set_I set_reg set_V]. lia. }
      cbn [I set_I] in I'.
      exists d'. split; [exact Hl|]. split; [exact Hd'|].
      split; [|split; [|split]].
      * rewrite E' at 1. now destruct d.
      * rewrite I'. lia.
      * intros j Hj. destruct (Z.eq_dec j 0) as [->|Hj0].
        -- rewrite O' by lia. rewrite !Z.add_0_r, Hx. f_equal.
           symmetry. exact Hri.
        -- replace (i + j) with (i + 1 + (j - 1)) by lia.
           rewrite <- A' by lia. rewrite mem_at_set_I, mem_at_set_reg.
           f_equal. lia.
      * intros r Hr0 Hr. rewrite O' by lia.
        change (reg (set_I (base + 1) (set_reg i x d)) r)
          with (reg (set_reg i x d) r).
        apply reg_set_reg_ne; lia.
    + assert (Hb' : I d + i = base) by lia. rewrite Hb'.
      rewrite (u16_small base) by (unfold is_u16; lia). rewrite Hx.
      destruct (IH (i + 1) (set_reg i x d) (base + 1))
        as (d' & Hl & Hd' & E' & I' & A' & O').
      { exact Hd1. }
      { lia. }
      { lia. }
      { unfold closure_address. cbn [I set_reg set_V]. lia. }
      { cbn [Memory set_reg set_V]. lia. }
      cbn [I set_reg set_V] in I'.
      exists d'. split; [exact Hl|]. split; [exact Hd'|].
      split; [|split; [|split]].
      * rewrite E' at 1. now destruct d.
      * exact I'.
      * intros j Hj. destruct (Z.eq_dec j 0) as [->|Hj0].
        -- rewrite O' by lia. rewrite !Z.add_0_r, Hx. f_equal.
           symmetry. exact Hri.
        -- replace (i + j) with (i + 1 + (j - 1)) by lia.
           rewrite <- A' by lia. rewrite mem_at_set_reg.
           f_equal. lia.
      * intros r Hr0 Hr. rewrite O' by lia. apply reg_set_reg_ne; lia.
Qed.

End MemoryStores.

(** From what an arm changes to what the cycle changes: [E] says which
    fields of [c1] differ from those of the machine before the arm, [B] that
    the timers did the rest. *)
Ltac cycle_frame E B :=
  let go f :=
    (let H := fresh in
     pose proof (f_equal f E) as H;
     cbn [Memory V I Stack SP PC DT ST Keyboard Screen Width Height
          TimerInterval lastTimerUpdate wii pLdMemory pLdSetMemory pShr pShl
          set_Memory set_V set_I set_Stack set_SP set_PC set_Screen set_wii]
       in H) in
  go Memory; go V; go I; go Stack; go SP; go PC; go Keyboard; go Screen;
  go Width; go Height; go TimerInterval; go wii; go pLdMemory;
  go pLdSetMemory; go pShr; go pShl;
  destruct B; constructor;
  cbn [Memory V I Stack SP PC DT ST Keyboard Screen Width Height
       TimerInterval lastTimerUpdate wii pLdMemory pLdSetMemory pShr pShl
       set_Memory set_V set_I set_Stack set_SP set_PC set_Screen set_wii];
  congruence.

Section MemoryCycles.

Variable env : Env.
Variable c : Chip8.
Variables b0 b1 : Z.

(** The two checks of FX55 and FX65 on a well-formed machine. *)
Lemma closure_checks (x : Z) :
  wf c → 0 <= x < 16 →
  (u16 (0xFFFF - I (set_PC (PC c + 2) c)) <? x) = (0xFFFF <? I c + x)
  ∧ ((I (set_PC (PC c + 2) c) + x
        >=? Z.of_nat (length (Memory (set_PC (PC c + 2) c))))
     || (I (set_PC (PC c + 2) c) <? 0x200))
    = ((Z.of_nat (length (Memory c)) <=? I c + x) || (I c <? 0x200)).
Proof.
  intros Hwf Hx. pose proof (wf_I c Hwf) as HI. unfold is_u16 in HI.
  cbn [I Memory set_PC]. split.
  - rewrite u16_small by (unfold is_u16; lia).
    destruct (Z.ltb_spec (65535 - I c) x), (Z.ltb_spec 65535 (I c + x));
      reflexivity || lia.
  - f_equal.
    destruct (Z.geb_spec (I c + x) (Z.of_nat (length (Memory c)))),
             (Z.leb_spec (Z.of_nat (length (Memory c))) (I c + x));
      reflexivity || lia.
Qed.

(** LD [I],VX in a cycle. *)
Lemma Tick_LdSetMemory :
  runs c LdSetMemory b0 b1 →
  if 0xFFFF <? I c + opX b0
  then Tick env c = (Failed OverflowErr, set_PC (PC c + 2) c, [EvOnUpdate])
  else if (Z.of_nat (length (Memory c)) <=? I c + opX b0) || (I c <? 0x200)
  then Tick env c = (Failed AccessErr, set_PC (PC c + 2) c, [EvOnUpdate])
  else
    ∃ c' evs, Tick env c = (Done, c', evs)
      ∧ (∀ j, 0 <= j <= opX b0 → mem_at c' (I c + j) = Some (reg c j))
      ∧ (∀ a, a < I c ∨ I c + opX b0 < a → mem_at c' a = mem_at c a)
      ∧ I c' = (if pLdSetMemory c then I c + opX b0 + 1 else I c)
      ∧ same_but_timers
          (set_I (I c') (set_Memory (Memory c') (set_PC (PC c + 2) c))) c'.
Proof.
  intros Hr.
  destruct (runs_facts c _ b0 b1 Hr) as (Hwf & _ & _ & _ & _ & _ & Hwf0).
  pose proof (opX_range b0) as HX.
  destruct (closure_checks (opX b0) Hwf HX) as [K1 K2].
  pose proof (runs_arm env c _ b0 b1 Hr) as Harm.
  unfold exec_LdSetMemory in Harm. cbv zeta in Harm.
  destruct (0xFFFF <? I c + opX b0) eqn:E1.
  { apply (runs_Stop env c _ b0 b1 Hr). rewrite Harm. now rewrite K1. }
  destruct ((Z.of_nat (length (Memory c)) <=? I c + opX b0) || (I c <? 0x200))
    eqn:E2.
  { apply (runs_Stop env c _ b0 b1 Hr). rewrite Harm. now rewrite K1, K2. }
  apply orb_false_iff in E2 as [E2 E3].
  apply Z.leb_gt in E2. apply Z.ltb_ge in E3.
  destruct (ldSetMemory_spec (pLdSetMemory c) (Z.to_nat (opX b0 + 1)) 0
              (set_PC (PC c + 2) c) (I c) Hwf0)
    as (c1 & Hl & Hwf1 & E & HI & HL & HA & HO).
  { lia. }
  { unfold closure_address. cbn [I set_PC]. destruct (pLdSetMemory c); lia. }
  { cbn [Memory set_PC]. lia. }
  edestruct (runs_Next env c _ b0 b1 Hr) as (c' & beeps & HT & B & _).
  { rewrite Harm, K1, K2.
    change (pLdSetMemory (set_PC (PC c + 2) c)) with (pLdSetMemory c).
    rewrite Hl. reflexivity. }
  exists c'. eexists. split; [exact HT|].
  assert (HM : Memory c' = Memory c1) by apply (bt_Memory _ _ B).
  assert (Hmem : ∀ a, mem_at c' a = mem_at c1 a)
    by (intros a; unfold mem_at; now rewrite HM).
  split; [|split; [|split]].
  - intros j Hj. rewrite Hmem, HA by lia. reflexivity.
  - intros a Ha. rewrite Hmem, HO by lia. reflexivity.
  - rewrite (bt_I _ _ B), HI. cbn [I set_PC].
    destruct (pLdSetMemory c); lia.
  - rewrite (bt_I _ _ B), HM. cycle_frame E B.
Qed.

(** LD VX,[I] in a cycle. *)
Lemma Tick_LdMemory :
  runs c LdMemory b0 b1 →
  if 0xFFFF <? I c + opX b0
  then Tick env c = (Failed OverflowErr, set_PC (PC c + 2) c, [EvOnUpdate])
  else if (Z.of_nat (length (Memory c)) <=? I c + opX b0) || (I c <? 0x200)
  then Tick env c = (Failed AccessErr, set_PC (PC c + 2) c, [EvOnUpdate])
  else
    ∃ c' evs, Tick env c = (Done, c', evs)
      ∧ (∀ j, 0 <= j <= opX b0 → mem_at c (I c + j) = Some (reg c' j))
      ∧ (∀ r, opX b0 < r → reg c' r = reg c r)
      ∧ I c' = (if pLdMemory c then I c + opX b0 + 1 else I c)
      ∧ same_but_timers
          (set_I (I c') (set_V (V c') (set_PC (PC c + 2) c))) c'.
Proof.
  intros Hr.
  destruct (runs_facts c _ b0 b1 Hr) as (Hwf & _ & _ & _ & _ & _ & Hwf0).
  pose proof (opX_range b0) as HX.
  destruct (closure_checks (opX b0) Hwf HX) as [K1 K2].
  pose proof (runs_arm env c _ b0 b1 Hr) as Harm.
  unfold exec_LdMemory in Harm. cbv zeta in Harm.
  destruct (0xFFFF <? I c + opX b0) eqn:E1.
  { apply (runs_Stop env c _ b0 b1 Hr). rewrite Harm. now rewrite K1. }
  destruct ((Z.of_nat (length (Memory c)) <=? I c + opX b0) || (I c <? 0x200))
    eqn:E2.
  { apply (runs_Stop env c _ b0 b1 Hr). rewrite Harm. now rewrite K1, K2. }
  apply orb_false_iff in E2 as [E2 E3].
  apply Z.leb_gt in E2. apply Z.ltb_ge in E3.
  destruct (ldMemory_spec (pLdMemory c) (Z.to_nat (opX b0 + 1)) 0
              (set_PC (PC c + 2) c) (I c) Hwf0)
    as (c1 & Hl & Hwf1 & E & HI & HA & HO).
  { lia. }
  { lia. }
  { unfold closure_address. cbn [I set_PC]. destruct (pLdMemory c); lia. }
  { cbn [Memory set_PC]. lia. }
  edestruct (runs_Next env c _ b0 b1 Hr) as (c' & beeps & HT & B & _).
  { rewrite Harm, K1, K2.
    change (pLdMemory (set_PC (PC c + 2) c)) with (pLdMemory c).
    rewrite Hl. reflexivity. }
  exists c'. eexists. split; [exact HT|].
  split; [|split; [|split]].
  - intros j Hj. rewrite (reg_same_but_timers _ _ _ B).
    exact (HA j ltac:(lia)).
  - intros r Hr16. rewrite (reg_same_but_timers _ _ _ B).
    exact (HO r ltac:(lia) ltac:(lia)).
  - rewrite (bt_I _ _ B), HI. cbn [I set_PC].
    destruct (pLdMemory c); lia.
  - rewrite (bt_I _ _ B), (bt_V _ _ B). cycle_frame E B.
Qed.

End MemoryCycles.

(** LD [I],VX (FX55).  With I + X above 0xFFFF the cycle returns
    [OverflowErr]; otherwise, with I + X outside the memory or I below
    0x200, it returns [AccessErr]; in both cases only the program counter
    has moved.  Otherwise the cycle returns [nil], the registers V0 to VX
    lie in the memory from I on, no other byte of the memory has changed,
    and I is as before, or X + 1 further with the legacy closure; nothing
    else changes but the program counter and the timers. *)
Theorem LD_I_VX_stores (env : Env) (c : Chip8) (b0 b1 : Z) :
  runs c LdSetMemory b0 b1 →
  if 0xFFFF <? I c + opX b0
  then Tick env c = (Failed OverflowErr, set_PC (PC c + 2) c, [EvOnUpdate])
  else if (Z.of_nat (length (Memory c)) <=? I c + opX b0) || (I c <? 0x200)
  then Tick env c = (Failed AccessErr, set_PC (PC c + 2) c, [EvOnUpdate])
  else
    ∃ c' evs, Tick env c = (Done, c', evs)
      ∧ (∀ j, 0 <= j <= opX b0 → mem_at c' (I c + j) = Some (reg c j))
      ∧ (∀ a, a < I c ∨ I c + opX b0 < a → mem_at c' a = mem_at c a)
      ∧ I c' = (if pLdSetMemory c then I c + opX b0 + 1 else I c)
      ∧ same_but_timers
          (set_I (I c') (set_Memory (Memory c') (set_PC (PC c + 2) c))) c'.
Proof. exact (Tick_LdSetMemory env c b0 b1). Qed.

(** The theorem at work: V0 = 7 and V1 = 9 stored at 0x300. *)
Lemma LD_I_VX_stores_witness :
  let c := set_I 0x300
             (set_reg 1 9 (set_reg 0 7
                (machine DefaultSettings [0xF1; 0x55]))) in
  runs c LdSetMemory 0xF1 0x55
  ∧ ∃ c' evs, Tick (at_time 1000) c = (Done, c', evs)
              ∧ mem_at c' 0x300 = Some 7 ∧ mem_at c' 0x301 = Some 9
              ∧ I c' = 0x300.
Proof.
  intros c.
  assert (Hr : runs c LdSetMemory 0xF1 0x55).
  { split; [|repeat split; vm_compute; reflexivity].
    apply wf_set_I; [|unfold is_u16; lia].
    repeat apply wf_set_reg;
      [apply wf_machine_default; [reflexivity | cbn; lia] | ..];
      unfold is_u8; lia. }
  split; [exact Hr|].
  pose proof (LD_I_VX_stores (at_time 1000) c _ _ Hr) as H.
  assert (E1 : (0xFFFF <? I c + opX 0xF1) = false) by reflexivity.
  assert (E2 : (Z.of_nat (length (Memory c)) <=? I c + opX 0xF1)
               || (I c <? 0x200) = false) by reflexivity.
  rewrite E1, E2 in H. destruct H as (c' & evs & HT & HA & _ & HI & _).
  exists c', evs. split; [exact HT|].
  split; [exact (HA 0 ltac:(vm_compute; split; discriminate))|].
  split; [exact (HA 1 ltac:(vm_compute; split; discriminate)) | exact HI].
Defined.

(** LD VX,[I] (FX65).  The checks and their errors are those of FX55.
    Otherwise the cycle returns [nil], the registers V0 to VX hold the
    bytes of the memory from I on, the registers above VX are as before,
    and I is as before, or X + 1 further with the legacy closure; nothing
    else changes but the program counter and the timers. *)
Theorem LD_VX_I_loads (env : Env) (c : Chip8) (b0 b1 : Z) :
  runs c LdMemory b0 b1 →
  if 0xFFFF <? I c + opX b0
  then Tick env c = (Failed OverflowErr, set_PC (PC c + 2) c, [EvOnUpdate])
  else if (Z.of_nat (length (Memory c)) <=? I c + opX b0) || (I c <? 0x200)
  then Tick env c = (Failed AccessErr, set_PC (PC c + 2) c, [EvOnUpdate])
  else
    ∃ c' evs, Tick env c = (Done, c', evs)
      ∧ (∀ j, 0 <= j <= opX b0 → mem_at c (I c + j) = Some (reg c' j))
      ∧ (∀ r, opX b0 < r → reg c' r = reg c r)
      ∧ I c' = (if pLdMemory c then I c + opX b0 + 1 else I c)
      ∧ same_but_timers
          (set_I (I c') (set_V (V c') (set_PC (PC c + 2) c))) c'.
Proof. exact (Tick_LdMemory env c b0 b1). Qed.

(** The theorem at work: V0 and V1 loaded from 0x200, where the program
    F1 65 itself lies. *)
Lemma LD_VX_I_loads_witness :
  let c := set_I 0x200 (machine DefaultSettings [0xF1; 0x65]) in
  runs c LdMemory 0xF1 0x65
  ∧ ∃ c' evs, Tick (at_time 1000) c = (Done, c', evs)
              ∧ reg c' 0 = 0xF1 ∧ reg c' 1 = 0x65.
Proof.
  intros c.
  assert (Hr : runs c LdMemory 0xF1 0x65).
  { split; [|repeat split; vm_compute; reflexivity].
    apply wf_set_I; [|unfold is_u16; lia].
    apply wf_machine_default; [reflexivity | cbn; lia]. }
  split; [exact Hr|].
  pose proof (LD_VX_I_loads (at_time 1000) c _ _ Hr) as H.
  assert (E1 : (0xFFFF <? I c + opX 0xF1) = false) by reflexivity.
  assert (E2 : (Z.of_nat (length (Memory c)) <=? I c + opX 0xF1)
               || (I c <? 0x200) = false) by reflexivity.
  rewrite E1, E2 in H. destruct H as (c' & evs & HT & HA & _).
  exists c', evs. split; [exact HT|].
  pose proof (HA 0 ltac:(vm_compute; split; discriminate)) as H0.
  pose proof (HA 1 ltac:(vm_compute; split; discriminate)) as H1.
  vm_compute in H0, H1. injection H0 as H0. injection H1 as H1.
  split; [exact (eq_sym H0) | exact (eq_sym H1)].
Defined.

(** What LD [I],VX has stored, LD VX,[I] with the same X reads back:
    whatever has happened to the registers in between, if I is again what
    it was at the store and the bytes stored are still in the memory, the
    load leaves in V0 to VX the values they had at the store. *)
Theorem store_then_load_restores_registers (env1 env2 : Env)
    (c c1 d : Chip8) (b0 b1 b0' b1' : Z) (evs1 : list Event) :
  runs c LdSetMemory b0 b1 → Tick env1 c = (Done, c1, evs1) →
  runs d LdMemory b0' b1' → opX b0' = opX b0 → I d = I c →
  (∀ j, 0 <= j <= opX b0 → mem_at d (I c + j) = mem_at c1 (I c + j)) →
  ∃ d' evs, Tick env2 d = (Done, d', evs)
            ∧ ∀ j, 0 <= j <= opX b0 → reg d' j = reg c j.
Proof.
  intros Hr HT Hr' HX HI Hsame.
  pose proof (opX_range b0) as Hx.
  pose proof (Tick_LdSetMemory env1 c b0 b1 Hr) as H.
  destruct (Z.ltb_spec 0xFFFF (I c + opX b0)) as [|E1];
    [rewrite H in HT; discriminate|].
  destruct ((Z.of_nat (length (Memory c)) <=? I c + opX b0) || (I c <? 0x200))
    eqn:E2; [rewrite H in HT; discriminate|].
  destruct H as (c' & evs & HT' & HA & _).
  rewrite HT in HT'. injection HT' as <- _.
  apply orb_false_iff in E2 as [_ E3]. apply Z.ltb_ge in E3.
  pose proof (Tick_LdMemory env2 d b0' b1' Hr') as H'.
  rewrite HX, HI in H'.
  destruct (Z.ltb_spec 0xFFFF (I c + opX b0)) as [|_]; [lia|].
  assert (Hlen : I c + opX b0 < Z.of_nat (length (Memory d))).
  { pose proof (Hsame (opX b0) ltac:(lia)) as Hs.
    rewrite (HA (opX b0)) in Hs by lia. unfold mem_at in Hs.
    destruct (I c + opX b0 <? 0); [discriminate|].
    apply lookup_lt_Some in Hs. lia. }
  destruct (Z.leb_spec (Z.of_nat (length (Memory d))) (I c + opX b0)); [lia|].
  destruct (Z.ltb_spec (I c) 0x200); [lia|]. cbn [orb] in H'.
  destruct H' as (d' & evs' & HT' & HA' & _).
  exists d', evs'. split; [exact HT'|].
  intros j Hj. specialize (HA' j Hj). rewrite Hsame, HA in HA' by lia.
  now injection HA'.
Qed.

(** The theorem at work: V0 = 7 and V1 = 9 are stored at 0x300, cleared,
    and loaded again. *)
Lemma store_then_load_restores_registers_witness :
  let c := set_I 0x300
             (set_reg 1 9 (set_reg 0 7
                (machine DefaultSettings [0xF1; 0x55; 0xF1; 0x65]))) in
  let c1 := snd (fst (Tick (at_time 1000) c)) in
  let d := set_reg 1 0 (set_reg 0 0 c1) in
  runs c LdSetMemory 0xF1 0x55 ∧ runs d LdMemory 0xF1 0x65
  ∧ reg d 0 = 0 ∧ reg d 1 = 0
  ∧ ∃ d' evs, Tick (at_time 2000) d = (Done, d', evs)
              ∧ reg d' 0 = 7 ∧ reg d' 1 = 9.
Proof.
  intros c c1 d.
  assert (Hwf : wf c).
  { apply wf_set_I; [|unfold is_u16; lia].
    repeat apply wf_set_reg;
      [apply wf_machine_default; [reflexivity | cbn; lia] | ..];
      unfold is_u8; lia. }
  assert (Hr : runs c LdSetMemory 0xF1 0x55)
    by (split; [exact Hwf | repeat split; vm_compute; reflexivity]).
  assert (HT : Tick (at_time 1000) c
               = (Done, c1, snd (Tick (at_time 1000) c)))
    by (vm_compute; reflexivity).
  assert (Hwf1 : wf c1)
    by (apply (wf_Tick _ _ _ _ _ Hwf HT); left; reflexivity).
  assert (Hr' : runs d LdMemory 0xF1 0x65).
  { split; [|repeat split; vm_compute; reflexivity].
    repeat apply wf_set_reg; [exact Hwf1 | ..]; unfold is_u8; lia. }
  split; [exact Hr|]. split; [exact Hr'|].
  split; [vm_compute; reflexivity|]. split; [vm_compute; reflexivity|].
  destruct (store_then_load_restores_registers (at_time 1000) (at_time 2000)
              c c1 d _ _ _ _ _ Hr HT Hr' eq_refl eq_refl)
    as (d' & evs & HT' & HV).
  { intros j Hj. reflexivity. }
  exists d', evs. split; [exact HT'|].
  split; [exact (HV 0 ltac:(vm_compute; split; discriminate))
         | exact (HV 1 ltac:(vm_compute; split; discriminate))].
Defined.

Section Decimal.

Lemma decimal_digits (v : Z) :
  is_u8 v →
  100 * hundreds v + 10 * tens v + ones v = v
  ∧ 0 <= hundreds v <= 2 ∧ 0 <= tens v <= 9 ∧ 0 <= ones v <= 9.
Proof.
  unfold is_u8, hundreds, tens, ones. intros Hv.
  pose proof (Z.div_mod v 10 ltac:(lia)).
  pose proof (Z.mod_pos_bound v 10 ltac:(lia)).
  pose proof (Z.div_mod (v / 10) 10 ltac:(lia)).
  pose proof (Z.mod_pos_bound (v / 10) 10 ltac:(lia)).
  assert (0 <= v / 10 / 10 <= 2).
  { split; [apply Z.div_pos; [apply Z.div_pos|]; lia|].
    apply Z.lt_succ_r, Z.div_lt_upper_bound; [lia|].
    apply Z.div_lt_upper_bound; lia. }
  lia.
Qed.

End Decimal.

(** LD [I],BCD VX (FX33).  With I + 2 outside the memory or I below 0x200
    the cycle returns [AccessErr] and only the program counter has moved.
    Otherwise it returns [nil] and the bytes at I, I + 1 and I + 2 are the
    hundreds, tens and ones digits of VX: each at most 9, the first at most
    2, and 100 h + 10 t + o = VX; no other byte of the memory changes, and
    nothing else but the program counter and the timers. *)
Theorem LD_BCD_digits (env : Env) (c : Chip8) (b0 b1 : Z) :
  runs c LdBcd b0 b1 →
  let v := reg c (opX b0) in
  if (Z.of_nat (length (Memory c)) <=? I c + 2) || (I c <? 0x200)
  then Tick env c = (Failed AccessErr, set_PC (PC c + 2) c, [EvOnUpdate])
  else
    ∃ c' evs, Tick env c = (Done, c', evs)
      ∧ mem_at c' (I c) = Some (hundreds v)
      ∧ mem_at c' (I c + 1) = Some (tens v)
      ∧ mem_at c' (I c + 2) = Some (ones v)
      ∧ 100 * hundreds v + 10 * tens v + ones v = v
      ∧ 0 <= hundreds v <= 2 ∧ 0 <= tens v <= 9 ∧ 0 <= ones v <= 9
      ∧ (∀ a, a < I c ∨ I c + 2 < a → mem_at c' a = mem_at c a)
      ∧ same_but_timers (set_Memory (Memory c') (set_PC (PC c + 2) c)) c'.
Proof.
  intros Hr v.
  destruct (runs_facts c _ b0 b1 Hr) as (Hwf & _ & _ & _ & _ & _ & Hwf0).
  pose proof (wf_I c Hwf) as HI. pose proof (wf_MemorySize c Hwf) as Hsz.
  unfold is_u16 in HI.
  assert (Harm : exec env (PC c) b0 b1 (set_PC (PC c + 2) c)
                 = exec_LdBcd b0 b1 (set_PC (PC c + 2) c))
    by (now rewrite (runs_arm env c _ b0 b1 Hr)).
  unfold exec_LdBcd in Harm. cbv zeta in Harm. cbn [I Memory set_PC] in Harm.
  change (reg (set_PC (PC c + 2) c) (opX b0)) with v in Harm.
  destruct (Z.geb_spec (I c + 2) (Z.of_nat (length (Memory c)))) as [G|G];
    destruct (Z.leb_spec (Z.of_nat (length (Memory c))) (I c + 2)); try lia;
    cbn [orb].
  { apply (runs_Stop env c _ b0 b1 Hr). now rewrite Harm. }
  destruct (Z.ltb_spec (I c) 0x200).
  { apply (runs_Stop env c _ b0 b1 Hr). now rewrite Harm. }
  cbn [orb] in Harm.
  rewrite (u16_small (I c + 2)) in Harm by (unfold is_u16; lia).
  destruct (mem_store_Some (set_PC (PC c + 2) c) (I c + 2) (ones v))
    as [c1 H1]; [cbn [Memory set_PC]; lia|].
  destruct (mem_store_spec _ _ _ _ H1) as (E1 & L1 & A1 & O1).
  assert (HI1 : I c1 = I c) by (rewrite E1; reflexivity).
  destruct (mem_store_Some c1 (I c + 1) (tens v)) as [c2 H2];
    [rewrite L1; cbn [Memory set_PC]; lia|].
  destruct (mem_store_spec _ _ _ _ H2) as (E2 & L2 & A2 & O2).
  assert (HI2 : I c2 = I c) by (rewrite E2; cbn [I set_Memory]; exact HI1).
  destruct (mem_store_Some c2 (I c) (hundreds v)) as [c3 H3];
    [rewrite L2, L1; cbn [Memory set_PC]; lia|].
  destruct (mem_store_spec _ _ _ _ H3) as (E3 & L3 & A3 & O3).
  unfold ones, tens, hundreds in H1, H2, H3.
  rewrite H1, HI1 in Harm.
  rewrite (u16_small (I c + 1)) in Harm by (unfold is_u16; lia).
  rewrite H2, HI2, H3 in Harm.
  destruct (runs_Next env c _ b0 b1 Hr _ _ Harm) as (c' & beeps & HT & B & _).
  exists c'. eexists. split; [exact HT|].
  assert (HM : Memory c' = Memory c3) by apply (bt_Memory _ _ B).
  assert (Hmem : ∀ a, mem_at c' a = mem_at c3 a)
    by (intros a; unfold mem_at; now rewrite HM).
  assert (E : c3 = set_Memory (Memory c3) (set_PC (PC c + 2) c)).
  { rewrite E3 at 1. rewrite E2, E1. reflexivity. }
  destruct (decimal_digits v (reg_u8 c _ Hwf)) as (D0 & D1 & D2 & D3).
  rewrite !Hmem.
  split; [exact A3|]. split; [rewrite O3 by lia; exact A2|].
  split; [rewrite O3, O2 by lia; exact A1|].
  split; [exact D0|]. split; [exact D1|]. split; [exact D2|].
  split; [exact D3|]. split.
  - intros a Ha. rewrite Hmem, O3, O2, O1 by lia. reflexivity.
  - rewrite HM. cycle_frame E B.
Qed.

(** The theorem at work: VX = 234 leaves 2, 3, 4 at I = 0x300. *)
Lemma LD_BCD_digits_witness :
  let c := set_I 0x300 (set_reg 1 234 (machine DefaultSettings [0xF1; 0x33])) in
  runs c LdBcd 0xF1 0x33
  ∧ ∃ c' evs, Tick (at_time 1000) c = (Done, c', evs)
              ∧ mem_at c' 0x300 = Some 2 ∧ mem_at c' 0x301 = Some 3
              ∧ mem_at c' 0x302 = Some 4.
Proof.
  intros c.
  assert (Hr : runs c LdBcd 0xF1 0x33).
  { split; [|repeat split; vm_compute; reflexivity].
    apply wf_set_I; [|unfold is_u16; lia].
    repeat apply wf_set_reg;
      [apply wf_machine_default; [reflexivity | cbn; lia] | ..];
      unfold is_u8; lia. }
  split; [exact Hr|].
  pose proof (LD_BCD_digits (at_time 1000) c _ _ Hr) as H. cbv zeta in H.
  assert (E : (Z.of_nat (length (Memory c)) <=? I c + 2) || (I c <? 0x200)
              = false) by reflexivity.
  rewrite E in H. destruct H as (c' & evs & HT & H0 & H1 & H2 & _).
  exists c', evs. split; [exact HT|].
  split; [exact H0|]. split; [exact H1 | exact H2].
Defined.

(** ** Clearing the screen *)

Section ClearScreen.

Lemma screen_store_eq (c c' : Chip8) (i v : Z) :
  screen_store i v c = Some c' →
  c' = set_Memory (Memory c') (set_Screen (Screen c') c).
Proof.
  unfold screen_store. destruct (_ && _); [|discriminate].
  destruct (Screen c) as [d | off n] eqn:Hs.
  - intros [= <-]. now destruct c.
  - destruct (_ <? _)%nat; [|discriminate]. intros [= <-].
    cbn [Screen Memory set_Memory]. rewrite Hs. destruct c.
    cbn in Hs. now subst.
Qed.

(** The loop of CLS: the bytes from [i] on are zero afterwards and the
    bytes before [i] are as they were. *)
Lemma cls_loop_spec (n : nat) :
  ∀ (i : Z) (d : Chip8),
    wf d → 0 <= i → i + Z.of_nat n <= screen_len d →
    ∃ d', cls_loop n i d = Some d' ∧ wf d'
          ∧ d' = set_Memory (Memory d') (set_Screen (Screen d') d)
          ∧ draw_frame d d' ∧ mem_outside d d'
          ∧ (∀ j : nat,
               screen_bytes d' !! j
               = if decide (i <= Z.of_nat j < i + Z.of_nat n)
                 then Some 0 else screen_bytes d !! j).
Proof.
  induction n as [|n IH]; intros i d Hd Hi Hn; cbn [cls_loop].
  - exists d. split; [reflexivity|]. split; [exact Hd|].
    split; [now destruct d|]. split; [apply draw_frame_refl|].
    split; [apply mem_outside_refl|].
    intros j. destruct (decide _); [lia | reflexivity].
  - destruct (screen_store_Some d i 0 Hd) as [d1 H1]; [lia|].
    rewrite H1.
    destruct (screen_store_facts _ _ _ _ H1) as (F1 & _ & M1 & S1).
    pose proof (screen_store_eq _ _ _ _ H1) as E1.
    assert (Hz : is_u8 0) by (unfold is_u8; lia).
    assert (Hd1 : wf d1) by exact (wf_screen_store _ _ _ _ Hd Hz H1).
    destruct (IH (i + 1) d1 Hd1) as (d' & Hl & Hd' & E' & F' & M' & S').
    { lia. }
    { rewrite (df_screen_len _ _ F1). lia. }
    exists d'. split; [exact Hl|]. split; [exact Hd'|].
    split; [|split; [|split]].
    + rewrite E' at 1. rewrite E1. now destruct d.
    + eapply draw_frame_trans; eauto.
    + exact (mem_outside_trans _ _ _ (df_window _ _ F1) M1 M').
    + intros j. rewrite S', S1.
      pose proof (screen_len_bytes d Hd) as HL.
      destruct (decide (i + 1 <= Z.of_nat j < i + 1 + Z.of_nat n)).
      * destruct (decide (i <= Z.of_nat j < i + Z.of_nat (S n)));
          [reflexivity | lia].
      * destruct (decide (Z.of_nat j = i)) as [Hj|Hj].
        -- destruct (decide (i <= Z.of_nat j < i + Z.of_nat (S n))); [|lia].
           replace j with (Z.to_nat i) by lia.
           apply list_lookup_insert_eq. lia.
        -- destruct (decide (i <= Z.of_nat j < i + Z.of_nat (S n))); [lia|].
           apply list_lookup_insert_ne. lia.
Qed.

End ClearScreen.

(** CLS (00E0): the cycle returns [nil] after the driver has been told to
    clear; every byte of the screen is zero, so every pixel is off; in
    realistic mode the memory outside the window of the screen is as
    before; nothing else changes but the program counter and the timers. *)
Theorem CLS_clears_the_screen (env : Env) (c : Chip8) (b0 b1 : Z) :
  runs c Sys b0 b1 → opNNN b0 b1 = 0x0E0 →
  ∃ c' beeps, Tick env c = (Done, c', [EvOnUpdate; EvCls] ++ beeps)
    ∧ screen_bytes c' = replicate (Z.to_nat (screen_len c)) 0
    ∧ (∀ px py, 0 <= px < Width c → 0 <= py < Height c →
                pixel c' px py = false)
    ∧ mem_outside c c'
    ∧ same_but_timers
        (set_Memory (Memory c') (set_Screen (Screen c') (set_PC (PC c + 2) c)))
        c'.
Proof.
  intros Hr Hnnn.
  destruct (runs_facts c _ b0 b1 Hr) as (Hwf & _ & _ & _ & _ & _ & Hwf0).
  pose proof (screen_dims c Hwf) as (_ & _ & _ & Hlen).
  assert (Hlen0 : 0 <= screen_len c).
  { unfold screen_len. destruct (Screen c); lia. }
  destruct (cls_loop_spec (Z.to_nat (screen_len c)) 0 (set_PC (PC c + 2) c)
              Hwf0) as (c1 & Hl & Hwf1 & E & F & M & S).
  { lia. }
  { change (screen_len (set_PC (PC c + 2) c)) with (screen_len c). lia. }
  assert (Hex : exec env (PC c) b0 b1 (set_PC (PC c + 2) c)
                = Next c1 [EvCls]).
  { rewrite (runs_arm env c _ b0 b1 Hr). unfold exec_Sys. rewrite Hnnn.
    cbn [Z.eqb Pos.eqb].
    change (screen_len (set_PC (PC c + 2) c)) with (screen_len c).
    now rewrite Hl. }
  destruct (runs_Next env c _ b0 b1 Hr _ _ Hex)
    as (c' & beeps & HT & B & _ & Hwf').
  exists c', beeps. split; [exact HT|].
  assert (HS : screen_bytes c' = screen_bytes c1)
    by (apply screen_bytes_keep; [apply (bt_Memory _ _ B)
                                 | apply (bt_Screen _ _ B)]).
  assert (Hblank : screen_bytes c' = replicate (Z.to_nat (screen_len c)) 0).
  { rewrite HS. apply list_eq. intros j. rewrite S.
    pose proof (screen_len_bytes _ Hwf0) as HL.
    change (screen_len (set_PC (PC c + 2) c)) with (screen_len c) in HL.
    destruct (decide (0 <= Z.of_nat j
                      < 0 + Z.of_nat (Z.to_nat (screen_len c)))).
    - symmetry. apply lookup_replicate_2. lia.
    - rewrite (proj2 (lookup_ge_None _ j)) by lia.
      symmetry. apply lookup_replicate_None. lia. }
  split; [exact Hblank|]. split; [|split].
  - intros px py Hpx Hpy.
    apply (pixel_blank c' (Z.to_nat (screen_len c)) px py Hblank).
    rewrite (bt_Width _ _ B), (df_Width _ _ F).
    pose proof (row_index_bound c px py Hwf Hpx Hpy).
    cbn [Width set_PC]. lia.
  - unfold mem_outside in *. cbn [Screen Memory set_PC] in M.
    rewrite (bt_Memory _ _ B). exact M.
  - rewrite (bt_Memory _ _ B), (bt_Screen _ _ B). cycle_frame E B.
Qed.

(** The theorem at work: the default machine draws the digit 0 and then
    clears the screen. *)
Lemma CLS_clears_the_screen_witness :
  let c := snd (fst (Tick (at_time 1000)
                       (machine DefaultSettings [0xD0; 0x15; 0x00; 0xE0]))) in
  runs c Sys 0x00 0xE0 ∧ screen_bytes c ≠ replicate 256 0
  ∧ ∃ c' evs, Tick (at_time 2000) c = (Done, c', [EvOnUpdate; EvCls] ++ evs)
              ∧ screen_bytes c' = replicate 256 0.
Proof.
  intros c.
  assert (Hwfm : wf (machine DefaultSettings [0xD0; 0x15; 0x00; 0xE0]))
    by (apply wf_machine_default; [reflexivity | cbn; lia]).
  assert (HT0 : Tick (at_time 1000)
                  (machine DefaultSettings [0xD0; 0x15; 0x00; 0xE0])
                = (Done, c, [EvOnUpdate; EvUpdateScreen]))
    by (vm_compute; reflexivity).
  assert (Hwf : wf c)
    by (apply (wf_Tick _ _ _ _ _ Hwfm HT0); left; reflexivity).
  assert (Hr : runs c Sys 0x00 0xE0)
    by (split; [exact Hwf | repeat split; vm_compute; reflexivity]).
  split; [exact Hr|]. split; [vm_compute; discriminate|].
  destruct (CLS_clears_the_screen (at_time 2000) c _ _ Hr eq_refl)
    as (c' & evs & HT & HS & _).
  assert (Hsl : Z.to_nat (screen_len c) = 256%nat) by (vm_compute; reflexivity).
  rewrite Hsl in HS.
  exists c', evs. split; [exact HT | exact HS].
Defined.

(** ** Call and return *)

Section CallReturn.

Lemma word_of_bytes (v : Z) :
  is_u16 v → Z.lor (Z.land v 255) (Z.shiftl (Z.shiftr v 8) 8) = v.
Proof.
  intros Hv. apply Z.bits_inj'. intros n Hn.
  rewrite Z.lor_spec, Z.land_spec.
  destruct (Z.ltb_spec n 8).
  - rewrite Z.shiftl_spec_low by lia. change 255 with (Z.ones 8).
    rewrite Z.ones_spec_low by lia. now rewrite andb_true_r, orb_false_r.
  - rewrite Z.shiftl_spec, Z.shiftr_spec by lia. change 255 with (Z.ones 8).
    rewrite Z.ones_spec_high by lia. rewrite andb_false_r. cbn [orb].
    f_equal. lia.
Qed.

(** A store to the stack: the entry reads back, and in realistic mode the
    memory changes at the two bytes of the entry only. *)
Lemma stack_store_spec (c c' : Chip8) (i v : Z) :
  wf c → is_u16 v → stack_store i v c = Some c' →
  stack_at c' i = Some v
  ∧ c' = set_Memory (Memory c') (set_Stack (Stack c') c)
  ∧ match Stack c with
    | Own _ => Memory c' = Memory c
    | Window off _ =>
        ∀ a, a < Z.of_nat off + 2 * i ∨ Z.of_nat off + 2 * i + 2 <= a →
             mem_at c' a = mem_at c a
    end.
Proof.
  intros Hwf Hv. unfold stack_store, stack_at, stack_len.
  destruct (Z.leb_spec 0 i) as [Hi|]; [|discriminate]. cbn [andb].
  destruct (Stack c) as [d | off n] eqn:Hs.
  - destruct (Z.ltb_spec i (Z.of_nat (length d))); [|discriminate].
    intros [= <-]. cbn [Stack set_Stack Memory].
    rewrite length_insert.
    destruct (Z.ltb_spec i (Z.of_nat (length d))); [|lia].
    split; [apply list_lookup_insert_eq; lia|].
    split; [now destruct c | reflexivity].
  - destruct (Z.ltb_spec i (Z.of_nat n)); [|discriminate].
    destruct (Nat.ltb_spec (off + 2 * Z.to_nat i + 1) (length (Memory c)));
      [|discriminate].
    intros [= <-]. cbn [Stack set_Memory Memory]. rewrite Hs.
    destruct (Z.ltb_spec i (Z.of_nat n)); [|lia].
    split; [|split].
    + rewrite list_lookup_insert_ne by lia.
      rewrite list_lookup_insert_eq by lia.
      rewrite list_lookup_insert_eq by (rewrite length_insert; lia).
      now rewrite word_of_bytes.
    + destruct c. cbn in Hs. now subst.
    + intros a Ha. unfold mem_at. cbn [Memory set_Memory].
      destruct (Z.ltb_spec a 0); [reflexivity|].
      rewrite !list_lookup_insert_ne by lia. reflexivity.
Qed.

End CallReturn.

Section CallCycle.

Lemma stack_at_same (c c' : Chip8) (i : Z) :
  Stack c' = Stack c → Memory c' = Memory c → stack_at c' i = stack_at c i.
Proof. intros HS HM. unfold stack_at, stack_len. now rewrite HS, HM. Qed.

Lemma fetch_bytes (c : Chip8) (b0 b1 : Z) :
  fetch c = Some (b0, b1) →
  mem_at c (PC c) = Some b0 ∧ mem_at c (PC c + 1) = Some b1.
Proof.
  unfold fetch. destruct (_ && _); [|discriminate].
  destruct (mem_at c (PC c)); [|discriminate].
  destruct (mem_at c (PC c + 1)); [|discriminate].
  now intros [= <- <-].
Qed.

End CallCycle.

(** CALL NNN (2NNN) on a stack that is not full, the two bytes of the
    instruction lying outside the stack entry that is written: the cycle
    returns [nil], the program counter is NNN, the stack pointer is one
    higher and the entry it points at holds the address of the instruction
    after the call.  If the instruction at NNN is RET (00EE), the next cycle
    returns [nil] with the program counter at the instruction after the
    call and the stack pointer as it was before the call. *)
Theorem CALL_then_RET_returns (env1 env2 : Env) (c : Chip8) (b0 b1 : Z) :
  runs c Call b0 b1 → SP c < stack_len c - 1 → call_apart c →
  ∃ c1 evs1, Tick env1 c = (Done, c1, evs1)
    ∧ PC c1 = opNNN b0 b1 ∧ SP c1 = SP c + 1
    ∧ stack_at c1 (SP c1) = Some (PC c + 2)
    ∧ same_but_timers
        (set_PC (opNNN b0 b1)
           (set_SP (SP c + 1)
              (set_Memory (Memory c1) (set_Stack (Stack c1) c)))) c1
    ∧ (fetch c1 = Some (0x00, 0xEE) →
       ∃ c2 evs2, Tick env2 c1 = (Done, c2, evs2)
         ∧ PC c2 = PC c + 2 ∧ SP c2 = SP c
         ∧ same_but_timers (set_PC (PC c + 2) (set_SP (SP c) c1)) c2).
Proof.
  intros Hr HSP Hap.
  destruct (runs_facts c _ b0 b1 Hr) as (Hwf & H0 & H1 & HP & HL & Hu & Hwf0).
  pose proof Hr as (_ & Hwii & Hf & Hk).
  destruct (fetch_bytes c b0 b1 Hf) as [Hb0 Hb1].
  pose proof (wf_SP c Hwf) as HSPr.
  set (c0 := set_PC (PC c + 2) c) in *.
  set (c1 := set_SP (SP c + 1) c0).
  assert (Hwf1 : wf c1).
  { apply wf_set_SP; [exact Hwf0|].
    change (stack_len c0) with (stack_len c). lia. }
  destruct (stack_store_Some c1 (SP c + 1) (PC c + 2) Hwf1) as [c2 H2].
  { change (stack_len c1) with (stack_len c). lia. }
  assert (HPCu : is_u16 (PC c + 2))
    by (pose proof (wf_MemorySize c Hwf); unfold is_u16; lia).
  destruct (stack_store_spec c1 c2 _ _ Hwf1 HPCu H2) as (Hat & E2 & Hmem).
  assert (Hsame : mem_at c2 (PC c) = Some b0 ∧ mem_at c2 (PC c + 1) = Some b1).
  { unfold call_apart in Hap. change (Stack c1) with (Stack c) in Hmem.
    destruct (Stack c) as [d | off n].
    - unfold mem_at in *. rewrite Hmem. cbn [Memory c1 c0 set_SP set_PC].
      auto.
    - rewrite !Hmem by lia. auto. }
  destruct Hsame as [Hc0 Hc1].
  assert (Hex : exec env1 (PC c) b0 b1 c0
                = Next (set_PC (opNNN b0 b1) c2) []).
  { rewrite (runs_arm env1 c _ b0 b1 Hr). unfold exec_Call.
    change (SP c0) with (SP c). change (stack_len c0) with (stack_len c).
    destruct (Z.geb_spec (SP c) (stack_len c - 1)); [lia|].
    cbv zeta. fold c1. change (SP c1) with (SP c + 1).
    change (PC c1) with (PC c + 2). now rewrite H2, Hc0, Hc1. }
  destruct (runs_Next env1 c _ b0 b1 Hr _ _ Hex)
    as (c' & beeps & HT & B & _ & Hwf').
  exists c'. eexists. split; [exact HT|].
  assert (HSP' : SP c' = SP c + 1).
  { rewrite (bt_SP _ _ B). cbn [SP set_PC]. rewrite E2. reflexivity. }
  assert (Hat' : stack_at c' (SP c') = Some (PC c + 2)).
  { rewrite HSP', <- Hat. apply stack_at_same;
      [apply (bt_Stack _ _ B) | apply (bt_Memory _ _ B)]. }
  assert (E : set_PC (opNNN b0 b1) c2
              = set_PC (opNNN b0 b1)
                  (set_SP (SP c + 1)
                     (set_Memory (Memory c2) (set_Stack (Stack c2) c)))).
  { rewrite E2 at 1. unfold c1, c0. now destruct c. }
  split; [apply (bt_PC _ _ B)|]. split; [exact HSP'|].
  split; [exact Hat'|]. split.
  - rewrite (bt_Memory _ _ B), (bt_Stack _ _ B).
    change (Memory (set_PC (opNNN b0 b1) c2)) with (Memory c2).
    change (Stack (set_PC (opNNN b0 b1) c2)) with (Stack c2).
    rewrite <- E. exact B.
  - intros Hf'.
    assert (Hr' : runs c' Sys 0x00 0xEE).
    { split; [exact Hwf'|]. split; [|split; [exact Hf' | reflexivity]].
      rewrite (bt_wii _ _ B). cbn [wii set_PC]. rewrite E2. exact Hwii. }
    assert (Hex' : exec env2 (PC c') 0x00 0xEE (set_PC (PC c' + 2) c')
                   = Next (set_SP (SP c' - 1)
                             (set_PC (PC c + 2) (set_PC (PC c' + 2) c'))) []).
    { rewrite (runs_arm env2 c' _ _ _ Hr'). unfold exec_Sys.
      change (opNNN 0 238 =? 224) with false.
      change (opNNN 0 238 =? 238) with true. cbv iota.
      change (SP (set_PC (PC c' + 2) c')) with (SP c').
      destruct (Z.ltb_spec (SP c') 0); [lia|].
      change (stack_at (set_PC (PC c' + 2) c') (SP c'))
        with (stack_at c' (SP c')).
      now rewrite Hat'. }
    destruct (runs_Next env2 c' _ _ _ Hr' _ _ Hex')
      as (c'' & beeps' & HT' & B' & _).
    exists c''. eexists. split; [exact HT'|].
    split; [apply (bt_PC _ _ B')|].
    split; [rewrite (bt_SP _ _ B'); cbn [SP set_SP]; lia|].
    destruct B' as [bm bv bi bst bsp bpc bk bscr bw bh bti bwi b1' b2' b3' b4'].
    constructor;
      cbn [Memory V I Stack SP PC Keyboard Screen Width Height TimerInterval
           wii pLdMemory pLdSetMemory pShr pShl set_SP set_PC] in *;
      try congruence.
    rewrite bsp. lia.
Qed.

(** The theorem at work: [CALL 204] at 0x200 and [RET] at 0x204 on the
    default machine, whose stack lies in the memory. *)
Lemma CALL_then_RET_returns_witness :
  let c := machine DefaultSettings [0x22; 0x04; 0x00; 0x00; 0x00; 0xEE] in
  runs c Call 0x22 0x04 ∧ SP c < stack_len c - 1 ∧ call_apart c
  ∧ ∃ c1 evs1, Tick (at_time 1000) c = (Done, c1, evs1)
      ∧ PC c1 = 0x204 ∧ SP c1 = 0 ∧ mem_at c1 0xEA0 = Some 0x02
      ∧ ∃ c2 evs2, Tick (at_time 2000) c1 = (Done, c2, evs2)
          ∧ PC c2 = 0x202 ∧ SP c2 = -1.
Proof.
  intros c.
  assert (Hr : runs c Call 0x22 0x04).
  { split; [|repeat split; vm_compute; reflexivity].
    apply wf_machine_default; [reflexivity | cbn; lia]. }
  assert (HSP : SP c < stack_len c - 1) by (vm_compute; reflexivity).
  assert (Hap : call_apart c) by (vm_compute; left; discriminate).
  split; [exact Hr|]. split; [exact HSP|]. split; [exact Hap|].
  destruct (CALL_then_RET_returns (at_time 1000) (at_time 2000) c _ _
              Hr HSP Hap) as (c1 & evs1 & HT & HPC & HS & _ & _ & Hret).
  exists c1, evs1. split; [exact HT|]. split; [exact HPC|].
  split; [exact HS|].
  assert (Hc1 : c1 = snd (fst (Tick (at_time 1000) c))) by now rewrite HT.
  split; [rewrite Hc1; vm_compute; reflexivity|].
  destruct Hret as (c2 & evs2 & HT' & HPC' & HS').
  { rewrite Hc1. vm_compute. reflexivity. }
  exists c2, evs2. split; [exact HT'|]. split; [exact HPC' | apply HS'].
Defined.

(** ** What a draw does to each byte and each pixel *)

Section RowMask.

Lemma xor_byte_lookup (i m : Z) (j : nat) (l : list Z) :
  (j < length l)%nat →
  xor_byte i m l !!! j
  = if decide (j = Z.to_nat i) then Z.lxor (l !!! j) m else l !!! j.
Proof.
  intros Hj. destruct (decide (j = Z.to_nat i)) as [->|Hne].
  - now apply xor_byte_lookup_eq.
  - apply xor_byte_lookup_ne. congruence.
Qed.

(** Each byte of the screen after a row is the byte before, xored with the
    mask of the row. *)
Lemma paint_row_lookup (W sp x y : Z) (j : nat) (l : list Z) :
  (j < length l)%nat →
  paint_row W sp x y l !!! j = Z.lxor (l !!! j) (row_mask W sp x y j).
Proof.
  intros Hj. unfold paint_row, row_mask. cbv zeta.
  destruct (Z.eqb_spec (x mod 8) 0) as [H0|H0].
  - rewrite xor_byte_lookup by exact Hj.
    rewrite (decide_False (P := _ ∧ _)) by tauto.
    destruct (decide _); now rewrite ?Z.lxor_0_r.
  - rewrite xor_byte_lookup by (now rewrite length_xor_byte).
    rewrite xor_byte_lookup by exact Hj.
    destruct (decide (j = Z.to_nat (row_next W x y))) as [E|E].
    + rewrite (decide_True (P := _ ∧ _)) by tauto.
      destruct (decide _); now rewrite ?Z.lxor_0_r, ?Z.lxor_assoc.
    + rewrite (decide_False (P := _ ∧ _)) by tauto.
      destruct (decide _); now rewrite ?Z.lxor_0_r.
Qed.

Lemma row_mask_out (W sp x y : Z) (j : nat) :
  j ≠ Z.to_nat (row_index W x y) → j ≠ Z.to_nat (row_next W x y) →
  row_mask W sp x y j = 0.
Proof.
  intros H1 H2. unfold row_mask.
  rewrite decide_False by exact H1.
  now rewrite (decide_False (P := _ ∧ _)) by tauto.
Qed.

End RowMask.

Section PaintLines.

Variables W H x : Z.
Hypothesis HW : 1 <= W / 8 ∧ W = 8 * (W / 8).
Hypothesis HH : 16 <= H.
Hypothesis Hx : 0 <= x < W.

(** The bytes of the line that the row [r] of a sprite falls on are changed
    by that row alone. *)
Lemma paint_line (sprite : list Z) :
  ∀ (y : Z) (l : list Z) (r : nat) (sp : Z) (j : nat),
    0 <= y < H → Z.of_nat (length sprite) < H →
    sprite !! r = Some sp →
    in_band W ((y + Z.of_nat r) mod H) j → (j < length l)%nat →
    paint W H sprite x y l !!! j
    = Z.lxor (l !!! j) (row_mask W sp x ((y + Z.of_nat r) mod H) j).
Proof.
  induction sprite as [|sp0 rest IH]; intros y l r sp j Hy Hlen Hr Hb Hj;
    [discriminate|].
  cbn [paint]. cbn [length] in Hlen.
  pose proof (Z.mod_pos_bound (y + 1) H ltac:(lia)) as Hy'.
  destruct r as [|r].
  - injection Hr as <-.
    assert (E0 : (y + Z.of_nat 0) mod H = y)
      by (change (Z.of_nat 0) with 0; rewrite Z.add_0_r; apply Z.mod_small; lia).
    rewrite E0 in Hb |- *.
    rewrite (paint_keeps_line W H x HW HH Hx rest _ y);
      [now apply paint_row_lookup | lia | lia | lia | | exact Hb].
    intros r' Hr'. rewrite (line_shift_step H HH).
    apply (line_shift_ne H HH); lia.
  - cbn [lookup list_lookup] in Hr.
    replace ((y + Z.of_nat (S r)) mod H)
      with (((y + 1) mod H + Z.of_nat r) mod H) in *
      by (rewrite (line_shift_step H HH); f_equal; lia).
    rewrite (IH _ _ r sp j); try assumption; try lia.
    + f_equal. apply (paint_row_other W H x HW HH Hx); [lia|].
      intros Hin. apply lookup_lt_Some in Hr.
      refine (bands_disjoint W x HW Hx _ _ j _ Hb Hin).
      rewrite (line_shift_step H HH). apply (line_shift_ne H HH); lia.
    + now rewrite length_paint_row.
Qed.

(** The lines on which no row of the sprite falls are as before. *)
Lemma paint_off_lines (sprite : list Z) (y py : Z) (l : list Z) (j : nat) :
  0 <= y < H →
  (∀ r, (r < length sprite)%nat → (y + Z.of_nat r) mod H ≠ py) →
  in_band W py j →
  paint W H sprite x y l !!! j = l !!! j.
Proof.
  intros Hy Hne Hb. apply (paint_other W H x HW HH Hx); [exact Hy|].
  intros r Hr. apply (bands_disjoint W x HW Hx py); [|exact Hb].
  intros E. exact (Hne r Hr (eq_sym E)).
Qed.

(** Either a row of the sprite falls on the line [py], or none does. *)
Lemma line_of_row (n : nat) (y py : Z) :
  (∃ r, (r < n)%nat ∧ (y + Z.of_nat r) mod H = py)
  ∨ (∀ r, (r < n)%nat → (y + Z.of_nat r) mod H ≠ py).
Proof.
  induction n as [|n [(r & Hr & E) | Hno]].
  - right. intros r Hr. lia.
  - left. exists r. split; [lia | exact E].
  - destruct (Z.eq_dec ((y + Z.of_nat n) mod H) py) as [E|E].
    + left. exists n. split; [lia | exact E].
    + right. intros r Hr. destruct (decide (r = n)) as [->|]; [exact E|].
      apply Hno. lia.
Qed.

End PaintLines.

Section MaskBits.

Lemma byte_bit_out (sp n : Z) :
  is_u8 sp → n < 0 ∨ 8 <= n → Z.testbit sp n = false.
Proof.
  intros Hsp Hn. destruct (Z.testbit sp n) eqn:E; [|reflexivity].
  apply byte_bit in E; [lia | exact Hsp].
Qed.

Ltac kill_bits Hsp :=
  repeat match goal with
    | |- context [Z.testbit ?s ?e] => rewrite (byte_bit_out s e Hsp) by lia
    end.

(** The bit that the mask of a row has at the pixel of column [px]: the
    pixel of the sprite row that is [(px - x) mod W] columns from its left
    edge, if there is one. *)
Lemma row_mask_bit (W sp x y px : Z) :
  1 <= W / 8 ∧ W = 8 * (W / 8) → 0 <= x < W → 0 <= px < W → 0 <= y →
  is_u8 sp →
  Z.testbit (row_mask W sp x y (Z.to_nat (row_index W px y))) (7 - px mod 8)
  = ((px - x) mod W <? 8) && Z.testbit sp (7 - (px - x) mod W).
Proof.
  intros [Hbw HW] Hx Hpx Hy Hsp.
  pose proof (Z.div_mod x 8 ltac:(lia)) as Ex.
  pose proof (Z.div_mod px 8 ltac:(lia)) as Epx.
  pose proof (Z.mod_pos_bound x 8 eq_refl) as Hs.
  pose proof (Z.mod_pos_bound px 8 eq_refl) as Ht.
  assert (Hq : 0 <= x / 8 < W / 8)
    by (split; [apply Z.div_pos; lia | apply Z.div_lt_upper_bound; lia]).
  assert (Hpq : 0 <= px / 8 < W / 8)
    by (split; [apply Z.div_pos; lia | apply Z.div_lt_upper_bound; lia]).
  assert (Hk : ((px - x) mod W = px - x ∧ x <= px)
               ∨ ((px - x) mod W = px - x + W ∧ px < x)).
  { destruct (Z_lt_le_dec px x).
    - right. split; [|assumption]. symmetry.
      apply (Z.mod_unique _ _ (-1)); lia.
    - left. split; [|assumption]. apply Z.mod_small. lia. }
  assert (Hnq : ((x / 8 + 1) mod (W / 8) = x / 8 + 1 ∧ x / 8 + 1 < W / 8)
                ∨ ((x / 8 + 1) mod (W / 8) = 0 ∧ x / 8 + 1 = W / 8)).
  { destruct (Z_lt_le_dec (x / 8 + 1) (W / 8)).
    - left. split; [|assumption]. apply Z.mod_small. lia.
    - right. split; [|lia]. replace (x / 8 + 1) with (W / 8) by lia.
      apply Z.mod_same. lia. }
  unfold row_mask, row_index, row_next.
  set (k := (px - x) mod W) in *. set (nq := (x / 8 + 1) mod (W / 8)) in *.
  set (bw := W / 8) in *. set (q := x / 8) in *. set (s := x mod 8) in *.
  set (pq := px / 8) in *. set (pt := px mod 8) in *.
  assert (Hyb : 0 <= y * bw) by nia. set (yb := y * bw) in *.
  rewrite Z.lxor_spec.
  destruct (Z.ltb_spec k 8) as [Hk8|Hk8]; cbn [andb];
    destruct (decide (Z.to_nat (yb + pq) = Z.to_nat (yb + q))) as [E1|E1];
    destruct (decide (s ≠ 0 ∧ Z.to_nat (yb + pq) = Z.to_nat (yb + nq)))
      as [[E2 E3]|E2];
    rewrite ?Z.bits_0, ?testbit_row_left, ?testbit_row_right by lia;
    fold s;
    try (destruct (Z.ltb_spec (7 - pt) 8); [|lia]); cbn [andb xorb];
    destruct Hk as [[Hk Hk']|[Hk Hk']]; destruct Hnq as [[Hn Hn']|[Hn Hn']];
    try (exfalso; lia);
    try (destruct (Z_lt_le_dec pt s);
         kill_bits Hsp; rewrite ?xorb_false_r, ?xorb_false_l;
         try reflexivity; try (f_equal; lia); exfalso; lia).
Qed.

End MaskBits.

Section DrawClosures.

Lemma closures_screen_store (i v : Z) (c c' : Chip8) :
  screen_store i v c = Some c' → closures c' = closures c.
Proof.
  unfold screen_store. destruct (_ && _); [|discriminate].
  destruct (Screen c); [now intros [= <-]|].
  destruct (_ <? _)%nat; [now intros [= <-] | discriminate].
Qed.

Lemma closures_collision_loop (fuel : nat) :
  ∀ (mask idx nxt m1 m2 o1 o2 bitoff : Z) (c c' : Chip8),
    collision_loop fuel mask idx nxt m1 m2 o1 o2 bitoff c = Some c' →
    closures c' = closures c.
Proof.
  induction fuel as [|fuel IH]; intros mask idx nxt m1 m2 o1 o2 bitoff c c';
    cbn [collision_loop]; cbv zeta;
    repeat (case_match; try discriminate);
    try (now intros [= <-]); apply IH.
Qed.

Lemma closures_draw_row (off x y : Z) (c c' : Chip8) :
  draw_row off x y c = Some c' → closures c' = closures c.
Proof.
  unfold draw_row. cbv zeta. destruct (_ =? 0); [discriminate|].
  destruct (screen_at c _) as [s1|]; [|discriminate]. cbn [mbind option_bind].
  destruct (mem_at c _) as [sp1|]; [|discriminate]. cbn [mbind option_bind].
  destruct (screen_store _ _ c) as [c1|] eqn:E1; [|discriminate].
  cbn [mbind option_bind]. apply closures_screen_store in E1.
  destruct (_ =? 0).
  - cbn [mbind option_bind]. intros Hl.
    apply closures_collision_loop in Hl. congruence.
  - destruct (screen_at c1 _) as [s2|]; [|discriminate].
    cbn [mbind option_bind].
    destruct (mem_at c1 _) as [sp2|]; [|discriminate].
    cbn [mbind option_bind].
    destruct (screen_store _ _ c1) as [c2|] eqn:E2; [|discriminate].
    cbn [mbind option_bind]. apply closures_screen_store in E2. intros Hl.
    apply closures_collision_loop in Hl. congruence.
Qed.

Lemma closures_draw_loop (n : nat) :
  ∀ (off x y : Z) (c c' : Chip8),
    draw_loop n off x y c = Some c' → closures c' = closures c.
Proof.
  induction n as [|n IH]; intros off x y c c'; cbn [draw_loop].
  - now intros [= <-].
  - destruct (draw_row off x y c) as [c1|] eqn:E1; [|discriminate].
    apply closures_draw_row in E1. destruct (_ =? 0); [discriminate|].
    intros Hl. apply IH in Hl. congruence.
Qed.

Lemma closures_exec_Drw (b0 b1 : Z) (c c' : Chip8) (evs : list Event) :
  exec_Drw b0 b1 c = Next c' evs → closures c' = closures c.
Proof.
  unfold exec_Drw. cbv zeta.
  repeat (case_match; try discriminate). intros [= <- _].
  match goal with H : draw_loop _ _ _ _ _ = Some _ |- _ =>
    apply closures_draw_loop in H; exact H end.
Qed.

End DrawClosures.

(** ** When a row, and a sprite, turn a pixel off *)

Section Collisions.

Lemma collides_only (o1 n1 o2 n2 bitoff : Z) (fuel : nat) :
  ∀ j, 0 <= j → j + Z.of_nat fuel = 7 →
       collides fuel (2 ^ j) o1 n1 o2 n2 bitoff = true →
       ∃ k, j <= k <= 7
            ∧ ((Z.testbit o1 k = true ∧ Z.testbit n1 k = false)
               ∨ (bitoff ≠ 0 ∧ Z.testbit o2 k = true ∧ Z.testbit n2 k = false)).
Proof.
  induction fuel as [|fuel IH]; intros j Hj Hfuel; cbn [collides];
    rewrite !land_pow2 by lia;
    assert (Hpos : 0 < 2 ^ j) by (apply Z.pow_pos_nonneg; lia);
    destruct (Z.testbit o1 j) eqn:O1; destruct (Z.testbit n1 j) eqn:N1;
    try (destruct (Z.gtb_spec (2 ^ j) 0); [|lia]);
    try (destruct (Z.gtb_spec (2 ^ j) (2 ^ j)); [lia|]);
    try (destruct (Z.gtb_spec 0 (2 ^ j)); [lia|]);
    try (destruct (Z.gtb_spec 0 0); [lia|]);
    try (intros _; exists j; split; [lia | left; split; assumption]);
    (destruct (Z.eqb_spec bitoff 0) as [Hb|Hb]; cbn [negb andb];
     [|destruct (Z.testbit o2 j) eqn:O2; destruct (Z.testbit n2 j) eqn:N2;
       try (destruct (Z.gtb_spec (2 ^ j) 0); [|lia]);
       try (destruct (Z.gtb_spec (2 ^ j) (2 ^ j)); [lia|]);
       try (destruct (Z.gtb_spec 0 (2 ^ j)); [lia|]);
       try (destruct (Z.gtb_spec 0 0); [lia|]);
       try (intros _; exists j; split; [lia | right; repeat split; assumption])]);
    destruct (Z.eqb_spec (2 ^ j) 128) as [He|He]; try discriminate;
    try (replace (u8 (Z.shiftl (2 ^ j) 1)) with (2 ^ (j + 1));
         [intros Hc; destruct (IH (j + 1) ltac:(lia) ltac:(lia) Hc)
            as (k & Hk & Hbit); exists k; split; [lia | exact Hbit]
         |rewrite Z.shiftl_mul_pow2 by lia; rewrite <- Z.pow_add_r by lia;
          unfold u8; symmetry; apply Z.mod_small; split; [lia|];
          change 256 with (2 ^ 8); apply Z.pow_lt_mono_r; lia]).
Qed.

Lemma testbit_land_mask1 (a x k : Z) :
  0 <= k →
  Z.testbit (Z.land a (Z.shiftr 255 (x mod 8))) k
  = Z.testbit a k && (k + x mod 8 <? 8).
Proof. intros Hk. now rewrite Z.land_spec, testbit_mask1. Qed.

Lemma testbit_land_mask2 (a x k : Z) :
  0 <= k →
  Z.testbit (Z.land a (not8 (Z.shiftr 255 (x mod 8)))) k
  = Z.testbit a k && ((k <? 8) && negb (k + x mod 8 <? 8)).
Proof. intros Hk. now rewrite Z.land_spec, testbit_mask2. Qed.

(** A row sets the flag exactly when it clears a bit that was set in one
    of its two bytes. *)
Lemma row_collides_iff (W sp x y : Z) (scr : list Z) :
  is_u8 sp →
  (Z.to_nat (row_index W x y) < length scr)%nat →
  (Z.to_nat (row_next W x y) < length scr)%nat →
  row_collides W sp x y scr = true
  ↔ ∃ (idx : nat) (b : Z),
      (idx = Z.to_nat (row_index W x y) ∨ idx = Z.to_nat (row_next W x y))
      ∧ 0 <= b < 8
      ∧ Z.testbit (scr !!! idx) b = true
      ∧ Z.testbit (row_mask W sp x y idx) b = true.
Proof.
  intros Hsp Hi Hj. pose proof (Z.mod_pos_bound x 8 eq_refl) as Hs.
  unfold row_collides. cbv zeta.
  rewrite !paint_row_lookup by assumption.
  rewrite (xor_byte_lookup _ _ (Z.to_nat (row_next W x y))) by exact Hj.
  set (i := Z.to_nat (row_index W x y)) in *.
  set (j := Z.to_nat (row_next W x y)) in *.
  split.
  - intros Hc. change 1 with (2 ^ 0) in Hc.
    apply collides_only in Hc as (k & Hk & Hbit); [|lia|reflexivity].
    rewrite !testbit_land_mask1, !testbit_land_mask2, !Z.lxor_spec in Hbit
      by lia.
    destruct Hbit as [[Ho Hn] | (Hb & Ho & Hn)].
    + exists i, k. split; [now left|]. split; [lia|].
      apply andb_true_iff in Ho as [Ho Hm]. rewrite Ho, Hm in Hn.
      split; [exact Ho|]. now destruct (Z.testbit (row_mask W sp x y i) k).
    + exists j, k. split; [now right|]. split; [lia|].
      apply andb_true_iff in Ho as [Ho Hm]. rewrite Hm in Hn.
      assert (Hsj : Z.testbit (scr !!! j) k = true).
      { destruct (decide (j = i)); [|exact Ho].
        rewrite Z.lxor_spec, testbit_row_left in Ho by lia.
        rewrite (byte_bit_out sp (k + x mod 8) Hsp) in Ho; [|right].
        - now rewrite xorb_false_r in Ho.
        - destruct (Z.ltb_spec k 8); [|lia].
          destruct (Z.ltb_spec (k + x mod 8) 8); [discriminate | lia]. }
      rewrite Hsj in Hn. split; [exact Hsj|].
      now destruct (Z.testbit (row_mask W sp x y j) k).
  - intros (idx & b & Hidx & Hb & Hs1 & Hm).
    change 1 with (2 ^ 0).
    apply (collides_finds _ _ _ _ _ b); [lia | reflexivity | lia |].
    rewrite !testbit_land_mask1, !testbit_land_mask2, !Z.lxor_spec by lia.
    pose proof Hm as Hm'. unfold row_mask in Hm'. fold i j in Hm'.
    rewrite Z.lxor_spec in Hm'.
    destruct (decide (idx = i)) as [Ei|Ei];
      destruct (decide (x mod 8 ≠ 0 ∧ idx = j)) as [[Hne Ej]|Ej];
      rewrite ?Z.bits_0, ?testbit_row_left, ?testbit_row_right in Hm' by lia;
      try discriminate.
    + (* both bytes are the same one *)
      destruct (Z.ltb_spec b 8); [|lia]. cbn [andb] in Hm'.
      destruct (Z.testbit sp (b + x mod 8)) eqn:L.
      * apply byte_bit in L; [|exact Hsp]. left. subst idx.
        rewrite Hs1, Hm. destruct (Z.ltb_spec (b + x mod 8) 8); [|lia].
        now split.
      * rewrite xorb_false_l in Hm'. apply byte_bit in Hm'; [|exact Hsp].
        right. split; [exact Hne|]. subst idx.
        rewrite <- Ej in *. rewrite decide_True by reflexivity.
        rewrite Z.lxor_spec, testbit_row_left, L, xorb_false_r, Hs1, Hm by lia.
        destruct (Z.ltb_spec (b + x mod 8) 8); [lia|]. now split.
    + rewrite xorb_false_r in Hm'. apply byte_bit in Hm'; [|exact Hsp].
      left. subst idx. rewrite Hs1, Hm.
      destruct (Z.ltb_spec (b + x mod 8) 8); [|lia]. now split.
    + destruct (Z.ltb_spec b 8); [|lia]. cbn [andb xorb] in Hm'.
      apply byte_bit in Hm'; [|exact Hsp].
      right. split; [exact Hne|]. subst idx.
      rewrite decide_False by (intros E; apply Ei; exact E).
      rewrite Hs1, Hm. destruct (Z.ltb_spec (b + x mod 8) 8); [lia|].
      now split.
Qed.

End Collisions.

Section SpriteCollisions.

Variables W H x : Z.
Hypothesis HW : 1 <= W / 8 ∧ W = 8 * (W / 8).
Hypothesis HH : 16 <= H.
Hypothesis Hx : 0 <= x < W.

(** A sprite sets the flag exactly when one of its rows clears a bit that
    was set before the draw, in a byte of the line it falls on. *)
Lemma paint_collides_iff (sprite : list Z) :
  ∀ (y : Z) (scr : list Z),
    0 <= y < H → Z.of_nat (length sprite) < H →
    Z.of_nat (length scr) = W / 8 * H → bytes sprite →
    paint_collides W H sprite x y scr = true
    ↔ ∃ (r : nat) (sp : Z) (idx : nat) (b : Z),
        sprite !! r = Some sp
        ∧ in_band W ((y + Z.of_nat r) mod H) idx
        ∧ 0 <= b < 8
        ∧ Z.testbit (scr !!! idx) b = true
        ∧ Z.testbit (row_mask W sp x ((y + Z.of_nat r) mod H) idx) b = true.
Proof.
  induction sprite as [|sp0 rest IH]; intros y scr Hy Hlen Hscr Hbytes.
  - cbn [paint_collides]. split; [discriminate|].
    intros (r & sp & _ & _ & Hr & _). discriminate.
  - cbn [paint_collides]. cbn [length] in Hlen.
    apply Forall_cons in Hbytes as [Hsp0 Hrest].
    pose proof (Z.mod_pos_bound (y + 1) H ltac:(lia)) as Hy'.
    assert (E0 : (y + Z.of_nat 0) mod H = y)
      by (change (Z.of_nat 0) with 0; rewrite Z.add_0_r;
          apply Z.mod_small; lia).
    assert (ES : ∀ r : nat, ((y + 1) mod H + Z.of_nat r) mod H
                            = (y + Z.of_nat (S r)) mod H)
      by (intros r; rewrite (line_shift_step H HH); f_equal; lia).
    pose proof (row_index_band W H x HW HH Hx y ltac:(lia)) as Bi.
    pose proof (row_next_band W H x HW HH y ltac:(lia)) as Bj.
    pose proof (band_length W H HW HH y _ scr Hy Hscr Bi) as Li.
    pose proof (band_length W H HW HH y _ scr Hy Hscr Bj) as Lj.
    assert (Hother : ∀ (r : nat) (idx : nat),
               (r < length rest)%nat →
               in_band W ((y + Z.of_nat (S r)) mod H) idx →
               paint_row W sp0 x y scr !!! idx = scr !!! idx).
    { intros r idx Hr Hb. apply (paint_row_other W H x HW HH Hx); [lia|].
      intros Hin. refine (bands_disjoint W x HW Hx _ _ idx _ Hb Hin).
      apply (line_shift_ne H HH); lia. }
    rewrite orb_true_iff, (row_collides_iff W sp0 x y scr Hsp0 Li Lj).
    rewrite (IH ((y + 1) mod H) (paint_row W sp0 x y scr));
      [|lia|lia|now rewrite length_paint_row|exact Hrest].
    split.
    + intros [(idx & b & Hidx & Hb & Hs & Hm)
             |(r & sp & idx & b & Hr & Hband & Hb & Hs & Hm)].
      * exists 0%nat, sp0, idx, b. rewrite E0.
        split; [reflexivity|]. split; [destruct Hidx; now subst|]. auto.
      * rewrite ES in Hband, Hm. exists (S r), sp, idx, b.
        split; [exact Hr|]. split; [exact Hband|]. split; [exact Hb|].
        split; [|exact Hm].
        rewrite <- (Hother r idx); [exact Hs | | exact Hband].
        now apply lookup_lt_Some in Hr.
    + intros (r & sp & idx & b & Hr & Hband & Hb & Hs & Hm).
      destruct r as [|r].
      * left. injection Hr as <-. rewrite E0 in Hband, Hm.
        exists idx, b. split; [|auto].
        destruct (decide (idx = Z.to_nat (row_index W x y))); [now left|].
        destruct (decide (idx = Z.to_nat (row_next W x y))); [now right|].
        rewrite row_mask_out, Z.bits_0 in Hm by assumption. discriminate.
      * right. cbn [lookup list_lookup] in Hr.
        exists r, sp, idx, b. rewrite ES.
        split; [exact Hr|]. split; [exact Hband|]. split; [exact Hb|].
        split; [|exact Hm].
        rewrite (Hother r idx); [exact Hs | | exact Hband].
        now apply lookup_lt_Some in Hr.
Qed.

End SpriteCollisions.

(** ** The cycle of DXYN *)

Section DrawDone.

Lemma draw_rows (b : Z) : 0 <= Z.land b 0x0F < 16.
Proof.
  change 15 with (Z.ones 4). rewrite Z.land_ones by lia.
  apply Z.mod_pos_bound. reflexivity.
Qed.

Variable env : Env.
Variable c : Chip8.
Variables b0 b1 : Z.
Hypothesis Hruns : runs c Drw b0 b1.
Hypothesis Hfit : I c + Z.land b1 0x0F <= Z.of_nat (length (Memory c)).
Hypothesis Hap : apart_from_screen c (I c) (Z.land b1 0x0F).

Let N := Z.land b1 0x0F.
Let x := reg c (opX b0) mod Width c.
Let y := reg c (opY b1) mod Height c.

(** The cycle paints the sprite and sets VF; the rest is as after any
    instruction. *)
Lemma draw_done :
  ∃ c' beeps,
    Tick env c = (Done, c', [EvOnUpdate; EvUpdateScreen] ++ beeps)
    ∧ wf c'
    ∧ screen_bytes c'
      = paint (Width c) (Height c) (sprite_at c N) x y (screen_bytes c)
    ∧ V c' = <[15%nat :=
                if paint_collides (Width c) (Height c) (sprite_at c N) x y
                     (screen_bytes c)
                then 1 else 0]> (V c)
    ∧ mem_outside c c'
    ∧ same_but_timers
        (set_V (V c')
           (set_Memory (Memory c')
              (set_Screen (Screen c') (set_PC (PC c + 2) c)))) c'.
Proof.
  destruct (runs_facts c _ b0 b1 Hruns) as (Hwf & H0 & H1 & HP & HL & Hu & Hwf0).
  destruct (exec_Drw_spec (set_PC (PC c + 2) c) b0 b1 Hwf0 Hfit Hap)
    as (c1 & Hex & Hwf1 & F & O & Hscr & HV).
  assert (Hex' : exec env (PC c) b0 b1 (set_PC (PC c + 2) c)
                 = Next c1 [EvUpdateScreen])
    by (rewrite (runs_arm env c _ b0 b1 Hruns); exact Hex).
  destruct (runs_Next env c _ b0 b1 Hruns _ _ Hex')
    as (c' & beeps & HT & B & _ & Hwf').
  exists c', beeps. split; [exact HT|]. split; [exact Hwf'|].
  assert (Hsb : screen_bytes c' = screen_bytes c1)
    by (unfold screen_bytes; now rewrite (bt_Screen _ _ B), (bt_Memory _ _ B)).
  split; [rewrite Hsb; exact Hscr|].
  split; [rewrite (bt_V _ _ B); exact HV|].
  split.
  - unfold mem_outside in *. rewrite (bt_Memory _ _ B). exact O.
  - pose proof (closures_exec_Drw _ _ _ _ _ Hex) as Hcl.
    unfold closures in Hcl. injection Hcl as C1 C2 C3 C4.
    destruct B as [bm bv bi bst bsp bpc bk bscr bw bh bti bwi p1 p2 p3 p4].
    destruct F as [fI fSt fSP fPC fDT fST fK fW fH fTI fL fwii flen fwin fsl].
    constructor;
      cbn [Memory V I Stack SP PC Keyboard Screen Width Height TimerInterval
           wii pLdMemory pLdSetMemory pShr pShl set_V set_Memory set_Screen
           set_PC] in *; congruence.
Qed.

End DrawDone.

Section PixelsAfter.

Variables c c' : Chip8.
Variable sprite : list Z.
Variables x y : Z.
Hypothesis Hwf : wf c.
Hypothesis HWc : Width c' = Width c.
Hypothesis Hscr :
  screen_bytes c' = paint (Width c) (Height c) sprite x y (screen_bytes c).
Hypothesis Hx : 0 <= x < Width c.
Hypothesis Hy : 0 <= y < Height c.
Hypothesis Hlen : Z.of_nat (length sprite) < Height c.
Hypothesis Hbytes : bytes sprite.

Lemma pixel_byte (px py : Z) :
  0 <= px < Width c → 0 <= py < Height c →
  in_band (Width c) py (Z.to_nat (row_index (Width c) px py))
  ∧ (Z.to_nat (row_index (Width c) px py) < length (screen_bytes c))%nat.
Proof.
  intros Hpx Hpy. destruct (screen_dims c Hwf) as (Hbw & HW & HH & Hsl).
  assert (Hb : in_band (Width c) py (Z.to_nat (row_index (Width c) px py)))
    by (apply (row_index_band _ (Height c)); try lia).
  split; [exact Hb|].
  apply (band_length (Width c) (Height c) ltac:(lia) ltac:(lia) py);
    [lia | | exact Hb].
  rewrite screen_len_bytes by exact Hwf. exact Hsl.
Qed.

(** A pixel of the line that the row [r] falls on is flipped when the
    sprite has a set pixel above it. *)
Lemma pixel_on_row (r : nat) (sp px : Z) :
  sprite !! r = Some sp → 0 <= px < Width c →
  pixel c' px ((y + Z.of_nat r) mod Height c)
  = xorb (pixel c px ((y + Z.of_nat r) mod Height c))
      (((px - x) mod Width c <? 8)
       && Z.testbit sp (7 - (px - x) mod Width c)).
Proof.
  intros Hr Hpx. destruct (screen_dims c Hwf) as (Hbw & HW & HH & Hsl).
  pose proof (Z.mod_pos_bound (y + Z.of_nat r) (Height c) ltac:(lia)) as Hpy.
  destruct (pixel_byte px _ Hpx Hpy) as [Hb Hl].
  unfold pixel. rewrite HWc, Hscr.
  rewrite (paint_line (Width c) (Height c) x ltac:(lia) ltac:(lia) Hx
             sprite y _ r sp) by assumption.
  rewrite Z.lxor_spec. f_equal.
  apply row_mask_bit; try lia.
  exact (proj1 (Forall_lookup _ _) Hbytes _ _ Hr).
Qed.

(** The pixels of the other lines are as before. *)
Lemma pixel_off_rows (px py : Z) :
  0 <= px < Width c → 0 <= py < Height c →
  (∀ r, (r < length sprite)%nat → (y + Z.of_nat r) mod Height c ≠ py) →
  pixel c' px py = pixel c px py.
Proof.
  intros Hpx Hpy Hno. destruct (screen_dims c Hwf) as (Hbw & HW & HH & Hsl).
  destruct (pixel_byte px py Hpx Hpy) as [Hb Hl].
  unfold pixel. rewrite HWc, Hscr. f_equal.
  now apply (paint_off_lines (Width c) (Height c) x ltac:(lia) ltac:(lia) Hx
               sprite y py).
Qed.

(** The flag of the sprite on the pixels: it is set exactly when a pixel
    that was on is off after the draw. *)
Lemma paint_collides_pixels :
  paint_collides (Width c) (Height c) sprite x y (screen_bytes c) = true
  ↔ ∃ px py, 0 <= px < Width c ∧ 0 <= py < Height c
             ∧ pixel c px py = true ∧ pixel c' px py = false.
Proof.
  destruct (screen_dims c Hwf) as (Hbw & HW & HH & Hsl).
  assert (Hsl' : Z.of_nat (length (screen_bytes c))
                 = Width c / 8 * Height c)
    by (rewrite screen_len_bytes by exact Hwf; exact Hsl).
  rewrite (paint_collides_iff (Width c) (Height c) x ltac:(lia) ltac:(lia) Hx
             sprite y _ Hy Hlen Hsl' Hbytes).
  split.
  - intros (r & sp & idx & b & Hr & Hband & Hb & Hs & Hm).
    set (py := (y + Z.of_nat r) mod Height c) in *.
    assert (Hpy : 0 <= py < Height c) by (apply Z.mod_pos_bound; lia).
    unfold in_band in Hband.
    set (q := Z.of_nat idx - py * (Width c / 8)).
    exists (8 * q + (7 - b)), py.
    destruct (split_by_8 q (7 - b) ltac:(lia)) as [Eq Em].
    assert (Hri : Z.to_nat (row_index (Width c) (8 * q + (7 - b)) py) = idx)
      by (unfold row_index; rewrite Eq; unfold q; lia).
    assert (Hl : (idx < length (screen_bytes c))%nat) by nia.
    split; [unfold q; lia|]. split; [exact Hpy|].
    unfold pixel. rewrite HWc, Hscr, Hri, Em.
    replace (7 - (7 - b)) with b by lia. split; [exact Hs|].
    rewrite (paint_line (Width c) (Height c) x ltac:(lia) ltac:(lia) Hx
               sprite y _ r sp); try assumption.
    fold py. now rewrite Z.lxor_spec, Hs, Hm.
  - intros (px & py & Hpx & Hpy & Hon & Hoff).
    destruct (line_of_row (Height c) (length sprite) y py)
      as [(r & Hr & E) | Hno].
    + subst py. destruct (lookup_lt_is_Some_2 sprite r Hr) as [sp Hsp].
      destruct (pixel_byte px _ Hpx Hpy) as [Hb Hl].
      exists r, sp,
        (Z.to_nat (row_index (Width c) px ((y + Z.of_nat r) mod Height c))),
        (7 - px mod 8).
      pose proof (Z.mod_pos_bound px 8 eq_refl).
      split; [exact Hsp|]. split; [exact Hb|]. split; [lia|].
      unfold pixel in Hon, Hoff. rewrite HWc, Hscr in Hoff.
      rewrite (paint_line (Width c) (Height c) x ltac:(lia) ltac:(lia) Hx
                 sprite y _ r sp) in Hoff by assumption.
      rewrite Z.lxor_spec, Hon in Hoff.
      split; [exact Hon|].
      now destruct (Z.testbit (row_mask _ _ _ _ _) _).
    + rewrite (pixel_off_rows px py Hpx Hpy Hno) in Hoff. congruence.
Qed.

End PixelsAfter.

Section SpriteRows.

Variable c : Chip8.
Variable n : Z.
Hypothesis Hwf : wf c.
Hypothesis Hfit : I c + n <= Z.of_nat (length (Memory c)).

Lemma sprite_at_row (r : Z) :
  0 <= r < n →
  sprite_at c n !! Z.to_nat r = Some (Memory c !!! Z.to_nat (I c + r)).
Proof.
  intros Hr. pose proof (wf_I c Hwf) as HI. unfold is_u16 in HI.
  unfold sprite_at. rewrite lookup_take_lt, lookup_drop by lia.
  replace (Z.to_nat (I c) + Z.to_nat r)%nat with (Z.to_nat (I c + r)) by lia.
  apply list_lookup_lookup_total_lt. lia.
Qed.

Lemma sprite_at_length : 0 <= n → Z.of_nat (length (sprite_at c n)) = n.
Proof.
  intros Hn. pose proof (wf_I c Hwf) as HI. unfold is_u16 in HI.
  unfold sprite_at. rewrite length_take, length_drop. lia.
Qed.

End SpriteRows.

(** DRW VX,VY,N (DXYN), the sprite of N rows at I lying within the memory
    and outside the bytes of the screen.  The cycle returns [nil] after the
    driver has been told to update the screen.  With x = VX mod Width and
    y = VY mod Height, the pixel [k] of the row [r] of the sprite is xored
    into the pixel at column (x + k) mod Width of the line (y + r) mod
    Height: the sprite wraps around the right and the bottom edge.  A pixel
    on which no pixel of the sprite lands is as before.  The memory outside
    the screen is as before, and nothing else changes but the registers,
    the program counter and the timers. *)
Theorem DRW_xors_the_sprite (env : Env) (c : Chip8) (b0 b1 : Z) :
  runs c Drw b0 b1 →
  I c + Z.land b1 0x0F <= Z.of_nat (length (Memory c)) →
  apart_from_screen c (I c) (Z.land b1 0x0F) →
  let x := reg c (opX b0) mod Width c in
  let y := reg c (opY b1) mod Height c in
  ∃ c' beeps,
    Tick env c = (Done, c', [EvOnUpdate; EvUpdateScreen] ++ beeps)
    ∧ (∀ r k, 0 <= r < Z.land b1 0x0F → 0 <= k < 8 →
         pixel c' (lands_x c x k) (lands_y c y r)
         = xorb (pixel c (lands_x c x k) (lands_y c y r))
             (sprite_pixel c r k))
    ∧ (∀ px py, 0 <= px < Width c → 0 <= py < Height c →
         (∀ r k, 0 <= r < Z.land b1 0x0F → 0 <= k < 8 →
                 ¬ (lands_x c x k = px ∧ lands_y c y r = py)) →
         pixel c' px py = pixel c px py)
    ∧ mem_outside c c'
    ∧ same_but_timers
        (set_V (V c')
           (set_Memory (Memory c')
              (set_Screen (Screen c') (set_PC (PC c + 2) c)))) c'.
Proof.
  intros Hr Hfit Hap x y.
  destruct (draw_done env c b0 b1 Hr Hfit Hap)
    as (c' & beeps & HT & Hwf' & Hscr & HV & O & B).
  fold x y in Hscr, HV.
  pose proof Hr as (Hwf & _).
  destruct (screen_dims c Hwf) as (Hbw & HW & HH & Hsl).
  pose proof (draw_rows b1) as HN.
  assert (Hx : 0 <= x < Width c) by (apply Z.mod_pos_bound; lia).
  assert (Hy : 0 <= y < Height c) by (apply Z.mod_pos_bound; lia).
  assert (HWc : Width c' = Width c) by (rewrite (bt_Width _ _ B); reflexivity).
  pose proof (sprite_at_length c _ Hwf Hfit ltac:(lia)) as Hlen.
  pose proof (bytes_sprite_at c (Z.land b1 15) Hwf) as Hbytes.
  assert (Hlen' : Z.of_nat (length (sprite_at c (Z.land b1 15))) < Height c)
    by lia.
  exists c', beeps. split; [exact HT|].
  split; [|split; [|split; [exact O | exact B]]].
  - intros r k Hrr Hk. unfold lands_x, lands_y, sprite_pixel.
    replace r with (Z.of_nat (Z.to_nat r)) at 1 2 by lia.
    assert (Hlx : 0 <= (x + k) mod Width c < Width c)
      by (apply Z.mod_pos_bound; lia).
    rewrite (pixel_on_row c c' _ x y Hwf HWc Hscr Hx Hy Hlen' Hbytes
               (Z.to_nat r) _ _ (sprite_at_row c _ Hwf Hfit r Hrr) Hlx).
    rewrite Zminus_mod_idemp_l.
    replace (x + k - x) with k by lia. rewrite (Z.mod_small k) by lia.
    destruct (Z.ltb_spec k 8); [reflexivity | lia].
  - intros px py Hpx Hpy Hno.
    destruct (line_of_row (Height c) (length (sprite_at c (Z.land b1 15)))
                y py) as [(r & Hrl & E) | Hnone].
    + destruct (lookup_lt_is_Some_2 _ r Hrl) as [sp Hsp]. subst py.
      rewrite (pixel_on_row c c' _ x y Hwf HWc Hscr Hx Hy Hlen' Hbytes
                 r sp px Hsp Hpx).
      destruct (Z.ltb_spec ((px - x) mod Width c) 8) as [Hk|Hk];
        [|now rewrite xorb_false_r].
      exfalso. pose proof (Z.mod_pos_bound (px - x) (Width c) ltac:(lia)).
      apply (Hno (Z.of_nat r) ((px - x) mod Width c)); [lia | lia |].
      unfold lands_x, lands_y. split; [|reflexivity].
      rewrite Zplus_mod_idemp_r. replace (x + (px - x)) with px by lia.
      apply Z.mod_small. lia.
    + now apply (pixel_off_rows c c' _ x y Hwf HWc Hscr Hx).
Qed.

(** The theorem at work: the first instruction of a machine that draws the
    font sprite of the digit 0 at the top left corner of a blank screen. *)
Lemma DRW_xors_the_sprite_witness :
  let c := draw_twice_machine in
  runs c Drw 0xD0 0x15
  ∧ I c + Z.land 0x15 0x0F <= Z.of_nat (length (Memory c))
  ∧ apart_from_screen c (I c) (Z.land 0x15 0x0F)
  ∧ ∃ c' beeps,
      Tick (at_time 1000) c
      = (Done, c', [EvOnUpdate; EvUpdateScreen] ++ beeps)
      ∧ pixel c' 0 0 = true ∧ pixel c' 1 1 = false ∧ pixel c' 8 0 = false.
Proof.
  intros c.
  assert (Hr : runs c Drw 0xD0 0x15).
  { split; [|repeat split; vm_compute; reflexivity].
    apply wf_machine_default; [reflexivity | cbn; lia]. }
  assert (Hfit : I c + Z.land 0x15 0x0F <= Z.of_nat (length (Memory c)))
    by (vm_compute; discriminate).
  assert (Hap : apart_from_screen c (I c) (Z.land 0x15 0x0F))
    by (vm_compute; left; discriminate).
  split; [exact Hr|]. split; [exact Hfit|]. split; [exact Hap|].
  destruct (DRW_xors_the_sprite (at_time 1000) c _ _ Hr Hfit Hap)
    as (c' & beeps & HT & Hon & Hoff & _).
  exists c', beeps. split; [exact HT|].
  pose proof (Hon 0 0 ltac:(vm_compute; split; [discriminate | reflexivity])
                ltac:(lia)) as H00.
  pose proof (Hon 1 1 ltac:(vm_compute; split; [discriminate | reflexivity])
                ltac:(lia)) as H11.
  assert (E0 : lands_x c (reg c (opX 0xD0) mod Width c) 0 = 0)
    by (vm_compute; reflexivity).
  assert (E1 : lands_x c (reg c (opX 0xD0) mod Width c) 1 = 1)
    by (vm_compute; reflexivity).
  assert (F0 : lands_y c (reg c (opY 0x15) mod Height c) 0 = 0)
    by (vm_compute; reflexivity).
  assert (F1 : lands_y c (reg c (opY 0x15) mod Height c) 1 = 1)
    by (vm_compute; reflexivity).
  rewrite E0, F0 in H00. rewrite E1, F1 in H11.
  split; [rewrite H00; vm_compute; reflexivity|].
  split; [rewrite H11; vm_compute; reflexivity|].
  rewrite (Hoff 8 0); [vm_compute; reflexivity | vm_compute; split; congruence
                      | vm_compute; split; congruence |].
  intros r k Hrr Hk [Hx _].
  assert (Ex : reg c (opX 0xD0) mod Width c = 0) by (vm_compute; reflexivity).
  assert (Ew : Width c = 64) by (vm_compute; reflexivity).
  unfold lands_x in Hx. rewrite Ex, Ew, Z.add_0_l in Hx.
  clear - Hk Hx. rewrite Z.mod_small in Hx by lia. lia.
Defined.

(** DRW VX,VY,N sets VF to 1 exactly when some pixel of the screen that was
    on before the draw is off after it, and to 0 otherwise; the registers
    V0 to VE are as before. *)
Theorem DRW_collision_flag (env : Env) (c : Chip8) (b0 b1 : Z) :
  runs c Drw b0 b1 →
  I c + Z.land b1 0x0F <= Z.of_nat (length (Memory c)) →
  apart_from_screen c (I c) (Z.land b1 0x0F) →
  ∃ c' beeps,
    Tick env c = (Done, c', [EvOnUpdate; EvUpdateScreen] ++ beeps)
    ∧ (reg c' 0xF = 1 ∨ reg c' 0xF = 0)
    ∧ (reg c' 0xF = 1
       ↔ ∃ px py, 0 <= px < Width c ∧ 0 <= py < Height c
                  ∧ pixel c px py = true ∧ pixel c' px py = false)
    ∧ (∀ r, 0 <= r < 0xF → reg c' r = reg c r).
Proof.
  intros Hr Hfit Hap.
  destruct (draw_done env c b0 b1 Hr Hfit Hap)
    as (c' & beeps & HT & Hwf' & Hscr & HV & O & B).
  pose proof Hr as (Hwf & _).
  destruct (screen_dims c Hwf) as (Hbw & HW & HH & Hsl).
  pose proof (draw_rows b1) as HN.
  set (x := reg c (opX b0) mod Width c) in *.
  set (y := reg c (opY b1) mod Height c) in *.
  assert (Hx : 0 <= x < Width c) by (apply Z.mod_pos_bound; lia).
  assert (Hy : 0 <= y < Height c) by (apply Z.mod_pos_bound; lia).
  assert (HWc : Width c' = Width c) by (rewrite (bt_Width _ _ B); reflexivity).
  pose proof (sprite_at_length c _ Hwf Hfit ltac:(lia)) as Hlen.
  pose proof (bytes_sprite_at c (Z.land b1 15) Hwf) as Hbytes.
  assert (Hlen' : Z.of_nat (length (sprite_at c (Z.land b1 15))) < Height c)
    by lia.
  pose proof (paint_collides_pixels c c' _ x y Hwf HWc Hscr Hx Hy Hlen' Hbytes)
    as Hiff.
  assert (H15 : (15 < length (V c))%nat) by (rewrite (wf_V16 c Hwf); lia).
  assert (HF : reg c' 0xF
               = if paint_collides (Width c) (Height c)
                      (sprite_at c (Z.land b1 15)) x y (screen_bytes c)
                 then 1 else 0).
  { unfold reg. rewrite HV. now apply list_lookup_total_insert_eq. }
  exists c', beeps. split; [exact HT|].
  split; [rewrite HF; destruct (paint_collides _ _ _ _ _ _); auto|].
  split.
  - rewrite <- Hiff, HF. destruct (paint_collides _ _ _ _ _ _);
      split; intros; (reflexivity || discriminate).
  - intros r Hrr. unfold reg. rewrite HV.
    apply list_lookup_total_insert_ne. lia.
Qed.

(** The theorem at work: the second draw of the machine that draws the
    font sprite of the digit 0 twice at one place. *)
Lemma DRW_collision_flag_witness :
  let c := snd (fst (Tick (at_time 1000) draw_twice_machine)) in
  runs c Drw 0xD0 0x15
  ∧ I c + Z.land 0x15 0x0F <= Z.of_nat (length (Memory c))
  ∧ apart_from_screen c (I c) (Z.land 0x15 0x0F)
  ∧ pixel c 0 0 = true
  ∧ ∃ c' beeps,
      Tick (at_time 2000) c
      = (Done, c', [EvOnUpdate; EvUpdateScreen] ++ beeps)
      ∧ reg c' 0xF = 1.
Proof.
  intros c.
  assert (Hwfm : wf draw_twice_machine)
    by (apply wf_machine_default; [reflexivity | cbn; lia]).
  assert (HT0 : Tick (at_time 1000) draw_twice_machine
                = (Done, c, [EvOnUpdate; EvUpdateScreen]))
    by (vm_compute; reflexivity).
  assert (Hwf : wf c)
    by (apply (wf_Tick _ _ _ _ _ Hwfm HT0); left; reflexivity).
  assert (Hr : runs c Drw 0xD0 0x15)
    by (split; [exact Hwf | repeat split; vm_compute; reflexivity]).
  assert (Hfit : I c + Z.land 0x15 0x0F <= Z.of_nat (length (Memory c)))
    by (vm_compute; discriminate).
  assert (Hap : apart_from_screen c (I c) (Z.land 0x15 0x0F))
    by (vm_compute; left; discriminate).
  assert (Hon : pixel c 0 0 = true) by (vm_compute; reflexivity).
  split; [exact Hr|]. split; [exact Hfit|]. split; [exact Hap|].
  split; [exact Hon|].
  destruct (DRW_collision_flag (at_time 2000) c _ _ Hr Hfit Hap)
    as (c' & beeps & HT & [H1|H0] & Hiff & _).
  - exists c', beeps. split; [exact HT | exact H1].
  - exfalso.
    assert (HT2 : snd (fst (Tick (at_time 2000) c)) = c')
      by (rewrite HT; reflexivity).
    assert (HF : reg (snd (fst (Tick (at_time 2000) c))) 0xF = 1)
      by (vm_compute; reflexivity).
    rewrite HT2, H0 in HF. discriminate HF.
Defined.
